(* ===== verification/_CoqProject ===== *)
-Q . S2P
Prelude.v
GoLib.v
GoFloat.v
GoText.v
Util.v
Json.v
FsmTypes.v
Fsm.v
FsmCommands.v
FsmInv.v
FsmEquiv.v
FsmSnapshot.v
FsmTheorems.v
Slices.v
Placement.v
World.v
Scheduler.v
Watcher.v
Reconcile.v
MetaServer.v
MetaTheorems.v
Lifecycle.v
Sha256.v
DiskStore.v
DiskStoreSpec.v
DiskStoreTheorems.v
StoreInterface.v
ChecksumIndex.v
Chunk.v
StorageServer.v
StorageTheorems.v
Writers.v
Retry.v
Connections.v
Replication.v
StorageConfig.v
MetaConfig.v
ClientConfig.v
MetaApp.v
Manifest.v
Client.v
ClientTheorems.v
Mocks.v
UploadTheorems.v
MetaClient.v
System.v
StorageNode.v
SystemTheorems.v
Network.v
NetworkRuns.v
NetworkTheorems.v
RepairTheorems.v
Healing.v
NodeTheorems.v
Boot.v
Clusters.v
Cli.v
