(* ===== verification/Prelude.v ===== *)
(** * A verification of distributed-fs

    distributed-fs is a file system in Go whose files are cut into chunks.  A cluster of
    metadata nodes keeps, in a state machine replicated by Raft, which files exist, which
    chunks they have and which storage nodes hold them; storage nodes keep the chunks on
    disk and copy them to each other; clients talk to both.

    ** Parts and files

    Shared
    - Prelude.v (this file): machine integers, time, errors, results, automation.
    - GoLib.v: what the code relies on of Go's map iteration ([MapRange]: any order) and
      [sort.Slice] ([GoSort]: any sort that meets its documentation), as classes.
    - GoFloat.v: [float64] of a count, its quotients and products with their rounding,
      truncation and ceiling, and the verbs [%.1f] and [%.2f].
    - GoText.v: what the configurations use of strconv, strings and [time.ParseDuration].
    - Util.v: src/internal/logging, raftutil and utils.
    - Json.v: the JSON values of [encoding/json], with its case-insensitive field lookup.

    The metadata state machine (src/metadata/fsm)
    - FsmTypes.v: the records of types.go and the commands of commands.go, with the
      encoders and decoders their struct tags define.
    - Fsm.v: [MetadataFSM], one definition per handler and query of fsm.go, [Apply],
      [Snapshot], [Persist], [Restore].
    - FsmCommands.v: commands as an inductive type, [exec] as the type switch on it, and
      the agreement of [Apply] with decoding followed by [exec].
    - FsmInv.v, FsmEquiv.v, FsmSnapshot.v: the well-formedness invariant, equality up to
      [LastSeen] with its independence of map order, and snapshots with the states
      reachable by log entries, heartbeats and restarts.
    - FsmTheorems.v: the properties of the state machine.
    - Slices.v: the replica lists as Go slices over shared arrays (append in place, the
      shallow copy of deep_copy.go), and their agreement with the list model.

    The metadata service
    - Placement.v: src/metadata/placement/strategy.go; the interface is a class, what
      clients rely on is a second class of laws, both strategies are instances.
    - World.v: the state a metadata process keeps beside the state machine (scheduler,
      reconcile timers, heartbeat counters) and the monad the handlers run in.  Raft, the
      clock and UUIDs are the class [Env]; [Propose] is modelled over any outcome of a
      Raft Apply.  [Committing] says that every proposal commits and holds of
      [demo_Env].
    - Scheduler.v, Watcher.v, Reconcile.v: repair_scheduler.go, node_watcher.go and
      reconciler.go.  Goroutines, tickers and timers are steps that may run at any time.
    - MetaServer.v: the RPC handlers of src/metadata/server behind the leader check, the
      step relation of the whole process, and its invariant.
    - MetaTheorems.v: end-to-end properties of the handlers.
    - Lifecycle.v: start and stop of the watcher and the scheduler, as interleaved steps of
      their goroutines, with the counters of the scheduler's wait groups.
    - MetaConfig.v, MetaApp.v: config.go, and app.go with raft.go, server.go and
      boltstore.go: how a metadata process is configured, put together, started, made
      known to the others and shut down.

    The storage node
    - Sha256.v: SHA-256 and src/internal/checksum.
    - DiskStore.v: src/storage/store/disk.go over the bbolt index of checksum_index.go.
      The disk is a map from paths to contents; the n-th call to the operating system or
      to bbolt succeeds or fails as an arbitrary oracle says.
    - DiskStoreSpec.v, DiskStoreTheorems.v: path safety, the store's invariant, the
      refinement of a capacity-bounded map, isolation under faults.
    - StoreInterface.v: the interface of interface.go as a class, its contract as a second
      class of laws, with the disk store as an instance.
    - ChecksumIndex.v: the generic index of checksum_index.go with its codecs, over any
      database file that keeps bbolt's promises (class [Bolt], laws [BoltLaws], and an
      instance in memory), and its agreement with what DiskStore.v uses of it.
    - Chunk.v: src/storage/chunk/writer.go and reader.go.
    - StorageServer.v: the handlers of storage_handler.go and replication_handler.go, and
      the transfer of one chunk of replication/manager.go between two stores.
    - StorageTheorems.v: what uploads, downloads and transfers do.
    - Writers.v: the writers of writer.go when many are open at once, over a disk whose
      directory maps paths to files, so that descriptors and names can part.
    - Replication.v: the rest of src/storage/replication: the repair queue with its
      workers as a step relation, the fan-out with its quorum, the pool of connections.
    - StorageConfig.v: src/storage/config.go.
    - StorageNode.v (after System.v): heartbeats, registration, the repair workers and
      the start and stop of node.go, on the system.

    The client and the shared RPC code
    - Retry.v: src/internal/retry and src/internal/leaderclient, with their properties.
    - Connections.v: the connections of leader_cache.go, shared by several callers.
    - ClientConfig.v: dfsclientconfig and the options of the SDK, and the launch loop of
      the transfers with its semaphore.
    - Manifest.v: src/client/internal/manifest over a directory whose calls may fail.
    - Client.v: the chunker, the storage client's framing, and the upload and download
      services over the interfaces of src/client/internal/metadataclient and
      storageclient; goroutines run in an arbitrary order.
    - ClientTheorems.v: chunking, the agreement of client and storage node on the upload
      stream, and the reassembly of a download.
    - UploadTheorems.v: what uploads can hang on, and that their manifests are right.
    - Mocks.v: the mock clients of the tests, as implementations of the same interfaces.
    - MetaClient.v: metadataclient/grpc.go, src/storage/metaclient and the facade of
      src/client/dfsclient; the progress callbacks of concurrent chunks run one atomic
      operation at a time, in the order a schedule gives and while they have a slot of the
      semaphore.

    The system
    - System.v: one client, any number of storage nodes and the leader of the metadata
      service, composed of the definitions above.  The record [Net] holds what may go
      wrong: each call, stream, dial, transfer, collection of the fan-out and disk call
      has an outcome of its own.
    - SystemTheorems.v, RepairTheorems.v, Healing.v, NodeTheorems.v: uploads and downloads,
      repairs, the replacement of a lost node, and the life of a storage node, across the
      system.
    - Network.v, NetworkRuns.v, NetworkTheorems.v: the same system with any number of
      clients and nodes, cut at every message.  What has been sent may arrive late, twice
      or never; between two messages anything else may happen.  The operations of System.v
      and StorageNode.v are runs of it, and its safety is shown for all its runs.
    - Boot.v, Clusters.v: the two server processes from their start to their shutdown, and
      the clusters of src/integration/testutil built from them.
    - Cli.v: the command line of the client, on the system.

    ** What the theorems show

    State machine (FsmTheorems.v, Slices.v): every reachable state is well formed, replicas
    with the same log agree whatever their map order, failed commands change nothing, the
    JSON round trip of proposed commands is exact, snapshots and log compaction lose only
    [LastSeen], and each query and the main handlers do what they promise.
    Metadata service (Placement.v, Scheduler.v, Watcher.v, Reconcile.v, MetaServer.v,
    MetaTheorems.v): the process invariant, the upload protocol from [CreateFile] to
    [GetFile], repair scheduling, liveness sweeps, reconciliation, placement, redirects.
    Storage node (DiskStoreTheorems.v, StorageTheorems.v): the disk store refines its
    abstract map, keeps its space accounting, confines its paths and isolates chunks from
    each other's faults; uploads are stored exactly when well formed and are streamed
    back; transfers copy.  Writers of different chunks are atomic under every interleaving
    (Writers.v), and every history of calls through the store's interface goes as on the
    abstract map (StoreInterface.v).  The repair queue (Replication.v) keeps its bound and its
    deduplication under every interleaving and drains, the fan-out reports exactly the
    targets that succeeded, and no connection leaks.
    Client (Retry.v, Connections.v, ClientTheorems.v, UploadTheorems.v, Manifest.v):
    retries are bounded and stop at the first success, calls find the leader and leak no
    connection, chunking loses nothing, uploads
    reach the store as sent, return if the calls they make do, and leave a manifest of
    exactly the failed chunks,
    and a download returns the file whenever each chunk has one good replica.
    Configuration (StorageConfig.v, MetaConfig.v, ClientConfig.v): what a configuration
    that loads promises, and that the environment can spell every valid one out.
    System (SystemTheorems.v, RepairTheorems.v, Healing.v, NodeTheorems.v, MetaApp.v): what an upload
    under a new name reports as stored, a download returns, whatever happened on the way; a heartbeat and a
    worker's round repair a chunk; from the sweep that finds a node lost to the report
    of the copy, its chunk gets a new replica; nodes register under the address they really listen on;
    a client of a follower reaches the leader.
    Messages (NetworkRuns.v, NetworkTheorems.v): the operations are runs of messages, and
    no interleaving, delay, repetition or loss of messages makes the service list a replica
    that has not the data, the two races below apart.
    Index (ChecksumIndex.v): the checksum index is a map, also across a restart, and
    behaves as the disk store assumes.
    Processes (Boot.v, Clusters.v, Lifecycle.v, Cli.v): clusters of servers come up as the
    system theorems need them, a restarted node has its chunks, the background goroutines
    stop and are waited for, and a file that [dfs upload] stored under a new name is listed
    and downloaded by the next process, with sizes printed as they should be and
    percentages that overshoot only while uploads run in parallel.
    Limits of the code: theorems that show a behaviour the code's own comments or purpose
    do not intend, from diverging replicas ([shared_address_diverges]), aliased snapshots
    ([snapshot_aliases_replicas]), two writers of one chunk ([racing_writers_corrupt]) and
    two files of one name ([shared_name_hides_upload]) to duplicate repairs
    ([waiting_target_gets_second_job]) and forgotten usage ([restart_forgets_usage]).

    ** Bounds and fuel

    Integers keep Go's widths where the code computes with them.  Loops that are not
    structural: [get_loop] and [transfer_loop] read frames until the end of a file.  Their
    fuel is one more than the length of the file; every frame takes at least one byte, and
    the theorems on them show that a result is returned.  [put_frames] cuts a chunk into
    frames with its length as fuel, and no frame is empty.  Retries recurse on the
    attempts left.  [sha256] folds over at most as
    many blocks as the padded message has bytes.  The number of chunks is computed in
    [float64], and is the exact quotient rounded up below 2^53 bytes ([num_chunks_exact]),
    as backoffs are right below 2^53 nanoseconds.  [wait_loop] polls until a deadline; the
    timeout divided by the gap, plus two, is enough fuel for it.  [run_progress] gives every
    callback two passes of four turns at its end, which is what all of them need to return
    ([run_reports]).

    ** Not modelled

    Raft, gRPC, bbolt, cobra and the file system are libraries: outcomes of their calls are
    parameters.  Mutexes are not modelled as such: Raft applies commands one at a time,
    and an operation runs as one step except where the code gives up its lock in the
    middle ([EnqueueRepair], the progress callbacks, the goroutines of Lifecycle.v); memory that outlives its lock, the
    replica slices a snapshot shares, is the subject of Slices.v.  In System.v one client's
    call runs at a time and the transfers of a fan-out run one after the other, in any
    order; Network.v lifts both.  Two races are kept out of the steps of Network.v: the
    [DeleteChunk] calls of a reconciliation reach a node only while nobody counts on the
    replica, since a chunk that a repair has just copied can otherwise be deleted before the
    repair is reported ([reconcile_races_repair]); and a node takes the streams of one chunk
    one after the other; what happens otherwise is in Writers.v.  Its nodes join and do not
    stop.  The calls of a client or a node always come back, with an answer or an error: an
    RPC that never answers, which the deadlines the code sets rule out except for
    [PutChunk], is not modelled.  One order of ranging is fixed for each map and run
    ([MapRange]), while Go may take another one each time.  Strings are taken to be valid
    UTF-8, as protobuf enforces, where [encoding/json] would replace other bytes, and JSON
    documents to repeat no key, as those the program writes do not.  A call on a closed connection is known only by the status
    gRPC documents for it.  Left out because they hold no logic of their own: the generated
    protobuf code, the effect of the gRPC servers' keepalive settings, the alignment of the
    table that [dfs list] prints, and the dial helpers of the tests. *)

From stdpp Require Export base tactics list gmap strings sorting pretty.
From Stdlib Require Export ZArith Lia.

(** ** Machine integers

    Go's [int], [int64], [uint64], [int32] and [uint32] are [Z] values; a
    conversion wraps exactly as the Go conversion does.  [int] is 64 bits wide,
    as on every platform the repository is built for. *)

Definition two64 : Z := 18446744073709551616.
Definition two63 : Z := 9223372036854775808.
Definition two32 : Z := 4294967296.
Definition two31 : Z := 2147483648.

(** [uint64(x)] *)
Definition to_uint64 (x : Z) : Z := x `mod` two64.
(** [int64(x)], and [int(x)] on a 64-bit platform *)
Definition to_int64 (x : Z) : Z := (x + two63) `mod` two64 - two63.
(** [uint32(x)] *)
Definition to_uint32 (x : Z) : Z := x `mod` two32.
(** [int32(x)] *)
Definition to_int32 (x : Z) : Z := (x + two31) `mod` two32 - two31.

Definition is_uint64 (x : Z) : Prop := (0 ≤ x < two64)%Z.
Definition is_int64 (x : Z) : Prop := (- two63 ≤ x < two63)%Z.

#[global] Instance is_uint64_dec x : Decision (is_uint64 x).
Proof. unfold is_uint64. apply _. Defined.
#[global] Instance is_int64_dec x : Decision (is_int64 x).
Proof. unfold is_int64. apply _. Defined.

Lemma to_uint64_id x : is_uint64 x → to_uint64 x = x.
Proof. unfold to_uint64, is_uint64. intros. by apply Z.mod_small. Qed.

Lemma to_uint64_range x : is_uint64 (to_uint64 x).
Proof. unfold to_uint64, is_uint64. apply Z.mod_pos_bound. done. Qed.

Lemma to_int64_id x : is_int64 x → to_int64 x = x.
Proof.
  unfold to_int64, is_int64, two63, two64. intros.
  rewrite Z.mod_small; lia.
Qed.

Definition is_int32 (x : Z) : Prop := (- two31 ≤ x < two31)%Z.

Lemma to_int32_id x : is_int32 x → to_int32 x = x.
Proof. unfold to_int32, is_int32, two31, two32. intros. rewrite Z.mod_small; lia. Qed.

(** Choosing a value for each element of a list. *)
Lemma list_choice {A B} (P : nat → A → B → Prop) (l : list A) :
  (∀ i a, l !! i = Some a → ∃ b, P i a b) →
  ∃ l', length l' = length l ∧ ∀ i a b, l !! i = Some a → l' !! i = Some b → P i a b.
Proof.
  revert P. induction l as [|a l IH]; intros P HP; [by exists []|].
  destruct (HP 0 a eq_refl) as [b Hb]. destruct (IH (λ i, P (S i))) as (l' & Hlen & Hl'); [intros i; apply (HP (S i))|].
  exists (b :: l'). split; [by simpl; f_equal|]. intros [|i] a' b' Ha Hb'; simplify_eq/=; eauto.
Qed.

(** ** Time

    [time.Time] is the number of nanoseconds since 0001-01-01 00:00:00 UTC, so
    that Go's zero time is [0].  [time.Duration] is an [int64] count of
    nanoseconds. *)

Definition Time := Z.
Definition Duration := Z.

Definition zero_time : Time := 0%Z.
Definition nanosecond : Duration := 1%Z.
Definition millisecond : Duration := 1000000%Z.
Definition second : Duration := 1000000000%Z.
Definition minute : Duration := 60000000000%Z.

(** [t.Before(u)] *)
Definition Before (t u : Time) : bool := bool_decide (t < u)%Z.

(** [t.Sub(u)]: saturates at the bounds of [Duration]. *)
Definition Sub (t u : Time) : Duration :=
  Z.max (- two63) (Z.min (two63 - 1) (t - u)).

(** [t.Unix()]: seconds since 1970-01-01, rounded down. *)
Definition Unix (t : Time) : Z := (t `div` second - 62135596800)%Z.

(** ** Errors

    A Go [error] is [nil] or a value.  Sentinels are compared by identity, so
    each one is its own constructor argument; [errors.Join], [fmt.Errorf("%w")]
    and gRPC's [status.Error] keep what they wrap. *)

Inductive code :=
| OK | Canceled | Unknown | InvalidArgument | DeadlineExceeded | NotFound
| AlreadyExists | PermissionDenied | ResourceExhausted | FailedPrecondition
| Aborted | OutOfRange | Unimplemented | Internal | Unavailable | DataLoss
| Unauthenticated.

#[global] Instance code_eq_dec : EqDecision code.
Proof. solve_decision. Defined.

Inductive error :=
| ErrSentinel (msg : string)
| ErrNew (msg : string)
| ErrJoin (e1 e2 : error)
| ErrWrap (msg : string) (e : error)
| ErrStatus (c : code) (msg : string).

#[global] Instance error_eq_dec : EqDecision error.
Proof. solve_decision. Defined.

(** [errors.Is(err, target)] *)
Fixpoint errors_Is (e target : error) : bool :=
  bool_decide (e = target) ||
  match e with
  | ErrJoin e1 e2 => errors_Is e1 target || errors_Is e2 target
  | ErrWrap _ e1 => errors_Is e1 target
  | _ => false
  end.

(** The pair [(value, error)] of a Go function that returns a usable value
    exactly when the error is [nil]. *)
Inductive res (A : Type) :=
| Ok (a : A)
| Err (e : error).
Arguments Ok {_} _.
Arguments Err {_} _.

Definition res_bind {A B} (r : res A) (f : A → res B) : res B :=
  match r with Ok a => f a | Err e => Err e end.

Lemma res_bind_Ok {A B} (r : res A) (f : A → res B) b :
  res_bind r f = Ok b → ∃ a, r = Ok a ∧ f a = Ok b.
Proof. destruct r; simpl; [eauto|done]. Qed.

Definition res_to_option {A} (r : res A) : option A :=
  match r with Ok a => Some a | Err _ => None end.

(** How a call ends: it returns, it panics, or it waits for ever. *)
Inductive maybe_panic (A : Type) := Returns (a : A) | Panics | Blocks.
Arguments Returns {_} _.
Arguments Panics {_}.
Arguments Blocks {_}.

Declare Scope dfs_scope.
Delimit Scope dfs_scope with dfs.
Notation "'let?' x ':=' r 'in' k" :=
  (res_bind r (λ x, k)) (at level 10, x binder, r at level 100, k at level 200) : dfs_scope.
#[global] Open Scope dfs_scope.

Fixpoint res_mapM {A B} (f : A → res B) (l : list A) : res (list B) :=
  match l with
  | [] => Ok []
  | x :: l' => let? y := f x in let? ys := res_mapM f l' in Ok (y :: ys)
  end.

Lemma res_mapM_Ok {A B} (f : A → res B) (g : A → B) l :
  (∀ x, x ∈ l → f x = Ok (g x)) → res_mapM f l = Ok (g <$> l).
Proof.
  induction l as [|x l IH]; intros Hf; [done|]; simpl.
  rewrite Hf by set_solver. simpl. rewrite IH by set_solver. done.
Qed.

(** ** Finite maps *)

(** Inserting the entries of a list with distinct keys, one by one. *)
Lemma foldl_insert_fmap {V W} (g : V → W) (l : list (string * V)) (acc : gmap string W) :
  NoDup l.*1 →
  foldl (λ m kv, <[kv.1 := g kv.2]> m) acc l = (g <$> list_to_map l) ∪ acc.
Proof.
  revert acc. induction l as [|[k v] l IH]; intros acc Hnd; simpl.
  - by rewrite fmap_empty, (left_id_L ∅ (∪)).
  - simpl in Hnd. apply NoDup_cons in Hnd as [Hk Hnd].
    rewrite IH by done. rewrite fmap_insert, <-insert_union_l, <-insert_union_r; [done|].
    rewrite lookup_fmap, not_elem_of_list_to_map_1 by done. done.
Qed.

(** ** Strings *)

Lemma length_app_string a b : String.length (a +:+ b) = String.length a + String.length b.
Proof. induction a as [|c a IH]; simpl; [done|]. by f_equal. Qed.

Lemma string_app_assoc a b c : a +:+ (b +:+ c) = (a +:+ b) +:+ c.
Proof.
  induction a as [|x a IH]; [done|].
  change (String x (a +:+ (b +:+ c)) = String x ((a +:+ b) +:+ c)). by rewrite IH.
Qed.

Lemma string_app_nil a : a +:+ "" = a.
Proof. induction a as [|c a IH]; [done|]. change (String c (a +:+ "") = String c a). by rewrite IH. Qed.

(** ** Byte slices *)

Notation byte := Ascii.ascii (only parsing).
Notation bytes := (list Ascii.ascii).

(** ** Shared automation *)

Create HintDb dfs discriminated.

(** Case analysis on every [match] and [if] of the goal, keeping the equations. *)
Ltac case_all :=
  repeat (case_match; simplify_eq/=; try done).

(** Proves a closed decidable proposition by evaluating its decision procedure. *)
Ltac compute_decide := apply (bool_decide_unpack _); vm_compute; exact I.

(** A predicate that every step keeps holds along a run. *)
Lemma rtc_keeps {A} (R : relation A) (I : A → Prop) x y :
  (∀ a b, I a → R a b → I b) → rtc R x y → I x → I y.
Proof. intros Hstep Hrun. induction Hrun; eauto. Qed.
