(* ===== verification/GoLib.v ===== *)
(** * What the sources use of the Go language and its standard library

    Two features of Go leave a choice to the implementation: the order in which
    [for k, v := range m] visits a map, and the order in which [sort.Sort] and
    [sort.Slice] leave elements neither of which is less than the other.  Each
    is an interface here (a class with its documented law); the components are
    defined and proved against the interface, and the instances at the end
    discharge it with an executable implementation. *)

From S2P Require Import Prelude.

(** ** Ranging over a map *)

(** One iteration order of a [map[string]V]: every entry exactly once. *)
Class MapRange := {
  map_range : ∀ {V : Type}, gmap string V → list (string * V);
  map_range_perm : ∀ {V} (m : gmap string V), map_range m ≡ₚ map_to_list m;
}.

Section map_range.
Context `{!MapRange} {V : Type}.
Implicit Types m : gmap string V.

Lemma elem_of_map_range m k v : (k, v) ∈ map_range m ↔ m !! k = Some v.
Proof. rewrite map_range_perm. apply elem_of_map_to_list. Qed.

Lemma NoDup_fst_map_range m : NoDup (map_range m).*1.
Proof. rewrite map_range_perm. apply NoDup_fst_map_to_list. Qed.

Lemma length_map_range m : length (map_range m) = size m.
Proof. rewrite map_range_perm. apply length_map_to_list. Qed.

(** [for _, v := range m] *)
Definition range_values m : list V := (map_range m).*2.

Lemma elem_of_range_values m v : v ∈ range_values m ↔ ∃ k, m !! k = Some v.
Proof.
  unfold range_values. rewrite list_elem_of_fmap. split.
  - intros [[k v'] [-> Hkv]]. exists k. by apply elem_of_map_range.
  - intros [k Hk]. exists (k, v). by rewrite elem_of_map_range.
Qed.

(** The first entry, in iteration order, that satisfies a test: a loop with [break]. *)
Definition range_find (P : V → bool) m : option V :=
  snd <$> List.find (λ kv, P kv.2) (map_range m).

Lemma range_find_Some P m v :
  range_find P m = Some v → P v = true ∧ ∃ k, m !! k = Some v.
Proof.
  unfold range_find. intros ([k v'] & [Hin HP]%find_some & ->)%fmap_Some; simpl.
  split; [done|]. exists k. apply elem_of_map_range. by apply list_elem_of_In.
Qed.

Lemma range_find_None P m :
  range_find P m = None ↔ ∀ k v, m !! k = Some v → P v = false.
Proof.
  unfold range_find. rewrite fmap_None. split.
  - intros Hf k v Hk. apply elem_of_map_range, list_elem_of_In in Hk.
    by apply (find_none _ _ Hf (k, v)).
  - intros Hall. destruct (List.find _ _) as [[k v]|] eqn:Hf; [|done].
    apply find_some in Hf as [Hin HP]; simpl in *.
    apply list_elem_of_In, elem_of_map_range in Hin. by rewrite (Hall k v) in HP.
Qed.
End map_range.

(** When at most one entry passes the test, neither the order nor what [g]
    forgets of the entries matters. *)
Lemma range_find_order {V W} (R1 R2 : MapRange) (g : V → W) (Q : W → bool)
    (m1 m2 : gmap string V) :
  g <$> m1 = g <$> m2 →
  (∀ k1 k2 v1 v2, m1 !! k1 = Some v1 → m1 !! k2 = Some v2 →
     Q (g v1) = true → Q (g v2) = true → g v1 = g v2) →
  g <$> @range_find R1 V (Q ∘ g) m1 = g <$> @range_find R2 V (Q ∘ g) m2.
Proof.
  intros Heq Huniq.
  assert (H12 : ∀ k v, m1 !! k = Some v → ∃ v', m2 !! k = Some v' ∧ g v' = g v).
  { intros k v Hk. assert (Hg : (g <$> m2) !! k = Some (g v)) by by rewrite <-Heq, lookup_fmap, Hk.
    rewrite lookup_fmap in Hg. apply fmap_Some in Hg as (v' & ? & ?). eauto. }
  assert (H21 : ∀ k v, m2 !! k = Some v → ∃ v', m1 !! k = Some v' ∧ g v' = g v).
  { intros k v Hk. assert (Hg : (g <$> m1) !! k = Some (g v)) by by rewrite Heq, lookup_fmap, Hk.
    rewrite lookup_fmap in Hg. apply fmap_Some in Hg as (v' & ? & ?). eauto. }
  destruct (@range_find R1 V _ m1) as [v1|] eqn:F1, (@range_find R2 V _ m2) as [v2|] eqn:F2;
    try apply range_find_Some in F1 as [HP1 [k1 Hk1]];
    try apply range_find_Some in F2 as [HP2 [k2 Hk2]]; simpl in *; [| | |done].
  - destruct (H21 _ _ Hk2) as (v1' & Hv1' & Hg). f_equal. rewrite <-Hg.
    eapply Huniq; [done..|]. by rewrite Hg.
  - destruct (H12 _ _ Hk1) as (v2 & Hv2 & Hg). rewrite range_find_None in F2.
    specialize (F2 _ _ Hv2). simpl in F2. by rewrite Hg, HP1 in F2.
  - destruct (H21 _ _ Hk2) as (v1 & Hv1 & Hg). rewrite range_find_None in F1.
    specialize (F1 _ _ Hv1). simpl in F1. by rewrite Hg, HP2 in F1.
Qed.

(** ** Sorting *)

(** What [sort] documents of [Less]: a strict weak ordering. *)
Record strict_weak {A} (less : A → A → bool) : Prop := {
  sw_irrefl : ∀ x, less x x = false;
  sw_trans : ∀ x y z, less x y = true → less y z = true → less x z = true;
  sw_incomp : ∀ x y z, less x y = false → less y z = false → less x z = false;
}.

(** No later element is less than an earlier one. *)
Definition ordered {A} (less : A → A → bool) (l : list A) : Prop :=
  StronglySorted (λ x y, less y x = false) l.

Class GoSort := {
  go_sort : ∀ {A : Type}, (A → A → bool) → list A → list A;
  go_sort_perm : ∀ {A} (less : A → A → bool) l, go_sort less l ≡ₚ l;
  go_sort_ordered : ∀ {A} (less : A → A → bool) l,
    strict_weak less → ordered less (go_sort less l);
}.

Lemma elem_of_go_sort `{!GoSort} {A} (less : A → A → bool) l x :
  x ∈ go_sort less l ↔ x ∈ l.
Proof. by rewrite go_sort_perm. Qed.

Lemma length_go_sort `{!GoSort} {A} (less : A → A → bool) l :
  length (go_sort less l) = length l.
Proof. by rewrite go_sort_perm. Qed.

(** An element of a prefix of an ordered list is never beaten by one of the rest. *)
Lemma ordered_take_drop {A} (less : A → A → bool) l n x y :
  ordered less l → x ∈ take n l → y ∈ drop n l → less y x = false.
Proof.
  intros Hs. revert n. induction Hs as [|a l Hs IH Hall]; intros n Hx Hy.
  { by rewrite take_nil in Hx; apply elem_of_nil in Hx. }
  destruct n as [|n]; simpl in *; [by apply elem_of_nil in Hx|].
  apply elem_of_cons in Hx as [->|Hx].
  - rewrite Forall_forall in Hall. apply Hall.
    rewrite <-(take_drop n l). set_solver.
  - by apply (IH n).
Qed.

Lemma ordered_head {A} (less : A → A → bool) x l y :
  strict_weak less → ordered less (x :: l) → y ∈ x :: l → less y x = false.
Proof.
  intros Hsw Hs [->|Hy]%elem_of_cons; [by apply sw_irrefl|].
  inversion Hs as [|? ? ? Hall]; subst. rewrite Forall_forall in Hall. by apply Hall.
Qed.

(** Reversing the roles of the arguments, as [sort.Reverse] does. *)
Lemma strict_weak_flip {A} (less : A → A → bool) :
  strict_weak less → strict_weak (λ x y, less y x).
Proof.
  intros [Hi Ht Hc]. split.
  - done.
  - intros x y z H1 H2. by apply (Ht z y x).
  - intros x y z H1 H2. by apply (Hc z y x).
Qed.

(** ** Comparing strings *)

Lemma string_ltb_lt a b : String.ltb a b = true ↔ String.compare a b = Lt.
Proof. unfold String.ltb. by destruct (String.compare a b). Qed.

(** Byte-wise order of two strings as a comparison of their character lists. *)
Lemma string_compare_cons c a d b :
  String.compare (String c a) (String d b) =
    match Ascii.compare c d with Eq => String.compare a b | r => r end.
Proof. done. Qed.

Lemma ascii_compare_N c d : Ascii.compare c d = N.compare (Ascii.N_of_ascii c) (Ascii.N_of_ascii d).
Proof. done. Qed.

Lemma string_compare_refl a : String.compare a a = Eq.
Proof.
  induction a as [|c a IH]; [done|].
  by rewrite string_compare_cons, ascii_compare_N, N.compare_refl.
Qed.

Lemma string_lt_trans a b c :
  String.compare a b = Lt → String.compare b c = Lt → String.compare a c = Lt.
Proof.
  revert b c. induction a as [|x a IH]; intros [|y b] [|z c]; try done.
  rewrite !string_compare_cons, !ascii_compare_N.
  destruct (N.compare_spec (Ascii.N_of_ascii x) (Ascii.N_of_ascii y)) as [Hxy|Hxy|Hxy]; try done;
  destruct (N.compare_spec (Ascii.N_of_ascii y) (Ascii.N_of_ascii z)) as [Hyz|Hyz|Hyz]; try done;
  destruct (N.compare_spec (Ascii.N_of_ascii x) (Ascii.N_of_ascii z)); try done; try lia.
  apply IH.
Qed.

Lemma string_ltb_sw : strict_weak String.ltb.
Proof.
  split.
  - intros a. apply not_true_iff_false. rewrite string_ltb_lt. by rewrite string_compare_refl.
  - intros a b c. rewrite !string_ltb_lt. apply string_lt_trans.
  - intros a b c. rewrite <-!not_true_iff_false, !string_ltb_lt. intros H1 H2 H3.
    destruct (String.compare b c) eqn:Hgh; [|done|].
    + apply String.compare_eq_iff in Hgh. rewrite Hgh in H1. done.
    + rewrite String.compare_antisym in Hgh. destruct (String.compare c b) eqn:Hhg; try done.
      apply H1. by eapply string_lt_trans.
Qed.

(** ** Executable instances *)

(** Insertion sort, which is what [sort.Sort] runs on at most twelve elements. *)
Section insertion_sort.
Context {A : Type} (less : A → A → bool).

Fixpoint insert_sorted (x : A) (l : list A) : list A :=
  match l with
  | [] => [x]
  | y :: l' => if less x y then x :: y :: l' else y :: insert_sorted x l'
  end.

Definition insertion_sort (l : list A) : list A :=
  foldl (λ acc x, insert_sorted x acc) [] l.

Lemma insert_sorted_perm x l : insert_sorted x l ≡ₚ x :: l.
Proof.
  induction l as [|y l IH]; simpl; [done|].
  destruct (less x y); [done|]. rewrite IH. apply Permutation_swap.
Qed.

Lemma foldl_insert_perm l acc :
  foldl (λ acc x, insert_sorted x acc) acc l ≡ₚ l ++ acc.
Proof.
  revert acc. induction l as [|x l IH]; intros acc; simpl; [done|].
  rewrite IH, insert_sorted_perm. by rewrite Permutation_middle.
Qed.

Lemma insertion_sort_perm l : insertion_sort l ≡ₚ l.
Proof. unfold insertion_sort. rewrite foldl_insert_perm. by rewrite app_nil_r. Qed.

Lemma insert_sorted_ordered x l :
  strict_weak less → ordered less l → ordered less (insert_sorted x l).
Proof.
  intros Hsw. induction 1 as [|y l Hs IH Hall]; simpl.
  { repeat constructor. }
  destruct (less x y) eqn:Hxy.
  - assert (Hyx : less y x = false).
    { destruct (less y x) eqn:Hyx; [|done].
      by rewrite <-(sw_irrefl _ Hsw x), (sw_trans _ Hsw x y x). }
    constructor; [by constructor|]. constructor; [done|].
    eapply Forall_impl; [exact Hall|]. intros z Hzy. by apply (sw_incomp _ Hsw z y x).
  - constructor; [done|]. rewrite insert_sorted_perm. by constructor.
Qed.

Lemma insertion_sort_ordered l : strict_weak less → ordered less (insertion_sort l).
Proof.
  intros Hsw. unfold insertion_sort.
  assert (Hacc : ordered less []) by constructor. revert Hacc. generalize (@nil A) as acc.
  induction l as [|x l IH]; intros acc Hacc; simpl; [done|].
  apply IH. by apply insert_sorted_ordered.
Qed.
End insertion_sort.

#[export] Instance insertion_GoSort : GoSort := {
  go_sort _ less l := insertion_sort less l;
  go_sort_perm _ less l := insertion_sort_perm less l;
  go_sort_ordered _ less l := insertion_sort_ordered less l;
}.

#[export] Instance canonical_MapRange : MapRange := {
  map_range V m := map_to_list m;
  map_range_perm V m := Permutation_refl _;
}.

(** The opposite order: a second lawful iteration order of the same map. *)
Definition reversed_MapRange : MapRange.
Proof.
  refine {| map_range V m := reverse (map_to_list m) |}.
  intros V m. apply reverse_Permutation.
Defined.
