(* ===== verification/GoFloat.v ===== *)
(** * Floating point: what the sources use of it

    [float64] of an integer, quotients and products of such numbers, and the verbs [%.1f]
    and [%.2f] of fmt.  A number is a non-negative rational that [float64] holds, as a
    mantissa and a power of two; each operation is the exact result rounded to 53 bits,
    ties to even, and printing rounds the exact value to the wanted decimals, ties to even.
    The values stay far from the limits of the exponent, so neither infinities nor
    subnormal numbers occur. *)

From Stdlib Require Import Ascii.
From stdpp Require Import pretty.
From S2P Require Import Prelude.

#[local] Open Scope Z_scope.

(** ** Rounding *)

(** The integer closest to [n / d], the even one of two. *)
Definition rdiv (n d : Z) : Z :=
  let q := n / d in
  let r := n mod d in
  if decide (2 * r < d) then q else if decide (d < 2 * r) then q + 1 else if Z.even q then q else q + 1.

Lemma rdiv_close n d : 0 < d → 2 * Z.abs (rdiv n d * d - n) ≤ d.
Proof.
  intros Hd. unfold rdiv. pose proof (Z.div_mod n d ltac:(lia)). pose proof (Z.mod_pos_bound n d Hd).
  repeat case_decide; [nia..|]. destruct (Z.even (n / d)); nia.
Qed.

Lemma rdiv_le n d c : 0 < d → n ≤ c * d → rdiv n d ≤ c.
Proof. intros Hd Hn. pose proof (rdiv_close n d Hd). nia. Qed.

Lemma rdiv_ge n d c : 0 < d → c * d ≤ n → c ≤ rdiv n d.
Proof. intros Hd Hn. pose proof (rdiv_close n d Hd). nia. Qed.

Lemma rdiv_exact q d : 0 < d → rdiv (q * d) d = q.
Proof. intros Hd. apply Z.le_antisymm; [by apply rdiv_le|by apply rdiv_ge]. Qed.

(** ** [float64] *)

(** [fl_man / 2 ^ fl_scale] with a scale that may be negative. *)
Record float64 := mkFloat { fl_man : Z; fl_scale : Z }.

(** The numerator and the denominator of a float. *)
Definition fl_num (x : float64) : Z := fl_man x * 2 ^ Z.max 0 (- fl_scale x).
Definition fl_den (x : float64) : Z := 2 ^ Z.max 0 (fl_scale x).

(** The power of two that gives [n / d] 53 bits before the point. *)
Definition scale_of (n d : Z) : Z :=
  let s := 52 - (Z.log2 n - Z.log2 d) in
  if decide (n * 2 ^ Z.max 0 s < 2 ^ 52 * (d * 2 ^ Z.max 0 (- s))) then s + 1 else s.

(** [n / d] rounded. *)
Definition fl_round (n d : Z) : float64 :=
  let s := scale_of n d in
  mkFloat (rdiv (n * 2 ^ Z.max 0 s) (d * 2 ^ Z.max 0 (- s))) s.

Definition fl_of_int (n : Z) : float64 := fl_round n 1.
Definition fl_div (x y : float64) : float64 := fl_round (fl_num x * fl_den y) (fl_den x * fl_num y).
Definition fl_mul (x y : float64) : float64 := fl_round (fl_num x * fl_num y) (fl_den x * fl_den y).

Definition fl_zero : float64 := mkFloat 0 0.

Lemma fl_den_pos x : 0 < fl_den x.
Proof. unfold fl_den. lia. Qed.

(** Rounding does not cross an integer. *)
Lemma fl_round_le n d c :
  0 < d → n ≤ c * d → 0 ≤ scale_of n d → fl_num (fl_round n d) ≤ c * fl_den (fl_round n d).
Proof.
  intros Hd Hn Hs. unfold fl_num, fl_den, fl_round. cbn [fl_man fl_scale].
  rewrite (Z.max_l 0 (- _)), (Z.max_r 0 (scale_of n d)) by lia. rewrite !Z.pow_0_r, !Z.mul_1_r.
  apply rdiv_le; [done|]. pose proof (Z.pow_nonneg 2 (scale_of n d)). nia.
Qed.

Lemma fl_round_ge n d c :
  0 < d → c * d ≤ n → 0 ≤ scale_of n d → c * fl_den (fl_round n d) ≤ fl_num (fl_round n d).
Proof.
  intros Hd Hn Hs. unfold fl_num, fl_den, fl_round. cbn [fl_man fl_scale].
  rewrite (Z.max_l 0 (- _)), (Z.max_r 0 (scale_of n d)) by lia. rewrite !Z.pow_0_r, !Z.mul_1_r.
  apply rdiv_ge; [done|]. pose proof (Z.pow_nonneg 2 (scale_of n d)). nia.
Qed.

(** A number below [2 ^ j] has a scale that leaves at most 53 bits before the point. *)
Lemma scale_of_ge n d j : 0 < d → 0 ≤ n → 0 ≤ j ≤ 52 → n < 2 ^ j * d → 53 - j ≤ scale_of n d.
Proof.
  intros Hd Hz Hj Hn. unfold scale_of.
  assert (Hl : Z.log2 n - Z.log2 d ≤ j).
  { pose proof (Z.log2_le_mono n (2 ^ j * d) ltac:(lia)) as Hm. rewrite Z.mul_comm, Z.log2_mul_pow2 in Hm by lia. lia. }
  destruct (decide (Z.log2 n - Z.log2 d = j)) as [->|Hne]; [|case_decide; lia].
  rewrite decide_True; [lia|]. rewrite (Z.max_r 0 (52 - j)), (Z.max_l 0 (- (52 - j))), Z.pow_0_r, Z.mul_1_r by lia.
  replace (2 ^ 52) with (2 ^ j * 2 ^ (52 - j)) by (rewrite <-Z.pow_add_r by lia; f_equal; lia).
  pose proof (Z.pow_pos_nonneg 2 (52 - j)). nia.
Qed.

(** A quotient that needs no rounding. *)
Lemma fl_round_exact n d q :
  0 < d → 0 ≤ scale_of n d → n * 2 ^ scale_of n d = q * d → fl_num (fl_round n d) * d = n * fl_den (fl_round n d).
Proof.
  intros Hd Hs Hq. unfold fl_num, fl_den, fl_round. cbn [fl_man fl_scale].
  rewrite (Z.max_l 0 (- _)), (Z.max_r 0 (scale_of n d)) by lia. rewrite !Z.pow_0_r, !Z.mul_1_r, Hq, rdiv_exact by done. done.
Qed.

(** An integer of at most 53 bits is a [float64]. *)
Lemma fl_of_int_exact n : 0 ≤ n < 2 ^ 53 → fl_num (fl_of_int n) = n * fl_den (fl_of_int n).
Proof.
  intros Hn. assert (Hs : 0 ≤ scale_of n 1).
  { unfold scale_of. change (Z.log2 1) with 0. rewrite Z.sub_0_r.
    assert (Z.log2 n ≤ 52); [|case_decide; lia].
    destruct (decide (n = 0)) as [->|]; [done|]. apply Z.lt_succ_r, Z.log2_lt_pow2; lia. }
  apply Z.le_antisymm; [apply fl_round_le|apply fl_round_ge]; lia.
Qed.

(** ** Printing *)

(** A number of [10 ^ k]ths with [k] decimals. *)
Definition decimal1 (h : Z) : string := pretty (h / 10) +:+ "." +:+ pretty (h mod 10).
Definition decimal2 (h : Z) : string := pretty (h / 100) +:+ "." +:+ pretty (h mod 100 / 10) +:+ pretty (h mod 10).

(** [%.1f] and [%.2f]: the tenths and the hundredths closest to the number. *)
Definition tenths (x : float64) : Z := rdiv (fl_num x * 10) (fl_den x).
Definition hundredths (x : float64) : Z := rdiv (fl_num x * 100) (fl_den x).
Definition fmt_1f (x : float64) : string := decimal1 (tenths x).
Definition fmt_2f (x : float64) : string := decimal2 (hundredths x).

Lemma tenths_le x c : fl_num x ≤ c * fl_den x → tenths x ≤ 10 * c.
Proof. intros Hx. apply rdiv_le; [apply fl_den_pos|lia]. Qed.

Lemma tenths_ge x c : c * fl_den x ≤ fl_num x → 10 * c ≤ tenths x.
Proof. intros Hx. apply rdiv_ge; [apply fl_den_pos|lia]. Qed.

Lemma hundredths_close x : 2 * Z.abs (hundredths x * fl_den x - fl_num x * 100) ≤ fl_den x.
Proof. apply rdiv_close, fl_den_pos. Qed.

(** ** A quotient by a power of two *)

Lemma fl_div_pow2 n k :
  0 < k ≤ 52 → 2 ^ k ≤ n < 2 ^ 53 →
  let x := fl_div (fl_of_int n) (fl_of_int (2 ^ k)) in fl_num x * 2 ^ k = n * fl_den x.
Proof.
  intros Hk Hn x. assert (Hp : 2 ^ k < 2 ^ 53) by (apply Z.pow_lt_mono_r; lia).
  pose proof (Z.pow_pos_nonneg 2 k ltac:(lia) ltac:(lia)) as Hpos.
  pose proof (fl_of_int_exact n ltac:(lia)) as Hx. pose proof (fl_of_int_exact (2 ^ k) ltac:(lia)) as Hy.
  pose proof (fl_den_pos (fl_of_int n)) as Dx. pose proof (fl_den_pos (fl_of_int (2 ^ k))) as Dy.
  unfold x, fl_div. rewrite Hx, Hy. set (D := fl_den (fl_of_int n) * fl_den (fl_of_int (2 ^ k))).
  assert (HD : 0 < D) by (unfold D; nia).
  replace (n * fl_den (fl_of_int n) * fl_den (fl_of_int (2 ^ k))) with (n * D) by (unfold D; ring).
  replace (fl_den (fl_of_int n) * (2 ^ k * fl_den (fl_of_int (2 ^ k)))) with (2 ^ k * D) by (unfold D; ring).
  assert (Hs : k ≤ scale_of (n * D) (2 ^ k * D)).
  { replace k with (53 - (53 - k)) at 1 by lia. apply scale_of_ge; [nia|nia|lia|].
    rewrite Z.mul_assoc, <-Z.pow_add_r by lia. replace (53 - k + k) with 53 by lia. nia. }
  assert (Hq : n * D * 2 ^ scale_of (n * D) (2 ^ k * D) = n * 2 ^ (scale_of (n * D) (2 ^ k * D) - k) * (2 ^ k * D)).
  { replace (2 ^ scale_of (n * D) (2 ^ k * D)) with (2 ^ (scale_of (n * D) (2 ^ k * D) - k) * 2 ^ k);
      [ring|]. rewrite <-Z.pow_add_r by lia. f_equal. lia. }
  pose proof (fl_round_exact (n * D) (2 ^ k * D) _ ltac:(nia) ltac:(lia) Hq). nia.
Qed.

(** ** Truncation *)

(** [uint64(x)] of a number in range. *)
Definition fl_trunc (x : float64) : Z := fl_num x / fl_den x.

Lemma rdiv_nonneg n d : 0 ≤ n → 0 ≤ d → 0 ≤ rdiv n d.
Proof.
  intros Hn Hd. unfold rdiv. assert (Hq : 0 ≤ n / d); [|repeat case_decide; [lia..|destruct (Z.even _); lia]].
  destruct (decide (d = 0)) as [->|]; [by rewrite Z.div_0_r|apply Z.div_pos; lia].
Qed.

Lemma fl_round_nonneg n d : 0 ≤ n → 0 ≤ d → 0 ≤ fl_num (fl_round n d).
Proof.
  intros Hn Hd. unfold fl_num, fl_round. cbn [fl_man fl_scale]. apply Z.mul_nonneg_nonneg; [|apply Z.pow_nonneg; lia].
  apply rdiv_nonneg; apply Z.mul_nonneg_nonneg; try done; apply Z.pow_nonneg; lia.
Qed.

(** What [ParseDuration] adds for a fraction. *)
Lemma fl_fraction_nonneg f u scale :
  0 ≤ f → 0 ≤ u → 0 ≤ scale → 0 ≤ fl_trunc (fl_mul (fl_of_int f) (fl_div (fl_of_int u) (fl_of_int scale))).
Proof.
  intros Hf Hu Hs. unfold fl_trunc. apply Z.div_pos; [|apply fl_den_pos]. unfold fl_mul, fl_div, fl_of_int.
  pose proof (fl_den_pos (fl_round f 1)). pose proof (fl_den_pos (fl_round u 1)). pose proof (fl_den_pos (fl_round scale 1)).
  pose proof (fl_round_nonneg f 1 Hf ltac:(lia)). pose proof (fl_round_nonneg u 1 Hu ltac:(lia)).
  pose proof (fl_round_nonneg scale 1 Hs ltac:(lia)).
  apply fl_round_nonneg; apply Z.mul_nonneg_nonneg; try lia; [|pose proof (fl_den_pos (fl_round (fl_num (fl_round u 1) * fl_den (fl_round scale 1)) (fl_den (fl_round u 1) * fl_num (fl_round scale 1)))); lia].
  apply fl_round_nonneg; nia.
Qed.

(** ** The ceiling of a quotient *)

(** [int(math.Ceil(x))] *)
Definition fl_ceil (x : float64) : Z := - (- fl_num x / fl_den x).

Lemma fl_ceil_spec x c : (c - 1) * fl_den x < fl_num x ≤ c * fl_den x → fl_ceil x = c.
Proof.
  intros Hx. unfold fl_ceil. pose proof (fl_den_pos x).
  rewrite <-(Z.div_unique (- fl_num x) (fl_den x) (- c) (c * fl_den x - fl_num x)); lia.
Qed.

(** A number below [2 ^ 53] leaves nothing to round off before the point. *)
Lemma scale_of_nonneg n d : 0 < d → 0 ≤ n → n < 2 ^ 53 * d → 0 ≤ scale_of n d.
Proof.
  intros Hd Hz Hn. unfold scale_of.
  assert (Hl : Z.log2 n - Z.log2 d ≤ 53).
  { pose proof (Z.log2_le_mono n (2 ^ 53 * d) ltac:(lia)) as Hm. rewrite Z.mul_comm, Z.log2_mul_pow2 in Hm by lia. lia. }
  destruct (decide (Z.log2 n - Z.log2 d = 53)) as [->|Hne]; [|case_decide; lia].
  rewrite decide_True; [lia|]. change (52 - 53) with (- 1). change (Z.max 0 (- 1)) with 0. change (Z.max 0 (- - 1)) with 1. lia.
Qed.

(** The mantissa has 53 bits. *)
Lemma scale_of_full n d : 0 < d → 0 < n → 0 ≤ scale_of n d → 2 ^ 52 * d ≤ n * 2 ^ scale_of n d.
Proof.
  intros Hd Hn. unfold scale_of. set (s := 52 - (Z.log2 n - Z.log2 d)).
  destruct (Z.log2_spec n Hn) as [Hn1 _]. destruct (Z.log2_spec d Hd) as [_ Hd2].
  pose proof (Z.log2_nonneg n). pose proof (Z.log2_nonneg d). case_decide as Hc; intros Hs.
  - assert (Hpow : 2 ^ Z.log2 n * 2 ^ (s + 1) = 2 ^ 52 * 2 ^ Z.succ (Z.log2 d)).
    { rewrite <-!Z.pow_add_r by lia. f_equal. lia. }
    pose proof (Z.pow_pos_nonneg 2 (s + 1)). nia.
  - rewrite (Z.max_r 0 s), (Z.max_l 0 (- s)) in Hc by lia. rewrite Z.pow_0_r in Hc. lia.
Qed.

(** The rounding of a quotient of numbers below [2 ^ 53] does not reach the integer below it. *)
Lemma fl_round_above n d c D :
  0 < D → 0 < d → 0 < n < 2 ^ 53 → (c - 1) * d < n → (c - 1) * fl_den (fl_round (n * D) (d * D)) < fl_num (fl_round (n * D) (d * D)).
Proof.
  intros HD Hd Hn Hc. assert (Hs : 0 ≤ scale_of (n * D) (d * D)) by (apply scale_of_nonneg; nia).
  pose proof (scale_of_full (n * D) (d * D) ltac:(nia) ltac:(nia) Hs) as Hfull.
  unfold fl_num, fl_den, fl_round. cbn [fl_man fl_scale].
  rewrite (Z.max_l 0 (- _)), (Z.max_r 0 (scale_of _ _)) by lia. rewrite !Z.pow_0_r, !Z.mul_1_r.
  set (p := 2 ^ scale_of (n * D) (d * D)) in *. assert (Hp : 0 < p) by (apply Z.pow_pos_nonneg; lia).
  pose proof (rdiv_close (n * D * p) (d * D) ltac:(nia)) as Hr. set (m := rdiv _ _) in *.
  apply Z.nle_gt. intros Hle.
  assert (H1 : m * d ≤ (n - 1) * p) by nia.
  assert (H2 : 2 * p ≤ d).
  { assert (D * (2 * p) ≤ D * d); [|nia].
    assert (D * p ≤ n * D * p - m * (d * D)); [|lia].
    replace (n * D * p - m * (d * D)) with (D * (n * p - m * d)) by ring. apply Z.mul_le_mono_nonneg_l; lia. }
  assert (H3 : 2 ^ 52 * d ≤ n * p); [|nia].
  apply (Z.mul_le_mono_pos_r _ _ D); [done|]. lia.
Qed.

(** The ceiling of the rounded quotient is the ceiling of the quotient. *)
Lemma fl_div_ceil n d : 0 ≤ n < 2 ^ 53 → 0 < d < 2 ^ 53 → fl_ceil (fl_div (fl_of_int n) (fl_of_int d)) = (n + d - 1) / d.
Proof.
  intros Hn Hd. pose proof (fl_of_int_exact n Hn) as Hx. pose proof (fl_of_int_exact d ltac:(lia)) as Hy.
  pose proof (fl_den_pos (fl_of_int n)) as Dx. pose proof (fl_den_pos (fl_of_int d)) as Dy.
  unfold fl_div. rewrite Hx, Hy. set (D := fl_den (fl_of_int n) * fl_den (fl_of_int d)).
  assert (HD : 0 < D) by (unfold D; nia).
  replace (n * fl_den (fl_of_int n) * fl_den (fl_of_int d)) with (n * D) by (unfold D; ring).
  replace (fl_den (fl_of_int n) * (d * fl_den (fl_of_int d))) with (d * D) by (unfold D; ring).
  clearbody D. clear Hx Hy Dx Dy. pose proof (Z.div_mod (n + d - 1) d ltac:(lia)) as Hq.
  pose proof (Z.mod_pos_bound (n + d - 1) d ltac:(lia)) as Hm. set (c := (n + d - 1) / d) in *.
  apply fl_ceil_spec. split.
  - destruct (decide (n = 0)) as [->|Hne]; [|apply fl_round_above; nia].
    assert (c = 0) as -> by nia. pose proof (fl_den_pos (fl_round (0 * D) (d * D))).
    assert (0 ≤ fl_num (fl_round (0 * D) (d * D))); [|lia].
    assert (Hs : 0 ≤ scale_of (0 * D) (d * D)) by (apply scale_of_nonneg; nia).
    pose proof (fl_round_ge (0 * D) (d * D) 0 ltac:(nia) ltac:(lia) Hs). lia.
  - apply fl_round_le; [nia|nia|]. apply scale_of_nonneg; nia.
Qed.

(** ** Products *)

Lemma scale_of_full_neg n d : 0 < d → 0 < n → scale_of n d < 0 → 2 ^ 52 * (d * 2 ^ (- scale_of n d)) ≤ n.
Proof.
  intros Hd Hn. unfold scale_of. set (s := 52 - (Z.log2 n - Z.log2 d)).
  destruct (Z.log2_spec n Hn) as [Hn1 _]. destruct (Z.log2_spec d Hd) as [_ Hd2].
  pose proof (Z.log2_nonneg n). pose proof (Z.log2_nonneg d). case_decide as Hc; intros Hs.
  - assert (Hpow : 2 ^ 52 * (2 ^ Z.succ (Z.log2 d) * 2 ^ (- (s + 1))) = 2 ^ Z.log2 n).
    { rewrite <-!Z.pow_add_r by lia. f_equal. lia. }
    pose proof (Z.pow_pos_nonneg 2 (- (s + 1))). nia.
  - rewrite (Z.max_l 0 s), (Z.max_r 0 (- s)) in Hc by lia. rewrite Z.pow_0_r in Hc. lia.
Qed.

(** Rounding keeps above an integer of at most 53 bits, however large the number. *)
Lemma fl_round_above_int n d c :
  0 < d → 0 ≤ c < 2 ^ 53 → 0 < n → c * d ≤ n → c * fl_den (fl_round n d) ≤ fl_num (fl_round n d).
Proof.
  intros Hd Hc Hn Hle. destruct (decide (0 ≤ scale_of n d)) as [Hs|Hs]; [by apply fl_round_ge|].
  pose proof (scale_of_full_neg n d Hd Hn ltac:(lia)) as Hfull.
  unfold fl_num, fl_den, fl_round. cbn [fl_man fl_scale].
  rewrite (Z.max_r 0 (- scale_of n d)), (Z.max_l 0 (scale_of n d)), Z.pow_0_r, !Z.mul_1_r by lia.
  assert (Hp : 2 ≤ 2 ^ (- scale_of n d)).
  { replace (- scale_of n d) with (1 + (- scale_of n d - 1)) by lia. rewrite Z.pow_add_r by lia.
    pose proof (Z.pow_pos_nonneg 2 (- scale_of n d - 1)). lia. }
  pose proof (rdiv_ge n (d * 2 ^ (- scale_of n d)) (2 ^ 52) ltac:(nia) ltac:(lia)) as Hr. nia.
Qed.

(** Multiplying by at least one does not make an integer smaller. *)
Lemma fl_mul_grows n m : 0 < n < 2 ^ 53 → fl_den m ≤ fl_num m → n ≤ fl_trunc (fl_mul (fl_of_int n) m).
Proof.
  intros Hn Hm. unfold fl_trunc. apply Z.div_le_lower_bound; [apply fl_den_pos|]. rewrite Z.mul_comm. unfold fl_mul.
  rewrite (fl_of_int_exact n) by lia. pose proof (fl_den_pos (fl_of_int n)). pose proof (fl_den_pos m).
  assert (Hnd : 0 < n * fl_den (fl_of_int n)) by nia.
  apply fl_round_above_int; [nia|lia|nia|]. rewrite Z.mul_assoc. by apply Z.mul_le_mono_nonneg_l; [lia|].
Qed.
