(* ===== verification/GoText.v ===== *)
(** * Parsing of text: what the sources use of strconv, strings and time

    [strconv.Atoi], [ParseInt], [ParseUint] and [ParseBool], [strings.Split],
    [SplitN] with two parts, [TrimSpace] on ASCII text, and [time.ParseDuration], written as
    the Go library writes them, with their overflow checks and the [float64] arithmetic of
    fractions; the scale of a fraction is at most 10^19 and so exact in [float64]. *)

From Stdlib Require Import Ascii.
From S2P Require Import Prelude GoFloat.

#[local] Open Scope Z_scope.

(** ** Numbers *)

Definition digit (c : ascii) : option Z :=
  let n := Z.of_nat (nat_of_ascii c) in
  if decide (48 ≤ n ∧ n ≤ 57) then Some (n - 48) else None.

Definition ErrSyntax : error := ErrNew "invalid syntax".
Definition ErrRange : error := ErrNew "value out of range".

(** All of [s] as decimal digits after the value [acc]. *)
Fixpoint parse_digits (s : string) (acc : Z) : option Z :=
  match s with
  | EmptyString => Some acc
  | String c s' => match digit c with Some d => parse_digits s' (acc * 10 + d) | None => None end
  end.

(** [strconv.ParseUint(s, 10, 64)] *)
Definition ParseUint (s : string) : res Z :=
  if decide (s = "") then Err ErrSyntax
  else
    match parse_digits s 0 with
    | None => Err ErrSyntax
    | Some n => if decide (n < two64) then Ok n else Err ErrRange
    end.

(** The sign and the rest. *)
Definition sign (s : string) : bool * string :=
  match s with
  | String c s' =>
      if decide (c = "-"%char) then (true, s') else if decide (c = "+"%char) then (false, s') else (false, s)
  | EmptyString => (false, s)
  end.

(** [strconv.ParseInt(s, 10, 64)], and [strconv.Atoi(s)] *)
Definition ParseInt (s : string) : res Z :=
  let '(neg, s') := sign s in
  match ParseUint s' with
  | Err e => Err e
  | Ok n =>
      if (neg : bool) then if decide (n ≤ two63) then Ok (- n) else Err ErrRange
      else if decide (n < two63) then Ok n else Err ErrRange
  end.

Definition Atoi : string → res Z := ParseInt.

Definition ParseBool (s : string) : res bool :=
  if decide (s ∈ ["1"; "t"; "T"; "TRUE"; "true"; "True"]) then Ok true
  else if decide (s ∈ ["0"; "f"; "F"; "FALSE"; "false"; "False"]) then Ok false
  else Err ErrSyntax.

(** ** Strings *)

(** The text before the first [sep], and the text after it if there is one. *)
Fixpoint cut (sep : ascii) (s : string) : string * option string :=
  match s with
  | EmptyString => ("", None)
  | String c s' =>
      if decide (c = sep) then ("", Some s') else let '(a, b) := cut sep s' in (String c a, b)
  end.

(** [strings.Split(s, sep)] for a one-byte separator *)
Fixpoint split (sep : ascii) (s : string) : list string :=
  match s with
  | EmptyString => [""]
  | String c s' =>
      if decide (c = sep) then "" :: split sep s'
      else match split sep s' with
           | w :: ws => String c w :: ws
           | [] => [String c ""]
           end
  end.

(** [strings.ContainsRune(s, c)] *)
Fixpoint contains_char (c : ascii) (s : string) : bool :=
  match s with
  | EmptyString => false
  | String d s' => bool_decide (c = d) || contains_char c s'
  end.

(** [strings.SplitN(s, sep, 2)] *)
Definition split2 (sep : ascii) (s : string) : list string :=
  match cut sep s with
  | (a, Some b) => [a; b]
  | (a, None) => [a]
  end.

(** [strings.Join(l, sep)] *)
Fixpoint join (sep : ascii) (l : list string) : string :=
  match l with
  | [] => ""
  | [w] => w
  | w :: l' => w +:+ String sep (join sep l')
  end.

Definition is_space (c : ascii) : bool :=
  let n := nat_of_ascii c in bool_decide (n = 32 ∨ 9 ≤ n ∧ n ≤ 13)%nat.

Fixpoint trim_left (s : string) : string :=
  match s with
  | String c s' => if is_space c then trim_left s' else s
  | EmptyString => s
  end.

Fixpoint trim_right (s : string) : string :=
  match s with
  | EmptyString => ""
  | String c s' =>
      match trim_right s' with
      | EmptyString => if is_space c then "" else String c ""
      | t => String c t
      end
  end.

(** [strings.TrimSpace(s)] *)
Definition TrimSpace (s : string) : string := trim_right (trim_left s).

(** ** Durations *)

Definition ErrDuration : error := ErrNew "time: invalid duration".

(** The leading decimal integer, which must not exceed 2^63, and the rest. *)
Fixpoint leadingInt (s : string) (x : Z) : option (Z * string) :=
  match s with
  | EmptyString => Some (x, s)
  | String c s' =>
      match digit c with
      | None => Some (x, s)
      | Some d =>
          if decide (two63 `div` 10 < x) then None
          else let y := x * 10 + d in
               if decide (two63 < y) then None else leadingInt s' y
      end
  end.

(** The digits after the point with their scale; digits that would overflow are skipped. *)
Fixpoint leadingFraction (s : string) (x scale : Z) (overflow : bool) : Z * Z * string :=
  match s with
  | EmptyString => (x, scale, s)
  | String c s' =>
      match digit c with
      | None => (x, scale, s)
      | Some d =>
          if overflow then leadingFraction s' x scale true
          else if decide ((two63 - 1) `div` 10 < x) then leadingFraction s' x scale true
          else let y := x * 10 + d in
               if decide (two63 < y) then leadingFraction s' x scale true
               else leadingFraction s' y (scale * 10) false
      end
  end.

Definition is_digit_or_dot (c : ascii) : bool := bool_decide (c = "."%char ∨ is_Some (digit c)).

(** The unit name: everything up to the next digit or point. *)
Fixpoint unit_name (s : string) : string * string :=
  match s with
  | EmptyString => ("", s)
  | String c s' =>
      if is_digit_or_dot c then ("", s) else let '(u, rest) := unit_name s' in (String c u, rest)
  end.

Definition micro_sign : string := String (ascii_of_nat 194) (String (ascii_of_nat 181) "s"). (* U+00B5 *)
Definition greek_mu : string := String (ascii_of_nat 206) (String (ascii_of_nat 188) "s"). (* U+03BC *)

Definition unitMap (u : string) : option Z :=
  if decide (u = "ns") then Some nanosecond
  else if decide (u = "us" ∨ u = micro_sign ∨ u = greek_mu) then Some 1000
  else if decide (u = "ms") then Some millisecond
  else if decide (u = "s") then Some second
  else if decide (u = "m") then Some minute
  else if decide (u = "h") then Some (60 * minute)
  else None.

(** The fraction after an optional point: digits, scale, whether there were any, the rest. *)
Definition fraction (s : string) : Z * Z * bool * string :=
  match s with
  | String c s' =>
      if decide (c = "."%char) then
        let '(f, scale, rest) := leadingFraction s' 0 1 false in
        (f, scale, bool_decide (String.length rest ≠ String.length s'), rest)
      else (0, 1, false, s)
  | EmptyString => (0, 1, false, s)
  end.

(** One number with its unit. *)
Definition duration_term (s : string) : option (Z * string) :=
  match s with
  | EmptyString => None
  | String c _ =>
      if negb (is_digit_or_dot c) then None
      else
        match leadingInt s 0 with
        | None => None
        | Some (v, s1) =>
            let pre := bool_decide (String.length s1 ≠ String.length s) in
            let '(f, scale, post, s2) := fraction s1 in
            if negb pre && negb post then None
            else
              let '(u, s3) := unit_name s2 in
              if decide (u = "") then None
              else
                match unitMap u with
                | None => None
                | Some unit =>
                    if decide (two63 `div` unit < v) then None
                    else
                      let v := v * unit in
                      let v := if decide (0 < f) then v + fl_trunc (fl_mul (fl_of_int f) (fl_div (fl_of_int unit) (fl_of_int scale))) else v in
                      if decide (two63 < v) then None else Some (v, s3)
                end
        end
  end.

(** The loop over the terms; each takes at least one character, so the length is enough fuel. *)
Fixpoint duration_terms (fuel : nat) (s : string) (d : Z) : option Z :=
  match fuel with
  | O => None
  | S fuel' =>
      if decide (s = "") then Some d
      else
        match duration_term s with
        | None => None
        | Some (v, rest) =>
            let d := d + v in if decide (two63 < d) then None else duration_terms fuel' rest d
        end
  end.

Definition ParseDuration (s : string) : res Duration :=
  let '(neg, s') := sign s in
  if decide (s' = "0") then Ok 0
  else if decide (s' = "") then Err ErrDuration
  else
    match duration_terms (S (String.length s')) s' 0 with
    | None => Err ErrDuration
    | Some d =>
        if (neg : bool) then Ok (- d)
        else if decide (two63 - 1 < d) then Err ErrDuration else Ok d
    end.

(** ** Ranges *)

Lemma digit_range c d : digit c = Some d → 0 ≤ d ≤ 9.
Proof. unfold digit. case_decide; intros [= <-]; lia. Qed.

Lemma parse_digits_nonneg s acc n : parse_digits s acc = Some n → 0 ≤ acc → 0 ≤ n.
Proof.
  revert acc. induction s as [|c s IH]; intros acc; simpl; [by intros [= <-]|].
  destruct (digit c) as [d|] eqn:Hd; [|done]. apply digit_range in Hd. intros ? ?. eapply IH; [done|lia].
Qed.

Lemma ParseUint_range s n : ParseUint s = Ok n → is_uint64 n.
Proof.
  unfold ParseUint. case_decide; [done|]. destruct (parse_digits s 0) eqn:Hp; [|done].
  apply parse_digits_nonneg in Hp; [|done]. case_decide; [|done]. intros [= <-]. done.
Qed.

Lemma ParseInt_range s z : ParseInt s = Ok z → is_int64 z.
Proof.
  unfold ParseInt. destruct (sign s) as [neg s']. destruct (ParseUint s') as [n|] eqn:Hn; [|done].
  apply ParseUint_range in Hn. unfold is_uint64, is_int64, two63, two64 in *.
  destruct neg; case_decide; intros [= <-]; lia.
Qed.

Lemma leadingInt_range s x v rest : leadingInt s x = Some (v, rest) → 0 ≤ x → 0 ≤ v.
Proof.
  revert x. induction s as [|c s IH]; intros x; simpl; [by intros [= <- _]|].
  destruct (digit c) as [d|] eqn:Hd; [|by intros [= <- _]]. apply digit_range in Hd.
  do 2 (case_decide; [done|]). intros ? ?. eapply IH; [done|lia].
Qed.

Lemma leadingFraction_range s x sc o f sc' rest :
  leadingFraction s x sc o = (f, sc', rest) → 0 ≤ x → 0 < sc → 0 ≤ f ∧ 0 < sc'.
Proof.
  revert x sc o. induction s as [|c s IH]; intros x sc o; simpl; [by intros [= <- <- _]|].
  destruct (digit c) as [d|] eqn:Hd; [|by intros [= <- <- _]]. apply digit_range in Hd.
  destruct o; [apply IH|]. case_decide; [apply IH|]. case_decide; [apply IH|].
  intros Heq ? ?. apply IH in Heq; [done|lia..].
Qed.

Lemma unitMap_pos u unit : unitMap u = Some unit → 0 < unit.
Proof. unfold unitMap, nanosecond, millisecond, second, minute. repeat case_decide; intros [= <-]; lia. Qed.

Lemma duration_term_range s v rest : duration_term s = Some (v, rest) → 0 ≤ v ≤ two63.
Proof.
  unfold duration_term. destruct s as [|c s]; [done|]. destruct (negb _); [done|].
  destruct (leadingInt _ _) as [[v0 s1]|] eqn:Hl; [|done]. apply leadingInt_range in Hl; [|done].
  destruct (fraction s1) as [[[f sc] post] s2] eqn:Hf.
  assert (0 ≤ f ∧ 0 < sc) as [Hf0 Hsc].
  { unfold fraction in Hf. destruct s1 as [|c1 s1]; [by simplify_eq|]. case_decide; [|by simplify_eq].
    destruct (leadingFraction _ _ _ _) as [[f' sc'] r] eqn:Hlf. simplify_eq.
    by apply leadingFraction_range in Hlf. }
  destruct (_ && _); [done|]. destruct (unit_name s2) as [u s3]. case_decide; [done|].
  destruct (unitMap u) as [unit|] eqn:Hu; [|done]. apply unitMap_pos in Hu.
  case_decide; [done|]. case_decide; [done|]. intros [= <- _].
  split; [|lia]. case_decide; [|nia]. pose proof (fl_fraction_nonneg f unit sc). nia.
Qed.

Lemma duration_terms_range n s d r : duration_terms n s d = Some r → 0 ≤ d ≤ two63 → 0 ≤ r ≤ two63.
Proof.
  revert s d. induction n as [|n IH]; intros s d; simpl; [done|]. case_decide; [by intros [= <-]|].
  destruct (duration_term s) as [[v rest]|] eqn:Ht; [|done]. apply duration_term_range in Ht.
  case_decide; [done|]. intros H1 ?. eapply IH; [done|lia].
Qed.

(** A parsed duration is an [int64]. *)
Lemma ParseDuration_range s d : ParseDuration s = Ok d → is_int64 d.
Proof.
  unfold ParseDuration. destruct (sign s) as [neg s']. case_decide; [by intros [= <-]|]. case_decide; [done|].
  destruct (duration_terms _ _ _) as [r|] eqn:Hr; [|done]. apply duration_terms_range in Hr; [|done].
  unfold is_int64, two63 in *. destruct neg; [intros [= <-]; lia|]. case_decide; intros [= <-]; lia.
Qed.

(** ** The fuel of [ParseDuration] *)

Lemma leadingInt_length s x v rest : leadingInt s x = Some (v, rest) → (String.length rest ≤ String.length s)%nat.
Proof.
  revert x. induction s as [|c s IH]; intros x; simpl; [by intros [= _ <-]|].
  destruct (digit c); [|by intros [= _ <-]]. do 2 (case_decide; [done|]). intros H1%IH. lia.
Qed.

Lemma leadingFraction_length s x sc o f sc' rest :
  leadingFraction s x sc o = (f, sc', rest) → (String.length rest ≤ String.length s)%nat.
Proof.
  revert x sc o. induction s as [|c s IH]; intros x sc o; simpl; [by intros [= _ _ <-]|].
  destruct (digit c); [|by intros [= _ _ <-]].
  destruct o; [intros ?%IH; lia|]. do 2 (case_decide; [intros ?%IH; lia|]). intros ?%IH. lia.
Qed.

Lemma unit_name_length s u rest :
  unit_name s = (u, rest) → (String.length u + String.length rest = String.length s)%nat.
Proof.
  revert u. induction s as [|c s IH]; intros u; simpl; [by intros [= <- <-]|].
  destruct (is_digit_or_dot c); [by intros [= <- <-]|].
  destruct (unit_name s) as [u' r]. intros [= <- <-]. simpl. by rewrite (IH u').
Qed.

Lemma duration_term_length s v rest : duration_term s = Some (v, rest) → (String.length rest < String.length s)%nat.
Proof.
  unfold duration_term. destruct s as [|c s]; [done|]. destruct (negb _); [done|].
  destruct (leadingInt _ _) as [[v0 s1]|] eqn:Hl; [|done]. apply leadingInt_length in Hl.
  destruct (fraction s1) as [[[f sc] post] s2] eqn:Hf.
  assert (Hs2 : (String.length s2 ≤ String.length s1)%nat).
  { unfold fraction in Hf. destruct s1 as [|c1 s1]; [by simplify_eq|]. case_decide; [|by simplify_eq].
    destruct (leadingFraction _ _ _ _) as [[f' sc'] r] eqn:Hlf. simplify_eq/=.
    apply leadingFraction_length in Hlf. lia. }
  destruct (_ && _); [done|]. destruct (unit_name s2) as [u s3] eqn:Hu. apply unit_name_length in Hu.
  case_decide as Hne; [done|]. destruct u as [|uc u]; [done|]. simpl in Hu.
  destruct (unitMap _); [|done]. repeat (case_decide; [done|]). intros [= _ <-]. lia.
Qed.

(** More fuel than one step per character changes nothing. *)
Lemma duration_terms_fuel n m s d :
  (String.length s < n)%nat → (String.length s < m)%nat → duration_terms n s d = duration_terms m s d.
Proof.
  revert m s d. induction n as [|n IH]; intros [|m] s d Hn Hm; [lia..|]; simpl. case_decide; [done|].
  destruct (duration_term s) as [[v rest]|] eqn:Ht; [|done]. apply duration_term_length in Ht.
  case_decide; [done|]. apply IH; lia.
Qed.

(** ** Round trips with printed values *)

Lemma digit_pretty x : (x < 10)%N → digit (pretty_N_char x) = Some (Z.of_N x).
Proof.
  intros Hx. assert (Hc : (x = 0 ∨ x = 1 ∨ x = 2 ∨ x = 3 ∨ x = 4 ∨ x = 5 ∨ x = 6 ∨ x = 7 ∨ x = 8 ∨ x = 9)%N) by lia.
  repeat destruct Hc as [-> | Hc]; [done..|]. by subst.
Qed.

Lemma pretty_N_go_app x s : pretty_N_go x s = pretty_N_go x "" +:+ s.
Proof.
  revert s. induction (N.lt_wf_0 x) as [x _ IH]; intros s.
  assert (x = 0 ∨ 0 < x)%N as [-> | Hx] by lia; [by rewrite !pretty_N_go_0|].
  rewrite (pretty_N_go_step x s), (pretty_N_go_step x "") by done.
  rewrite IH, (IH _ (N.div_lt x 10 Hx eq_refl) (String _ "")) by by apply N.div_lt.
  by rewrite <-string_app_assoc.
Qed.

(** A left-to-right reader of digits that accumulates below a bound reads back what
    [pretty] printed. *)
Lemma read_pretty {R} (f : string → Z → R) (bound : Z) :
  (∀ c d s x, digit c = Some d → 0 ≤ x → x * 10 + d ≤ bound → f (String c s) x = f s (x * 10 + d)) →
  ∀ n s, Z.of_N n ≤ bound → f (pretty_N_go n s) 0 = f s (Z.of_N n).
Proof.
  intros Hf n. induction (N.lt_wf_0 n) as [n _ IH]; intros s Hb.
  assert (n = 0 ∨ 0 < n)%N as [-> | Hn] by lia; [by rewrite pretty_N_go_0|].
  pose proof (N.div_mod n 10 ltac:(lia)) as Hdm. pose proof (N.mod_lt n 10 ltac:(lia)) as Hm.
  assert (Hle : (n `div` 10 ≤ n)%N) by (apply N.Div0.div_le_upper_bound; lia).
  rewrite pretty_N_go_step by done. rewrite IH; [|by apply N.div_lt|lia].
  rewrite (Hf _ _ _ _ (digit_pretty _ Hm)) by lia. f_equal. lia.
Qed.

Lemma parse_digits_pretty (n : N) : parse_digits (pretty n) 0 = Some (Z.of_N n).
Proof.
  unfold pretty, pretty_N. case_decide; [by subst|].
  rewrite (read_pretty parse_digits (Z.of_N n)); [done| |done]. intros c d s x Hd _ _. simpl. by rewrite Hd.
Qed.

Lemma pretty_N_nonempty (n : N) : pretty n ≠ "".
Proof.
  intros He. pose proof (parse_digits_pretty n) as Hp. rewrite He in Hp. simpl in Hp.
  injection Hp as Hn. destruct n; [by vm_compute in He|lia].
Qed.

Lemma ParseUint_pretty (n : N) : Z.of_N n < two64 → ParseUint (pretty n) = Ok (Z.of_N n).
Proof.
  intros Hn. unfold ParseUint. rewrite decide_False by apply pretty_N_nonempty.
  by rewrite parse_digits_pretty, decide_True.
Qed.

(** A printed number starts with a digit. *)
Lemma pretty_N_head (n : N) s : ∃ c d s', pretty n +:+ s = String c s' ∧ digit c = Some d.
Proof.
  pose proof (parse_digits_pretty n) as Hp. pose proof (pretty_N_nonempty n).
  destruct (pretty n) as [|c s']; [done|]. simpl in *. destruct (digit c) eqn:Hd; [|done]. eauto.
Qed.

Lemma sign_pretty (n : N) s : sign (pretty n +:+ s) = (false, pretty n +:+ s).
Proof.
  destruct (pretty_N_head n s) as (c & d & s' & -> & Hd). simpl.
  by repeat (case_decide; [by subst|]).
Qed.

(** Printed integers: a sign and a natural number. *)
Lemma pretty_Z_cases (z : Z) :
  (0 ≤ z ∧ pretty z = pretty (Z.to_N z)) ∨ (z < 0 ∧ pretty z = "-" +:+ pretty (Z.to_N (- z))).
Proof. destruct z; [left; split; [lia|done]..|right; split; [lia|done]]. Qed.

Lemma ParseInt_pretty (z : Z) : is_int64 z → ParseInt (pretty z) = Ok z.
Proof.
  unfold is_int64, two63. intros Hz. unfold ParseInt. destruct (pretty_Z_cases z) as [[Hp ->]|[Hn ->]].
  - pose proof (sign_pretty (Z.to_N z) "") as Hs. rewrite string_app_nil in Hs. rewrite Hs.
    rewrite ParseUint_pretty by (unfold two64; lia). rewrite decide_True by (unfold two63; lia). f_equal. lia.
  - change (sign ("-" +:+ pretty (Z.to_N (- z)))) with (true, pretty (Z.to_N (- z))). cbv iota.
    rewrite ParseUint_pretty by (unfold two64; lia). rewrite decide_True by (unfold two63; lia). f_equal. lia.
Qed.

(** A duration printed as a number of nanoseconds. *)
Definition print_ns (d : Z) : string := pretty d +:+ "ns".

Lemma leadingInt_pretty (n : N) s :
  Z.of_N n ≤ two63 → (∀ c s', s = String c s' → digit c = None) →
  leadingInt (pretty n +:+ s) 0 = Some (Z.of_N n, s).
Proof.
  intros Hn Hs. assert (Hend : leadingInt s (Z.of_N n) = Some (Z.of_N n, s)).
  { destruct s as [|c s]; [done|]. simpl. by rewrite (Hs c s). }
  unfold pretty, pretty_N. case_decide as H0; [subst n|].
  - exact Hend.
  - rewrite <-pretty_N_go_app. rewrite (read_pretty leadingInt two63); [done| |done].
    intros c d s' x Hd Hx Hb. cbn [leadingInt]. rewrite Hd. apply digit_range in Hd.
    change (two63 `div` 10) with 922337203685477580.
    rewrite decide_False by (unfold two63 in *; lia). by rewrite decide_False by lia.
Qed.

Lemma duration_term_ns (n : N) : Z.of_N n ≤ two63 → duration_term (pretty n +:+ "ns") = Some (Z.of_N n, "").
Proof.
  intros Hn. pose proof (leadingInt_pretty n "ns" Hn ltac:(by intros c s' [= <- _])) as Hl.
  pose proof (length_app_string (pretty n) "ns") as Hlen. pose proof (pretty_N_nonempty n) as Hne.
  destruct (pretty_N_head n "ns") as (c & d & s' & Heq & Hd). unfold duration_term. rewrite Heq in *.
  assert (Hdot : is_digit_or_dot c = true) by (apply bool_decide_eq_true; right; by rewrite Hd).
  rewrite Hdot, Hl. simpl negb. cbv iota. change (fraction "ns") with (0, 1, false, "ns"). cbv iota beta.
  rewrite bool_decide_true. 2: { destruct (pretty n); [done|]. simpl in *. lia. }
  simpl andb. cbv iota. change (unit_name "ns") with ("ns", ""). cbv iota.
  rewrite decide_False by done. change (unitMap "ns") with (Some 1). cbv iota.
  rewrite Z.div_1_r, Z.mul_1_r, decide_False by lia. rewrite (decide_False (P := 0 < 0)) by lia.
  by rewrite decide_False by lia.
Qed.

Lemma ParseDuration_ns (d : Z) : is_int64 d → ParseDuration (print_ns d) = Ok d.
Proof.
  unfold is_int64, two63. intros Hd. unfold ParseDuration, print_ns.
  assert (Hgo : ∀ n, Z.of_N n ≤ two63 →
    pretty n +:+ "ns" ≠ "0" ∧ pretty n +:+ "ns" ≠ "" ∧
    duration_terms (S (String.length (pretty n +:+ "ns"))) (pretty n +:+ "ns") 0 = Some (Z.of_N n)).
  { intros n Hn. pose proof (length_app_string (pretty n) "ns") as Hlen. simpl in Hlen.
    assert (Hne : pretty n +:+ "ns" ≠ "") by (intros Hc; rewrite Hc in Hlen; simpl in Hlen; lia).
    split; [intros Hc; rewrite Hc in Hlen; simpl in Hlen; destruct (pretty n) eqn:Hp; simpl in *;
      [by apply (pretty_N_nonempty n)|lia]|]. split; [done|].
    rewrite Hlen. rewrite Nat.add_comm. cbn [duration_terms Nat.add]. rewrite decide_False by done.
    rewrite duration_term_ns by done. rewrite Z.add_0_l, decide_False by lia. by rewrite decide_True. }
  destruct (pretty_Z_cases d) as [[Hp ->]|[Hn ->]].
  - rewrite sign_pretty. destruct (Hgo (Z.to_N d) ltac:(unfold two63; lia)) as (H1 & H2 & H3).
    rewrite !decide_False by done. rewrite H3. rewrite decide_False by (unfold two63; lia). f_equal. lia.
  - change (sign (("-" +:+ pretty (Z.to_N (- d))) +:+ "ns")) with (true, pretty (Z.to_N (- d)) +:+ "ns").
    destruct (Hgo (Z.to_N (- d)) ltac:(unfold two63; lia)) as (H1 & H2 & H3). cbv iota beta.
    rewrite !decide_False by done. rewrite H3. f_equal. lia.
Qed.

(** ** Joined lists *)

Lemma contains_char_app c a b : contains_char c (a +:+ b) = contains_char c a || contains_char c b.
Proof. induction a as [|d a IH]; simpl; [done|]. by rewrite IH, orb_assoc. Qed.

Lemma split_no_sep sep w : contains_char sep w = false → split sep w = [w].
Proof.
  induction w as [|c w IH]; simpl; [done|]. intros [Hc Hw]%orb_false_iff. apply bool_decide_eq_false in Hc.
  rewrite decide_False by done. by rewrite IH.
Qed.

Lemma split_app sep w s : contains_char sep w = false → split sep (w +:+ String sep s) = w :: split sep s.
Proof.
  induction w as [|c w IH]; simpl; [by rewrite decide_True by done|].
  intros [Hc Hw]%orb_false_iff. apply bool_decide_eq_false in Hc.
  rewrite decide_False by done. by rewrite IH.
Qed.

Lemma split_join sep l : l ≠ [] → Forall (λ w, contains_char sep w = false) l → split sep (join sep l) = l.
Proof.
  intros Hne Hl. induction Hl as [|w [|w' l] Hw _ IH]; [done|by apply split_no_sep|].
  change (join sep (w :: w' :: l)) with (w +:+ String sep (join sep (w' :: l))). rewrite split_app by done. by rewrite IH.
Qed.
