(* ===== verification/Util.v ===== *)
(** * The utilities: internal/logging, internal/raftutil and internal/utils

    The logger is its threshold and its attributes; a call of it yields the records that
    reach the console and, for the fatal calls, the status the process exits with.  The
    handler is slog's text handler, which drops the records below its level.

    [WaitForLeader] polls Raft: the k-th look at the clock and the k-th answer of Raft are
    parameters. *)

From Stdlib Require Import Ascii.
From S2P Require Import Prelude.

(** ** internal/logging/logger.go *)

Notation Level := Z (only parsing).
Definition LevelDebug : Level := (-4)%Z.
Definition LevelInfo : Level := 0%Z.
Definition LevelWarn : Level := 4%Z.
Definition LevelError : Level := 8%Z.

(** [strings.ToUpper] on ASCII text. *)
Definition upper (c : ascii) : ascii :=
  let n := nat_of_ascii c in if decide (97 ≤ n ≤ 122) then ascii_of_nat (n - 32) else c.
Fixpoint ToUpper (s : string) : string :=
  match s with EmptyString => EmptyString | String c s => String (upper c) (ToUpper s) end.

Definition getLogLevel (env : string → string) : Level :=
  let level := ToUpper (env "LOG_LEVEL") in
  if decide (level = "DEBUG") then LevelDebug
  else if decide (level = "INFO") then LevelInfo
  else if decide (level = "WARN") then LevelWarn
  else if decide (level = "ERROR") then LevelError
  else LevelInfo.

(** An attribute: a key with a text, or with an error that may be nil. *)
Inductive value := TextV (s : string) | ErrorV (e : option error).
Notation attr := (string * value)%type.

Record log_record := mkLogRecord { lr_level : Level; lr_msg : string; lr_attrs : list attr }.

(** A [slog.Logger]; [CLogger] embeds one. *)
Record Logger := mkLogger { lg_level : Level; lg_attrs : list attr }.

Definition slog_Default : Logger := mkLogger LevelInfo [].
Definition NewCLogger (env : string → string) : Logger := mkLogger (getLogLevel env) [].
Definition NewConsoleLogger : (string → string) → Logger := NewCLogger.
Definition With (args : list attr) (l : Logger) : Logger := mkLogger (lg_level l) (lg_attrs l ++ args).

Definition log_at (lvl : Level) (msg : string) (args : list attr) (l : Logger) : list log_record :=
  if decide (lg_level l ≤ lvl)%Z then [mkLogRecord lvl msg (lg_attrs l ++ args)] else [].

(** A nil logger is replaced by the default one. *)
Definition LogError (logger : option Logger) (msg : string) (err : option error) (args : list attr) : list log_record :=
  log_at LevelError msg (args ++ [("error", ErrorV err)]) (default slog_Default logger).

(** The records and the exit status. *)
Definition LogFatalError (logger : option Logger) (msg : string) (err : option error) (args : list attr) : list log_record * Z :=
  (LogError logger msg err args, 1%Z).
Definition LogFatal (logger : option Logger) (msg : string) (args : list attr) : list log_record * Z :=
  (log_at LevelError msg args (default slog_Default logger), 1%Z).

Definition CLogger_Error (c : Logger) : string → option error → list attr → list log_record := LogError (Some c).
Definition CLogger_FatalError (c : Logger) : string → option error → list attr → list log_record * Z := LogFatalError (Some c).
Definition CLogger_Fatal (c : Logger) : string → list attr → list log_record * Z := LogFatal (Some c).

(** What a context carries under [loggerKey]; the value may be a nil logger. *)
Notation log_ctx := (option (option Logger)).
Definition WithLogger (ctx : log_ctx) (logger : option Logger) : log_ctx := Some logger.
Definition CtxLogger (ctx : log_ctx) : option Logger :=
  match ctx with Some l => l | None => Some slog_Default end.

(** Every logger the program can build comes from the environment or from slog, with
    attributes added: it shows errors, with the error as the last attribute, whatever
    [LOG_LEVEL] says. *)
Inductive built (env : string → string) : Logger → Prop :=
| built_new : built env (NewCLogger env)
| built_default : built env slog_Default
| built_with args l : built env l → built env (With args l).

Lemma built_level env l : built env l → (lg_level l ≤ LevelError)%Z.
Proof.
  induction 1; [|done|done]. cbn. unfold getLogLevel, LevelError, LevelDebug, LevelInfo, LevelWarn.
  repeat case_decide; lia.
Qed.

Theorem errors_are_logged (env : string → string) (logger : option Logger) (msg : string) (err : option error) (args : list attr) :
  (∀ l, logger = Some l → built env l) →
  ∃ attrs, LogError logger msg err args = [mkLogRecord LevelError msg (attrs ++ args ++ [("error", ErrorV err)])].
Proof.
  intros Hl. unfold LogError, log_at. exists (lg_attrs (default slog_Default logger)). rewrite decide_True; [done|].
  destruct logger as [l|]; [|done]. by apply (built_level env), Hl.
Qed.

(** Debug records are shown only when [LOG_LEVEL] says DEBUG, in any case. *)
Lemma debug_shown env msg args :
  log_at LevelDebug msg args (NewCLogger env) ≠ [] ↔ ToUpper (env "LOG_LEVEL") = "DEBUG".
Proof.
  unfold log_at. cbn [lg_level NewCLogger]. unfold getLogLevel.
  destruct (decide (ToUpper (env "LOG_LEVEL") = "DEBUG")) as [->|Hne]; [split; done|].
  split; [|done]. intros Hs. exfalso. apply Hs. rewrite decide_False; [done|].
  repeat case_decide; unfold LevelDebug, LevelInfo, LevelWarn, LevelError; lia.
Qed.

(** ** internal/utils/validate-filepath.go *)

Definition IsAbs (path : string) : bool := String.prefix "/" path.
Definition IsValidPath (path : string) : bool := IsAbs path || bool_decide (path ≠ "").

(** ** internal/raftutil/raftutil.go *)

(** [raft.RaftState] *)
Inductive raft_state := RaftFollower | RaftCandidate | RaftLeader | RaftShutdown.
#[global] Instance raft_state_eq_dec : EqDecision raft_state.
Proof. solve_decision. Defined.

Definition IsLeader (state : raft_state) : bool := bool_decide (state = RaftLeader).

Definition ErrLeaderTimeout : error := ErrNew "timed out waiting for raft leader".

(** The gap between two looks. *)
Definition poll_gap : Duration := 100000000%Z.

Section wait.
Context (now : nat → Z) (leader : nat → string).

(** The loop from its k-th look on; [None] is a loop that needs more fuel. *)
Fixpoint wait_loop (fuel k : nat) (deadline : Z) : option (option error) :=
  match fuel with
  | O => None
  | S fuel =>
      if decide (now k < deadline)%Z then
        if decide (leader k ≠ "") then Some None else wait_loop fuel (S k) deadline
      else Some (Some ErrLeaderTimeout)
  end.

Definition WaitForLeader (fuel : nat) (start : Z) (timeout : Duration) : option (option error) :=
  wait_loop fuel 0 (start + timeout).

(** A leader seen before the deadline, and at every earlier look in time. *)
Definition elected_by (deadline : Z) : Prop := ∃ k, leader k ≠ "" ∧ ∀ j, j ≤ k → (now j < deadline)%Z.

Lemma wait_loop_spec fuel k deadline :
  (∀ j, now j + poll_gap ≤ now (S j))%Z → (deadline - now k ≤ poll_gap * (Z.of_nat fuel - 1))%Z → 0 < fuel →
  (∀ j, j < k → leader j = "" ∧ (now j < deadline)%Z) →
  ∃ r, wait_loop fuel k deadline = Some r ∧ (r = None ↔ elected_by deadline) ∧ (r = None ∨ r = Some ErrLeaderTimeout).
Proof.
  intros Hgap. revert k. induction fuel as [|fuel IH]; intros k Hfuel Hpos Hbefore; [lia|]. cbn [wait_loop].
  assert (Hg : poll_gap = 100000000%Z) by done.
  destruct (decide (now k < deadline)%Z) as [Hlt|Hge].
  - destruct (decide (leader k ≠ "")) as [Hl|Hl].
    + exists None. split; [done|]. split; [|by left]. split; [|done]. intros _. exists k. split; [done|].
      intros j Hj. destruct (decide (j = k)) as [->|]; [done|]. by apply Hbefore; lia.
    + apply IH; [specialize (Hgap k); lia|lia|].
      intros j Hj. destruct (decide (j = k)) as [->|]; [|apply Hbefore; lia].
      split; [|done]. by destruct (decide (leader k = "")).
  - exists (Some ErrLeaderTimeout). split; [done|]. split; [|by right]. split; [done|].
    intros (i & Hi & Hall). destruct (decide (i < k)) as [Hik|Hik].
    + by destruct (Hbefore i Hik).
    + specialize (Hall k ltac:(lia)). lia.
Qed.
End wait.

(** Waiting for a leader ends: when the loop sleeps its hundred milliseconds between
    two looks, a number of looks bounded by the timeout is enough, and it returns without
    error exactly when some look before the deadline saw a leader. *)
Theorem wait_for_leader (now : nat → Z) (leader : nat → string) (start : Z) (timeout : Duration) (fuel : nat) :
  (∀ k : nat, now k + poll_gap ≤ now (S k))%Z → (start ≤ now 0%nat)%Z → (timeout / poll_gap + 2 ≤ Z.of_nat fuel)%Z → (0 ≤ timeout)%Z →
  ∃ r, WaitForLeader now leader fuel start timeout = Some r ∧ (r = None ↔ elected_by now leader (start + timeout)) ∧
    (r = None ∨ r = Some ErrLeaderTimeout).
Proof.
  intros Hgap Hstart Hfuel Ht. assert (Hg : poll_gap = 100000000%Z) by done.
  pose proof (Z.div_pos timeout poll_gap Ht ltac:(lia)). pose proof (Z.mul_succ_div_gt timeout poll_gap ltac:(lia)).
  apply wait_loop_spec; [done|nia|lia|lia].
Qed.

Lemma wait_for_leader_witness :
  WaitForLeader (λ k, Z.of_nat k * poll_gap)%Z (λ k, if decide (k = 3) then "n1" else "") 12 0 1000000000%Z = Some None ∧
  ∃ r, WaitForLeader (λ k, Z.of_nat k * poll_gap)%Z (λ _, "") 12 0 1000000000%Z = Some r ∧
    (r = None ↔ elected_by (λ k, Z.of_nat k * poll_gap)%Z (λ _, "") (0 + 1000000000)%Z) ∧ (r = None ∨ r = Some ErrLeaderTimeout).
Proof.
  split; [vm_compute; reflexivity|].
  apply (wait_for_leader (λ k, Z.of_nat k * poll_gap)%Z (λ _, "") 0 1000000000%Z 12); [unfold poll_gap; lia|done|vm_compute; congruence|lia].
Defined.
