(* ===== verification/Json.v ===== *)
(** * encoding/json, as the metadata service uses it

    A byte slice that holds JSON text is represented by the document the text
    denotes ([option json], [None] for text that is not JSON).  String literals
    that stand for a time, for base64 bytes or for a nested document are leaves
    of their own.  [dec_field] and [dec_struct] are the rules by which
    [json.Unmarshal] fills a struct: keys are matched to tags without regard to
    case, unknown keys are skipped, a missing key or a [null] leaves the field as
    it is, the last occurrence of a key wins, a value of the wrong type or out of
    range is an error. *)

From S2P Require Import Prelude.

#[local] Unset Elimination Schemes.
Inductive json :=
| JNull
| JBool (b : bool)
| JNum (z : Z)
| JStr (s : string)
| JTime (t : Time)
| JBytes (b : bytes)
| JDoc (d : option json)
| JArr (l : list json)
| JObj (l : list (string * json)).
#[local] Set Elimination Schemes.

(** The contents of a [[]byte] that should hold JSON text. *)
Definition doc := option json.

Definition json_type_error : error := ErrNew "json: cannot unmarshal value into Go struct field".
Definition json_syntax_error : error := ErrNew "json: invalid character".

(** ** Scalars *)

Definition dec_string (j : json) : res string :=
  match j with JNull => Ok "" | JStr s => Ok s | _ => Err json_type_error end.
Definition dec_bool (j : json) : res bool :=
  match j with JNull => Ok false | JBool b => Ok b | _ => Err json_type_error end.
Definition dec_uint64 (j : json) : res Z :=
  match j with
  | JNull => Ok 0%Z
  | JNum z => if decide (is_uint64 z) then Ok z else Err json_type_error
  | _ => Err json_type_error
  end.
Definition dec_int64 (j : json) : res Z :=
  match j with
  | JNull => Ok 0%Z
  | JNum z => if decide (is_int64 z) then Ok z else Err json_type_error
  | _ => Err json_type_error
  end.
Definition dec_time (j : json) : res Time :=
  match j with JNull => Ok zero_time | JTime t => Ok t | _ => Err json_type_error end.
Definition dec_bytes (j : json) : res bytes :=
  match j with JNull => Ok [] | JBytes b => Ok b | _ => Err json_type_error end.
Definition dec_doc (j : json) : res doc :=
  match j with JNull => Ok None | JDoc d => Ok d | _ => Err json_type_error end.

Definition enc_strings (l : list string) : json := JArr (JStr <$> l).
Definition dec_strings (j : json) : res (list string) :=
  match j with JNull => Ok [] | JArr l => res_mapM dec_string l | _ => Err json_type_error end.

(** ** Structs and maps *)

Definition lower_ascii (c : Ascii.ascii) : Ascii.ascii :=
  let n := Ascii.nat_of_ascii c in
  if decide (65 ≤ n ∧ n ≤ 90) then Ascii.ascii_of_nat (n + 32) else c.
Fixpoint fold_case (s : string) : string :=
  match s with
  | EmptyString => EmptyString
  | String c s' => String (lower_ascii c) (fold_case s')
  end.
Definition key_matches (tag key : string) : bool :=
  String.eqb (fold_case key) (fold_case tag).

Definition dec_field {A} (tag : string) (dec : json → res A) (zero : A)
    (o : list (string * json)) : res A :=
  foldl (λ acc kv,
    if key_matches tag kv.1 then
      match kv.2 with JNull => acc | j => let? _ := acc in dec j end
    else acc) (Ok zero) o.

(** A field of pointer type: [null] makes it [nil]. *)
Definition dec_ptr_entry {A} (tag : string) (dec : json → res A) (acc : res (option A)) (kv : string * json)
    : res (option A) :=
  if key_matches tag kv.1 then
    let? _ := acc in match kv.2 with JNull => Ok None | j => let? a := dec j in Ok (Some a) end
  else acc.
Definition dec_field_ptr {A} (tag : string) (dec : json → res A) (o : list (string * json)) : res (option A) :=
  foldl (dec_ptr_entry tag dec) (Ok None) o.

(** A field of type [json.RawMessage]: the value itself, [null] too. *)
Definition dec_field_raw (tag : string) (o : list (string * json)) : option json :=
  foldl (λ acc kv, if key_matches tag kv.1 then Some kv.2 else acc) None o.

Definition dec_struct {A} (zero : A) (f : list (string * json) → res A) (j : json) : res A :=
  match j with JNull => Ok zero | JObj o => f o | _ => Err json_type_error end.

Definition enc_map {V} (enc : V → json) (m : gmap string V) : json :=
  JObj ((λ kv, (kv.1, enc kv.2)) <$> map_to_list m).
Definition dec_map {V} (dec : json → res V) (j : json) : res (gmap string V) :=
  match j with
  | JNull => Ok ∅
  | JObj o =>
      foldl (λ acc kv, let? m := acc in let? v := dec kv.2 in Ok (<[kv.1 := v]> m)) (Ok ∅) o
  | _ => Err json_type_error
  end.

(** [json.Unmarshal(data, &v)] into a zero [v]. *)
Definition Unmarshal {A} (dec : json → res A) (data : doc) : res A :=
  match data with Some j => dec j | None => Err json_syntax_error end.

(** ** Round trips *)

Lemma dec_strings_arr l : dec_strings (JArr (JStr <$> l)) = Ok l.
Proof.
  unfold dec_strings.
  induction l as [|s l IH]; csimpl; [done|]. by rewrite IH.
Qed.

Lemma dec_uint64_num z : is_uint64 z → dec_uint64 (JNum z) = Ok z.
Proof. intros. simpl. by rewrite decide_True. Qed.
Lemma dec_int64_num z : is_int64 z → dec_int64 (JNum z) = Ok z.
Proof. intros. simpl. by rewrite decide_True. Qed.

(** What every decoded value satisfies, a pointer field satisfies. *)
Lemma dec_field_ptr_ok {A} (P : A → Prop) tag (dec : json → res A) o r :
  (∀ j a, dec j = Ok a → P a) → dec_field_ptr tag dec o = Ok (Some r) → P r.
Proof.
  intros Hdec. unfold dec_field_ptr.
  assert (Hacc : ∀ x, Ok None = Ok (Some x) → P x) by done. revert Hacc.
  generalize (Ok (@None A)) as acc. induction o as [|[k j] o IH]; intros acc Hacc; simpl; [apply Hacc|].
  apply IH. intros x. unfold dec_ptr_entry; simpl. destruct (key_matches tag k); [|apply Hacc].
  intros (? & _ & Hx)%res_bind_Ok.
  destruct j; try done; apply res_bind_Ok in Hx as (a & Ha & [= ->]); eauto.
Qed.

(** Decoding an encoded map applies the round trip of the values pointwise. *)
Lemma dec_map_entries {V} (enc : V → json) (dec : json → res V) (g : V → V)
    (l : list (string * V)) (acc : gmap string V) :
  (∀ k v, (k, v) ∈ l → dec (enc v) = Ok (g v)) →
  foldl (λ acc kv, let? m := acc in let? v := dec kv.2 in Ok (<[kv.1 := v]> m)) (Ok acc)
    ((λ kv, (kv.1, enc kv.2)) <$> l) =
  Ok (foldl (λ m kv, <[kv.1 := g kv.2]> m) acc l).
Proof.
  revert acc. induction l as [|[k v] l IH]; intros acc Hl; [done|]; simpl.
  rewrite (Hl k v) by set_solver. simpl. apply IH. set_solver.
Qed.

Lemma dec_map_enc {V} (enc : V → json) (dec : json → res V) (g : V → V) (m : gmap string V) :
  (∀ k v, m !! k = Some v → dec (enc v) = Ok (g v)) →
  dec_map dec (enc_map enc m) = Ok (g <$> m).
Proof.
  intros Hrt. unfold dec_map, enc_map. rewrite dec_map_entries with (g := g).
  - by rewrite foldl_insert_fmap, (right_id_L ∅ (∪)), list_to_map_to_list
      by apply NoDup_fst_map_to_list.
  - intros k v Hkv. apply (Hrt k). by apply elem_of_map_to_list.
Qed.
