(* ===== verification/FsmTypes.v ===== *)
(** * The metadata service's data model: types.go and commands.go

    The records are the structs of [metadata/fsm/types.go] and
    [metadata/fsm/commands.go], field by field, and each [enc_]/[dec_] pair is
    the JSON form its struct tags give it.  Status types are Go strings with
    named constants, and stay strings: nothing in the code restricts them to the
    constants.  The round-trip lemmas at the end are what [Propose] and [Apply],
    and [Persist] and [Restore], rely on. *)

From S2P Require Import Prelude Json.

(** ** Status constants *)

Definition FileStatusCreating : string := "creating".
Definition FileStatusComplete : string := "complete".
Definition FileStatusDeleted : string := "deleted".

Definition ChunkStatusAllocated : string := "allocated".
Definition ChunkStatusComplete : string := "complete".
Definition ChunkStatusLost : string := "lost".

Definition NodeStatusAlive : string := "alive".
Definition NodeStatusSuspect : string := "suspect".
Definition NodeStatusDead : string := "dead".
Definition NodeStatusDraining : string := "draining".

Definition RepairStatusPending : string := "pending".
Definition RepairStatusInProgress : string := "in-progress".
Definition RepairStatusDone : string := "done".
Definition RepairStatusFailed : string := "failed".

(** ** Registry records *)

(** A file tracked by the metadata service; [fr_ChunkIDs] is ordered by chunk index. *)
Record FileRecord := mkFileRecord {
  fr_FileID : string;
  fr_Filename : string;
  fr_FileSize : Z;
  fr_ChunkSize : Z;
  fr_CheckSum : bytes;
  fr_ChunkIDs : list string;
  fr_Status : string;
  fr_CreatedAt : Time;
  fr_UpdatedAt : Time;
}.

(** A chunk and the nodes that hold replicas of it. *)
Record ChunkRecord := mkChunkRecord {
  cr_ChunkID : string;
  cr_FileID : string;
  cr_ChunkIndex : Z;
  cr_Size : Z;
  cr_Checksum : bytes;
  cr_Replicas : list string;
  cr_Status : string;
  cr_Version : Z;
}.

(** A storage node; [ne_LastSeen] has the tag [json:"-"] and is never serialised. *)
Record NodeEntry := mkNodeEntry {
  ne_NodeID : string;
  ne_Address : string;
  ne_Status : string;
  ne_FreeSpace : Z;
  ne_ChunkCount : Z;
  ne_LastSeen : Time;
  ne_RegisteredAt : Time;
  ne_UpdatedAt : Time;
}.

(** One unit of chunk-repair work. *)
Record RepairJob := mkRepairJob {
  rj_JobID : string;
  rj_ChunkID : string;
  rj_Error : string;
  rj_DeleteSource : bool;
  rj_SourceNodeID : string;
  rj_TargetNodeID : string;
  rj_Status : string;
  rj_Attempts : Z;
  rj_CreatedAt : Time;
  rj_UpdatedAt : Time;
}.

(** The raft to gRPC address mapping of a metadata node. *)
Record MetadataNodeEntry := mkMetadataNodeEntry {
  mn_NodeID : string;
  mn_RaftAddr : string;
  mn_GrpcAddr : string;
}.

(** ** Commands *)

(** [MetadataCmdType], an [int] with [iota] constants. *)
Inductive MetadataCmdType :=
| CmdRegisterNode
| CmdDeregisterNode
| CmdMarkNodeDead
| CmdMarkNodeAlive
| CmdUpdateNodeSpace
| CmdCreateFile
| CmdCommitFile
| CmdDeleteFile
| CmdCommitChunk
| CmdEvictChunkFromNode
| CmdMarkChunkLost
| CmdCreateRepairJob
| CmdUpdateRepairJob
| CmdAddChunkReplica
| CmdRegisterMetadataNode
| CmdDeregisterMetadataNode.

(** The [iota] value of each constant. *)
Definition cmdtype_to_Z (t : MetadataCmdType) : Z :=
  match t with
  | CmdRegisterNode => 0
  | CmdDeregisterNode => 1
  | CmdMarkNodeDead => 2
  | CmdMarkNodeAlive => 3
  | CmdUpdateNodeSpace => 4
  | CmdCreateFile => 5
  | CmdCommitFile => 6
  | CmdDeleteFile => 7
  | CmdCommitChunk => 8
  | CmdEvictChunkFromNode => 9
  | CmdMarkChunkLost => 10
  | CmdCreateRepairJob => 11
  | CmdUpdateRepairJob => 12
  | CmdAddChunkReplica => 13
  | CmdRegisterMetadataNode => 14
  | CmdDeregisterMetadataNode => 15
  end%Z.

(** The constant with a given value, if there is one. *)
Definition cmdtype_of_Z (z : Z) : option MetadataCmdType :=
  match z with
  | 0 => Some CmdRegisterNode
  | 1 => Some CmdDeregisterNode
  | 2 => Some CmdMarkNodeDead
  | 3 => Some CmdMarkNodeAlive
  | 4 => Some CmdUpdateNodeSpace
  | 5 => Some CmdCreateFile
  | 6 => Some CmdCommitFile
  | 7 => Some CmdDeleteFile
  | 8 => Some CmdCommitChunk
  | 9 => Some CmdEvictChunkFromNode
  | 10 => Some CmdMarkChunkLost
  | 11 => Some CmdCreateRepairJob
  | 12 => Some CmdUpdateRepairJob
  | 13 => Some CmdAddChunkReplica
  | 14 => Some CmdRegisterMetadataNode
  | 15 => Some CmdDeregisterMetadataNode
  | _ => None
  end%Z.

(** The envelope of every Raft log entry; [Type] is a keyword here. *)
Record MetadataCommand := mkMetadataCommand {
  mc_Type : Z;
  mc_Payload : doc;
}.

Record CommandRegisterNode := mkCommandRegisterNode {
  rn_NodeID : string;
  rn_Address : string;
  rn_FreeSpace : Z;
  rn_ChunkCount : Z;
  rn_CreatedAt : Time;
}.

Record CommandDeregisterNode := mkCommandDeregisterNode {
  dn_NodeID : string;
  dn_UpdatedAt : Time;
}.

Record CommandMarkNodeDead := mkCommandMarkNodeDead {
  md_NodeID : string;
  md_UpdatedAt : Time;
}.

Record CommandMarkNodeAlive := mkCommandMarkNodeAlive {
  ma_NodeID : string;
  ma_UpdatedAt : Time;
}.

Record CommandUpdateNodeSpace := mkCommandUpdateNodeSpace {
  us_NodeID : string;
  us_FreeSpace : Z;
  us_ChunkCount : Z;
  us_UpdatedAt : Time;
}.

Record CommandCreateFile := mkCommandCreateFile {
  cf_FileID : string;
  cf_FileName : string;
  cf_ChunkIDs : list string;
  cf_FileSize : Z;
  cf_ChunkSize : Z;
  cf_Checksum : bytes;
  cf_CreatedAt : Time;
}.

Record CommandCommitFile := mkCommandCommitFile {
  mf_FileID : string;
  mf_FileSize : Z;
  mf_Checksum : bytes;
}.

Record CommandDeleteFile := mkCommandDeleteFile {
  df_FileID : string;
}.

Record CommandCommitChunk := mkCommandCommitChunk {
  cc_ChunkID : string;
  cc_NodeIDs : list string;
  cc_Checksum : bytes;
}.

Record CommandEvictChunkFromNode := mkCommandEvictChunkFromNode {
  ec_ChunkID : string;
  ec_NodeID : string;
  ec_EvictedAt : Time;
  ec_Reason : string;
}.

Record CommandMarkChunkLost := mkCommandMarkChunkLost {
  ml_ChunkID : string;
}.

Record CommandCreateRepairJob := mkCommandCreateRepairJob {
  cj_JobID : string;
  cj_CreatedAt : Time;
  cj_ChunkID : string;
  cj_DeleteSource : bool;
  cj_SourceNode : string;
  cj_TargetNode : string;
}.

Record CommandUpdateRepairJob := mkCommandUpdateRepairJob {
  uj_JobID : string;
  uj_Status : string;
  uj_SourceNode : string;
  uj_UpdatedAt : Time;
  uj_Attempts : Z;
  uj_Error : string;
}.

Record CommandAddChunkReplica := mkCommandAddChunkReplica {
  ar_ChunkID : string;
  ar_NodeID : string;
}.

Record CommandRegisterMetadataNode := mkCommandRegisterMetadataNode {
  rm_NodeID : string;
  rm_RaftAddr : string;
  rm_GrpcAddr : string;
}.

Record CommandDeregisterMetadataNode := mkCommandDeregisterMetadataNode {
  dm_NodeID : string;
  dm_RaftAddr : string;
}.

(** ** JSON forms *)

Definition zero_MetadataCommand : MetadataCommand := mkMetadataCommand 0%Z None.
Definition enc_MetadataCommand (v : MetadataCommand) : json :=
  JObj [("type", JNum (mc_Type v));
        ("payload", JDoc (mc_Payload v))].
Definition dec_MetadataCommand : json → res MetadataCommand :=
  dec_struct zero_MetadataCommand (λ o,
    let? vType := dec_field "type" dec_int64 0%Z o in
    let? vPayload := dec_field "payload" dec_doc None o in
    Ok (mkMetadataCommand vType vPayload)).

Definition zero_FileRecord : FileRecord := mkFileRecord "" "" 0%Z 0%Z [] [] "" zero_time zero_time.
Definition enc_FileRecord (v : FileRecord) : json :=
  JObj [("file_id", JStr (fr_FileID v));
        ("filename", JStr (fr_Filename v));
        ("file_size", JNum (fr_FileSize v));
        ("chunk_size", JNum (fr_ChunkSize v));
        ("checksum", JBytes (fr_CheckSum v));
        ("chunk_ids", enc_strings (fr_ChunkIDs v));
        ("status", JStr (fr_Status v));
        ("created_at", JTime (fr_CreatedAt v));
        ("updated_at", JTime (fr_UpdatedAt v))].
Definition dec_FileRecord : json → res FileRecord :=
  dec_struct zero_FileRecord (λ o,
    let? vFileID := dec_field "file_id" dec_string "" o in
    let? vFilename := dec_field "filename" dec_string "" o in
    let? vFileSize := dec_field "file_size" dec_uint64 0%Z o in
    let? vChunkSize := dec_field "chunk_size" dec_uint64 0%Z o in
    let? vCheckSum := dec_field "checksum" dec_bytes [] o in
    let? vChunkIDs := dec_field "chunk_ids" dec_strings [] o in
    let? vStatus := dec_field "status" dec_string "" o in
    let? vCreatedAt := dec_field "created_at" dec_time zero_time o in
    let? vUpdatedAt := dec_field "updated_at" dec_time zero_time o in
    Ok (mkFileRecord vFileID vFilename vFileSize vChunkSize vCheckSum vChunkIDs vStatus vCreatedAt vUpdatedAt)).

Definition zero_ChunkRecord : ChunkRecord := mkChunkRecord "" "" 0%Z 0%Z [] [] "" 0%Z.
Definition enc_ChunkRecord (v : ChunkRecord) : json :=
  JObj [("chunk_id", JStr (cr_ChunkID v));
        ("file_id", JStr (cr_FileID v));
        ("chunk_index", JNum (cr_ChunkIndex v));
        ("size", JNum (cr_Size v));
        ("checksum", JBytes (cr_Checksum v));
        ("replicas", enc_strings (cr_Replicas v));
        ("status", JStr (cr_Status v));
        ("version", JNum (cr_Version v))].
Definition dec_ChunkRecord : json → res ChunkRecord :=
  dec_struct zero_ChunkRecord (λ o,
    let? vChunkID := dec_field "chunk_id" dec_string "" o in
    let? vFileID := dec_field "file_id" dec_string "" o in
    let? vChunkIndex := dec_field "chunk_index" dec_int64 0%Z o in
    let? vSize := dec_field "size" dec_int64 0%Z o in
    let? vChecksum := dec_field "checksum" dec_bytes [] o in
    let? vReplicas := dec_field "replicas" dec_strings [] o in
    let? vStatus := dec_field "status" dec_string "" o in
    let? vVersion := dec_field "version" dec_int64 0%Z o in
    Ok (mkChunkRecord vChunkID vFileID vChunkIndex vSize vChecksum vReplicas vStatus vVersion)).

Definition zero_NodeEntry : NodeEntry := mkNodeEntry "" "" "" 0%Z 0%Z zero_time zero_time zero_time.
Definition enc_NodeEntry (v : NodeEntry) : json :=
  JObj [("node_id", JStr (ne_NodeID v));
        ("address", JStr (ne_Address v));
        ("status", JStr (ne_Status v));
        ("free_space", JNum (ne_FreeSpace v));
        ("chunk_count", JNum (ne_ChunkCount v));
        ("registered_at", JTime (ne_RegisteredAt v));
        ("updated_at", JTime (ne_UpdatedAt v))].
Definition dec_NodeEntry : json → res NodeEntry :=
  dec_struct zero_NodeEntry (λ o,
    let? vNodeID := dec_field "node_id" dec_string "" o in
    let? vAddress := dec_field "address" dec_string "" o in
    let? vStatus := dec_field "status" dec_string "" o in
    let? vFreeSpace := dec_field "free_space" dec_uint64 0%Z o in
    let? vChunkCount := dec_field "chunk_count" dec_uint64 0%Z o in
    let? vRegisteredAt := dec_field "registered_at" dec_time zero_time o in
    let? vUpdatedAt := dec_field "updated_at" dec_time zero_time o in
    Ok (mkNodeEntry vNodeID vAddress vStatus vFreeSpace vChunkCount zero_time vRegisteredAt vUpdatedAt)).

Definition zero_RepairJob : RepairJob := mkRepairJob "" "" "" false "" "" "" 0%Z zero_time zero_time.
Definition enc_RepairJob (v : RepairJob) : json :=
  JObj [("job_id", JStr (rj_JobID v));
        ("chunk_id", JStr (rj_ChunkID v));
        ("error", JStr (rj_Error v));
        ("delete_source", JBool (rj_DeleteSource v));
        ("source_node_id", JStr (rj_SourceNodeID v));
        ("target_node_id", JStr (rj_TargetNodeID v));
        ("status", JStr (rj_Status v));
        ("attempts", JNum (rj_Attempts v));
        ("created_at", JTime (rj_CreatedAt v));
        ("updated_at", JTime (rj_UpdatedAt v))].
Definition dec_RepairJob : json → res RepairJob :=
  dec_struct zero_RepairJob (λ o,
    let? vJobID := dec_field "job_id" dec_string "" o in
    let? vChunkID := dec_field "chunk_id" dec_string "" o in
    let? vError := dec_field "error" dec_string "" o in
    let? vDeleteSource := dec_field "delete_source" dec_bool false o in
    let? vSourceNodeID := dec_field "source_node_id" dec_string "" o in
    let? vTargetNodeID := dec_field "target_node_id" dec_string "" o in
    let? vStatus := dec_field "status" dec_string "" o in
    let? vAttempts := dec_field "attempts" dec_uint64 0%Z o in
    let? vCreatedAt := dec_field "created_at" dec_time zero_time o in
    let? vUpdatedAt := dec_field "updated_at" dec_time zero_time o in
    Ok (mkRepairJob vJobID vChunkID vError vDeleteSource vSourceNodeID vTargetNodeID vStatus vAttempts vCreatedAt vUpdatedAt)).

Definition zero_MetadataNodeEntry : MetadataNodeEntry := mkMetadataNodeEntry "" "" "".
Definition enc_MetadataNodeEntry (v : MetadataNodeEntry) : json :=
  JObj [("node_id", JStr (mn_NodeID v));
        ("raft_addr", JStr (mn_RaftAddr v));
        ("grpc_addr", JStr (mn_GrpcAddr v))].
Definition dec_MetadataNodeEntry : json → res MetadataNodeEntry :=
  dec_struct zero_MetadataNodeEntry (λ o,
    let? vNodeID := dec_field "node_id" dec_string "" o in
    let? vRaftAddr := dec_field "raft_addr" dec_string "" o in
    let? vGrpcAddr := dec_field "grpc_addr" dec_string "" o in
    Ok (mkMetadataNodeEntry vNodeID vRaftAddr vGrpcAddr)).

Definition zero_CommandRegisterNode : CommandRegisterNode := mkCommandRegisterNode "" "" 0%Z 0%Z zero_time.
Definition enc_CommandRegisterNode (v : CommandRegisterNode) : json :=
  JObj [("node_id", JStr (rn_NodeID v));
        ("address", JStr (rn_Address v));
        ("freespace", JNum (rn_FreeSpace v));
        ("chunkcount", JNum (rn_ChunkCount v));
        ("created_at", JTime (rn_CreatedAt v))].
Definition dec_CommandRegisterNode : json → res CommandRegisterNode :=
  dec_struct zero_CommandRegisterNode (λ o,
    let? vNodeID := dec_field "node_id" dec_string "" o in
    let? vAddress := dec_field "address" dec_string "" o in
    let? vFreeSpace := dec_field "freespace" dec_uint64 0%Z o in
    let? vChunkCount := dec_field "chunkcount" dec_uint64 0%Z o in
    let? vCreatedAt := dec_field "created_at" dec_time zero_time o in
    Ok (mkCommandRegisterNode vNodeID vAddress vFreeSpace vChunkCount vCreatedAt)).

Definition zero_CommandDeregisterNode : CommandDeregisterNode := mkCommandDeregisterNode "" zero_time.
Definition enc_CommandDeregisterNode (v : CommandDeregisterNode) : json :=
  JObj [("node_id", JStr (dn_NodeID v));
        ("updated_at", JTime (dn_UpdatedAt v))].
Definition dec_CommandDeregisterNode : json → res CommandDeregisterNode :=
  dec_struct zero_CommandDeregisterNode (λ o,
    let? vNodeID := dec_field "node_id" dec_string "" o in
    let? vUpdatedAt := dec_field "updated_at" dec_time zero_time o in
    Ok (mkCommandDeregisterNode vNodeID vUpdatedAt)).

Definition zero_CommandMarkNodeDead : CommandMarkNodeDead := mkCommandMarkNodeDead "" zero_time.
Definition enc_CommandMarkNodeDead (v : CommandMarkNodeDead) : json :=
  JObj [("node_id", JStr (md_NodeID v));
        ("updated_at", JTime (md_UpdatedAt v))].
Definition dec_CommandMarkNodeDead : json → res CommandMarkNodeDead :=
  dec_struct zero_CommandMarkNodeDead (λ o,
    let? vNodeID := dec_field "node_id" dec_string "" o in
    let? vUpdatedAt := dec_field "updated_at" dec_time zero_time o in
    Ok (mkCommandMarkNodeDead vNodeID vUpdatedAt)).

Definition zero_CommandMarkNodeAlive : CommandMarkNodeAlive := mkCommandMarkNodeAlive "" zero_time.
Definition enc_CommandMarkNodeAlive (v : CommandMarkNodeAlive) : json :=
  JObj [("node_id", JStr (ma_NodeID v));
        ("updated_at", JTime (ma_UpdatedAt v))].
Definition dec_CommandMarkNodeAlive : json → res CommandMarkNodeAlive :=
  dec_struct zero_CommandMarkNodeAlive (λ o,
    let? vNodeID := dec_field "node_id" dec_string "" o in
    let? vUpdatedAt := dec_field "updated_at" dec_time zero_time o in
    Ok (mkCommandMarkNodeAlive vNodeID vUpdatedAt)).

Definition zero_CommandUpdateNodeSpace : CommandUpdateNodeSpace := mkCommandUpdateNodeSpace "" 0%Z 0%Z zero_time.
Definition enc_CommandUpdateNodeSpace (v : CommandUpdateNodeSpace) : json :=
  JObj [("node_id", JStr (us_NodeID v));
        ("freespace", JNum (us_FreeSpace v));
        ("chunkcount", JNum (us_ChunkCount v));
        ("updated_at", JTime (us_UpdatedAt v))].
Definition dec_CommandUpdateNodeSpace : json → res CommandUpdateNodeSpace :=
  dec_struct zero_CommandUpdateNodeSpace (λ o,
    let? vNodeID := dec_field "node_id" dec_string "" o in
    let? vFreeSpace := dec_field "freespace" dec_uint64 0%Z o in
    let? vChunkCount := dec_field "chunkcount" dec_uint64 0%Z o in
    let? vUpdatedAt := dec_field "updated_at" dec_time zero_time o in
    Ok (mkCommandUpdateNodeSpace vNodeID vFreeSpace vChunkCount vUpdatedAt)).

Definition zero_CommandCreateFile : CommandCreateFile := mkCommandCreateFile "" "" [] 0%Z 0%Z [] zero_time.
Definition enc_CommandCreateFile (v : CommandCreateFile) : json :=
  JObj [("file_id", JStr (cf_FileID v));
        ("filename", JStr (cf_FileName v));
        ("chunk_ids", enc_strings (cf_ChunkIDs v));
        ("filesize", JNum (cf_FileSize v));
        ("chunk_size", JNum (cf_ChunkSize v));
        ("checksum", JBytes (cf_Checksum v));
        ("created_at", JTime (cf_CreatedAt v))].
Definition dec_CommandCreateFile : json → res CommandCreateFile :=
  dec_struct zero_CommandCreateFile (λ o,
    let? vFileID := dec_field "file_id" dec_string "" o in
    let? vFileName := dec_field "filename" dec_string "" o in
    let? vChunkIDs := dec_field "chunk_ids" dec_strings [] o in
    let? vFileSize := dec_field "filesize" dec_uint64 0%Z o in
    let? vChunkSize := dec_field "chunk_size" dec_uint64 0%Z o in
    let? vChecksum := dec_field "checksum" dec_bytes [] o in
    let? vCreatedAt := dec_field "created_at" dec_time zero_time o in
    Ok (mkCommandCreateFile vFileID vFileName vChunkIDs vFileSize vChunkSize vChecksum vCreatedAt)).

Definition zero_CommandCommitFile : CommandCommitFile := mkCommandCommitFile "" 0%Z [].
Definition enc_CommandCommitFile (v : CommandCommitFile) : json :=
  JObj [("file_id", JStr (mf_FileID v));
        ("filesize", JNum (mf_FileSize v));
        ("checksum", JBytes (mf_Checksum v))].
Definition dec_CommandCommitFile : json → res CommandCommitFile :=
  dec_struct zero_CommandCommitFile (λ o,
    let? vFileID := dec_field "file_id" dec_string "" o in
    let? vFileSize := dec_field "filesize" dec_uint64 0%Z o in
    let? vChecksum := dec_field "checksum" dec_bytes [] o in
    Ok (mkCommandCommitFile vFileID vFileSize vChecksum)).

Definition zero_CommandDeleteFile : CommandDeleteFile := mkCommandDeleteFile "".
Definition enc_CommandDeleteFile (v : CommandDeleteFile) : json :=
  JObj [("file_id", JStr (df_FileID v))].
Definition dec_CommandDeleteFile : json → res CommandDeleteFile :=
  dec_struct zero_CommandDeleteFile (λ o,
    let? vFileID := dec_field "file_id" dec_string "" o in
    Ok (mkCommandDeleteFile vFileID)).

Definition zero_CommandCommitChunk : CommandCommitChunk := mkCommandCommitChunk "" [] [].
Definition enc_CommandCommitChunk (v : CommandCommitChunk) : json :=
  JObj [("chunk_id", JStr (cc_ChunkID v));
        ("node_ids", enc_strings (cc_NodeIDs v));
        ("checksum", JBytes (cc_Checksum v))].
Definition dec_CommandCommitChunk : json → res CommandCommitChunk :=
  dec_struct zero_CommandCommitChunk (λ o,
    let? vChunkID := dec_field "chunk_id" dec_string "" o in
    let? vNodeIDs := dec_field "node_ids" dec_strings [] o in
    let? vChecksum := dec_field "checksum" dec_bytes [] o in
    Ok (mkCommandCommitChunk vChunkID vNodeIDs vChecksum)).

Definition zero_CommandEvictChunkFromNode : CommandEvictChunkFromNode := mkCommandEvictChunkFromNode "" "" zero_time "".
Definition enc_CommandEvictChunkFromNode (v : CommandEvictChunkFromNode) : json :=
  JObj [("chunk_id", JStr (ec_ChunkID v));
        ("node_id", JStr (ec_NodeID v));
        ("evicted_at", JTime (ec_EvictedAt v));
        ("reason", JStr (ec_Reason v))].
Definition dec_CommandEvictChunkFromNode : json → res CommandEvictChunkFromNode :=
  dec_struct zero_CommandEvictChunkFromNode (λ o,
    let? vChunkID := dec_field "chunk_id" dec_string "" o in
    let? vNodeID := dec_field "node_id" dec_string "" o in
    let? vEvictedAt := dec_field "evicted_at" dec_time zero_time o in
    let? vReason := dec_field "reason" dec_string "" o in
    Ok (mkCommandEvictChunkFromNode vChunkID vNodeID vEvictedAt vReason)).

Definition zero_CommandMarkChunkLost : CommandMarkChunkLost := mkCommandMarkChunkLost "".
Definition enc_CommandMarkChunkLost (v : CommandMarkChunkLost) : json :=
  JObj [("chunk_id", JStr (ml_ChunkID v))].
Definition dec_CommandMarkChunkLost : json → res CommandMarkChunkLost :=
  dec_struct zero_CommandMarkChunkLost (λ o,
    let? vChunkID := dec_field "chunk_id" dec_string "" o in
    Ok (mkCommandMarkChunkLost vChunkID)).

Definition zero_CommandCreateRepairJob : CommandCreateRepairJob := mkCommandCreateRepairJob "" zero_time "" false "" "".
Definition enc_CommandCreateRepairJob (v : CommandCreateRepairJob) : json :=
  JObj [("job_id", JStr (cj_JobID v));
        ("created_at", JTime (cj_CreatedAt v));
        ("chunk_id", JStr (cj_ChunkID v));
        ("delete_source", JBool (cj_DeleteSource v));
        ("source_node", JStr (cj_SourceNode v));
        ("target_node", JStr (cj_TargetNode v))].
Definition dec_CommandCreateRepairJob : json → res CommandCreateRepairJob :=
  dec_struct zero_CommandCreateRepairJob (λ o,
    let? vJobID := dec_field "job_id" dec_string "" o in
    let? vCreatedAt := dec_field "created_at" dec_time zero_time o in
    let? vChunkID := dec_field "chunk_id" dec_string "" o in
    let? vDeleteSource := dec_field "delete_source" dec_bool false o in
    let? vSourceNode := dec_field "source_node" dec_string "" o in
    let? vTargetNode := dec_field "target_node" dec_string "" o in
    Ok (mkCommandCreateRepairJob vJobID vCreatedAt vChunkID vDeleteSource vSourceNode vTargetNode)).

Definition zero_CommandUpdateRepairJob : CommandUpdateRepairJob := mkCommandUpdateRepairJob "" "" "" zero_time 0%Z "".
Definition enc_CommandUpdateRepairJob (v : CommandUpdateRepairJob) : json :=
  JObj [("job_id", JStr (uj_JobID v));
        ("status", JStr (uj_Status v));
        ("source_node", JStr (uj_SourceNode v));
        ("updated_at", JTime (uj_UpdatedAt v));
        ("attempts", JNum (uj_Attempts v));
        ("error", JStr (uj_Error v))].
Definition dec_CommandUpdateRepairJob : json → res CommandUpdateRepairJob :=
  dec_struct zero_CommandUpdateRepairJob (λ o,
    let? vJobID := dec_field "job_id" dec_string "" o in
    let? vStatus := dec_field "status" dec_string "" o in
    let? vSourceNode := dec_field "source_node" dec_string "" o in
    let? vUpdatedAt := dec_field "updated_at" dec_time zero_time o in
    let? vAttempts := dec_field "attempts" dec_uint64 0%Z o in
    let? vError := dec_field "error" dec_string "" o in
    Ok (mkCommandUpdateRepairJob vJobID vStatus vSourceNode vUpdatedAt vAttempts vError)).

Definition zero_CommandAddChunkReplica : CommandAddChunkReplica := mkCommandAddChunkReplica "" "".
Definition enc_CommandAddChunkReplica (v : CommandAddChunkReplica) : json :=
  JObj [("chunk_id", JStr (ar_ChunkID v));
        ("node_id", JStr (ar_NodeID v))].
Definition dec_CommandAddChunkReplica : json → res CommandAddChunkReplica :=
  dec_struct zero_CommandAddChunkReplica (λ o,
    let? vChunkID := dec_field "chunk_id" dec_string "" o in
    let? vNodeID := dec_field "node_id" dec_string "" o in
    Ok (mkCommandAddChunkReplica vChunkID vNodeID)).

Definition zero_CommandRegisterMetadataNode : CommandRegisterMetadataNode := mkCommandRegisterMetadataNode "" "" "".
Definition enc_CommandRegisterMetadataNode (v : CommandRegisterMetadataNode) : json :=
  JObj [("node_id", JStr (rm_NodeID v));
        ("raft_addr", JStr (rm_RaftAddr v));
        ("grpc_addr", JStr (rm_GrpcAddr v))].
Definition dec_CommandRegisterMetadataNode : json → res CommandRegisterMetadataNode :=
  dec_struct zero_CommandRegisterMetadataNode (λ o,
    let? vNodeID := dec_field "node_id" dec_string "" o in
    let? vRaftAddr := dec_field "raft_addr" dec_string "" o in
    let? vGrpcAddr := dec_field "grpc_addr" dec_string "" o in
    Ok (mkCommandRegisterMetadataNode vNodeID vRaftAddr vGrpcAddr)).

Definition zero_CommandDeregisterMetadataNode : CommandDeregisterMetadataNode := mkCommandDeregisterMetadataNode "" "".
Definition enc_CommandDeregisterMetadataNode (v : CommandDeregisterMetadataNode) : json :=
  JObj [("node_id", JStr (dm_NodeID v));
        ("raft_addr", JStr (dm_RaftAddr v))].
Definition dec_CommandDeregisterMetadataNode : json → res CommandDeregisterMetadataNode :=
  dec_struct zero_CommandDeregisterMetadataNode (λ o,
    let? vNodeID := dec_field "node_id" dec_string "" o in
    let? vRaftAddr := dec_field "raft_addr" dec_string "" o in
    Ok (mkCommandDeregisterMetadataNode vNodeID vRaftAddr)).

(** ** Values in the range of their Go types *)

Definition fits_FileRecord (v : FileRecord) : Prop :=
  is_uint64 (fr_FileSize v) ∧ is_uint64 (fr_ChunkSize v).
Definition fits_ChunkRecord (v : ChunkRecord) : Prop :=
  is_int64 (cr_ChunkIndex v) ∧ is_int64 (cr_Size v) ∧ is_int64 (cr_Version v).
Definition fits_NodeEntry (v : NodeEntry) : Prop :=
  is_uint64 (ne_FreeSpace v) ∧ is_uint64 (ne_ChunkCount v).
Definition fits_RepairJob (v : RepairJob) : Prop :=
  is_uint64 (rj_Attempts v).
Definition fits_CommandRegisterNode (v : CommandRegisterNode) : Prop :=
  is_uint64 (rn_FreeSpace v) ∧ is_uint64 (rn_ChunkCount v).
Definition fits_CommandUpdateNodeSpace (v : CommandUpdateNodeSpace) : Prop :=
  is_uint64 (us_FreeSpace v) ∧ is_uint64 (us_ChunkCount v).
Definition fits_CommandCreateFile (v : CommandCreateFile) : Prop :=
  is_uint64 (cf_FileSize v) ∧ is_uint64 (cf_ChunkSize v).
Definition fits_CommandCommitFile (v : CommandCommitFile) : Prop :=
  is_uint64 (mf_FileSize v).
Definition fits_CommandUpdateRepairJob (v : CommandUpdateRepairJob) : Prop :=
  is_uint64 (uj_Attempts v).

(** ** Round trips *)

(** Evaluates a decoder on an encoded struct: the tags are concrete, so every
    key test computes; what is left are the range checks and the string lists. *)
Ltac json_roundtrip :=
  lazy -[dec_uint64 dec_int64 dec_strings fmap list_fmap is_uint64 is_int64];
  repeat first
    [ rewrite dec_strings_arr | rewrite dec_uint64_num by assumption
    | rewrite dec_int64_num by assumption ];
  reflexivity.

Lemma roundtrip_FileRecord v : fits_FileRecord v → dec_FileRecord (enc_FileRecord v) = Ok v.
Proof. destruct v. intros (? & ?). json_roundtrip. Qed.
Lemma roundtrip_ChunkRecord v : fits_ChunkRecord v → dec_ChunkRecord (enc_ChunkRecord v) = Ok v.
Proof. destruct v. intros (? & ? & ?). json_roundtrip. Qed.
(** What is left of a node entry after a trip through JSON. *)
Definition forget_LastSeen (n : NodeEntry) : NodeEntry :=
  mkNodeEntry (ne_NodeID n) (ne_Address n) (ne_Status n) (ne_FreeSpace n) (ne_ChunkCount n)
    zero_time (ne_RegisteredAt n) (ne_UpdatedAt n).

Lemma roundtrip_NodeEntry v : fits_NodeEntry v → dec_NodeEntry (enc_NodeEntry v) = Ok (forget_LastSeen v).
Proof. destruct v. intros (? & ?). json_roundtrip. Qed.
Lemma roundtrip_RepairJob v : fits_RepairJob v → dec_RepairJob (enc_RepairJob v) = Ok v.
Proof. destruct v. intros H. json_roundtrip. Qed.
Lemma roundtrip_MetadataNodeEntry v : dec_MetadataNodeEntry (enc_MetadataNodeEntry v) = Ok v.
Proof. destruct v. json_roundtrip. Qed.
Lemma roundtrip_CommandRegisterNode v : fits_CommandRegisterNode v → dec_CommandRegisterNode (enc_CommandRegisterNode v) = Ok v.
Proof. destruct v. intros (? & ?). json_roundtrip. Qed.
Lemma roundtrip_CommandDeregisterNode v : dec_CommandDeregisterNode (enc_CommandDeregisterNode v) = Ok v.
Proof. destruct v. json_roundtrip. Qed.
Lemma roundtrip_CommandMarkNodeDead v : dec_CommandMarkNodeDead (enc_CommandMarkNodeDead v) = Ok v.
Proof. destruct v. json_roundtrip. Qed.
Lemma roundtrip_CommandMarkNodeAlive v : dec_CommandMarkNodeAlive (enc_CommandMarkNodeAlive v) = Ok v.
Proof. destruct v. json_roundtrip. Qed.
Lemma roundtrip_CommandUpdateNodeSpace v : fits_CommandUpdateNodeSpace v → dec_CommandUpdateNodeSpace (enc_CommandUpdateNodeSpace v) = Ok v.
Proof. destruct v. intros (? & ?). json_roundtrip. Qed.
Lemma roundtrip_CommandCreateFile v : fits_CommandCreateFile v → dec_CommandCreateFile (enc_CommandCreateFile v) = Ok v.
Proof. destruct v. intros (? & ?). json_roundtrip. Qed.
Lemma roundtrip_CommandCommitFile v : fits_CommandCommitFile v → dec_CommandCommitFile (enc_CommandCommitFile v) = Ok v.
Proof. destruct v. intros H. json_roundtrip. Qed.
Lemma roundtrip_CommandDeleteFile v : dec_CommandDeleteFile (enc_CommandDeleteFile v) = Ok v.
Proof. destruct v. json_roundtrip. Qed.
Lemma roundtrip_CommandCommitChunk v : dec_CommandCommitChunk (enc_CommandCommitChunk v) = Ok v.
Proof. destruct v. json_roundtrip. Qed.
Lemma roundtrip_CommandEvictChunkFromNode v : dec_CommandEvictChunkFromNode (enc_CommandEvictChunkFromNode v) = Ok v.
Proof. destruct v. json_roundtrip. Qed.
Lemma roundtrip_CommandMarkChunkLost v : dec_CommandMarkChunkLost (enc_CommandMarkChunkLost v) = Ok v.
Proof. destruct v. json_roundtrip. Qed.
Lemma roundtrip_CommandCreateRepairJob v : dec_CommandCreateRepairJob (enc_CommandCreateRepairJob v) = Ok v.
Proof. destruct v. json_roundtrip. Qed.
Lemma roundtrip_CommandUpdateRepairJob v : fits_CommandUpdateRepairJob v → dec_CommandUpdateRepairJob (enc_CommandUpdateRepairJob v) = Ok v.
Proof. destruct v. intros H. json_roundtrip. Qed.
Lemma roundtrip_CommandAddChunkReplica v : dec_CommandAddChunkReplica (enc_CommandAddChunkReplica v) = Ok v.
Proof. destruct v. json_roundtrip. Qed.
Lemma roundtrip_CommandRegisterMetadataNode v : dec_CommandRegisterMetadataNode (enc_CommandRegisterMetadataNode v) = Ok v.
Proof. destruct v. json_roundtrip. Qed.
Lemma roundtrip_CommandDeregisterMetadataNode v : dec_CommandDeregisterMetadataNode (enc_CommandDeregisterMetadataNode v) = Ok v.
Proof. destruct v. json_roundtrip. Qed.

Lemma roundtrip_MetadataCommand v :
  is_int64 (mc_Type v) → dec_MetadataCommand (enc_MetadataCommand v) = Ok v.
Proof. destruct v. intros ?. json_roundtrip. Qed.

Lemma cmdtype_of_to t : cmdtype_of_Z (cmdtype_to_Z t) = Some t.
Proof. by destruct t. Qed.

Lemma cmdtype_to_Z_int64 t : is_int64 (cmdtype_to_Z t).
Proof. destruct t; unfold is_int64, two63; simpl; lia. Qed.

#[export] Hint Resolve cmdtype_to_Z_int64 : dfs.
