(* ===== verification/Fsm.v ===== *)
(** * The metadata state machine: metadata/fsm/fsm.go

    [MetadataFSM] is the Go struct without its locks and logger: a map from
    string keys to heap records, each record reachable from exactly one key, is
    a [gmap] of records, and a handler that mutates a record through its pointer
    updates the entry.  A handler returns the new state and the error value it
    hands back to Raft ([None] for [nil]). *)

From S2P Require Import Prelude GoLib Json FsmTypes.

(** ** State *)

Record MetadataFSM := mkFSM {
  fileIndex : gmap string FileRecord;
  chunkRegistry : gmap string ChunkRecord;
  nodeRegistry : gmap string NodeEntry;
  repairJobRegistry : gmap string RepairJob;
  mdNodeRegistry : gmap string MetadataNodeEntry;
}.

Record MetadataFSMSnapshot := mkSnapshot {
  sn_FileIndex : gmap string FileRecord;
  sn_ChunkRegistry : gmap string ChunkRecord;
  sn_NodeRegistry : gmap string NodeEntry;
  sn_RepairJobRegistry : gmap string RepairJob;
  sn_MDNodeRegistry : gmap string MetadataNodeEntry;
}.

Definition NewEmptyMetadataFsm : MetadataFSM := mkFSM ∅ ∅ ∅ ∅ ∅.

(** Assignments to one registry. *)
Definition set_fileIndex (s : MetadataFSM) m : MetadataFSM :=
  mkFSM m (chunkRegistry s) (nodeRegistry s) (repairJobRegistry s) (mdNodeRegistry s).
Definition set_chunkRegistry (s : MetadataFSM) m : MetadataFSM :=
  mkFSM (fileIndex s) m (nodeRegistry s) (repairJobRegistry s) (mdNodeRegistry s).
Definition set_nodeRegistry (s : MetadataFSM) m : MetadataFSM :=
  mkFSM (fileIndex s) (chunkRegistry s) m (repairJobRegistry s) (mdNodeRegistry s).
Definition set_repairJobRegistry (s : MetadataFSM) m : MetadataFSM :=
  mkFSM (fileIndex s) (chunkRegistry s) (nodeRegistry s) m (mdNodeRegistry s).
Definition set_mdNodeRegistry (s : MetadataFSM) m : MetadataFSM :=
  mkFSM (fileIndex s) (chunkRegistry s) (nodeRegistry s) (repairJobRegistry s) m.

(** ** Sentinel errors *)

Definition ErrNodeNotFound : error := ErrSentinel "node does not exist".
Definition ErrFileNotFound : error := ErrSentinel "file does not exist".
Definition ErrChunkNotFound : error := ErrSentinel "chunk does not exist".
Definition ErrJobNotFound : error := ErrSentinel "job does not exist".
Definition ErrMetadataNodeNotFound : error := ErrSentinel "metadata node does not exist".

(** ** Lookups by key *)

Definition GetFile (s : MetadataFSM) (fileID : string) : res FileRecord :=
  match fileIndex s !! fileID with Some file => Ok file | None => Err ErrFileNotFound end.

Definition GetChunk (s : MetadataFSM) (chunkID : string) : res ChunkRecord :=
  match chunkRegistry s !! chunkID with Some c => Ok c | None => Err ErrChunkNotFound end.

Definition GetNode (s : MetadataFSM) (nodeID : string) : res NodeEntry :=
  match nodeRegistry s !! nodeID with Some n => Ok n | None => Err ErrNodeNotFound end.

Definition GetRepairJob (s : MetadataFSM) (jobID : string) : res RepairJob :=
  match repairJobRegistry s !! jobID with Some j => Ok j | None => Err ErrJobNotFound end.

Definition GetMetadataNodeByRaftAddr (s : MetadataFSM) (raftAddr : string) : res MetadataNodeEntry :=
  match mdNodeRegistry s !! raftAddr with Some e => Ok e | None => Err ErrMetadataNodeNotFound end.

Definition GetNodeCount (s : MetadataFSM) : Z := Z.of_nat (size (nodeRegistry s)).

(** ** Scans *)

Section scans.
Context `{!MapRange, !GoSort}.

Definition GetFileByName (s : MetadataFSM) (filename : string) : res FileRecord :=
  match range_find (λ file, bool_decide (fr_Filename file = filename)) (fileIndex s) with
  | Some file => Ok file
  | None => Err ErrFileNotFound
  end.

Definition filename_less (f g : FileRecord) : bool := String.ltb (fr_Filename f) (fr_Filename g).

Definition ListFiles (s : MetadataFSM) (pre : string) : list FileRecord :=
  go_sort filename_less
    (filter (λ file, String.prefix pre (fr_Filename file) = true) (range_values (fileIndex s))).

Fixpoint collect_chunks (reg : gmap string ChunkRecord) (ids : list string)
    : res (list ChunkRecord) :=
  match ids with
  | [] => Ok []
  | cid :: ids' =>
      match reg !! cid with
      | None => Err ErrChunkNotFound
      | Some ck => let? chunks := collect_chunks reg ids' in Ok (ck :: chunks)
      end
  end.

Definition GetFileChunks (s : MetadataFSM) (fileID : string) : res (list ChunkRecord) :=
  let? file := GetFile s fileID in collect_chunks (chunkRegistry s) (fr_ChunkIDs file).

(** The entry of a replica unless its node is unknown or dead. *)
Definition live_replica (s : MetadataFSM) (nodeID : string) : option NodeEntry :=
  match nodeRegistry s !! nodeID with
  | None => None
  | Some node => if decide (ne_Status node = NodeStatusDead) then None else Some node
  end.

Definition GetChunkLocations (s : MetadataFSM) (chunkID : string) : res (list NodeEntry) :=
  let? chunk := GetChunk s chunkID in Ok (omap (live_replica s) (cr_Replicas chunk)).

Definition GetChunksByNode (s : MetadataFSM) (nodeID : string) : list string :=
  cr_ChunkID <$> filter (λ chunk, nodeID ∈ cr_Replicas chunk) (range_values (chunkRegistry s)).

Definition GetLiveNodes (s : MetadataFSM) : list NodeEntry :=
  filter (λ node, ne_Status node = NodeStatusAlive) (range_values (nodeRegistry s)).

Definition GetAllNodes (s : MetadataFSM) : list NodeEntry := range_values (nodeRegistry s).

Definition GetJobsByStatus (s : MetadataFSM) (status : string) : list RepairJob :=
  filter (λ job, rj_Status job = status) (range_values (repairJobRegistry s)).

Definition GetPendingJobsForNode (s : MetadataFSM) (nodeID : string) : list RepairJob :=
  filter (λ job, rj_Status job = RepairStatusPending ∧ rj_SourceNodeID job = nodeID)
    (range_values (repairJobRegistry s)).

Definition HasActiveRepairForChunkTarget (s : MetadataFSM) (chunkID targetNodeID : string) : bool :=
  match range_find (λ job, bool_decide (rj_ChunkID job = chunkID ∧ rj_TargetNodeID job = targetNodeID ∧
      (rj_Status job = RepairStatusPending ∨ rj_Status job = RepairStatusInProgress)))
    (repairJobRegistry s) with
  | Some _ => true
  | None => false
  end.
End scans.

(** ** Updates outside Raft *)

Definition set_LastSeen (n : NodeEntry) (ts : Time) : NodeEntry :=
  mkNodeEntry (ne_NodeID n) (ne_Address n) (ne_Status n) (ne_FreeSpace n) (ne_ChunkCount n)
    ts (ne_RegisteredAt n) (ne_UpdatedAt n).

Definition UpdateLastSeen (s : MetadataFSM) (nodeID : string) (ts : Time)
    : MetadataFSM * option error :=
  match nodeRegistry s !! nodeID with
  | None => (s, Some ErrNodeNotFound)
  | Some node => (set_nodeRegistry s (<[nodeID := set_LastSeen node ts]> (nodeRegistry s)), None)
  end.

(** ** Command handlers *)

(** [upsert]; a nil map is [None]. *)
Definition upsert {T} (registry : option (gmap string T)) (key : string) (entry : T)
    : res (gmap string T) :=
  match registry with
  | None => Err (ErrNew "upsert: registry is nil")
  | Some m => Ok (<[key := entry]> m)
  end.

Definition handleCmdRegisterNode (s : MetadataFSM) (req : CommandRegisterNode)
    : MetadataFSM * option error :=
  let '(s1, node) :=
    match GetNode s (rn_NodeID req) with
    | Ok node =>
        let node' := mkNodeEntry (ne_NodeID node) (rn_Address req) NodeStatusAlive
          (rn_FreeSpace req) (rn_ChunkCount req) (ne_LastSeen node) (ne_RegisteredAt node)
          (rn_CreatedAt req) in
        (set_nodeRegistry s (<[rn_NodeID req := node']> (nodeRegistry s)), node')
    | Err _ =>
        (s, mkNodeEntry (rn_NodeID req) (rn_Address req) NodeStatusAlive (rn_FreeSpace req)
              (rn_ChunkCount req) (rn_CreatedAt req) (rn_CreatedAt req) (rn_CreatedAt req))
    end in
  match upsert (Some (nodeRegistry s1)) (ne_NodeID node) node with
  | Ok m => (set_nodeRegistry s1 m, None)
  | Err e => (s1, Some e)
  end.

(** [if node.UpdatedAt.Before(t) { node.UpdatedAt = t }] *)
Definition advance_UpdatedAt (old new : Time) : Time := if Before old new then new else old.

(** The body the status handlers share: set the status, advance [UpdatedAt]. *)
Definition set_node_status (n : NodeEntry) (status : string) (t : Time) : NodeEntry :=
  mkNodeEntry (ne_NodeID n) (ne_Address n) status (ne_FreeSpace n) (ne_ChunkCount n)
    (ne_LastSeen n) (ne_RegisteredAt n) (advance_UpdatedAt (ne_UpdatedAt n) t).

Definition handleCmdDeregisterNode (s : MetadataFSM) (req : CommandDeregisterNode)
    : MetadataFSM * option error :=
  match GetNode s (dn_NodeID req) with
  | Err err => (s, Some (ErrJoin (ErrNew "cmdDeregisterNode failed: ") err))
  | Ok node =>
      (set_nodeRegistry s (<[dn_NodeID req :=
         set_node_status node NodeStatusDraining (dn_UpdatedAt req)]> (nodeRegistry s)), None)
  end.

Definition handleCmdMarkNodeDead (s : MetadataFSM) (req : CommandMarkNodeDead)
    : MetadataFSM * option error :=
  match GetNode s (md_NodeID req) with
  | Err err => (s, Some (ErrJoin (ErrNew "cmdMarkNodeDead failed: ") err))
  | Ok node =>
      (set_nodeRegistry s (<[md_NodeID req :=
         set_node_status node NodeStatusDead (md_UpdatedAt req)]> (nodeRegistry s)), None)
  end.

Definition handleCmdMarkNodeAlive (s : MetadataFSM) (req : CommandMarkNodeAlive)
    : MetadataFSM * option error :=
  match GetNode s (ma_NodeID req) with
  | Err err => (s, Some (ErrJoin (ErrNew "cmdMarkNodeAlive failed: ") err))
  | Ok node =>
      (set_nodeRegistry s (<[ma_NodeID req :=
         set_node_status node NodeStatusAlive (ma_UpdatedAt req)]> (nodeRegistry s)), None)
  end.

Definition handleCmdUpdateNodeSpace (s : MetadataFSM) (req : CommandUpdateNodeSpace)
    : MetadataFSM * option error :=
  match GetNode s (us_NodeID req) with
  | Err err => (s, Some (ErrJoin (ErrNew "cmdUpdateNodeSpace failed: ") err))
  | Ok n =>
      (set_nodeRegistry s (<[us_NodeID req :=
         mkNodeEntry (ne_NodeID n) (ne_Address n) (ne_Status n) (us_FreeSpace req)
           (us_ChunkCount req) (ne_LastSeen n) (ne_RegisteredAt n)
           (advance_UpdatedAt (ne_UpdatedAt n) (us_UpdatedAt req))]> (nodeRegistry s)), None)
  end.

(** The stub of the chunk at position [i] of a new file. *)
Definition new_chunk_stub (fileID : string) (i : nat) (cid : string) : ChunkRecord :=
  mkChunkRecord cid fileID (Z.of_nat i) 0 [] [] ChunkStatusAllocated 0.

Definition handleCmdCreateFile (s : MetadataFSM) (req : CommandCreateFile)
    : MetadataFSM * option error :=
  match GetFile s (cf_FileID req) with
  | Ok _ => (s, Some (ErrNew "CmdCreateFile: fileID already exists in our systems, cannot override"))
  | Err _ =>
      let file := mkFileRecord (cf_FileID req) (cf_FileName req) (cf_FileSize req)
        (cf_ChunkSize req) [] (cf_ChunkIDs req) FileStatusCreating (cf_CreatedAt req) zero_time in
      let chunkRecords := imap (new_chunk_stub (cf_FileID req)) (cf_ChunkIDs req) in
      if existsb (λ val, bool_decide (is_Some (chunkRegistry s !! cr_ChunkID val))) chunkRecords then
        (s, Some (ErrNew "CmdCreateFile: chunkID already exists in our systems, unsupported"))
      else
        let reg := foldl (λ m val, <[cr_ChunkID val := val]> m) (chunkRegistry s) chunkRecords in
        let s1 := set_chunkRegistry s reg in
        (set_fileIndex s1 (<[cf_FileID req := file]> (fileIndex s1)), None)
  end.

Definition set_file_committed (f : FileRecord) (checksum : bytes) : FileRecord :=
  mkFileRecord (fr_FileID f) (fr_Filename f) (fr_FileSize f) (fr_ChunkSize f) checksum
    (fr_ChunkIDs f) FileStatusComplete (fr_CreatedAt f) (fr_UpdatedAt f).

(** The validation loop of [handleCmdCommitFile]. *)
Fixpoint check_chunks_complete (reg : gmap string ChunkRecord) (ids : list string) : option error :=
  match ids with
  | [] => None
  | cid :: ids' =>
      match reg !! cid with
      | None => Some (ErrNew "cmdCommitFile: chunk validation failed : chunk not found")
      | Some ck =>
          if decide (cr_Status ck = ChunkStatusComplete) then check_chunks_complete reg ids'
          else Some (ErrNew "cmdCommitFile: chunk validation failed : chunk not commited")
      end
  end.

Definition handleCmdCommitFile (s : MetadataFSM) (req : CommandCommitFile)
    : MetadataFSM * option error :=
  match GetFile s (mf_FileID req) with
  | Err err => (s, Some (ErrJoin (ErrNew "cmdCommitFile: ") err))
  | Ok file =>
      if decide (fr_FileSize file ≠ mf_FileSize req) then
        (s, Some (ErrNew "cmdCommitFile: filesize mismatch"))
      else
        match check_chunks_complete (chunkRegistry s) (fr_ChunkIDs file) with
        | Some err => (s, Some err)
        | None =>
            (set_fileIndex s (<[mf_FileID req := set_file_committed file (mf_Checksum req)]>
               (fileIndex s)), None)
        end
  end.

Definition set_file_deleted (f : FileRecord) : FileRecord :=
  mkFileRecord (fr_FileID f) (fr_Filename f) (fr_FileSize f) (fr_ChunkSize f) (fr_CheckSum f)
    (fr_ChunkIDs f) FileStatusDeleted (fr_CreatedAt f) (fr_UpdatedAt f).

Definition handleCmdDeleteFile (s : MetadataFSM) (req : CommandDeleteFile)
    : MetadataFSM * option error :=
  match GetFile s (df_FileID req) with
  | Err err => (s, Some (ErrJoin (ErrNew "cmdDeleteFile: ") err))
  | Ok file =>
      (set_fileIndex s (<[df_FileID req := set_file_deleted file]> (fileIndex s)), None)
  end.

Section normalize.
Context `{!MapRange}.

(** One iteration of the loop of [normalizeReplicaNodeIDs]. *)
Definition normalize_step (s : MetadataFSM) (acc : list string * gset string) (entry : string)
    : list string * gset string :=
  let '(normalized, seen) := acc in
  if decide (entry ∈ seen) then acc
  else
    match GetNode s entry with
    | Ok _ => (normalized ++ [entry], {[entry]} ∪ seen)
    | Err _ =>
        let resolved :=
          match range_find (λ node, bool_decide (ne_Address node = entry)) (nodeRegistry s) with
          | Some node => ne_NodeID node
          | None => ""
          end in
        if decide (resolved ≠ "") then
          if decide (resolved ∈ seen) then acc
          else (normalized ++ [resolved], {[resolved]} ∪ seen)
        else (normalized ++ [entry], {[entry]} ∪ seen)
    end.

Definition normalizeReplicaNodeIDs (s : MetadataFSM) (rawIDs : list string) : list string :=
  (foldl (normalize_step s) ([], ∅) rawIDs).1.

Definition handleCmdCommitChunk (s : MetadataFSM) (req : CommandCommitChunk)
    : MetadataFSM * option error :=
  match GetChunk s (cc_ChunkID req) with
  | Err err => (s, Some (ErrJoin (ErrNew "cmdCommitChunk: ") err))
  | Ok c =>
      if decide (length (cr_Checksum c) = 0 ∧ cr_Status c ≠ ChunkStatusComplete) then
        (set_chunkRegistry s (<[cc_ChunkID req :=
           mkChunkRecord (cr_ChunkID c) (cr_FileID c) (cr_ChunkIndex c) (cr_Size c)
             (cc_Checksum req) (normalizeReplicaNodeIDs s (cc_NodeIDs req)) ChunkStatusComplete
             (cr_Version c)]> (chunkRegistry s)), None)
      else (s, Some (ErrNew "cmdCommitChunk: chunk validation failed"))
  end.
End normalize.

Definition set_Replicas (c : ChunkRecord) (replicas : list string) : ChunkRecord :=
  mkChunkRecord (cr_ChunkID c) (cr_FileID c) (cr_ChunkIndex c) (cr_Size c) (cr_Checksum c)
    replicas (cr_Status c) (cr_Version c).

(** [getIndex]: the first position of a node in a replica list ([None] for -1). *)
Fixpoint getIndex (nodeID : string) (replicas : list string) : option nat :=
  match replicas with
  | [] => None
  | val :: rest => if decide (val = nodeID) then Some 0 else S <$> getIndex nodeID rest
  end.

Definition handleCmdEvictChunkFromNode (s : MetadataFSM) (req : CommandEvictChunkFromNode)
    : MetadataFSM * option error :=
  match GetChunk s (ec_ChunkID req) with
  | Err err => (s, Some (ErrJoin (ErrNew "cmdEvictChunk: ") err))
  | Ok chunk =>
      match getIndex (ec_NodeID req) (cr_Replicas chunk) with
      | None => (s, Some (ErrNew "cmdEvictChunk: chunk not present on node"))
      | Some idx =>
          (set_chunkRegistry s (<[ec_ChunkID req := set_Replicas chunk
             (take idx (cr_Replicas chunk) ++ drop (idx + 1) (cr_Replicas chunk))]>
             (chunkRegistry s)), None)
      end
  end.

Definition handleCmdMarkChunkLost (s : MetadataFSM) (req : CommandMarkChunkLost)
    : MetadataFSM * option error :=
  match GetChunk s (ml_ChunkID req) with
  | Err err => (s, Some (ErrJoin (ErrNew "cmdMarkChunkLost: ") err))
  | Ok c =>
      (set_chunkRegistry s (<[ml_ChunkID req :=
         mkChunkRecord (cr_ChunkID c) (cr_FileID c) (cr_ChunkIndex c) (cr_Size c) (cr_Checksum c)
           (cr_Replicas c) ChunkStatusLost (cr_Version c)]> (chunkRegistry s)), None)
  end.

Definition handleCmdCreateRepairJob (s : MetadataFSM) (req : CommandCreateRepairJob)
    : MetadataFSM * option error :=
  match repairJobRegistry s !! cj_JobID req with
  | Some _ => (s, Some (ErrNew "cmdCreateRepairJob: job already exists"))
  | None =>
      let newJob := mkRepairJob (cj_JobID req) (cj_ChunkID req) "" (cj_DeleteSource req)
        (cj_SourceNode req) (cj_TargetNode req) RepairStatusPending 0 (cj_CreatedAt req)
        (cj_CreatedAt req) in
      match upsert (Some (repairJobRegistry s)) (cj_JobID req) newJob with
      | Ok m => (set_repairJobRegistry s m, None)
      | Err e => (s, Some e)
      end
  end.

Definition handleCmdUpdateRepairJob (s : MetadataFSM) (req : CommandUpdateRepairJob)
    : MetadataFSM * option error :=
  match repairJobRegistry s !! uj_JobID req with
  | None => (s, Some (ErrJoin (ErrNew "cmdUpdateRepairJob: ") ErrJobNotFound))
  | Some j =>
      (set_repairJobRegistry s (<[uj_JobID req :=
         mkRepairJob (rj_JobID j) (rj_ChunkID j) (uj_Error req) (rj_DeleteSource j)
           (if decide (uj_SourceNode req ≠ "") then uj_SourceNode req else rj_SourceNodeID j)
           (rj_TargetNodeID j) (uj_Status req) (uj_Attempts req) (rj_CreatedAt j)
           (uj_UpdatedAt req)]> (repairJobRegistry s)), None)
  end.

Definition handleCmdAddChunkReplica (s : MetadataFSM) (req : CommandAddChunkReplica)
    : MetadataFSM * option error :=
  match GetChunk s (ar_ChunkID req) with
  | Err err => (s, Some (ErrJoin (ErrNew "cmdAddChunkReplica: ") err))
  | Ok chunk =>
      if decide (ar_NodeID req ∈ cr_Replicas chunk) then (s, None)
      else
        (set_chunkRegistry s (<[ar_ChunkID req :=
           set_Replicas chunk (cr_Replicas chunk ++ [ar_NodeID req])]> (chunkRegistry s)), None)
  end.

Definition handleCmdRegisterMetadataNode (s : MetadataFSM) (req : CommandRegisterMetadataNode)
    : MetadataFSM * option error :=
  let entry := mkMetadataNodeEntry (rm_NodeID req) (rm_RaftAddr req) (rm_GrpcAddr req) in
  match upsert (Some (mdNodeRegistry s)) (rm_RaftAddr req) entry with
  | Ok m => (set_mdNodeRegistry s m, None)
  | Err e => (s, Some e)
  end.

Definition handleCmdDeregisterMetadataNode (s : MetadataFSM) (req : CommandDeregisterMetadataNode)
    : MetadataFSM * option error :=
  (set_mdNodeRegistry s (delete (dm_RaftAddr req) (mdNodeRegistry s)), None).

(** ** Apply *)

(** Decodes the payload of one command and runs its handler on it. *)
Definition dispatch {Req} (dec : json → res Req) (payload : doc)
    (handler : MetadataFSM → Req → MetadataFSM * option error) (s : MetadataFSM)
    : MetadataFSM * option error :=
  match Unmarshal dec payload with
  | Err err => (s, Some err)
  | Ok req => handler s req
  end.

Section Apply.
Context `{!MapRange}.

Definition Apply (s : MetadataFSM) (data : doc) : MetadataFSM * option error :=
  match Unmarshal dec_MetadataCommand data with
  | Err err => (s, Some err)
  | Ok cmd =>
      let payload := mc_Payload cmd in
      match cmdtype_of_Z (mc_Type cmd) with
      | Some CmdRegisterNode => dispatch dec_CommandRegisterNode payload handleCmdRegisterNode s
      | Some CmdDeregisterNode => dispatch dec_CommandDeregisterNode payload handleCmdDeregisterNode s
      | Some CmdMarkNodeDead => dispatch dec_CommandMarkNodeDead payload handleCmdMarkNodeDead s
      | Some CmdMarkNodeAlive => dispatch dec_CommandMarkNodeAlive payload handleCmdMarkNodeAlive s
      | Some CmdUpdateNodeSpace =>
          dispatch dec_CommandUpdateNodeSpace payload handleCmdUpdateNodeSpace s
      | Some CmdCreateFile => dispatch dec_CommandCreateFile payload handleCmdCreateFile s
      | Some CmdCommitFile => dispatch dec_CommandCommitFile payload handleCmdCommitFile s
      | Some CmdDeleteFile => dispatch dec_CommandDeleteFile payload handleCmdDeleteFile s
      | Some CmdCommitChunk => dispatch dec_CommandCommitChunk payload handleCmdCommitChunk s
      | Some CmdEvictChunkFromNode =>
          dispatch dec_CommandEvictChunkFromNode payload handleCmdEvictChunkFromNode s
      | Some CmdMarkChunkLost => dispatch dec_CommandMarkChunkLost payload handleCmdMarkChunkLost s
      | Some CmdCreateRepairJob =>
          dispatch dec_CommandCreateRepairJob payload handleCmdCreateRepairJob s
      | Some CmdUpdateRepairJob =>
          dispatch dec_CommandUpdateRepairJob payload handleCmdUpdateRepairJob s
      | Some CmdAddChunkReplica =>
          dispatch dec_CommandAddChunkReplica payload handleCmdAddChunkReplica s
      | Some CmdRegisterMetadataNode =>
          dispatch dec_CommandRegisterMetadataNode payload handleCmdRegisterMetadataNode s
      | Some CmdDeregisterMetadataNode =>
          dispatch dec_CommandDeregisterMetadataNode payload handleCmdDeregisterMetadataNode s
      | None => (s, Some (ErrNew "unknown command type"))
      end
  end.

(** Applying a committed log from left to right. *)
Definition apply_log (s : MetadataFSM) (log : list doc) : MetadataFSM :=
  foldl (λ s data, (Apply s data).1) s log.
End Apply.

(** ** Snapshot and restore *)

(** [utils.DeepCopy]; a nil pointer is [None]. *)
Definition DeepCopy {T} (zero : T) (registry : gmap string (option T)) : gmap string T :=
  default zero <$> registry.

Definition Snapshot (s : MetadataFSM) : MetadataFSMSnapshot :=
  mkSnapshot
    (DeepCopy zero_FileRecord (Some <$> fileIndex s))
    (DeepCopy zero_ChunkRecord (Some <$> chunkRegistry s))
    (DeepCopy zero_NodeEntry (Some <$> nodeRegistry s))
    (DeepCopy zero_RepairJob (Some <$> repairJobRegistry s))
    (DeepCopy zero_MetadataNodeEntry (Some <$> mdNodeRegistry s)).

(** [RestoreFSM]: a fresh allocation per entry, so the same values. *)
Definition RestoreFSM (sn : MetadataFSMSnapshot) : MetadataFSM :=
  mkFSM (sn_FileIndex sn) (sn_ChunkRegistry sn) (sn_NodeRegistry sn) (sn_RepairJobRegistry sn)
    (sn_MDNodeRegistry sn).

Definition enc_Snapshot (sn : MetadataFSMSnapshot) : json :=
  JObj [("file_index", enc_map enc_FileRecord (sn_FileIndex sn));
        ("chunk_registry", enc_map enc_ChunkRecord (sn_ChunkRegistry sn));
        ("node_registry", enc_map enc_NodeEntry (sn_NodeRegistry sn));
        ("repairjob_registry", enc_map enc_RepairJob (sn_RepairJobRegistry sn));
        ("md_node_registry", enc_map enc_MetadataNodeEntry (sn_MDNodeRegistry sn))].

Definition dec_Snapshot : json → res MetadataFSMSnapshot :=
  dec_struct (mkSnapshot ∅ ∅ ∅ ∅ ∅) (λ o,
    let? fi := dec_field "file_index" (dec_map dec_FileRecord) ∅ o in
    let? cr := dec_field "chunk_registry" (dec_map dec_ChunkRecord) ∅ o in
    let? nr := dec_field "node_registry" (dec_map dec_NodeEntry) ∅ o in
    let? jr := dec_field "repairjob_registry" (dec_map dec_RepairJob) ∅ o in
    let? mn := dec_field "md_node_registry" (dec_map dec_MetadataNodeEntry) ∅ o in
    Ok (mkSnapshot fi cr nr jr mn)).

(** What [io.Copy] to the snapshot sink does, and what state the sink ends in. *)
Inductive copy_outcome := CopyFailed (e : error) | CopyShort | CopyFull.
Inductive sink_state := SinkCancelled | SinkClosed (data : doc).

(** [Persist]: the sink is closed on success and cancelled on any error. *)
Definition Persist (sn : MetadataFSMSnapshot) (copy : copy_outcome) (close : option error)
    : sink_state * option error :=
  match copy with
  | CopyFailed e => (SinkCancelled, Some e)
  | CopyShort => (SinkCancelled, Some (ErrNew "Persist: short write"))
  | CopyFull =>
      match close with
      | Some e => (SinkCancelled, Some e)
      | None => (SinkClosed (Some (enc_Snapshot sn)), None)
      end
  end.

(** [Restore]; [Err] is a failure of [io.ReadAll]. *)
Definition Restore (s : MetadataFSM) (snapshot : res doc) : MetadataFSM * option error :=
  match snapshot with
  | Err e => (s, Some e)
  | Ok data =>
      match Unmarshal dec_Snapshot data with
      | Err e => (s, Some e)
      | Ok snap => (RestoreFSM snap, None)
      end
  end.
