(* ===== verification/FsmCommands.v ===== *)
(** * Commands as data: parsing a log entry and executing it

    [Apply] is split here into [decode] (what [json.Unmarshal] and the type
    switch do) and [exec] (what the handlers do), so that the properties of the
    state machine are proved by cases on a command instead of on bytes. *)

From S2P Require Import Prelude GoLib Json FsmTypes Fsm.

(** A request together with the [MetadataCmdType] that selects its handler. *)
Inductive command :=
| RegisterNodeC (req : CommandRegisterNode)
| DeregisterNodeC (req : CommandDeregisterNode)
| MarkNodeDeadC (req : CommandMarkNodeDead)
| MarkNodeAliveC (req : CommandMarkNodeAlive)
| UpdateNodeSpaceC (req : CommandUpdateNodeSpace)
| CreateFileC (req : CommandCreateFile)
| CommitFileC (req : CommandCommitFile)
| DeleteFileC (req : CommandDeleteFile)
| CommitChunkC (req : CommandCommitChunk)
| EvictChunkFromNodeC (req : CommandEvictChunkFromNode)
| MarkChunkLostC (req : CommandMarkChunkLost)
| CreateRepairJobC (req : CommandCreateRepairJob)
| UpdateRepairJobC (req : CommandUpdateRepairJob)
| AddChunkReplicaC (req : CommandAddChunkReplica)
| RegisterMetadataNodeC (req : CommandRegisterMetadataNode)
| DeregisterMetadataNodeC (req : CommandDeregisterMetadataNode).

Section exec.
Context `{!MapRange}.

(** The handler of each command. *)
Definition exec (s : MetadataFSM) (c : command) : MetadataFSM * option error :=
  match c with
  | RegisterNodeC req => handleCmdRegisterNode s req
  | DeregisterNodeC req => handleCmdDeregisterNode s req
  | MarkNodeDeadC req => handleCmdMarkNodeDead s req
  | MarkNodeAliveC req => handleCmdMarkNodeAlive s req
  | UpdateNodeSpaceC req => handleCmdUpdateNodeSpace s req
  | CreateFileC req => handleCmdCreateFile s req
  | CommitFileC req => handleCmdCommitFile s req
  | DeleteFileC req => handleCmdDeleteFile s req
  | CommitChunkC req => handleCmdCommitChunk s req
  | EvictChunkFromNodeC req => handleCmdEvictChunkFromNode s req
  | MarkChunkLostC req => handleCmdMarkChunkLost s req
  | CreateRepairJobC req => handleCmdCreateRepairJob s req
  | UpdateRepairJobC req => handleCmdUpdateRepairJob s req
  | AddChunkReplicaC req => handleCmdAddChunkReplica s req
  | RegisterMetadataNodeC req => handleCmdRegisterMetadataNode s req
  | DeregisterMetadataNodeC req => handleCmdDeregisterMetadataNode s req
  end.
End exec.

Definition res_map {A B} (f : A → B) (r : res A) : res B :=
  match r with Ok a => Ok (f a) | Err e => Err e end.

(** The command a log entry holds. *)
Definition decode (data : doc) : res command :=
  let? cmd := Unmarshal dec_MetadataCommand data in
  let payload := mc_Payload cmd in
  match cmdtype_of_Z (mc_Type cmd) with
  | Some CmdRegisterNode => res_map RegisterNodeC (Unmarshal dec_CommandRegisterNode payload)
  | Some CmdDeregisterNode => res_map DeregisterNodeC (Unmarshal dec_CommandDeregisterNode payload)
  | Some CmdMarkNodeDead => res_map MarkNodeDeadC (Unmarshal dec_CommandMarkNodeDead payload)
  | Some CmdMarkNodeAlive => res_map MarkNodeAliveC (Unmarshal dec_CommandMarkNodeAlive payload)
  | Some CmdUpdateNodeSpace => res_map UpdateNodeSpaceC (Unmarshal dec_CommandUpdateNodeSpace payload)
  | Some CmdCreateFile => res_map CreateFileC (Unmarshal dec_CommandCreateFile payload)
  | Some CmdCommitFile => res_map CommitFileC (Unmarshal dec_CommandCommitFile payload)
  | Some CmdDeleteFile => res_map DeleteFileC (Unmarshal dec_CommandDeleteFile payload)
  | Some CmdCommitChunk => res_map CommitChunkC (Unmarshal dec_CommandCommitChunk payload)
  | Some CmdEvictChunkFromNode =>
      res_map EvictChunkFromNodeC (Unmarshal dec_CommandEvictChunkFromNode payload)
  | Some CmdMarkChunkLost => res_map MarkChunkLostC (Unmarshal dec_CommandMarkChunkLost payload)
  | Some CmdCreateRepairJob => res_map CreateRepairJobC (Unmarshal dec_CommandCreateRepairJob payload)
  | Some CmdUpdateRepairJob => res_map UpdateRepairJobC (Unmarshal dec_CommandUpdateRepairJob payload)
  | Some CmdAddChunkReplica => res_map AddChunkReplicaC (Unmarshal dec_CommandAddChunkReplica payload)
  | Some CmdRegisterMetadataNode =>
      res_map RegisterMetadataNodeC (Unmarshal dec_CommandRegisterMetadataNode payload)
  | Some CmdDeregisterMetadataNode =>
      res_map DeregisterMetadataNodeC (Unmarshal dec_CommandDeregisterMetadataNode payload)
  | None => Err (ErrNew "unknown command type")
  end.

(** The envelope every proposer builds: the type constant and the encoded request. *)
Definition newCommand (cmdType : MetadataCmdType) (payload : json) : MetadataCommand :=
  mkMetadataCommand (cmdtype_to_Z cmdType) (Some payload).

Definition encode (c : command) : MetadataCommand :=
  match c with
  | RegisterNodeC req => newCommand CmdRegisterNode (enc_CommandRegisterNode req)
  | DeregisterNodeC req => newCommand CmdDeregisterNode (enc_CommandDeregisterNode req)
  | MarkNodeDeadC req => newCommand CmdMarkNodeDead (enc_CommandMarkNodeDead req)
  | MarkNodeAliveC req => newCommand CmdMarkNodeAlive (enc_CommandMarkNodeAlive req)
  | UpdateNodeSpaceC req => newCommand CmdUpdateNodeSpace (enc_CommandUpdateNodeSpace req)
  | CreateFileC req => newCommand CmdCreateFile (enc_CommandCreateFile req)
  | CommitFileC req => newCommand CmdCommitFile (enc_CommandCommitFile req)
  | DeleteFileC req => newCommand CmdDeleteFile (enc_CommandDeleteFile req)
  | CommitChunkC req => newCommand CmdCommitChunk (enc_CommandCommitChunk req)
  | EvictChunkFromNodeC req => newCommand CmdEvictChunkFromNode (enc_CommandEvictChunkFromNode req)
  | MarkChunkLostC req => newCommand CmdMarkChunkLost (enc_CommandMarkChunkLost req)
  | CreateRepairJobC req => newCommand CmdCreateRepairJob (enc_CommandCreateRepairJob req)
  | UpdateRepairJobC req => newCommand CmdUpdateRepairJob (enc_CommandUpdateRepairJob req)
  | AddChunkReplicaC req => newCommand CmdAddChunkReplica (enc_CommandAddChunkReplica req)
  | RegisterMetadataNodeC req =>
      newCommand CmdRegisterMetadataNode (enc_CommandRegisterMetadataNode req)
  | DeregisterMetadataNodeC req =>
      newCommand CmdDeregisterMetadataNode (enc_CommandDeregisterMetadataNode req)
  end.

(** The bytes [Propose] submits to Raft for an envelope. *)
Definition marshal_command (cmd : MetadataCommand) : doc := Some (enc_MetadataCommand cmd).

(** The unsigned fields of a request are values of their Go type. *)
Definition fits (c : command) : Prop :=
  match c with
  | RegisterNodeC req => fits_CommandRegisterNode req
  | UpdateNodeSpaceC req => fits_CommandUpdateNodeSpace req
  | CreateFileC req => fits_CommandCreateFile req
  | CommitFileC req => fits_CommandCommitFile req
  | UpdateRepairJobC req => fits_CommandUpdateRepairJob req
  | _ => True
  end.

Lemma Apply_decode `{!MapRange} s data :
  Apply s data =
    match decode data with Ok c => exec s c | Err e => (s, Some e) end.
Proof.
  unfold Apply, decode, dispatch. destruct (Unmarshal _ data) as [cmd|e]; simpl; [|done].
  destruct (cmdtype_of_Z (mc_Type cmd)) as [[]|]; [..|done];
    by destruct (Unmarshal _ (mc_Payload cmd)).
Qed.

Lemma decode_envelope t p :
  Unmarshal dec_MetadataCommand (marshal_command (newCommand t p)) = Ok (newCommand t p).
Proof. apply roundtrip_MetadataCommand, cmdtype_to_Z_int64. Qed.

Lemma decode_encode c : fits c → decode (marshal_command (encode c)) = Ok c.
Proof.
  unfold decode. destruct c; cbn [encode fits]; intros Hfit;
    rewrite decode_envelope; cbn [res_bind mc_Type mc_Payload newCommand cmdtype_to_Z cmdtype_of_Z Unmarshal].
  all: first
    [ rewrite roundtrip_CommandRegisterNode by done | rewrite roundtrip_CommandDeregisterNode
    | rewrite roundtrip_CommandMarkNodeDead | rewrite roundtrip_CommandMarkNodeAlive
    | rewrite roundtrip_CommandUpdateNodeSpace by done | rewrite roundtrip_CommandCreateFile by done
    | rewrite roundtrip_CommandCommitFile by done | rewrite roundtrip_CommandDeleteFile
    | rewrite roundtrip_CommandCommitChunk | rewrite roundtrip_CommandEvictChunkFromNode
    | rewrite roundtrip_CommandMarkChunkLost | rewrite roundtrip_CommandCreateRepairJob
    | rewrite roundtrip_CommandUpdateRepairJob by done | rewrite roundtrip_CommandAddChunkReplica
    | rewrite roundtrip_CommandRegisterMetadataNode | rewrite roundtrip_CommandDeregisterMetadataNode ];
    done.
Qed.

(** Applying a proposed command runs its handler on the request as it was. *)
Lemma Apply_encode `{!MapRange} s c :
  fits c → Apply s (marshal_command (encode c)) = exec s c.
Proof. intros. by rewrite Apply_decode, decode_encode. Qed.

(** Unfolds every handler; [exec_cases] does so for each command. *)
Ltac unfold_handlers :=
  cbn [exec] in *;
  unfold handleCmdRegisterNode, handleCmdDeregisterNode, handleCmdMarkNodeDead,
    handleCmdMarkNodeAlive, handleCmdUpdateNodeSpace, handleCmdCreateFile, handleCmdCommitFile,
    handleCmdDeleteFile, handleCmdCommitChunk, handleCmdEvictChunkFromNode, handleCmdMarkChunkLost,
    handleCmdCreateRepairJob, handleCmdUpdateRepairJob, handleCmdAddChunkReplica,
    handleCmdRegisterMetadataNode, handleCmdDeregisterMetadataNode, upsert,
    GetNode, GetFile, GetChunk in *;
  cbn [fst snd] in *.

Ltac exec_cases c := destruct c; unfold_handlers.
