(* ===== verification/FsmInv.v ===== *)
(** * Invariants of the metadata state machine

    The states a metadata node can be in are those reached from the empty FSM by
    committed log entries, in-memory heartbeat updates, and restarts from a
    snapshot.  [fsm_inv] is the well-formedness every such state has: keys agree
    with the identifiers stored under them, files and chunks reference each
    other consistently, replica lists have no duplicates, and a complete file
    has no chunk that was never committed. *)

From S2P Require Import Prelude GoLib Json FsmTypes Fsm FsmCommands.

(** ** The invariant *)

Record fsm_inv (s : MetadataFSM) : Prop := {
  inv_file_key : ∀ k f, fileIndex s !! k = Some f → fr_FileID f = k;
  inv_chunk_key : ∀ k c, chunkRegistry s !! k = Some c → cr_ChunkID c = k;
  inv_node_key : ∀ k n, nodeRegistry s !! k = Some n → ne_NodeID n = k;
  inv_job_key : ∀ k j, repairJobRegistry s !! k = Some j → rj_JobID j = k;
  inv_md_key : ∀ k e, mdNodeRegistry s !! k = Some e → mn_RaftAddr e = k;
  (* every chunk a file names is registered, as a chunk of that file *)
  inv_file_chunks : ∀ k f cid, fileIndex s !! k = Some f → cid ∈ fr_ChunkIDs f →
    ∃ c, chunkRegistry s !! cid = Some c ∧ cr_FileID c = k;
  (* every registered chunk is named by its file, at its own index *)
  inv_chunk_file : ∀ cid c, chunkRegistry s !! cid = Some c →
    ∃ f i, fileIndex s !! cr_FileID c = Some f ∧ cr_ChunkIndex c = Z.of_nat i ∧
           fr_ChunkIDs f !! i = Some cid;
  inv_complete : ∀ k f cid c, fileIndex s !! k = Some f → fr_Status f = FileStatusComplete →
    cid ∈ fr_ChunkIDs f → chunkRegistry s !! cid = Some c → cr_Status c ≠ ChunkStatusAllocated;
  inv_replicas : ∀ cid c, chunkRegistry s !! cid = Some c → NoDup (cr_Replicas c);
}.

Lemma fsm_inv_empty : fsm_inv NewEmptyMetadataFsm.
Proof. split; simpl; intros *; rewrite ?lookup_empty; done. Qed.

(** ** Replica lists *)

Section normalize.
Context `{!MapRange} (s : MetadataFSM).

(** What the loop keeps: the output has no duplicates and [seen] is its set. *)
Definition normalize_ok (acc : list string * gset string) : Prop :=
  NoDup acc.1 ∧ acc.2 = list_to_set acc.1.

Lemma normalize_ok_snoc (l : list string) (x : string) :
  NoDup l → x ∉ (list_to_set l : gset string) →
  normalize_ok (l ++ [x], {[x]} ∪ list_to_set l).
Proof.
  intros Hnd Hx. split; simpl.
  - apply NoDup_app. repeat split; [done| |apply NoDup_singleton].
    intros y Hy ->%list_elem_of_singleton. by apply Hx, elem_of_list_to_set.
  - rewrite list_to_set_app_L. simpl. set_solver.
Qed.

Lemma normalize_step_ok acc entry :
  normalize_ok acc → normalize_ok (normalize_step s acc entry).
Proof.
  destruct acc as [l seen]. intros [Hnd Hseen]; simpl in *. subst seen.
  unfold normalize_step.
  repeat case_match; try done; apply normalize_ok_snoc; set_solver.
Qed.

Lemma normalize_fold_ok raw acc :
  normalize_ok acc → normalize_ok (foldl (normalize_step s) acc raw).
Proof.
  revert acc. induction raw as [|e raw IH]; intros acc Hacc; simpl; [done|].
  apply IH. by apply normalize_step_ok.
Qed.

Lemma normalize_NoDup raw : NoDup (normalizeReplicaNodeIDs s raw).
Proof.
  apply (normalize_fold_ok raw ([], ∅)). split; [constructor|done].
Qed.

(** Registered node IDs, each once, are left as they are. *)
Lemma normalize_known raw acc :
  (∀ x, x ∈ raw → is_Some (nodeRegistry s !! x)) → NoDup (acc ++ raw) →
  foldl (normalize_step s) (acc, list_to_set acc) raw = (acc ++ raw, list_to_set (acc ++ raw)).
Proof.
  revert acc. induction raw as [|x raw IH]; intros acc Hreg Hnd; simpl.
  { by rewrite app_nil_r. }
  destruct (Hreg x) as [n Hn]; [set_solver|].
  assert (Hx : x ∉ acc).
  { apply NoDup_app in Hnd as (_ & Hd & _). intros Hx. apply (Hd x Hx). set_solver. }
  unfold GetNode. rewrite Hn.
  rewrite decide_False by (by rewrite elem_of_list_to_set).
  replace ({[x]} ∪ list_to_set acc : gset string) with (list_to_set (acc ++ [x]) : gset string).
  2:{ rewrite list_to_set_app_L. simpl. set_solver. }
  rewrite IH; [by rewrite <-(assoc_L (++))|set_solver|by rewrite <-(assoc_L (++))].
Qed.
End normalize.

Lemma getIndex_Some nodeID l i :
  getIndex nodeID l = Some i → l = take i l ++ nodeID :: drop (i + 1) l ∧ nodeID ∉ take i l.
Proof.
  revert i. induction l as [|x l IH]; intros i; simpl; [done|].
  case_decide as Hx.
  - intros [= <-]; simpl. subst. split; [by rewrite drop_0|set_solver].
  - intros (j & Hj & ->)%fmap_Some. destruct (IH j Hj) as [Heq Hni]. simpl. split.
    + by f_equal.
    + set_solver.
Qed.

Lemma getIndex_None nodeID l : getIndex nodeID l = None ↔ nodeID ∉ l.
Proof.
  induction l as [|x l IH]; simpl; [set_solver|].
  case_decide; [set_solver|]. rewrite fmap_None, IH. set_solver.
Qed.

(** Cutting out position [i] removes exactly that node. *)
Lemma evict_list nodeID l i :
  getIndex nodeID l = Some i → NoDup l →
  NoDup (take i l ++ drop (i + 1) l) ∧
  (∀ x, x ∈ take i l ++ drop (i + 1) l ↔ x ∈ l ∧ x ≠ nodeID).
Proof.
  intros [Heq Hni]%getIndex_Some Hnd.
  assert (Hp : l ≡ₚ nodeID :: (take i l ++ drop (i + 1) l)).
  { rewrite Heq at 1. by rewrite Permutation_middle. }
  rewrite Hp in Hnd. apply NoDup_cons in Hnd as [Hn Hnd]. split; [done|].
  intros x. split.
  - intros Hx. split; [rewrite Hp; set_solver|]. intros ->. done.
  - intros [Hx Hne]. rewrite Hp in Hx. set_solver.
Qed.

Lemma evict_filter nodeID l i :
  getIndex nodeID l = Some i → NoDup l →
  take i l ++ drop (i + 1) l = filter (.≠ nodeID) l.
Proof.
  revert i. induction l as [|x l IH]; intros i Hi Hnd; simpl in Hi; [done|].
  apply NoDup_cons in Hnd as [Hx Hnd]. case_decide as Hxn.
  - simplify_eq. rewrite filter_cons_False by auto. simpl. rewrite drop_0.
    clear -Hx. induction l as [|y l IH]; [done|]. rewrite filter_cons_True by set_solver.
    f_equal. apply IH. set_solver.
  - apply fmap_Some in Hi as (j & Hj & ->). simpl. rewrite filter_cons_True by done.
    f_equal. by apply IH.
Qed.

Lemma getIndex_snoc nodeID l : nodeID ∉ l → getIndex nodeID (l ++ [nodeID]) = Some (length l).
Proof.
  induction l as [|x l IH]; intros Hni; simpl; [by rewrite decide_True|].
  rewrite decide_False by set_solver. by rewrite IH by set_solver.
Qed.

(** ** Updates that preserve the invariant *)

Lemma inv_update_node s k n :
  fsm_inv s → ne_NodeID n = k →
  fsm_inv (set_nodeRegistry s (<[k := n]> (nodeRegistry s))).
Proof.
  intros [] Hk. split; simpl; try done.
  intros k' n' [[-> ->]|[? ?]]%lookup_insert_Some; eauto.
Qed.

Lemma inv_update_job s k j :
  fsm_inv s → rj_JobID j = k →
  fsm_inv (set_repairJobRegistry s (<[k := j]> (repairJobRegistry s))).
Proof.
  intros [] Hk. split; simpl; try done.
  intros k' j' [[-> ->]|[? ?]]%lookup_insert_Some; eauto.
Qed.

(** A handler that mutates an entry keeps its identifier. *)
Lemma inv_modify_node s k n n' :
  fsm_inv s → nodeRegistry s !! k = Some n → ne_NodeID n' = ne_NodeID n →
  fsm_inv (set_nodeRegistry s (<[k := n']> (nodeRegistry s))).
Proof. intros Hinv Hn Hid. apply inv_update_node; [done|]. rewrite Hid. by eapply inv_node_key. Qed.

Lemma inv_modify_job s k j j' :
  fsm_inv s → repairJobRegistry s !! k = Some j → rj_JobID j' = rj_JobID j →
  fsm_inv (set_repairJobRegistry s (<[k := j']> (repairJobRegistry s))).
Proof. intros Hinv Hn Hid. apply inv_update_job; [done|]. rewrite Hid. by eapply inv_job_key. Qed.

(** A chunk keeps its identity, and does not go back to being allocated. *)
Lemma inv_update_chunk s k c c' :
  fsm_inv s → chunkRegistry s !! k = Some c →
  cr_ChunkID c' = cr_ChunkID c → cr_FileID c' = cr_FileID c →
  cr_ChunkIndex c' = cr_ChunkIndex c → NoDup (cr_Replicas c') →
  (cr_Status c' = cr_Status c ∨ cr_Status c' ≠ ChunkStatusAllocated) →
  fsm_inv (set_chunkRegistry s (<[k := c']> (chunkRegistry s))).
Proof.
  intros [] Hc Hid Hf Hi Hr Hs. split; simpl; try done.
  - intros k' c'' [[<- <-]|[? ?]]%lookup_insert_Some; [|eauto]. rewrite Hid; eauto.
  - intros k' f cid Hfile Hin. destruct (inv_file_chunks0 _ _ _ Hfile Hin) as (c0 & Hc0 & <-).
    destruct (decide (k = cid)) as [->|].
    + exists c'. rewrite lookup_insert_eq. split; [done|]. congruence.
    + exists c0. by rewrite lookup_insert_ne.
  - intros cid c'' [[<- <-]|[? ?]]%lookup_insert_Some; [|eauto].
    rewrite Hf, Hi. eauto.
  - intros k' f cid c'' Hfile Hst Hin [[<- <-]|[? ?]]%lookup_insert_Some; [|eauto].
    destruct Hs as [->|?]; [|done]. eauto.
  - intros cid c'' [[<- <-]|[? ?]]%lookup_insert_Some; eauto.
Qed.

(** A file keeps its identity and its chunks. *)
Lemma inv_update_file s k f f' :
  fsm_inv s → fileIndex s !! k = Some f →
  fr_FileID f' = fr_FileID f → fr_ChunkIDs f' = fr_ChunkIDs f →
  (fr_Status f' = FileStatusComplete → ∀ cid c, cid ∈ fr_ChunkIDs f →
     chunkRegistry s !! cid = Some c → cr_Status c ≠ ChunkStatusAllocated) →
  fsm_inv (set_fileIndex s (<[k := f']> (fileIndex s))).
Proof.
  intros [] Hf Hid Hch Hst. split; simpl; try done.
  - intros k' f'' [[<- <-]|[? ?]]%lookup_insert_Some; [|eauto]. rewrite Hid; eauto.
  - intros k' f'' cid [[<- <-]|[? ?]]%lookup_insert_Some; [|eauto]. rewrite Hch. eauto.
  - intros cid c Hc. destruct (inv_chunk_file0 _ _ Hc) as (f0 & i & Hf0 & Hi & Hl).
    destruct (decide (k = cr_FileID c)) as [->|].
    + exists f', i. rewrite lookup_insert_eq. split; [done|]. split; [done|].
      rewrite Hch. congruence.
    + exists f0, i. by rewrite lookup_insert_ne.
  - intros k' f'' cid c [[<- <-]|[? ?]]%lookup_insert_Some; [|eauto].
    rewrite Hch. eauto.
Qed.

(** ** Creating a file *)

Lemma stubs_lookup (f : nat → string → ChunkRecord) l (reg : gmap string ChunkRecord) cid :
  (∀ i x, cr_ChunkID (f i x) = x) →
  let reg' := foldl (λ m val, <[cr_ChunkID val := val]> m) reg (imap f l) in
  (cid ∉ l ∧ reg' !! cid = reg !! cid) ∨
  (∃ i, l !! i = Some cid ∧ reg' !! cid = Some (f i cid)).
Proof.
  revert f reg. induction l as [|x l IH]; intros f reg Hf; simpl.
  { left. set_solver. }
  destruct (IH (f ∘ S) (<[cr_ChunkID (f 0 x) := f 0 x]> reg)) as [[Hni Heq]|(i & Hi & Heq)].
  { intros i y. apply Hf. }
  - destruct (decide (x = cid)) as [->|Hne].
    + right. exists 0. split; [done|]. rewrite Heq, Hf, lookup_insert_eq. done.
    + left. split; [set_solver|]. rewrite Heq, Hf, lookup_insert_ne by done. done.
  - right. exists (S i). by split.
Qed.

Lemma create_no_collision s l fid :
  existsb (λ val, bool_decide (is_Some (chunkRegistry s !! cr_ChunkID val)))
    (imap (new_chunk_stub fid) l) = false →
  ∀ cid, cid ∈ l → chunkRegistry s !! cid = None.
Proof.
  intros He cid (i & Hi)%list_elem_of_lookup. apply not_true_iff_false in He.
  destruct (chunkRegistry s !! cid) eqn:Hc; [|done].
  destruct He. apply existsb_exists. exists (new_chunk_stub fid i cid). split.
  - apply list_elem_of_In, elem_of_lookup_imap_2. done.
  - apply bool_decide_eq_true. simpl. by rewrite Hc.
Qed.

Lemma inv_create_file s fid name fsz csz ids t :
  fsm_inv s → fileIndex s !! fid = None →
  (∀ cid, cid ∈ ids → chunkRegistry s !! cid = None) →
  fsm_inv (mkFSM
    (<[fid := mkFileRecord fid name fsz csz [] ids FileStatusCreating t zero_time]> (fileIndex s))
    (foldl (λ m val, <[cr_ChunkID val := val]> m) (chunkRegistry s) (imap (new_chunk_stub fid) ids))
    (nodeRegistry s) (repairJobRegistry s) (mdNodeRegistry s)).
Proof.
  intros [] Hnew Hfresh.
  assert (Hstub := λ cid,
    stubs_lookup (new_chunk_stub fid) ids (chunkRegistry s) cid (λ i x, eq_refl)).
  cbn zeta in Hstub. split; simpl; try done.
  - intros k f [[<- <-]|[? ?]]%lookup_insert_Some; [done|eauto].
  - intros k c Hc. destruct (Hstub k) as [[_ Heq]|(i & _ & Heq)]; rewrite Heq in Hc; [eauto|].
    by simplify_eq.
  - intros k f cid [[<- <-]|[Hne Hf]]%lookup_insert_Some Hin; simpl in *.
    + destruct (Hstub cid) as [[Hni _]|(i & _ & Heq)]; [done|]. rewrite Heq. eauto.
    + destruct (inv_file_chunks0 _ _ _ Hf Hin) as (c & Hc & Hcf).
      destruct (Hstub cid) as [[_ Heq]|(i & Hi & _)]; [rewrite Heq; eauto|].
      rewrite (Hfresh cid) in Hc; [done|]. by apply list_elem_of_lookup_2 in Hi.
  - intros cid c Hc. destruct (Hstub cid) as [[_ Heq]|(i & Hi & Heq)]; rewrite Heq in Hc.
    + destruct (inv_chunk_file0 _ _ Hc) as (f & i & Hf & ? & ?). exists f, i.
      rewrite lookup_insert_ne by congruence. done.
    + simplify_eq/=. eexists _, i. by rewrite lookup_insert_eq.
  - intros k f cid c [[<- <-]|[Hne Hf]]%lookup_insert_Some Hst Hin Hc; simpl in *; [done|].
    destruct (Hstub cid) as [[_ Heq]|(i & Hi & Heq)]; rewrite Heq in Hc; [eauto|].
    destruct (inv_file_chunks0 _ _ _ Hf Hin) as (c0 & Hc0 & _).
    rewrite (Hfresh cid) in Hc0; [done|]. by apply list_elem_of_lookup_2 in Hi.
  - intros cid c Hc. destruct (Hstub cid) as [[_ Heq]|(i & Hi & Heq)]; rewrite Heq in Hc; [eauto|].
    simplify_eq/=. constructor.
Qed.

Lemma check_chunks_complete_None reg ids :
  check_chunks_complete reg ids = None ↔
  ∀ cid, cid ∈ ids → ∃ c, reg !! cid = Some c ∧ cr_Status c = ChunkStatusComplete.
Proof.
  induction ids as [|x ids IH]; simpl; [set_solver|]. split.
  - repeat case_match; try done. intros Hn cid [->|Hin]%elem_of_cons; [eauto|].
    by apply (proj1 IH).
  - intros Hall. destruct (Hall x) as (c & -> & Hc); [set_solver|].
    rewrite decide_True by done. apply IH. set_solver.
Qed.

(** ** Preservation *)

#[export] Hint Resolve normalize_NoDup : dfs.

(** Registration writes one node entry, under its own identifier. *)
Lemma register_node_write s req :
  fsm_inv s → ∃ n, ne_NodeID n = rn_NodeID req ∧
    handleCmdRegisterNode s req =
      (set_nodeRegistry s (<[rn_NodeID req := n]> (nodeRegistry s)), None).
Proof.
  intros Hinv. unfold handleCmdRegisterNode, GetNode, upsert.
  destruct (nodeRegistry s !! rn_NodeID req) as [n|] eqn:Hn; simpl.
  - rewrite (inv_node_key _ Hinv _ _ Hn).
    eexists (mkNodeEntry (rn_NodeID req) _ _ _ _ _ _ _).
    split; [done|].
    unfold set_nodeRegistry; simpl. by rewrite insert_insert_eq.
  - eexists (mkNodeEntry _ _ _ _ _ _ _ _). by split.
Qed.

Lemma inv_register_md s e :
  fsm_inv s → fsm_inv (set_mdNodeRegistry s (<[mn_RaftAddr e := e]> (mdNodeRegistry s))).
Proof.
  intros []. split; simpl; try done.
  intros k' n' [[<- <-]|[? ?]]%lookup_insert_Some; eauto.
Qed.

Lemma inv_deregister_md s k :
  fsm_inv s → fsm_inv (set_mdNodeRegistry s (delete k (mdNodeRegistry s))).
Proof. intros []. split; simpl; try done. intros k' n' [_ ?]%lookup_delete_Some; eauto. Qed.

Lemma NoDup_snoc {A} (l : list A) x : NoDup l → x ∉ l → NoDup (l ++ [x]).
Proof.
  intros Hl Hx. apply NoDup_app. repeat split; [done| |apply NoDup_singleton]. set_solver.
Qed.

#[export] Hint Resolve inv_update_job inv_modify_node inv_modify_job inv_register_md
  inv_deregister_md inv_replicas NoDup_snoc : dfs.

Lemma inv_exec `{!MapRange} s c : fsm_inv s → fsm_inv (exec s c).1.
Proof.
  intros Hinv. destruct c as [req| | | | | | | | | | | | | | | ].
  { destruct (register_node_write s req Hinv) as (n & Hn & Heq). cbn [exec]. rewrite Heq.
    by apply inv_update_node. }
  all: unfold_handlers; repeat (case_match; simplify_eq/=); try done.
  all: try by (eapply inv_update_chunk; simpl; eauto with dfs).
  all: try by eauto with dfs.
  - unfold set_fileIndex, set_chunkRegistry; simpl.
    apply inv_create_file; [done..|]. by eapply create_no_collision.
  - eapply inv_update_file; [done..|]. intros _ cid c Hcid Hc.
    edestruct (proj1 (check_chunks_complete_None (chunkRegistry s) (fr_ChunkIDs a)))
      as (c' & Hc' & Hst); [done..|].
    simplify_eq. by rewrite Hst.
  - by eapply inv_update_file.
  - eapply inv_update_chunk; simpl; [done..| |by left].
    eapply evict_list; [done|]. by eapply inv_replicas.
Qed.

(** ** Reading a well-formed state *)

Lemma collect_chunks_Ok reg ids (P : ChunkRecord → Prop) :
  (∀ cid, cid ∈ ids → ∃ c, reg !! cid = Some c ∧ cr_ChunkID c = cid ∧ P c) →
  ∃ chunks, collect_chunks reg ids = Ok chunks ∧ cr_ChunkID <$> chunks = ids ∧ Forall P chunks.
Proof.
  induction ids as [|cid ids IH]; intros Hids; simpl; [by exists []|].
  destruct (Hids cid) as (c & -> & Hid & HP); [set_solver|].
  destruct IH as (chunks & -> & Hmap & Hall); [set_solver|].
  exists (c :: chunks). csimpl. rewrite Hmap, Hid. auto.
Qed.

(** ** What replica normalisation keeps *)

(** [x] is the node ID, or the unmatched entry, that a reported replica [e] stands for. *)
Definition names_replica (s : MetadataFSM) (x e : string) : Prop :=
  (x = e ∧ (is_Some (nodeRegistry s !! x) ∨
            ∀ k n, nodeRegistry s !! k = Some n → ne_Address n ≠ e)) ∨
  (∃ n, nodeRegistry s !! x = Some n ∧ ne_Address n = e).

Section normalize_spec.
Context `{!MapRange} (s : MetadataFSM).
Hypothesis Hkeys : ∀ k n, nodeRegistry s !! k = Some n → ne_NodeID n = k.
Hypothesis Hid : nodeRegistry s !! "" = None.

(** One iteration appends at most one entry, and the entry read is represented after it. *)
Lemma normalize_step_spec acc e :
  acc.2 = list_to_set acc.1 →
  ∃ new, (normalize_step s acc e).1 = acc.1 ++ new ∧
    (∀ x, x ∈ new → names_replica s x e) ∧
    ((∀ y, y ∈ acc.1 → is_Some (nodeRegistry s !! y) ∨
        ∀ k n, nodeRegistry s !! k = Some n → ne_Address n ≠ y) →
     ∃ x, x ∈ acc.1 ++ new ∧ names_replica s x e).
Proof.
  destruct acc as [out seen]; simpl. intros ->. unfold normalize_step, GetNode.
  case_decide as Hseen.
  { exists []. rewrite app_nil_r. split_and!; [done|set_solver|]. intros Hout.
    apply elem_of_list_to_set in Hseen. exists e. split; [done|]. left. split; [done|]. by apply Hout. }
  destruct (nodeRegistry s !! e) as [n|] eqn:He.
  { exists [e]. split_and!; [done| |].
    - intros x ->%list_elem_of_singleton. left. rewrite He. eauto.
    - intros _. exists e. split; [set_solver|]. left. rewrite He. eauto. }
  destruct (range_find _ _) as [n|] eqn:Hfind.
  - apply range_find_Some in Hfind as [Ha%bool_decide_eq_true [k Hk]].
    pose proof (Hkeys _ _ Hk) as Hkey.
    assert (Hnames : names_replica s (ne_NodeID n) e) by (right; exists n; by rewrite Hkey).
    rewrite decide_True by congruence. case_decide as Hin.
    + exists []. rewrite app_nil_r. split_and!; [done|set_solver|]. intros _.
      exists (ne_NodeID n). split; [|done]. by apply elem_of_list_to_set in Hin.
    + exists [ne_NodeID n]. split_and!; [done| |].
      * by intros x ->%list_elem_of_singleton.
      * intros _. exists (ne_NodeID n). split; [set_solver|done].
  - rewrite range_find_None in Hfind.
    assert (Hnames : names_replica s e e).
    { left. split; [done|]. right. intros k n Hk. exact (proj1 (bool_decide_eq_false _) (Hfind k n Hk)). }
    rewrite decide_False by auto. exists [e]. split_and!; [done| |].
    + by intros x ->%list_elem_of_singleton.
    + intros _. exists e. split; [set_solver|done].
Qed.

Lemma normalize_fold_spec raw acc :
  normalize_ok acc →
  (∀ y, y ∈ acc.1 → is_Some (nodeRegistry s !! y) ∨
        ∀ k n, nodeRegistry s !! k = Some n → ne_Address n ≠ y) →
  let out := (foldl (normalize_step s) acc raw).1 in
  (∀ x, x ∈ acc.1 → x ∈ out) ∧
  (∀ x, x ∈ out → x ∈ acc.1 ∨ ∃ e, e ∈ raw ∧ names_replica s x e) ∧
  (∀ e, e ∈ raw → ∃ x, x ∈ out ∧ names_replica s x e).
Proof.
  revert acc. induction raw as [|e raw IH]; intros acc Hok Hres; simpl.
  { split_and!; [done|auto|set_solver]. }
  destruct (normalize_step_spec acc e) as (new & Hnew & Hnames & Hrep); [by destruct Hok|].
  specialize (Hrep Hres). destruct Hrep as (x0 & Hx0 & Hx0e).
  destruct (IH (normalize_step s acc e)) as (H1 & H2 & H3).
  { by apply normalize_step_ok. }
  { intros y. rewrite Hnew. intros [Hy|Hy]%elem_of_app; [by apply Hres|].
    destruct (Hnames y Hy) as [[-> Hy']|(n & Hn & _)]; [done|]. left. by rewrite Hn. }
  rewrite Hnew in *. split_and!.
  - intros x Hx. apply H1. set_solver.
  - intros x [[Hx|Hx]%elem_of_app|(e' & He' & Hx)]%H2; [by left| |].
    + right. exists e. split; [set_solver|]. by apply Hnames.
    + right. exists e'. split; [set_solver|done].
  - intros e' [->|He']%elem_of_cons; [|by apply H3]. exists x0. split; [by apply H1|done].
Qed.
End normalize_spec.

(** ** The chunks of a node *)

Lemma GetChunksByNode_spec `{!MapRange} s nodeID :
  fsm_inv s →
  NoDup (GetChunksByNode s nodeID) ∧
  ∀ k, k ∈ GetChunksByNode s nodeID ↔ ∃ c, chunkRegistry s !! k = Some c ∧ nodeID ∈ cr_Replicas c.
Proof.
  intros Hinv. unfold GetChunksByNode. split.
  - eapply sublist_NoDup; [|apply fmap_sublist, sublist_filter].
    replace (cr_ChunkID <$> range_values (chunkRegistry s)) with ((map_range (chunkRegistry s)).*1);
      [apply NoDup_fst_map_range|].
    unfold range_values. rewrite <-list_fmap_compose. apply list_fmap_ext.
    intros i [k c] Hi. simpl. symmetry. apply (inv_chunk_key _ Hinv).
    apply elem_of_map_range. by eapply list_elem_of_lookup_2.
  - intros k. rewrite list_elem_of_fmap. split.
    + intros (c & -> & [Hin [k' Hk]%elem_of_range_values]%list_elem_of_filter). exists c.
      rewrite (inv_chunk_key _ Hinv _ _ Hk). done.
    + intros (c & Hc & Hin). exists c. split; [symmetry; by apply (inv_chunk_key _ Hinv)|].
      apply list_elem_of_filter. split; [done|]. apply elem_of_range_values. by exists k.
Qed.

(** A chunk without one of its replicas. *)
Definition drop_replica (nodeID : string) (c : ChunkRecord) : ChunkRecord :=
  set_Replicas c (filter (.≠ nodeID) (cr_Replicas c)).

Lemma filter_absent (x : string) (l : list string) : x ∉ l → filter (.≠ x) l = l.
Proof.
  induction l as [|y l IH]; intros Hx; [done|].
  rewrite filter_cons_True by set_solver. f_equal. apply IH. set_solver.
Qed.

Lemma drop_replica_absent nodeID c : nodeID ∉ cr_Replicas c → drop_replica nodeID c = c.
Proof. intros Hn. unfold drop_replica. rewrite filter_absent by done. by destruct c. Qed.

Lemma exec_evict s chunkID nodeID t reason c :
  NoDup (cr_Replicas c) → chunkRegistry s !! chunkID = Some c → nodeID ∈ cr_Replicas c →
  handleCmdEvictChunkFromNode s (mkCommandEvictChunkFromNode chunkID nodeID t reason) =
    (set_chunkRegistry s (<[chunkID := drop_replica nodeID c]> (chunkRegistry s)), None).
Proof.
  intros Hnd Hc Hin. unfold handleCmdEvictChunkFromNode, GetChunk; simpl. rewrite Hc.
  destruct (getIndex nodeID (cr_Replicas c)) as [i|] eqn:Hi.
  - unfold drop_replica. by rewrite <-(evict_filter nodeID _ i).
  - by apply getIndex_None in Hi.
Qed.
