(* ===== verification/FsmEquiv.v ===== *)
(** * Replicas of the state machine

    [LastSeen] is the one field of the FSM that does not go through the log: each
    metadata node sets it from the heartbeats it receives, and a snapshot drops
    it.  Two replicas agree when their states are equal up to that field
    ([fsm_equiv]).  Every command respects the equivalence and returns the same
    error on equivalent states, whatever order each replica's map iteration
    takes, provided no two storage nodes share an address. *)

From S2P Require Import Prelude GoLib Json FsmTypes Fsm FsmCommands FsmInv.

(** The state without its [LastSeen] fields. *)
Definition erase (s : MetadataFSM) : MetadataFSM :=
  set_nodeRegistry s (forget_LastSeen <$> nodeRegistry s).

Definition fsm_equiv (s t : MetadataFSM) : Prop := erase s = erase t.

#[global] Instance fsm_equiv_equivalence : Equivalence fsm_equiv.
Proof. split; unfold fsm_equiv; [intros s|intros s t|intros s t u]; congruence. Qed.

#[global] Instance erase_proper : Proper (fsm_equiv ==> eq) erase.
Proof. by intros s t Heq. Qed.

Lemma forget_idemp n : forget_LastSeen (forget_LastSeen n) = forget_LastSeen n.
Proof. done. Qed.

Lemma erase_equiv s : fsm_equiv (erase s) s.
Proof.
  unfold fsm_equiv, erase, set_nodeRegistry; simpl. f_equal.
  rewrite <-map_fmap_compose. by apply map_fmap_ext.
Qed.

(** No two storage nodes registered under the same address. *)
Definition distinct_addresses (s : MetadataFSM) : Prop :=
  ∀ k1 k2 n1 n2, nodeRegistry s !! k1 = Some n1 → nodeRegistry s !! k2 = Some n2 →
    ne_Address n1 = ne_Address n2 → k1 = k2.

(** A test for it. *)
Lemma NoDup_addresses s :
  NoDup ((λ kv, ne_Address kv.2) <$> map_to_list (nodeRegistry s)) → distinct_addresses s.
Proof.
  intros Hnd k1 k2 n1 n2 H1%elem_of_map_to_list H2%elem_of_map_to_list Ha.
  apply list_elem_of_lookup in H1 as [i Hi]. apply list_elem_of_lookup in H2 as [j Hj].
  assert (i = j) as ->; [|congruence].
  eapply (NoDup_lookup _ _ _ (ne_Address n1) Hnd); rewrite list_lookup_fmap.
  - by rewrite Hi.
  - by rewrite Hj, Ha.
Qed.

(** Equivalent states agree on everything but the node registry, and on that up
    to [forget_LastSeen]. *)
Lemma fsm_equiv_fields s t :
  fsm_equiv s t →
  fileIndex s = fileIndex t ∧ chunkRegistry s = chunkRegistry t ∧
  repairJobRegistry s = repairJobRegistry t ∧ mdNodeRegistry s = mdNodeRegistry t ∧
  forget_LastSeen <$> nodeRegistry s = forget_LastSeen <$> nodeRegistry t.
Proof. unfold fsm_equiv, erase, set_nodeRegistry. by intros [= -> -> -> -> ->]. Qed.

Lemma fsm_equiv_intro fi cr nr1 nr2 jr mr :
  forget_LastSeen <$> nr1 = forget_LastSeen <$> nr2 →
  fsm_equiv (mkFSM fi cr nr1 jr mr) (mkFSM fi cr nr2 jr mr).
Proof. intros Heq. unfold fsm_equiv, erase, set_nodeRegistry; simpl. by rewrite Heq. Qed.

Lemma equiv_lookup (m1 m2 : gmap string NodeEntry) k :
  forget_LastSeen <$> m1 = forget_LastSeen <$> m2 →
  forget_LastSeen <$> m1 !! k = forget_LastSeen <$> m2 !! k.
Proof. intros Heq. by rewrite <-!lookup_fmap, Heq. Qed.

Lemma equiv_insert (m1 m2 : gmap string NodeEntry) k n1 n2 :
  forget_LastSeen <$> m1 = forget_LastSeen <$> m2 → forget_LastSeen n1 = forget_LastSeen n2 →
  forget_LastSeen <$> <[k := n1]> m1 = forget_LastSeen <$> <[k := n2]> m2.
Proof. intros Hm Hn. by rewrite !fmap_insert, Hm, Hn. Qed.

#[export] Hint Resolve fsm_equiv_intro equiv_insert : dfs.

Section equiv.
Context (R1 R2 : MapRange).

Lemma normalize_step_equiv s t acc entry :
  fsm_inv s → fsm_equiv s t → distinct_addresses s →
  @normalize_step R1 s acc entry = @normalize_step R2 t acc entry.
Proof.
  intros Hinv (_ & _ & _ & _ & Hn)%fsm_equiv_fields Hd.
  unfold normalize_step, GetNode. destruct acc as [l seen]. case_decide; [done|].
  pose proof (equiv_lookup _ _ entry Hn) as Hk.
  destruct (nodeRegistry s !! entry), (nodeRegistry t !! entry); try done.
  set (Q := λ n : NodeEntry, bool_decide (ne_Address n = entry)).
  assert (Hfind : forget_LastSeen <$> @range_find R1 _ Q (nodeRegistry s) =
                  forget_LastSeen <$> @range_find R2 _ Q (nodeRegistry t)).
  { apply (range_find_order R1 R2 forget_LastSeen Q); [done|].
    intros k1 k2 n1 n2 H1 H2 A1%bool_decide_eq_true A2%bool_decide_eq_true; simpl in *.
    assert (k1 = k2) as -> by (eapply Hd; [done..|congruence]). congruence. }
  apply (f_equal (fmap ne_NodeID)) in Hfind. rewrite <-!option_fmap_compose in Hfind.
  destruct (@range_find R1 _ Q _) as [n1|], (@range_find R2 _ Q _) as [n2|]; try done.
  injection Hfind as Hfind. simpl in *. by rewrite Hfind.
Qed.

Lemma normalize_equiv s t raw :
  fsm_inv s → fsm_equiv s t → distinct_addresses s →
  @normalizeReplicaNodeIDs R1 s raw = @normalizeReplicaNodeIDs R2 t raw.
Proof.
  intros Hinv Heq Hd. unfold normalizeReplicaNodeIDs. f_equal.
  generalize (@nil string, ∅ : gset string) as acc.
  induction raw as [|e raw IH]; intros acc; simpl; [done|].
  by rewrite (normalize_step_equiv s t).
Qed.

(** The core of replica agreement. *)
Lemma exec_equiv s t c :
  fsm_inv s → fsm_equiv s t → distinct_addresses s →
  fsm_equiv (@exec R1 s c).1 (@exec R2 t c).1 ∧ (@exec R1 s c).2 = (@exec R2 t c).2.
Proof.
  intros Hinv Heq Hd.
  assert (Hnorm := λ raw, normalize_equiv s t raw Hinv Heq Hd).
  pose proof (fsm_equiv_fields _ _ Heq) as (Hf & Hc & Hj & Hm & Hn).
  destruct s as [fi cr nr1 jr mr], t as [fi' cr' nr2 jr' mr']; simpl in *; subst fi' cr' jr' mr'.
  exec_cases c; simpl; try rewrite Hnorm; unfold set_nodeRegistry, set_fileIndex,
    set_chunkRegistry, set_repairJobRegistry, set_mdNodeRegistry; simpl.
  all: try match goal with
    | Hn : _ <$> ?m1 = _ <$> ?m2 |- context [?m1 !! ?k] =>
        pose proof (equiv_lookup _ _ k Hn) as Hk;
        destruct (m1 !! k) as [n1|], (m2 !! k) as [n2|]; simplify_eq/=; try done
    end.
  { rewrite Hk. split; [|done]. apply fsm_equiv_intro.
    repeat apply equiv_insert; [done|..]; unfold forget_LastSeen; simpl; congruence. }
  all: clear Hinv Heq Hd Hnorm.
  all: try (split; [|done]; apply fsm_equiv_intro; apply equiv_insert; [done|];
    unfold forget_LastSeen; simpl; congruence).
  all: repeat (case_match; simplify_eq/=); (split; [|try done]); auto with dfs.
Qed.

Lemma Apply_equiv s t data :
  fsm_inv s → fsm_equiv s t → distinct_addresses s →
  fsm_equiv (@Apply R1 s data).1 (@Apply R2 t data).1 ∧
  (@Apply R1 s data).2 = (@Apply R2 t data).2.
Proof.
  intros Hinv Heq Hd. rewrite !Apply_decode.
  destruct (decode data); [by apply exec_equiv|done].
Qed.
End equiv.

Lemma inv_Apply `{!MapRange} s data : fsm_inv s → fsm_inv (Apply s data).1.
Proof. intros. rewrite Apply_decode. destruct (decode data); [by apply inv_exec|done]. Qed.

Lemma inv_apply_log `{!MapRange} s log : fsm_inv s → fsm_inv (apply_log s log).
Proof.
  revert s. induction log as [|d log IH]; intros s Hs; simpl; [done|].
  by apply IH, inv_Apply.
Qed.

(** No two nodes share an address at any point of the replay of a log. *)
Fixpoint run_distinct `{!MapRange} (s : MetadataFSM) (log : list doc) : Prop :=
  distinct_addresses s ∧
  match log with [] => True | data :: log' => run_distinct (Apply s data).1 log' end.

Lemma apply_log_equiv (R1 R2 : MapRange) s t log :
  fsm_inv s → fsm_equiv s t → @run_distinct R1 s log →
  fsm_equiv (@apply_log R1 s log) (@apply_log R2 t log).
Proof.
  revert s t. induction log as [|d log IH]; intros s t Hs Heq [Hd Hrun]; simpl; [done|].
  apply IH; [by apply inv_Apply|by apply Apply_equiv|done].
Qed.
