(* ===== verification/FsmSnapshot.v ===== *)
(** * Snapshot, restore and log compaction

    [Persist] after [Snapshot], then [Restore], gives back the state without its
    [LastSeen] fields.  The numeric fields of any state reached through the log
    are in the range of their Go types, because [json.Unmarshal] checks them on
    the way in, so the round trip applies to every such state; Raft may then
    replace any prefix of the log by a snapshot of its effect. *)

From S2P Require Import Prelude GoLib Json FsmTypes Fsm FsmCommands FsmInv FsmEquiv.

(** ** Ranges *)

Record fsm_fits (s : MetadataFSM) : Prop := {
  fit_files : ∀ k f, fileIndex s !! k = Some f → fits_FileRecord f;
  fit_chunks : ∀ k c, chunkRegistry s !! k = Some c → fits_ChunkRecord c;
  fit_nodes : ∀ k n, nodeRegistry s !! k = Some n → fits_NodeEntry n;
  fit_jobs : ∀ k j, repairJobRegistry s !! k = Some j → fits_RepairJob j;
}.

Lemma fsm_fits_empty : fsm_fits NewEmptyMetadataFsm.
Proof. split; simpl; intros *; rewrite lookup_empty; done. Qed.

(** ** The round trip *)

Lemma dec_Snapshot_fields l1 l2 l3 l4 l5 :
  dec_Snapshot (JObj [("file_index", JObj l1); ("chunk_registry", JObj l2);
    ("node_registry", JObj l3); ("repairjob_registry", JObj l4); ("md_node_registry", JObj l5)]) =
  (let? fi := dec_map dec_FileRecord (JObj l1) in
   let? cr := dec_map dec_ChunkRecord (JObj l2) in
   let? nr := dec_map dec_NodeEntry (JObj l3) in
   let? jr := dec_map dec_RepairJob (JObj l4) in
   let? mn := dec_map dec_MetadataNodeEntry (JObj l5) in
   Ok (mkSnapshot fi cr nr jr mn)).
Proof.
  lazy -[dec_map dec_FileRecord dec_ChunkRecord dec_NodeEntry dec_RepairJob dec_MetadataNodeEntry].
  reflexivity.
Qed.

Lemma DeepCopy_Some {T} (zero : T) (m : gmap string T) : DeepCopy zero (Some <$> m) = m.
Proof.
  unfold DeepCopy. rewrite <-map_fmap_compose. rewrite <-(map_fmap_id m) at 2.
  by apply map_fmap_ext.
Qed.

Lemma decode_Snapshot s :
  fsm_fits s →
  dec_Snapshot (enc_Snapshot (Snapshot s)) =
    Ok (mkSnapshot (fileIndex s) (chunkRegistry s) (forget_LastSeen <$> nodeRegistry s)
         (repairJobRegistry s) (mdNodeRegistry s)).
Proof.
  intros [Hf Hc Hn Hj]. unfold Snapshot. rewrite !DeepCopy_Some.
  pose proof (dec_map_enc enc_FileRecord dec_FileRecord id (fileIndex s)) as Ef.
  pose proof (dec_map_enc enc_ChunkRecord dec_ChunkRecord id (chunkRegistry s)) as Ec.
  pose proof (dec_map_enc enc_NodeEntry dec_NodeEntry forget_LastSeen (nodeRegistry s)) as En.
  pose proof (dec_map_enc enc_RepairJob dec_RepairJob id (repairJobRegistry s)) as Ej.
  pose proof (dec_map_enc enc_MetadataNodeEntry dec_MetadataNodeEntry id (mdNodeRegistry s)) as Em.
  unfold enc_Snapshot, enc_map in *.
  cbn [sn_FileIndex sn_ChunkRegistry sn_NodeRegistry sn_RepairJobRegistry sn_MDNodeRegistry].
  rewrite dec_Snapshot_fields.
  rewrite Ef, Ec, En, Ej, Em, !map_fmap_id; [done|..]; intros k v Hk.
  - by rewrite roundtrip_MetadataNodeEntry.
  - by eapply roundtrip_RepairJob, Hj.
  - by eapply roundtrip_NodeEntry, Hn.
  - by eapply roundtrip_ChunkRecord, Hc.
  - by eapply roundtrip_FileRecord, Hf.
Qed.

Lemma snapshot_restore s s0 :
  fsm_fits s →
  ∃ data, Persist (Snapshot s) CopyFull None = (SinkClosed data, None) ∧
    Restore s0 (Ok data) = (erase s, None).
Proof.
  intros Hfits. eexists. split; [reflexivity|].
  cbn [Restore Unmarshal]. by rewrite decode_Snapshot.
Qed.

(** ** Ranges are checked on the way in *)

Lemma dec_field_pred {A} (P : A → Prop) tag (dec : json → res A) zero o v :
  P zero → (∀ j v, dec j = Ok v → P v) → dec_field tag dec zero o = Ok v → P v.
Proof.
  intros Hz Hdec. unfold dec_field.
  assert (Hacc : ∀ v, Ok zero = Ok v → P v) by (intros ? [= <-]; done).
  revert Hacc. generalize (Ok zero) as acc. clear Hz.
  induction o as [|[k j] o IH]; intros acc Hacc; simpl; [by apply Hacc|].
  apply IH. intros v'. case_match; [|by apply Hacc].
  destruct acc; destruct j; simpl; eauto; try done.
Qed.

Lemma dec_uint64_range j v : dec_uint64 j = Ok v → is_uint64 v.
Proof.
  destruct j; simpl; try done; [intros [= <-]; done|].
  case_decide; [by intros [= <-]|done].
Qed.

Lemma uint64_field tag o v : dec_field tag dec_uint64 0%Z o = Ok v → is_uint64 v.
Proof. apply dec_field_pred; [done|apply dec_uint64_range]. Qed.

#[export] Hint Resolve uint64_field : dfs.

(** Splits a decoder into its fields. *)
Ltac decoder_fields :=
  repeat match goal with
  | |- res_bind ?r _ = Ok _ → _ => destruct r eqn:?; simpl; [|done]
  end.

Lemma decode_fits data c : decode data = Ok c → fits c.
Proof.
  unfold decode. destruct (Unmarshal _ data) as [cmd|]; simpl; [|done].
  destruct (cmdtype_of_Z _) as [t|]; [|done].
  destruct t; destruct (Unmarshal _ (mc_Payload cmd)) as [req|] eqn:Hd; simpl; intros [= <-];
    try done; simpl; destruct (mc_Payload cmd) as [[]|]; try done; revert Hd; simpl.
  all: try (intros [= <-]; done).
  all: unfold dec_CommandRegisterNode, dec_CommandUpdateNodeSpace, dec_CommandCreateFile,
    dec_CommandCommitFile, dec_CommandUpdateRepairJob; simpl; decoder_fields.
  all: intros [= <-]; first [by eapply uint64_field | split; by eapply uint64_field].
Qed.

(** The length of a Go slice is an [int]. *)
Definition small (c : command) : Prop :=
  match c with
  | CreateFileC req => (Z.of_nat (length (cf_ChunkIDs req)) < two63)%Z
  | _ => True
  end.

Definition slice_ok (data : doc) : Prop :=
  match decode data with Ok c => small c | Err _ => True end.

Lemma fits_insert {V} (P : V → Prop) (m : gmap string V) k v :
  P v → (∀ k' v', m !! k' = Some v' → P v') → ∀ k' v', <[k := v]> m !! k' = Some v' → P v'.
Proof. intros Hv Hm k' v' [[_ <-]|[_ ?]]%lookup_insert_Some; eauto. Qed.

Lemma stub_fits fid ids cid i :
  (Z.of_nat (length ids) < two63)%Z → ids !! i = Some cid → fits_ChunkRecord (new_chunk_stub fid i cid).
Proof.
  intros Hlen Hi%lookup_lt_Some. unfold fits_ChunkRecord, is_int64, two63 in *; simpl. lia.
Qed.

Lemma fits_exec `{!MapRange} s c :
  fsm_fits s → fits c → small c → fsm_fits (exec s c).1.
Proof.
  intros [Hf Hc Hn Hj] Hfit Hlen. exec_cases c; repeat (case_match; simplify_eq/=); try done.
  all: split; simpl; try done.
  all: try (repeat apply fits_insert; try done; first
    [ exact Hfit
    | match goal with
      | H : nodeRegistry _ !! _ = Some _ |- _ => exact (Hn _ _ H)
      | H : fileIndex _ !! _ = Some _ |- _ => exact (Hf _ _ H)
      | H : chunkRegistry _ !! _ = Some _ |- _ => exact (Hc _ _ H)
      end ]).
  intros cid c Hcid.
  destruct (stubs_lookup (new_chunk_stub (cf_FileID req)) (cf_ChunkIDs req) (chunkRegistry s) cid)
    as [[_ Heq]|(i & Hi & Heq)]; [done|..]; rewrite Heq in Hcid; [by eapply Hc|].
  simplify_eq. by eapply stub_fits.
Qed.

Lemma fits_Apply `{!MapRange} s data : fsm_fits s → slice_ok data → fsm_fits (Apply s data).1.
Proof.
  intros Hs Hok. rewrite Apply_decode. unfold slice_ok in Hok.
  destruct (decode data) as [c|] eqn:Hd; [|done].
  apply fits_exec; [done|by eapply decode_fits|done].
Qed.

Lemma fits_apply_log `{!MapRange} s log :
  fsm_fits s → Forall slice_ok log → fsm_fits (apply_log s log).
Proof.
  intros Hs Hlog. revert s Hs. induction Hlog as [|d log Hd _ IH]; intros s Hs; simpl; [done|].
  by apply IH, fits_Apply.
Qed.

(** ** Compaction *)

Lemma run_distinct_app `{!MapRange} s l1 l2 :
  run_distinct s (l1 ++ l2) → run_distinct (apply_log s l1) l2.
Proof. revert s. induction l1 as [|d l1 IH]; intros s; simpl; [done|]. intros [_ ?]. by apply IH. Qed.

Lemma apply_log_app `{!MapRange} s l1 l2 : apply_log s (l1 ++ l2) = apply_log (apply_log s l1) l2.
Proof. unfold apply_log. apply foldl_app. Qed.

(** A node that restores a snapshot of the state after [pre] and replays [suf],
    with any map iteration order, agrees with one that replayed the whole log. *)
Lemma compaction (R1 R2 : MapRange) pre suf s0 :
  Forall slice_ok pre →
  @run_distinct R1 NewEmptyMetadataFsm (pre ++ suf) →
  ∃ data,
    Persist (Snapshot (@apply_log R1 NewEmptyMetadataFsm pre)) CopyFull None =
      (SinkClosed data, None) ∧
    (Restore s0 (Ok data)).2 = None ∧
    fsm_equiv (@apply_log R1 NewEmptyMetadataFsm (pre ++ suf))
      (@apply_log R2 (Restore s0 (Ok data)).1 suf).
Proof.
  intros Hok Hrun. rewrite apply_log_app.
  set (s := @apply_log R1 NewEmptyMetadataFsm pre) in *.
  destruct (snapshot_restore s s0) as (data & Hp & Hr).
  { apply fits_apply_log; [apply fsm_fits_empty|done]. }
  exists data. rewrite Hr. split_and!; [done..|].
  apply apply_log_equiv; [apply inv_apply_log, fsm_inv_empty|symmetry; apply erase_equiv|].
  by apply run_distinct_app.
Qed.

Lemma inv_erase s : fsm_inv s → fsm_inv (erase s).
Proof.
  intros Hinv. pose proof (inv_node_key _ Hinv) as Hkey. destruct Hinv. split; simpl; try done.
  intros k n Hn. rewrite lookup_fmap in Hn. apply fmap_Some in Hn as (n' & Hn' & ->).
  exact (Hkey _ _ Hn').
Qed.

(** ** Reachable states *)

(** One event in the life of a metadata node: a committed entry, a heartbeat
    received by this node, or a restart from a snapshot of its state. *)
Inductive fsm_step `{!MapRange} : MetadataFSM → MetadataFSM → Prop :=
| step_apply s data : slice_ok data → fsm_step s (Apply s data).1
| step_heartbeat s nodeID ts : fsm_step s (UpdateLastSeen s nodeID ts).1
| step_restart s data s0 :
    Persist (Snapshot s) CopyFull None = (SinkClosed data, None) →
    fsm_step s (Restore s0 (Ok data)).1.

Definition reachable `{!MapRange} (s : MetadataFSM) : Prop := rtc fsm_step NewEmptyMetadataFsm s.

Lemma step_inv `{!MapRange} s t : fsm_step s t → fsm_inv s ∧ fsm_fits s → fsm_inv t ∧ fsm_fits t.
Proof.
  intros Hstep [Hinv Hfit]. destruct Hstep as [s data Hok|s nodeID ts|s data s0 Hp].
  - split; [by apply inv_Apply|by apply fits_Apply].
  - unfold UpdateLastSeen. destruct (nodeRegistry s !! nodeID) as [n|] eqn:Hn; [|done]; simpl. split.
    + by eapply inv_modify_node.
    + destruct Hfit. split; simpl; try done. apply fits_insert; [|done]. by apply (fit_nodes0 nodeID n).
  - destruct (snapshot_restore s s0 Hfit) as (data' & Hp' & Hr). rewrite Hp in Hp'. simplify_eq.
    rewrite Hr; simpl. split; [by apply inv_erase|].
    destruct Hfit. split; simpl; try done. intros k n.
    rewrite lookup_fmap. intros (n' & Hn' & ->)%fmap_Some. by apply (fit_nodes0 k n').
Qed.

Lemma reachable_inv `{!MapRange} s : reachable s → fsm_inv s ∧ fsm_fits s.
Proof.
  intros Hr. unfold reachable in Hr.
  assert (H0 : fsm_inv NewEmptyMetadataFsm ∧ fsm_fits NewEmptyMetadataFsm)
    by (split; [apply fsm_inv_empty|apply fsm_fits_empty]).
  induction Hr; eauto using step_inv.
Qed.

(** The entries [Propose] writes for a list of commands. *)
Definition log_of (cs : list command) : list doc := (marshal_command ∘ encode) <$> cs.

Lemma slice_ok_encode c : fits c → small c → slice_ok (marshal_command (encode c)).
Proof. intros. unfold slice_ok. by rewrite decode_encode. Qed.

Lemma reachable_log `{!MapRange} log :
  Forall slice_ok log → reachable (apply_log NewEmptyMetadataFsm log).
Proof.
  unfold reachable. generalize NewEmptyMetadataFsm as s.
  intros s Hlog. revert s. induction Hlog as [|d log Hd _ IH]; intros s; simpl; [done|].
  eapply rtc_l; [by apply step_apply|apply IH].
Qed.

Lemma log_of_ok cs : Forall (λ c, fits c ∧ small c) cs → Forall slice_ok (log_of cs).
Proof. intros Hcs. apply Forall_fmap. eapply Forall_impl; [done|]. intros c []. by apply slice_ok_encode. Qed.
