(* ===== verification/FsmTheorems.v ===== *)
(** * Correctness of the metadata state machine

    The properties of [metadata/fsm/fsm.go], each with a witness on a small
    cluster where it has hypotheses: one storage node, one file of two chunks. *)

From S2P Require Import Prelude GoLib Json FsmTypes Fsm FsmCommands FsmInv FsmEquiv FsmSnapshot.

(** ** Ordering file names *)

Lemma filename_less_sw : strict_weak filename_less.
Proof.
  destruct string_ltb_sw as [H1 H2 H3]. unfold filename_less.
  split; [intros f; apply H1|intros f g h; apply H2|intros f g h; apply H3].
Qed.

(** ** A concrete history for the witnesses *)

Definition w_node (id addr : string) : command :=
  RegisterNodeC (mkCommandRegisterNode id addr 1000%Z 0%Z 10%Z).
Definition w_create : command :=
  CreateFileC (mkCommandCreateFile "f1" "a.txt" ["c1"; "c2"] 8%Z 4%Z [] 11%Z).
Definition w_commit (cid : string) (locs : list string) : command :=
  CommitChunkC (mkCommandCommitChunk cid locs [Ascii.zero]).
Definition w_commit_file : command := CommitFileC (mkCommandCommitFile "f1" 8%Z [Ascii.one]).
Definition w_history : list command :=
  [w_node "n1" "h1:9000"; w_create; w_commit "c1" ["h1:9000"]; w_commit "c2" ["n1"; "h1:9000"];
   w_commit_file].
Definition w_state : MetadataFSM := apply_log NewEmptyMetadataFsm (log_of w_history).

Lemma w_history_ok : Forall (λ c, fits c ∧ small c) w_history.
Proof. repeat constructor; done. Qed.

Lemma w_reachable : reachable w_state.
Proof. apply reachable_log, log_of_ok, w_history_ok. Qed.

(** ** Invariants and atomicity *)

(** C4. Every state a metadata node reaches from the empty FSM, by any sequence of
    committed log entries (well formed or not), heartbeats and restarts from a
    snapshot, is well formed: records sit under their own identifiers, files and
    chunks refer to each other at matching positions, replica lists have no
    duplicates, and no chunk of a complete file is still merely allocated. *)
Theorem reachable_well_formed `{!MapRange} (s : MetadataFSM) : reachable s → fsm_inv s.
Proof. intros Hr. by apply reachable_inv in Hr as []. Qed.

Lemma reachable_well_formed_witness :
  fsm_inv w_state ∧ fr_Status <$> fileIndex w_state !! "f1" = Some FileStatusComplete.
Proof. split; [apply reachable_well_formed; exact w_reachable|vm_compute; reflexivity]. Defined.

(** C16. A log entry that [Apply] answers with an error, because it does not parse,
    has an unknown type or fails its handler's validation, leaves the state as it
    was. *)
Theorem apply_error_unchanged `{!MapRange} (s : MetadataFSM) (data : doc) (e : error) :
  (Apply s data).2 = Some e → (Apply s data).1 = s.
Proof.
  rewrite Apply_decode. destruct (decode data) as [c|]; [|done].
  exec_cases c; repeat (case_match; simplify_eq/=); done.
Qed.

Lemma apply_error_unchanged_witness :
  (Apply w_state (marshal_command (encode w_create))).1 = w_state.
Proof.
  apply (apply_error_unchanged w_state _
    (ErrNew "CmdCreateFile: fileID already exists in our systems, cannot override")).
  vm_compute. reflexivity.
Defined.

(** Whatever request a proposer marshals into the log, [Apply] runs exactly that
    request's handler on it: the type switch and the JSON round trip neither lose
    nor confuse a field, for all sixteen commands. *)
Theorem apply_proposed_command `{!MapRange} (s : MetadataFSM) (c : command) :
  fits c → Apply s (marshal_command (encode c)) = exec s c.
Proof. apply Apply_encode. Qed.

Lemma apply_proposed_command_witness :
  Apply w_state (marshal_command (encode (w_commit "c1" ["n1"]))) =
    (w_state, Some (ErrNew "cmdCommitChunk: chunk validation failed")).
Proof. rewrite apply_proposed_command by exact I. vm_compute. reflexivity. Defined.

(** ** Replication *)

(** C5. Two metadata nodes that start from equivalent states and apply the same log,
    each with its own map iteration order, stay equivalent up to [LastSeen], as
    long as no two storage nodes are registered under one address. *)
Theorem replicas_agree (R1 R2 : MapRange) (s t : MetadataFSM) (log : list doc) :
  fsm_inv s → fsm_equiv s t → @run_distinct R1 s log →
  fsm_equiv (@apply_log R1 s log) (@apply_log R2 t log).
Proof. apply apply_log_equiv. Qed.

Lemma w_run_distinct : @run_distinct canonical_MapRange NewEmptyMetadataFsm (log_of w_history).
Proof. repeat split; apply NoDup_addresses; compute_decide. Qed.

Lemma replicas_agree_witness :
  fsm_equiv w_state (@apply_log reversed_MapRange NewEmptyMetadataFsm (log_of w_history)).
Proof.
  apply (replicas_agree canonical_MapRange reversed_MapRange);
    [exact fsm_inv_empty|reflexivity|exact w_run_distinct].
Defined.

(** Without distinct addresses the state machine is not deterministic: with two
    nodes registered at one address, committing a chunk to that address stores a
    different replica under two lawful map iteration orders. *)
Theorem shared_address_diverges :
  let log := log_of [w_node "n1" "h:9000"; w_node "n2" "h:9000"; w_create; w_commit "c1" ["h:9000"]] in
  cr_Replicas <$> chunkRegistry (@apply_log canonical_MapRange NewEmptyMetadataFsm log) !! "c1" ≠
  cr_Replicas <$> chunkRegistry (@apply_log reversed_MapRange NewEmptyMetadataFsm log) !! "c1".
Proof. vm_compute. discriminate. Qed.

(** C14. Persisting a snapshot of a reachable state and restoring it on any node gives
    back that state with every [LastSeen] zeroed, and nothing else changed. *)
Theorem snapshot_roundtrip `{!MapRange} (s s0 : MetadataFSM) :
  reachable s →
  ∃ data, Persist (Snapshot s) CopyFull None = (SinkClosed data, None) ∧
    Restore s0 (Ok data) = (erase s, None).
Proof. intros [_ Hfit]%reachable_inv. by apply snapshot_restore. Qed.

Lemma snapshot_roundtrip_witness :
  ∃ data, Persist (Snapshot w_state) CopyFull None = (SinkClosed data, None) ∧
    Restore NewEmptyMetadataFsm (Ok data) = (erase w_state, None).
Proof. apply snapshot_roundtrip. exact w_reachable. Defined.



(** ** Reads *)

(** In a reachable state every file's chunk list resolves: [GetFileChunks] returns
    one record per chunk ID of the file, in order and owned by that file, and for a
    complete file none of them is still only allocated.  [ErrFileNotFound] is the
    answer exactly when the file is not indexed. *)
Theorem get_file_chunks_total `{!MapRange} (s : MetadataFSM) (fileID : string) :
  reachable s →
  (fileIndex s !! fileID = None → GetFileChunks s fileID = Err ErrFileNotFound) ∧
  (∀ f, fileIndex s !! fileID = Some f →
    ∃ chunks, GetFileChunks s fileID = Ok chunks ∧ cr_ChunkID <$> chunks = fr_ChunkIDs f ∧
      Forall (λ c, cr_FileID c = fileID ∧
        (fr_Status f = FileStatusComplete → cr_Status c ≠ ChunkStatusAllocated)) chunks).
Proof.
  intros [Hinv _]%reachable_inv. unfold GetFileChunks, GetFile.
  destruct (fileIndex s !! fileID) as [f|] eqn:Hf; [|done]; cbn [res_bind].
  split; [done|]. intros ? [= <-]. apply collect_chunks_Ok. intros cid Hcid.
  destruct (inv_file_chunks _ Hinv _ _ _ Hf Hcid) as (c & Hc & Hfc). exists c.
  split_and!; [done|by eapply inv_chunk_key|done|]. intros Hst. by eapply inv_complete.
Qed.

Lemma get_file_chunks_total_witness :
  GetFileChunks w_state "zz" = Err ErrFileNotFound ∧
  (∃ chunks, GetFileChunks w_state "f1" = Ok chunks ∧ cr_ChunkID <$> chunks = ["c1"; "c2"]).
Proof.
  split.
  - apply (get_file_chunks_total w_state "zz" w_reachable). vm_compute. reflexivity.
  - destruct (proj2 (get_file_chunks_total w_state "f1" w_reachable)
      (mkFileRecord "f1" "a.txt" 8 4 [Ascii.one] ["c1"; "c2"] FileStatusComplete 11%Z 0%Z))
      as (chunks & H1 & H2 & _); [vm_compute; reflexivity|].
    exists chunks. split; [exact H1|exact H2].
Defined.

(** Normalising the replicas a client reports yields each node at most once; every
    entry of the result stands for a reported one (the node ID itself, the node
    registered at that address, or the entry as it is when no node matches it), and
    every reported entry is represented. *)
Theorem normalize_replicas_spec `{!MapRange} (s : MetadataFSM) (raw : list string) :
  reachable s → nodeRegistry s !! "" = None →
  let out := normalizeReplicaNodeIDs s raw in
  NoDup out ∧
  (∀ x, x ∈ out → ∃ e, e ∈ raw ∧ names_replica s x e) ∧
  (∀ e, e ∈ raw → ∃ x, x ∈ out ∧ names_replica s x e).
Proof.
  intros [Hinv _]%reachable_inv Hid out. split; [apply normalize_NoDup|].
  destruct (normalize_fold_spec s (inv_node_key _ Hinv) Hid raw ([], ∅)) as (_ & H2 & H3);
    [split; [constructor|done]|set_solver|].
  split; [|done]. intros x [Hx|?]%H2; [set_solver|done].
Qed.

Lemma normalize_replicas_spec_witness :
  normalizeReplicaNodeIDs w_state ["h1:9000"; "n1"; "ghost"] = ["n1"; "ghost"] ∧
  ∃ x, x ∈ normalizeReplicaNodeIDs w_state ["h1:9000"; "n1"; "ghost"] ∧ names_replica w_state x "h1:9000".
Proof.
  split; [vm_compute; reflexivity|].
  apply (normalize_replicas_spec w_state ["h1:9000"; "n1"; "ghost"]);
    [exact w_reachable|vm_compute; reflexivity|set_solver].
Defined.

(** [GetChunkLocations] lists the replicas of a chunk whose node is known and not
    dead, in replica order, as current node entries; a node never appears twice. *)
Theorem chunk_locations_live `{!MapRange} (s : MetadataFSM) (chunkID : string) (c : ChunkRecord) :
  reachable s → chunkRegistry s !! chunkID = Some c →
  ∃ nodes, GetChunkLocations s chunkID = Ok nodes ∧
    (ne_NodeID <$> nodes) `sublist_of` cr_Replicas c ∧ NoDup (ne_NodeID <$> nodes) ∧
    ∀ n, n ∈ nodes ↔ ∃ k, k ∈ cr_Replicas c ∧ nodeRegistry s !! k = Some n ∧
      ne_Status n ≠ NodeStatusDead.
Proof.
  intros [Hinv _]%reachable_inv Hc. unfold GetChunkLocations, GetChunk. rewrite Hc; cbn [res_bind].
  eexists. split; [reflexivity|].
  assert (Hsub : ∀ l, (ne_NodeID <$> omap (live_replica s) l) `sublist_of` l).
  { induction l as [|k l IH]; simpl; [constructor|]. unfold live_replica at 1.
    destruct (nodeRegistry s !! k) as [n|] eqn:Hn; [|by apply sublist_cons].
    case_decide; [by apply sublist_cons|]. csimpl. rewrite (inv_node_key _ Hinv _ _ Hn).
    by apply sublist_skip. }
  split_and!; [apply Hsub|eapply sublist_NoDup; [by eapply inv_replicas|apply Hsub]|].
  intros n. rewrite list_elem_of_omap. unfold live_replica. split.
  - intros (k & Hk & Hl). repeat case_match; simplify_eq. eauto.
  - intros (k & Hk & Hn & Hst). exists k. split; [done|]. by rewrite Hn, decide_False.
Qed.

Lemma chunk_locations_live_witness :
  ∃ nodes, GetChunkLocations w_state "c2" = Ok nodes ∧ NoDup (ne_NodeID <$> nodes).
Proof.
  edestruct (chunk_locations_live w_state "c2") as (nodes & H1 & _ & H2 & _);
    [exact w_reachable|vm_compute; reflexivity|].
  exists nodes. split; [exact H1|exact H2].
Defined.

(** [ListFiles] returns exactly the indexed files whose name has the prefix, each
    once, in non-descending name order, for any map iteration order and any
    correct sorting routine. *)
Theorem list_files_sorted_complete `{!MapRange, !GoSort} (s : MetadataFSM) (pre : string) :
  ordered filename_less (ListFiles s pre) ∧
  (∀ f, f ∈ ListFiles s pre ↔
     (∃ k, fileIndex s !! k = Some f) ∧ String.prefix pre (fr_Filename f) = true) ∧
  (fsm_inv s → NoDup (fr_FileID <$> ListFiles s pre)).
Proof.
  unfold ListFiles. split_and!.
  - apply go_sort_ordered, filename_less_sw.
  - intros f. rewrite elem_of_go_sort, list_elem_of_filter, elem_of_range_values. tauto.
  - intros Hinv. rewrite go_sort_perm.
    eapply sublist_NoDup; [|apply fmap_sublist, sublist_filter].
    replace (fr_FileID <$> range_values (fileIndex s)) with ((map_range (fileIndex s)).*1);
      [apply NoDup_fst_map_range|].
    unfold range_values. rewrite <-list_fmap_compose. apply list_fmap_ext.
    intros i [k f] Hi. simpl. symmetry. apply (inv_file_key _ Hinv).
    apply elem_of_map_range. by eapply list_elem_of_lookup_2.
Qed.

(** ** Commands *)

(** [CreateFile] succeeds exactly when the file ID and all chunk IDs are new; it then
    adds the file, in status creating and without the requested checksum, and one
    allocated chunk stub per distinct chunk ID, and touches no other entry. *)
Theorem create_file_spec (s : MetadataFSM) (req : CommandCreateFile) :
  let '(s', err) := handleCmdCreateFile s req in
  (err = None ↔ fileIndex s !! cf_FileID req = None ∧
     ∀ cid, cid ∈ cf_ChunkIDs req → chunkRegistry s !! cid = None) ∧
  (err = None →
     (∃ f, fileIndex s' = <[cf_FileID req := f]> (fileIndex s) ∧ fr_ChunkIDs f = cf_ChunkIDs req ∧
        fr_Status f = FileStatusCreating ∧ fr_CheckSum f = [] ∧ fr_FileSize f = cf_FileSize req) ∧
     (∀ cid, cid ∈ cf_ChunkIDs req → ∃ i, cf_ChunkIDs req !! i = Some cid ∧
        chunkRegistry s' !! cid = Some (new_chunk_stub (cf_FileID req) i cid)) ∧
     (∀ cid, cid ∉ cf_ChunkIDs req → chunkRegistry s' !! cid = chunkRegistry s !! cid) ∧
     nodeRegistry s' = nodeRegistry s ∧ repairJobRegistry s' = repairJobRegistry s ∧
     mdNodeRegistry s' = mdNodeRegistry s) ∧
  (err ≠ None → s' = s).
Proof.
  unfold handleCmdCreateFile, GetFile.
  destruct (fileIndex s !! cf_FileID req) eqn:Hf; [naive_solver|].
  destruct (existsb _ _) eqn:Hex; simpl.
  { split_and!; [|done|done]. split; [done|]. intros [_ Hnone].
    apply existsb_exists in Hex as (c & (i & cid & -> & Hi)%list_elem_of_In%elem_of_lookup_imap & Hc).
    apply bool_decide_eq_true in Hc. simpl in Hc. rewrite Hnone in Hc; [by destruct Hc|].
    by eapply list_elem_of_lookup_2. }
  pose proof (create_no_collision _ _ _ Hex) as Hnew.
  assert (Hstub := λ cid, stubs_lookup (new_chunk_stub (cf_FileID req)) (cf_ChunkIDs req)
    (chunkRegistry s) cid (λ i x, eq_refl)). cbn zeta in Hstub.
  split_and!; [tauto| |done]. intros _. split_and!; try done.
  - eexists. split; [reflexivity|]. done.
  - intros cid Hcid. destruct (Hstub cid) as [[? _]|?]; [done|eauto].
  - intros cid Hcid. destruct (Hstub cid) as [[_ ?]|(i & Hi & _)]; [done|].
    by apply list_elem_of_lookup_2 in Hi.
Qed.

(** Evicting a node from a chunk succeeds exactly when the chunk lists the node; it
    then removes that node and keeps the others in order.  Evicting a node that was
    just added to a chunk without it restores the state. *)
Theorem evict_add_replica_inverse `{!MapRange} (s : MetadataFSM) (chunkID nodeID : string)
    (c : ChunkRecord) (t : Time) (reason : string) :
  reachable s → chunkRegistry s !! chunkID = Some c →
  let req := mkCommandEvictChunkFromNode chunkID nodeID t reason in
  ((handleCmdEvictChunkFromNode s req).2 = None ↔ nodeID ∈ cr_Replicas c) ∧
  (nodeID ∈ cr_Replicas c →
   (handleCmdEvictChunkFromNode s req).1 = set_chunkRegistry s
     (<[chunkID := set_Replicas c (filter (.≠ nodeID) (cr_Replicas c))]> (chunkRegistry s))) ∧
  (nodeID ∉ cr_Replicas c →
   handleCmdEvictChunkFromNode
     (handleCmdAddChunkReplica s (mkCommandAddChunkReplica chunkID nodeID)).1 req = (s, None)).
Proof.
  intros [Hinv _]%reachable_inv Hc req. subst req.
  unfold handleCmdEvictChunkFromNode, handleCmdAddChunkReplica, GetChunk. simpl. rewrite Hc.
  destruct (getIndex nodeID (cr_Replicas c)) as [i|] eqn:Hi; simpl.
  - assert (Hin : nodeID ∈ cr_Replicas c).
    { destruct (getIndex_Some _ _ _ Hi) as [-> _]. set_solver. }
    split_and!; [done| |done]. intros _. rewrite (evict_filter nodeID); [done|done|].
    by eapply inv_replicas.
  - apply getIndex_None in Hi. split_and!; [done|done|]. intros _. rewrite decide_False by done. simpl.
    rewrite lookup_insert_eq. simpl. rewrite getIndex_snoc by done. unfold set_chunkRegistry; simpl.
    rewrite insert_insert_eq. rewrite take_app_length, drop_ge, app_nil_r
      by (rewrite length_app; simpl; lia).
    rewrite insert_id; [by destruct s|]. rewrite Hc. by destruct c.
Qed.

Lemma evict_add_replica_inverse_witness :
  handleCmdEvictChunkFromNode
    (handleCmdAddChunkReplica w_state (mkCommandAddChunkReplica "c1" "n9")).1
    (mkCommandEvictChunkFromNode "c1" "n9" 5%Z "test") = (w_state, None).
Proof.
  eapply (evict_add_replica_inverse w_state "c1" "n9");
    [exact w_reachable|vm_compute; reflexivity|compute_decide].
Defined.

(** [CommitFile] does not look at the file's status: committing a deleted file whose
    chunks are complete makes it complete, and so readable, again. *)
Theorem commit_resurrects_deleted_file `{!MapRange} (s : MetadataFSM) (fileID : string)
    (f : FileRecord) (checksum : bytes) :
  fileIndex s !! fileID = Some f →
  check_chunks_complete (chunkRegistry s) (fr_ChunkIDs f) = None →
  let s1 := (handleCmdDeleteFile s (mkCommandDeleteFile fileID)).1 in
  let '(s2, err) := handleCmdCommitFile s1 (mkCommandCommitFile fileID (fr_FileSize f) checksum) in
  fr_Status <$> fileIndex s1 !! fileID = Some FileStatusDeleted ∧ err = None ∧
  fr_Status <$> fileIndex s2 !! fileID = Some FileStatusComplete.
Proof.
  intros Hf Hok. unfold handleCmdDeleteFile, handleCmdCommitFile, GetFile. simpl. rewrite Hf. simpl.
  rewrite lookup_insert_eq. simpl. rewrite decide_False by auto. rewrite Hok. simpl.
  by rewrite !lookup_insert_eq.
Qed.

Lemma commit_resurrects_deleted_file_witness :
  let s1 := (handleCmdDeleteFile w_state (mkCommandDeleteFile "f1")).1 in
  let '(s2, err) := handleCmdCommitFile s1 (mkCommandCommitFile "f1" 8 []) in
  fr_Status <$> fileIndex s1 !! "f1" = Some FileStatusDeleted ∧ err = None ∧
  fr_Status <$> fileIndex s2 !! "f1" = Some FileStatusComplete.
Proof.
  exact (commit_resurrects_deleted_file w_state "f1"
    (mkFileRecord "f1" "a.txt" 8 4 [Ascii.one] ["c1"; "c2"] FileStatusComplete 11%Z 0%Z) []
    ltac:(vm_compute; reflexivity) ltac:(vm_compute; reflexivity)).
Defined.
