(* ===== verification/Slices.v ===== *)
(** * Replica lists as Go slices

    [Fsm] treats a replica list as a value.  In the program it is a slice: a header
    pointing into a backing array, which [append] overwrites in place while there
    is capacity.  [utils.DeepCopy] copies the headers, so the records of a snapshot
    share their arrays with the live registry.  This file gives the chunk registry
    a heap, shows that the in-place handlers refine the list-level ones, and shows
    what a snapshot reads after a later eviction. *)

From S2P Require Import Prelude GoLib Json FsmTypes Fsm FsmCommands FsmInv.

(** ** Slices *)

(** A slice header; the capacity is what is left of the array after [sl_off].
    Array 0 is never allocated: it stands for the pointer of a nil slice. *)
Record slice := mkSlice { sl_arr : nat; sl_off : nat; sl_len : nat }.

Notation heap := (gmap nat (list string)).
Definition nil_slice : slice := mkSlice 0 0 0.

Definition array (h : heap) (a : nat) : list string := default [] (h !! a).
Definition sl_cap (h : heap) (s : slice) : nat := length (array h (sl_arr s)) - sl_off s.
Definition read (h : heap) (s : slice) : list string :=
  take (sl_len s) (drop (sl_off s) (array h (sl_arr s))).

(** [s[i:j]] *)
Definition subslice (s : slice) (i j : nat) : slice := mkSlice (sl_arr s) (sl_off s + i) (j - i).

(** [copy] into an array at position [p]. *)
Definition write_at (p : nat) (xs arr : list string) : list string :=
  take p arr ++ xs ++ drop (p + length xs) arr.

Section append.
(** Spare capacity of a reallocated array, which the language leaves open. *)
Context (spare : nat → nat).

(** [append(s, xs...)] *)
Definition go_append (h : heap) (s : slice) (xs : list string) : heap * slice :=
  if decide (sl_len s + length xs ≤ sl_cap h s) then
    (<[sl_arr s := write_at (sl_off s + sl_len s) xs (array h (sl_arr s))]> h,
     mkSlice (sl_arr s) (sl_off s) (sl_len s + length xs))
  else
    let a := fresh ({[0]} ∪ dom h) in
    let contents := read h s ++ xs in
    (<[a := contents ++ repeat "" (spare (length contents))]> h, mkSlice a 0 (length contents)).

(** ** The registry *)

(** A chunk record whose replica list is a slice. *)
Record HChunk := mkHChunk { hc_rec : ChunkRecord; hc_Replicas : slice }.
Record HState := mkHState { h_heap : heap; h_chunks : gmap string HChunk }.

(** The record a reader of the struct sees. *)
Definition view_chunk (h : heap) (c : HChunk) : ChunkRecord :=
  set_Replicas (hc_rec c) (read h (hc_Replicas c)).
Definition view (h : heap) (m : gmap string HChunk) : gmap string ChunkRecord := view_chunk h <$> m.

(** [chunk.Replicas = append(chunk.Replicas[:idx], chunk.Replicas[idx+1:]...)] *)
Definition heap_evict (st : HState) (chunkID nodeID : string) : HState * option error :=
  match h_chunks st !! chunkID with
  | None => (st, Some (ErrJoin (ErrNew "cmdEvictChunk: ") ErrChunkNotFound))
  | Some chunk =>
      let r := hc_Replicas chunk in
      match getIndex nodeID (read (h_heap st) r) with
      | None => (st, Some (ErrNew "cmdEvictChunk: chunk not present on node"))
      | Some idx =>
          let '(h', r') := go_append (h_heap st) (subslice r 0 idx)
            (read (h_heap st) (subslice r (idx + 1) (sl_len r))) in
          (mkHState h' (<[chunkID := mkHChunk (hc_rec chunk) r']> (h_chunks st)), None)
      end
  end.

(** [chunk.Replicas = append(chunk.Replicas, req.NodeID)] *)
Definition heap_add (st : HState) (chunkID nodeID : string) : HState * option error :=
  match h_chunks st !! chunkID with
  | None => (st, Some (ErrJoin (ErrNew "cmdAddChunkReplica: ") ErrChunkNotFound))
  | Some chunk =>
      if decide (nodeID ∈ read (h_heap st) (hc_Replicas chunk)) then (st, None)
      else
        let '(h', r') := go_append (h_heap st) (hc_Replicas chunk) [nodeID] in
        (mkHState h' (<[chunkID := mkHChunk (hc_rec chunk) r']> (h_chunks st)), None)
  end.

(** [DeepCopy] of the chunk registry: struct copies, so the same slice headers. *)
Definition heap_snapshot (st : HState) : gmap string HChunk :=
  default (mkHChunk zero_ChunkRecord nil_slice) <$> (Some <$> h_chunks st).

(** ** Well-formed heaps *)

Definition slice_valid (h : heap) (s : slice) : Prop :=
  sl_off s + sl_len s ≤ length (array h (sl_arr s)).

(** Every live slice lies in its array, and no two chunks share an array. *)
Record heap_ok (st : HState) : Prop := {
  ho_valid : ∀ k c, h_chunks st !! k = Some c → slice_valid (h_heap st) (hc_Replicas c);
  ho_alloc : ∀ k c, h_chunks st !! k = Some c →
    sl_arr (hc_Replicas c) = 0 ∨ is_Some (h_heap st !! sl_arr (hc_Replicas c));
  ho_sep : ∀ k1 k2 c1 c2, h_chunks st !! k1 = Some c1 → h_chunks st !! k2 = Some c2 →
    sl_arr (hc_Replicas c1) = sl_arr (hc_Replicas c2) → k1 = k2 ∨ sl_arr (hc_Replicas c1) = 0;
  ho_nil : h_heap st !! 0 = None;
}.

Lemma read_length h s : slice_valid h s → length (read h s) = sl_len s.
Proof. unfold slice_valid, read. intros. rewrite length_take, length_drop. lia. Qed.

Lemma array_insert_ne h a b l : a ≠ b → array (<[a := l]> h) b = array h b.
Proof. intros. unfold array. by rewrite lookup_insert_ne. Qed.
Lemma array_insert_eq h a l : array (<[a := l]> h) a = l.
Proof. unfold array. by rewrite lookup_insert_eq. Qed.

Lemma length_write_at p xs arr : p + length xs ≤ length arr → length (write_at p xs arr) = length arr.
Proof. intros. unfold write_at. rewrite !length_app, length_take, length_drop. lia. Qed.

(** What [append] yields, and which arrays it leaves alone. *)
Lemma go_append_spec h s xs :
  slice_valid h s → h !! 0 = None → sl_arr s ≠ 0 ∨ xs ≠ [] →
  let '(h', s') := go_append h s xs in
  read h' s' = read h s ++ xs ∧ slice_valid h' s' ∧ h' !! 0 = None ∧
  ((sl_arr s' = sl_arr s ∧ sl_arr s ≠ 0) ∨ (h !! sl_arr s' = None ∧ sl_arr s' ≠ 0)) ∧
  (∀ a, is_Some (h' !! a) ↔ a = sl_arr s' ∨ is_Some (h !! a)) ∧
  (∀ a, a ≠ sl_arr s' → array h' a = array h a).
Proof.
  intros Hv H0 Hne. unfold go_append, slice_valid, sl_cap in *. case_decide as Hcap.
  - assert (Harr : sl_arr s ≠ 0).
    { destruct Hne as [?|Hxs]; [done|]. intros Ha. unfold array in Hcap. rewrite Ha, H0 in Hcap.
      destruct xs; simpl in *; [done|lia]. }
    split_and!; simpl; [| | |by left|intros; rewrite lookup_insert_is_Some'; naive_solver|intros; by apply array_insert_ne].
    + unfold read; simpl. rewrite array_insert_eq. unfold write_at.
      set (arr := array h (sl_arr s)) in *.
      rewrite drop_app_le by (rewrite length_take; lia).
      rewrite <-take_drop_commute, app_assoc, take_app_le
        by (rewrite length_app, length_take, length_drop; lia).
      rewrite take_ge; [done|]. rewrite length_app, length_take, length_drop. lia.
    + rewrite array_insert_eq, length_write_at; lia.
    + by rewrite lookup_insert_ne.
  - set (a := fresh _). assert (Ha : a ∉ {[0]} ∪ dom h) by apply is_fresh.
    apply not_elem_of_union in Ha as [Ha0%not_elem_of_singleton Ha%not_elem_of_dom].
    split_and!; simpl; [| | |by right|intros; rewrite lookup_insert_is_Some'; naive_solver|intros; by apply array_insert_ne].
    + unfold read at 1; simpl. by rewrite array_insert_eq, drop_0, take_app_length.
    + rewrite array_insert_eq, !length_app. lia.
    + by rewrite lookup_insert_ne.
Qed.

Lemma read_array h h' s : array h' (sl_arr s) = array h (sl_arr s) → read h' s = read h s.
Proof. unfold read. by intros ->. Qed.

(** Replacing one chunk's replica slice by the result of an [append] to it (or to a
    prefix of it) changes the view of that chunk only, and keeps the heap well formed. *)
Lemma update_slice st k c s xs :
  heap_ok st → h_chunks st !! k = Some c → sl_arr s = sl_arr (hc_Replicas c) →
  slice_valid (h_heap st) s → sl_arr s ≠ 0 ∨ xs ≠ [] →
  let '(h', s') := go_append (h_heap st) s xs in
  let m' := <[k := mkHChunk (hc_rec c) s']> (h_chunks st) in
  heap_ok (mkHState h' m') ∧
  view h' m' = <[k := set_Replicas (hc_rec c) (read (h_heap st) s ++ xs)]>
                 (view (h_heap st) (h_chunks st)).
Proof.
  intros [Hval Hall Hsep Hnil] Hk Harr Hvs Hne.
  pose proof (go_append_spec (h_heap st) s xs Hvs Hnil Hne) as Hspec.
  destruct (go_append (h_heap st) s xs) as [h' s'].
  destruct Hspec as (Hread & Hv' & Hnil' & Halloc & Hdom & Hother).
  assert (Hfar : ∀ k' c', h_chunks st !! k' = Some c' → k' ≠ k →
    sl_arr (hc_Replicas c') ≠ sl_arr s').
  { intros k' c' Hk' Hkk Ha. destruct Halloc as [[Hs' Hs0]|[Hfr Hs0]].
    - destruct (Hsep k' k c' c Hk' Hk); congruence.
    - destruct (Hall _ _ Hk') as [?|[? ?]]; congruence. }
  split; [split; simpl|].
  - intros k' c' [[<- <-]|[Hkk Hk']]%lookup_insert_Some; [done|].
    unfold slice_valid. rewrite Hother by (by eapply Hfar). by apply (Hval k').
  - intros k' c' [[<- <-]|[Hkk Hk']]%lookup_insert_Some; rewrite Hdom; [by right; left|].
    destruct (Hall _ _ Hk'); auto.
  - intros k1 k2 c1 c2 [[<- <-]|[Hk1 H1]]%lookup_insert_Some
      [[<- <-]|[Hk2 H2]]%lookup_insert_Some Ha; simpl in *; [by left|..|eauto].
    + by destruct (Hfar k2 c2).
    + by destruct (Hfar k1 c1).
  - done.
  - unfold view. rewrite fmap_insert. unfold view_chunk at 1; simpl. rewrite Hread.
    apply map_eq. intros k'. destruct (decide (k = k')) as [->|Hkk]; [by rewrite !lookup_insert_eq|].
    rewrite !lookup_insert_ne, !lookup_fmap by done.
    destruct (h_chunks st !! k') as [c'|] eqn:Hk'; [|done]; simpl. unfold view_chunk.
    rewrite (read_array (h_heap st)); [done|]. apply Hother. by eapply Hfar.
Qed.

Lemma subslice_valid h s i j :
  slice_valid h s → i ≤ j → j ≤ sl_len s → slice_valid h (subslice s i j).
Proof. unfold slice_valid, subslice; simpl. lia. Qed.

Lemma read_subslice h s i j :
  i ≤ j → j ≤ sl_len s → read h (subslice s i j) = drop i (take j (read h s)).
Proof.
  intros. unfold read, subslice; simpl.
  rewrite take_take, Nat.min_l by done.
  by rewrite <-drop_drop, take_drop_commute, Nat.add_sub_assoc, Nat.add_comm, Nat.add_sub by done.
Qed.

Lemma getIndex_lt nodeID l i : getIndex nodeID l = Some i → i < length l.
Proof.
  revert i. induction l as [|x l IH]; intros i; simpl; [done|].
  case_decide; [intros [= <-]; lia|]. intros (j & Hj%IH & ->)%fmap_Some. lia.
Qed.

(** ** The handlers on the heap refine those on lists *)

Lemma heap_evict_step st chunkID nodeID c idx :
  heap_ok st → h_chunks st !! chunkID = Some c →
  getIndex nodeID (read (h_heap st) (hc_Replicas c)) = Some idx →
  let r := hc_Replicas c in
  idx < sl_len r ∧ sl_arr r ≠ 0 ∧ slice_valid (h_heap st) r ∧
  read (h_heap st) (subslice r (idx + 1) (sl_len r)) = drop (idx + 1) (read (h_heap st) r) ∧
  read (h_heap st) (subslice r 0 idx) = take idx (read (h_heap st) r).
Proof.
  intros Hok Hc Hi r. pose proof (ho_valid _ Hok _ _ Hc) as Hv.
  pose proof (getIndex_lt _ _ _ Hi) as Hlt. rewrite read_length in Hlt by done.
  assert (Hr0 : sl_arr r ≠ 0).
  { intros Ha. unfold slice_valid, array in Hv. fold r in Hv. rewrite Ha, (ho_nil _ Hok) in Hv.
    simpl in Hv. fold r in Hlt. lia. }
  split_and!; [done..| |]; subst r.
  - rewrite read_subslice by lia. by rewrite (take_ge (read _ _)) by (rewrite read_length by done; lia).
  - rewrite read_subslice by lia. by rewrite drop_0.
Qed.

Lemma heap_evict_refines st s chunkID nodeID t reason :
  heap_ok st → chunkRegistry s = view (h_heap st) (h_chunks st) →
  let '(st', err) := heap_evict st chunkID nodeID in
  heap_ok st' ∧
  handleCmdEvictChunkFromNode s (mkCommandEvictChunkFromNode chunkID nodeID t reason) =
    (set_chunkRegistry s (view (h_heap st') (h_chunks st')), err).
Proof.
  intros Hok Hs. unfold heap_evict, handleCmdEvictChunkFromNode, GetChunk; simpl.
  rewrite Hs. unfold view at 1. rewrite lookup_fmap.
  destruct (h_chunks st !! chunkID) as [c|] eqn:Hc; simpl.
  2:{ split; [done|]. rewrite <-Hs. by destruct s. }
  destruct (getIndex nodeID (read (h_heap st) (hc_Replicas c))) as [idx|] eqn:Hi; simpl.
  2:{ split; [done|]. rewrite <-Hs. by destruct s. }
  destruct (heap_evict_step _ _ _ _ _ Hok Hc Hi) as (Hlt & Hr0 & Hv & Htail & Hhead).
  rewrite Htail.
  pose proof (update_slice st chunkID c (subslice (hc_Replicas c) 0 idx)
    (drop (idx + 1) (read (h_heap st) (hc_Replicas c))) Hok Hc eq_refl) as Hup.
  destruct (go_append _ _ _) as [h' r'].
  destruct Hup as [Hok' Hview]; [apply subslice_valid; [done|lia..]|by left|].
  split; [done|]. simpl. by rewrite Hview, Hhead.
Qed.

Lemma heap_add_refines st s chunkID nodeID :
  heap_ok st → chunkRegistry s = view (h_heap st) (h_chunks st) →
  let '(st', err) := heap_add st chunkID nodeID in
  heap_ok st' ∧
  handleCmdAddChunkReplica s (mkCommandAddChunkReplica chunkID nodeID) =
    (set_chunkRegistry s (view (h_heap st') (h_chunks st')), err).
Proof.
  intros Hok Hs. unfold heap_add, handleCmdAddChunkReplica, GetChunk; simpl.
  rewrite Hs. unfold view at 1. rewrite lookup_fmap.
  destruct (h_chunks st !! chunkID) as [c|] eqn:Hc; simpl.
  2:{ split; [done|]. rewrite <-Hs. by destruct s. }
  case_decide; [split; [done|]; rewrite <-Hs; by destruct s|].
  pose proof (update_slice st chunkID c (hc_Replicas c) [nodeID] Hok Hc eq_refl) as Hup.
  destruct (go_append _ _ _) as [h' r'].
  destruct Hup as [Hok' Hview]; [by eapply ho_valid|by right|].
  split; [done|]. simpl. by rewrite Hview.
Qed.

(** ** What a snapshot reads later *)

Lemma heap_snapshot_id st : heap_snapshot st = h_chunks st.
Proof.
  unfold heap_snapshot. rewrite <-map_fmap_compose. rewrite <-(map_fmap_id (h_chunks st)) at 2.
  by apply map_fmap_ext.
Qed.

(** The header taken before the eviction, read after it: the tail has moved one
    place down and the last entry is still there. *)
Lemma evict_snapshot_read st chunkID nodeID c idx :
  heap_ok st → h_chunks st !! chunkID = Some c →
  getIndex nodeID (read (h_heap st) (hc_Replicas c)) = Some idx →
  let l := read (h_heap st) (hc_Replicas c) in
  read (h_heap (heap_evict st chunkID nodeID).1) (hc_Replicas c) =
    take idx l ++ drop (idx + 1) l ++ drop (length l - 1) l.
Proof.
  intros Hok Hc Hi l. unfold heap_evict. rewrite Hc. rewrite Hi.
  destruct (heap_evict_step _ _ _ _ _ Hok Hc Hi) as (Hlt & Hr0 & Hv & Htail & Hhead).
  rewrite Htail. fold l. pose proof (read_length _ _ Hv) as Hlen. fold l in Hlen.
  unfold go_append. rewrite decide_True; simpl.
  2:{ unfold sl_cap, slice_valid in *; simpl. rewrite length_drop. lia. }
  unfold read; simpl. rewrite array_insert_eq. unfold write_at. rewrite !Nat.add_0_r, Nat.sub_0_r.
  rewrite length_drop.
  set (r := hc_Replicas c) in *. set (arr := array (h_heap st) (sl_arr r)) in *.
  assert (HB : length (drop (sl_off r) arr) ≥ sl_len r).
  { unfold slice_valid in Hv. rewrite length_drop. subst arr. lia. }
  assert (Hl : l = take (sl_len r) (drop (sl_off r) arr)) by done.
  rewrite drop_app_le by (rewrite length_take; rewrite length_drop in HB; lia).
  rewrite <-take_drop_commute. rewrite <-(Nat.add_assoc (sl_off r)), <-(drop_drop arr).
  replace (idx + (length l - (idx + 1))) with (sl_len r - 1) by lia.
  set (B := drop (sl_off r) arr) in *.
  assert (HT : take idx B = take idx l) by (by rewrite Hl, take_take, Nat.min_l by lia).
  assert (HD : drop (length l - 1) l = take 1 (drop (sl_len r - 1) B)).
  { rewrite Hlen, Hl, take_drop_commute. do 2 f_equal. lia. }
  rewrite HT, HD, !app_assoc, take_app_ge.
  - do 2 f_equal. rewrite length_app, length_take, length_drop. lia.
  - rewrite length_app, length_take, length_drop. lia.
Qed.

(** C30. Evicting a replica on the heap is the list-level handler on what the structs show,
    and so is adding one: the in-place [append] never touches another chunk. *)
Theorem heap_handlers_refine st s chunkID nodeID t reason :
  heap_ok st → chunkRegistry s = view (h_heap st) (h_chunks st) →
  (let '(st', err) := heap_evict st chunkID nodeID in
   heap_ok st' ∧
   handleCmdEvictChunkFromNode s (mkCommandEvictChunkFromNode chunkID nodeID t reason) =
     (set_chunkRegistry s (view (h_heap st') (h_chunks st')), err)) ∧
  (let '(st', err) := heap_add st chunkID nodeID in
   heap_ok st' ∧
   handleCmdAddChunkReplica s (mkCommandAddChunkReplica chunkID nodeID) =
     (set_chunkRegistry s (view (h_heap st') (h_chunks st')), err)).
Proof. intros Hok Hs. split; [by apply heap_evict_refines|by apply heap_add_refines]. Qed.

(** A snapshot is not isolated from later commands: after an eviction of a replica
    that is not the last of its list, the snapshot taken before it reads a list
    that differs from the one it was taken of and names a node twice. *)
Theorem snapshot_aliases_replicas st chunkID nodeID c idx :
  heap_ok st → heap_snapshot st !! chunkID = Some c →
  getIndex nodeID (read (h_heap st) (hc_Replicas c)) = Some idx →
  idx + 1 < sl_len (hc_Replicas c) →
  let before := cr_Replicas (view_chunk (h_heap st) c) in
  let after := cr_Replicas (view_chunk (h_heap (heap_evict st chunkID nodeID).1) c) in
  after = take idx before ++ drop (idx + 1) before ++ drop (length before - 1) before ∧
  ¬ NoDup after.
Proof.
  rewrite heap_snapshot_id. intros Hok Hc Hi Hlast. cbv zeta. unfold view_chunk, set_Replicas.
  cbn [cr_Replicas]. rewrite (evict_snapshot_read st chunkID nodeID c idx) by done.
  split; [done|].
  pose proof (read_length _ _ (ho_valid _ Hok _ _ Hc)) as Hlen.
  set (l := read (h_heap st) (hc_Replicas c)) in *. intros (_ & _ & (_ & Hdis & _)%NoDup_app)%NoDup_app.
  destruct (lookup_lt_is_Some_2 l (length l - 1)) as [x Hx]; [lia|].
  apply (Hdis x).
  - apply list_elem_of_lookup. exists (length l - 1 - (idx + 1)). rewrite lookup_drop.
    by replace (idx + 1 + (length l - 1 - (idx + 1))) with (length l - 1) by lia.
  - apply list_elem_of_lookup. exists 0. by rewrite lookup_drop, Nat.add_0_r.
Qed.
End append.

(** ** Witnesses *)

Definition w_chunk : ChunkRecord := mkChunkRecord "c1" "f1" 0 0 [Ascii.zero] [] ChunkStatusComplete 0.
Definition w_heap : HState :=
  mkHState {[1 := ["n1"; "n2"; "n3"]]} {["c1" := mkHChunk w_chunk (mkSlice 1 0 3)]}.

Lemma w_heap_ok : heap_ok w_heap.
Proof.
  split; unfold w_heap; simpl.
  - intros k c [<- <-]%lookup_singleton_Some. vm_compute. lia.
  - intros k c [<- <-]%lookup_singleton_Some. right. by eexists.
  - intros k1 k2 c1 c2 [<- <-]%lookup_singleton_Some [<- <-]%lookup_singleton_Some. by left.
  - done.
Qed.

Definition w_registry : MetadataFSM :=
  set_chunkRegistry NewEmptyMetadataFsm (view (h_heap w_heap) (h_chunks w_heap)).

Lemma heap_handlers_refine_witness :
  heap_ok (heap_evict (λ n, n) w_heap "c1" "n1").1 ∧
  handleCmdAddChunkReplica w_registry (mkCommandAddChunkReplica "c1" "n9") =
    (set_chunkRegistry w_registry (view (h_heap (heap_add (λ n, n) w_heap "c1" "n9").1)
       (h_chunks (heap_add (λ n, n) w_heap "c1" "n9").1)), None).
Proof.
  split.
  - apply (heap_handlers_refine (λ n, n) w_heap w_registry "c1" "n1" 0%Z "");
      [exact w_heap_ok|reflexivity].
  - apply (heap_handlers_refine (λ n, n) w_heap w_registry "c1" "n9" 0%Z "");
      [exact w_heap_ok|reflexivity].
Defined.

Lemma snapshot_aliases_replicas_witness :
  cr_Replicas (view_chunk (h_heap (heap_evict (λ n, n) w_heap "c1" "n1").1)
    (mkHChunk w_chunk (mkSlice 1 0 3))) = ["n2"; "n3"; "n3"].
Proof.
  apply (snapshot_aliases_replicas (λ n, n) w_heap "c1" "n1"
    (mkHChunk w_chunk (mkSlice 1 0 3)) 0);
    [exact w_heap_ok|vm_compute; reflexivity|vm_compute; reflexivity|vm_compute; lia].
Defined.
