(* ===== verification/Placement.v ===== *)
(** * Replica placement: metadata/placement/strategy.go

    [PlacementStrategy] is the Go interface as a class.  Its clients (the repair
    scheduler and the file handlers) are proved against the laws of
    [PlacementLaws]; the two strategies of the source discharge them.  A count is a
    [nat]: no caller passes a negative one.  [SelectNodes] returns its candidates
    along with an error when there are too few of them. *)

From S2P Require Import Prelude GoLib Json FsmTypes Fsm.

(** ** The interface *)

Class PlacementStrategy := {
  SelectNodes : list NodeEntry → string → Z → nat → list NodeEntry → list NodeEntry * option error;
  SelectNodeReverse : list NodeEntry → string → Z → nat → list NodeEntry → list NodeEntry * option error;
  SelectPrimary : list NodeEntry → NodeEntry;
}.

(** ** Filters *)

(** [filterNodes]: [skipMap] holds the excluded IDs. *)
Definition filterNodes (nodes exclude : list NodeEntry) : list NodeEntry :=
  let skipMap : gset string := list_to_set (ne_NodeID <$> exclude) in
  filter (λ v, ne_NodeID v ∉ skipMap) nodes.

Definition filterByMinSpace (nodes : list NodeEntry) (minSpace : Z) : list NodeEntry :=
  if decide (minSpace ≤ 0)%Z then nodes
  else filter (λ n, (to_uint64 minSpace ≤ ne_FreeSpace n)%Z) nodes.

Definition not_enough_nodes : error := ErrNew "there are not enough nodes".

(** The tail all four [Select] functions share: check the length, cut. *)
Definition take_count (sorted : list NodeEntry) (count : nat) : list NodeEntry * option error :=
  if decide (length sorted < count) then (sorted, Some not_enough_nodes)
  else (take count sorted, None).

(** ** The strategies *)

(** [SortByMostFreeSpace.Less] *)
Definition more_free_space (a b : NodeEntry) : bool :=
  if decide (ne_FreeSpace a = ne_FreeSpace b) then bool_decide (ne_ChunkCount a < ne_ChunkCount b)%Z
  else bool_decide (ne_FreeSpace b < ne_FreeSpace a)%Z.

Definition fewer_chunks (a b : NodeEntry) : bool := bool_decide (ne_ChunkCount a < ne_ChunkCount b)%Z.

Section strategies.
Context `{!GoSort}.

Definition mfs_SelectNodes (nodes : list NodeEntry) (chunkID : string) (minSpace : Z) (count : nat)
    (exclude : list NodeEntry) : list NodeEntry * option error :=
  let candidates := filterByMinSpace (filterNodes nodes exclude) minSpace in
  take_count (go_sort more_free_space candidates) count.

(** [sort.Reverse] swaps the arguments of [Less]. *)
Definition mfs_SelectNodeReverse (nodes : list NodeEntry) (chunkID : string) (minSpace : Z)
    (count : nat) (exclude : list NodeEntry) : list NodeEntry * option error :=
  let candidates := filterByMinSpace (filterNodes nodes exclude) minSpace in
  take_count (go_sort (λ a b, more_free_space b a) candidates) count.

Definition mfs_SelectPrimary (nodes : list NodeEntry) : NodeEntry :=
  match nodes with
  | [] => zero_NodeEntry
  | _ => default zero_NodeEntry (go_sort more_free_space nodes !! 0)
  end.

Definition ll_SelectNodes (nodes : list NodeEntry) (chunkID : string) (minSpace : Z) (count : nat)
    (exclude : list NodeEntry) : list NodeEntry * option error :=
  let filtered := filterByMinSpace (filterNodes nodes exclude) minSpace in
  take_count (go_sort fewer_chunks filtered) count.

Definition ll_SelectNodeReverse (nodes : list NodeEntry) (chunkID : string) (minSpace : Z)
    (count : nat) (exclude : list NodeEntry) : list NodeEntry * option error :=
  let filtered := filterByMinSpace (filterNodes nodes exclude) minSpace in
  take_count (go_sort (λ a b, fewer_chunks b a) filtered) count.

Definition ll_SelectPrimary (nodes : list NodeEntry) : NodeEntry :=
  match nodes with
  | [] => zero_NodeEntry
  | n :: rest =>
      foldl (λ best n, if decide (ne_ChunkCount n < ne_ChunkCount best)%Z then n else best) n rest
  end.

Definition MostFreeSpaceStrategy : PlacementStrategy := {|
  SelectNodes := mfs_SelectNodes;
  SelectNodeReverse := mfs_SelectNodeReverse;
  SelectPrimary := mfs_SelectPrimary;
|}.

Definition LeastLoadedStrategy : PlacementStrategy := {|
  SelectNodes := ll_SelectNodes;
  SelectNodeReverse := ll_SelectNodeReverse;
  SelectPrimary := ll_SelectPrimary;
|}.
End strategies.

(** ** What a strategy promises its clients *)

(** [n] may be chosen: offered, not excluded, and with the space asked for. *)
Definition eligible (nodes : list NodeEntry) (minSpace : Z) (exclude : list NodeEntry)
    (n : NodeEntry) : Prop :=
  n ∈ nodes ∧ ne_NodeID n ∉ ne_NodeID <$> exclude ∧
  ((0 < minSpace)%Z → (to_uint64 minSpace ≤ ne_FreeSpace n)%Z).

(** The eligible nodes, as a list with the multiplicities of the offer. *)
Definition candidates (nodes : list NodeEntry) (minSpace : Z) (exclude : list NodeEntry)
    : list NodeEntry := filterByMinSpace (filterNodes nodes exclude) minSpace.

(** [out] is [count] of the candidates, none of them beaten by one left out. *)
Definition best_of (better : NodeEntry → NodeEntry → bool) (cands : list NodeEntry) (count : nat)
    (out : list NodeEntry) : Prop :=
  length out = count ∧ ordered better out ∧
  ∃ rest, cands ≡ₚ out ++ rest ∧ ∀ x y, x ∈ out → y ∈ rest → better y x = false.

Class PlacementLaws (P : PlacementStrategy) := {
  better : NodeEntry → NodeEntry → bool;
  select_ok : ∀ nodes chunkID minSpace count exclude out,
    SelectNodes nodes chunkID minSpace count exclude = (out, None) →
    best_of better (candidates nodes minSpace exclude) count out;
  select_err : ∀ nodes chunkID minSpace count exclude out e,
    SelectNodes nodes chunkID minSpace count exclude = (out, Some e) →
    length (candidates nodes minSpace exclude) < count ∧
    out ≡ₚ candidates nodes minSpace exclude;
  select_rev_ok : ∀ nodes chunkID minSpace count exclude out,
    SelectNodeReverse nodes chunkID minSpace count exclude = (out, None) →
    best_of (λ a b, better b a) (candidates nodes minSpace exclude) count out;
  primary_ok : ∀ nodes, nodes ≠ [] →
    SelectPrimary nodes ∈ nodes ∧ ∀ n, n ∈ nodes → better n (SelectPrimary nodes) = false;
}.

(** ** Lemmas *)

Lemma elem_of_candidates nodes minSpace exclude n :
  n ∈ candidates nodes minSpace exclude ↔ eligible nodes minSpace exclude n.
Proof.
  unfold candidates, filterByMinSpace, filterNodes, eligible.
  case_decide; rewrite ?list_elem_of_filter, elem_of_list_to_set; naive_solver lia.
Qed.

Lemma candidates_sublist nodes minSpace exclude :
  candidates nodes minSpace exclude `sublist_of` nodes.
Proof.
  unfold candidates, filterByMinSpace, filterNodes. case_decide; [apply sublist_filter|].
  etransitivity; apply sublist_filter.
Qed.

Lemma more_free_space_sw : strict_weak more_free_space.
Proof.
  split; unfold more_free_space; intros *; repeat case_decide; rewrite ?bool_decide_eq_true, ?bool_decide_eq_false; lia.
Qed.

Lemma fewer_chunks_sw : strict_weak fewer_chunks.
Proof.
  split; unfold fewer_chunks; intros *; rewrite ?bool_decide_eq_true, ?bool_decide_eq_false; lia.
Qed.

Lemma take_count_best `{!GoSort} better cands count out :
  strict_weak better → take_count (go_sort better cands) count = (out, None) →
  best_of better cands count out.
Proof.
  intros Hsw. unfold take_count. case_decide as Hlen; intros; simplify_eq.
  pose proof (go_sort_ordered better cands Hsw) as Hord.
  split_and!.
  - rewrite length_take. lia.
  - unfold ordered in *. rewrite <-(take_drop count (go_sort better cands)) in Hord.
    by apply StronglySorted_app_1_l in Hord.
  - exists (drop count (go_sort better cands)). rewrite take_drop. split.
    + by rewrite go_sort_perm.
    + intros x y Hx Hy. by eapply ordered_take_drop.
Qed.

Lemma take_count_err `{!GoSort} less cands count out e :
  take_count (go_sort less cands) count = (out, Some e) → length cands < count ∧ out ≡ₚ cands.
Proof.
  unfold take_count. rewrite length_go_sort. case_decide; intros; simplify_eq.
  split; [done|]. apply go_sort_perm.
Qed.

Lemma mfs_primary `{!GoSort} nodes :
  nodes ≠ [] → mfs_SelectPrimary nodes ∈ nodes ∧
    ∀ n, n ∈ nodes → more_free_space n (mfs_SelectPrimary nodes) = false.
Proof.
  intros Hne. unfold mfs_SelectPrimary. destruct nodes as [|n0 rest]; [done|].
  pose proof (go_sort_ordered more_free_space (n0 :: rest) more_free_space_sw) as Hord.
  pose proof (go_sort_perm more_free_space (n0 :: rest)) as Hperm.
  destruct (go_sort _ _) as [|x l]; simpl.
  { by apply Permutation_nil_l in Hperm. }
  split; [rewrite <-Hperm; set_solver|]. intros n Hn. rewrite <-Hperm in Hn.
  by eapply ordered_head; [apply more_free_space_sw|..].
Qed.

Lemma ll_primary nodes :
  nodes ≠ [] → ll_SelectPrimary nodes ∈ nodes ∧
    ∀ n, n ∈ nodes → fewer_chunks n (ll_SelectPrimary nodes) = false.
Proof.
  destruct nodes as [|n rest]; [done|]. intros _. simpl. revert n.
  induction rest as [|m rest IH]; intros n; simpl.
  { split; [set_solver|]. intros ? ->%list_elem_of_singleton. apply fewer_chunks_sw. }
  unfold fewer_chunks in *. case_decide as Hm.
  - destruct (IH m) as [Hin Hmin]. split; [set_solver|].
    intros x [->|Hx]%elem_of_cons; [|by apply Hmin].
    specialize (Hmin m). rewrite bool_decide_eq_false in *. set_solver by lia.
  - destruct (IH n) as [Hin Hmin]. split; [set_solver|].
    intros x [->|[->|Hx]%elem_of_cons]%elem_of_cons; [apply Hmin; set_solver| |apply Hmin; set_solver].
    specialize (Hmin n). rewrite bool_decide_eq_false in *. set_solver by lia.
Qed.

#[export] Instance MostFreeSpace_laws `{!GoSort} : PlacementLaws MostFreeSpaceStrategy.
Proof.
  refine {| better := more_free_space |}; simpl; unfold mfs_SelectNodes, mfs_SelectNodeReverse.
  - intros nodes _ minSpace count exclude out. apply take_count_best, more_free_space_sw.
  - intros nodes _ minSpace count exclude out e. apply take_count_err.
  - intros nodes _ minSpace count exclude out. apply take_count_best, strict_weak_flip, more_free_space_sw.
  - apply mfs_primary.
Defined.

#[export] Instance LeastLoaded_laws `{!GoSort} : PlacementLaws LeastLoadedStrategy.
Proof.
  refine {| better := fewer_chunks |}; simpl; unfold ll_SelectNodes, ll_SelectNodeReverse.
  - intros nodes _ minSpace count exclude out. apply take_count_best, fewer_chunks_sw.
  - intros nodes _ minSpace count exclude out e. apply take_count_err.
  - intros nodes _ minSpace count exclude out. apply take_count_best, strict_weak_flip, fewer_chunks_sw.
  - apply ll_primary.
Defined.

(** ** Properties *)

(** Every strategy that meets the laws, for the count a client asks for, either
    returns exactly that many distinct eligible nodes, none beaten by an eligible
    node left out, or reports an error precisely because fewer are eligible. *)
Theorem select_nodes_optimal (P : PlacementStrategy) `{!PlacementLaws P}
    (nodes : list NodeEntry) (chunkID : string) (minSpace : Z) (count : nat) (exclude : list NodeEntry) :
  NoDup (ne_NodeID <$> nodes) →
  let '(out, err) := SelectNodes nodes chunkID minSpace count exclude in
  (err = None ↔ count ≤ length (candidates nodes minSpace exclude)) ∧
  NoDup (ne_NodeID <$> out) ∧ Forall (eligible nodes minSpace exclude) out ∧
  (err = None → length out = count ∧
     ∀ x y, x ∈ out → eligible nodes minSpace exclude y → y ∉ out → better y x = false).
Proof.
  intros Hnd. destruct (SelectNodes _ _ _ _ _) as [out [e|]] eqn:Hsel.
  - apply select_err in Hsel as [Hlen Hperm]. split_and!; [split; [done|lia]| | |done].
    + rewrite Hperm. eapply sublist_NoDup; [done|]. apply fmap_sublist, candidates_sublist.
    + rewrite Forall_forall. intros x. by rewrite Hperm, elem_of_candidates.
  - apply select_ok in Hsel as (Hlen & Hord & rest & Hperm & Hbest).
    assert (Hndc : NoDup (ne_NodeID <$> out ++ rest)).
    { rewrite <-Hperm. eapply sublist_NoDup; [done|]. apply fmap_sublist, candidates_sublist. }
    split_and!.
    + split; [intros _|done]. rewrite Hperm, length_app. lia.
    + rewrite fmap_app in Hndc. by apply NoDup_app in Hndc as [? _].
    + rewrite Forall_forall. intros x Hx. apply elem_of_candidates. rewrite Hperm. set_solver.
    + intros _. split; [done|]. intros x y Hx Hy Hni. apply Hbest; [done|].
      apply elem_of_candidates in Hy. rewrite Hperm in Hy. set_solver.
Qed.

Definition w_entry (id : string) (free chunks : Z) : NodeEntry :=
  mkNodeEntry id id NodeStatusAlive free chunks 0%Z 0%Z 0%Z.

Definition w_offer : list NodeEntry :=
  [w_entry "n1" 10 0; w_entry "n2" 30 5; w_entry "n3" 30 2; w_entry "n4" 99 0].
Definition w_excluded : list NodeEntry := [w_entry "n4" 0 0].

Lemma select_nodes_optimal_witness :
  ne_NodeID <$> (mfs_SelectNodes w_offer "c" 0 2 w_excluded).1 = ["n3"; "n2"] ∧
  Forall (eligible w_offer 0 w_excluded) (mfs_SelectNodes w_offer "c" 0 2 w_excluded).1.
Proof.
  split; [vm_compute; reflexivity|].
  pose proof (select_nodes_optimal MostFreeSpaceStrategy w_offer "c" 0 2 w_excluded
    ltac:(compute_decide)) as H.
  cbn [SelectNodes MostFreeSpaceStrategy] in H.
  destruct (mfs_SelectNodes w_offer "c" 0 2 w_excluded) as [out err]. apply H.
Defined.
