(* ===== verification/World.v ===== *)
(** * The metadata service's shared state and its effects

    The scheduler, the watcher, the reconciler and the gRPC handlers all run against
    one FSM and change it only through [Propose].  [World] is the state of one
    metadata process, and [M] the state monad its code runs in.  What the process
    does not control is an [Env]: the outcome of each [raft.Apply], the clock,
    [uuid.NewString], and whether this node leads.  A handler runs to completion
    before the next one starts; goroutines and timers are queues in the state from
    which the step relations of the components pick. *)

From S2P Require Import Prelude GoLib Json FsmTypes Fsm FsmCommands FsmInv FsmEquiv FsmSnapshot.

(** ** The environment *)

(** What [raft.Apply] does with an entry: commit and apply it; refuse it; or report an
    error (a lost leadership, a timeout) although the entry commits later. *)
Inductive raft_outcome :=
| RaftCommitted
| RaftRejected (e : error)
| RaftLost (e : error).

Class Env := {
  raft_apply : nat → raft_outcome;
  clock : nat → Time;
  new_uuid : nat → string;
  is_leader : bool;
  leader_addr : string;
  ctx_done : nat → bool;
  delete_rpc : string → string → option error;
}.

(** ** State *)

(** [RepairScheduler]: the pending maps, the buffered channel and the timers that
    [OnJobComplete] starts. *)
Record Sched := mkSched {
  pendingJobs : gmap string (list string);
  pendingJobsSet : gmap string string;
  jobs : list string;
  reschedules : list (Duration * string);
  replicationFactor : Z;
}.

Record World := mkWorld {
  wd_fsm : MetadataFSM;
  wd_sched : Sched;
  wd_timers : gmap string (list string);  (* Reconciler.timers: inventory by node *)
  wd_beats : gmap string Z;               (* MetadataServiceHandler.heartbeatsCount *)
  wd_deletes : list (string * string);    (* DeleteChunk RPCs sent: address, chunk *)
  wd_proposals : nat;
  wd_ticks : nat;
  wd_uuids : nat;
}.

Definition set_fsm (s : MetadataFSM) (w : World) : World :=
  mkWorld s (wd_sched w) (wd_timers w) (wd_beats w) (wd_deletes w) (wd_proposals w) (wd_ticks w) (wd_uuids w).
Definition set_sched (s : Sched) (w : World) : World :=
  mkWorld (wd_fsm w) s (wd_timers w) (wd_beats w) (wd_deletes w) (wd_proposals w) (wd_ticks w) (wd_uuids w).
Definition set_timers (t : gmap string (list string)) (w : World) : World :=
  mkWorld (wd_fsm w) (wd_sched w) t (wd_beats w) (wd_deletes w) (wd_proposals w) (wd_ticks w) (wd_uuids w).
Definition set_beats (b : gmap string Z) (w : World) : World :=
  mkWorld (wd_fsm w) (wd_sched w) (wd_timers w) b (wd_deletes w) (wd_proposals w) (wd_ticks w) (wd_uuids w).
Definition add_delete (d : string * string) (w : World) : World :=
  mkWorld (wd_fsm w) (wd_sched w) (wd_timers w) (wd_beats w) (wd_deletes w ++ [d]) (wd_proposals w)
    (wd_ticks w) (wd_uuids w).
Definition next_proposal (w : World) : World :=
  mkWorld (wd_fsm w) (wd_sched w) (wd_timers w) (wd_beats w) (wd_deletes w) (S (wd_proposals w))
    (wd_ticks w) (wd_uuids w).
Definition next_tick (w : World) : World :=
  mkWorld (wd_fsm w) (wd_sched w) (wd_timers w) (wd_beats w) (wd_deletes w) (wd_proposals w)
    (S (wd_ticks w)) (wd_uuids w).
Definition next_uuid (w : World) : World :=
  mkWorld (wd_fsm w) (wd_sched w) (wd_timers w) (wd_beats w) (wd_deletes w) (wd_proposals w)
    (wd_ticks w) (S (wd_uuids w)).

(** ** The monad *)

Definition M (A : Type) : Type := World → A * World.

#[global] Instance M_ret : MRet M := λ A a w, (a, w).
#[global] Instance M_bind : MBind M := λ A B f m w, let '(a, w') := m w in f a w'.

Definition modify (f : World → World) : M unit := λ w, (tt, f w).
Definition gets {A} (f : World → A) : M A := λ w, (f w, w).

(** [for _, x := range l { body }] *)
Fixpoint foreach {A} (l : list A) (body : A → M unit) : M unit :=
  match l with
  | [] => mret tt
  | x :: l' => body x ;; foreach l' body
  end.

Section effects.
Context `{!Env, !MapRange}.

(** [time.Now()] *)
Definition Now : M Time := λ w, (clock (wd_ticks w), next_tick w).

(** [uuid.NewString()] *)
Definition NewUUID : M string := λ w, (new_uuid (wd_uuids w), next_uuid w).

(** [fsm.Propose]: the error is Raft's, or the one the handler returned from [Apply]. *)
Definition Propose (cmd : MetadataCommand) : M (option error) := λ w,
  let data := marshal_command cmd in
  match raft_apply (wd_proposals w) with
  | RaftCommitted =>
      let '(s, err) := Apply (wd_fsm w) data in (err, set_fsm s (next_proposal w))
  | RaftRejected e => (Some e, next_proposal w)
  | RaftLost e => (Some e, set_fsm (Apply (wd_fsm w) data).1 (next_proposal w))
  end.

(** [UpdateRepairJobStatus] *)
Definition UpdateRepairJobStatus (jobid status : string) : M (option error) :=
  t ← Now;
  Propose (encode (UpdateRepairJobC (mkCommandUpdateRepairJob jobid status "" t 0 ""))).

(** [ProposeUpdateNodeSpace] *)
Definition ProposeUpdateNodeSpace (nodeID : string) (space cc : Z) : M (option error) :=
  t ← Now;
  Propose (encode (UpdateNodeSpaceC (mkCommandUpdateNodeSpace nodeID space cc t))).
End effects.

#[global] Arguments Propose {_ _} cmd w : simpl never.
#[global] Arguments encode c : simpl never.

(** ** Reasoning about the monad *)

(** [m] run from a world with [P] ends in a world and with a value that satisfy [Q]. *)
Definition hoare {A} (P : World → Prop) (m : M A) (Q : A → World → Prop) : Prop :=
  ∀ w, P w → Q (m w).1 (m w).2.

Lemma hoare_ret {A} (P : World → Prop) (a : A) : hoare P (mret a) (λ x w, x = a ∧ P w).
Proof. by intros w Hw. Qed.

Lemma hoare_bind {A B} P (m : M A) (f : A → M B) Q R :
  hoare P m Q → (∀ a, hoare (Q a) (f a) R) → hoare P (m ≫= f) R.
Proof.
  intros Hm Hf w Hw. specialize (Hm w Hw). unfold mbind, M_bind.
  destruct (m w) as [a w']. by apply (Hf a).
Qed.

Lemma hoare_weaken {A} P P' (m : M A) Q Q' :
  hoare P' m Q' → (∀ w, P w → P' w) → (∀ a w, Q' a w → Q a w) → hoare P m Q.
Proof. intros Hm HP HQ w Hw. by apply HQ, Hm, HP. Qed.

(** The loop invariant is indexed by the elements already visited. *)
Lemma hoare_foreach {A} (l : list A) body (I : list A → World → Prop) :
  (∀ pre x suf, l = pre ++ x :: suf → hoare (I pre) (body x) (λ _, I (pre ++ [x]))) →
  hoare (I []) (foreach l body) (λ _, I l).
Proof.
  intros Hbody.
  assert (Hgen : ∀ suf pre, l = pre ++ suf → hoare (I pre) (foreach suf body) (λ _, I l));
    [|by apply (Hgen l [])].
  induction suf as [|x suf IH]; intros pre Hl; simpl.
  - rewrite app_nil_r in Hl. subst pre. by intros w Hw.
  - eapply hoare_bind; [by eapply Hbody|]. intros []. apply IH. by rewrite <-app_assoc.
Qed.

(** An invariant of a computation. *)
Definition preserves {A} (I : World → Prop) (m : M A) : Prop := hoare I m (λ _, I).

Lemma preserves_ret {A} I (a : A) : preserves I (mret a).
Proof. by intros w Hw. Qed.
Lemma preserves_gets {A} I (f : World → A) : preserves I (gets f).
Proof. by intros w Hw. Qed.
Lemma preserves_bind {A B} I (m : M A) (f : A → M B) :
  preserves I m → (∀ a, preserves I (f a)) → preserves I (m ≫= f).
Proof. intros Hm Hf. by eapply hoare_bind. Qed.
Lemma preserves_foreach {A} I (l : list A) body :
  (∀ x, x ∈ l → preserves I (body x)) → preserves I (foreach l body).
Proof.
  intros Hbody. apply (hoare_foreach l body (λ _, I)). intros pre x suf ->.
  apply Hbody. set_solver.
Qed.
Lemma preserves_modify (I : World → Prop) f : (∀ w, I w → I (f w)) → preserves I (modify f).
Proof. intros Hf w Hw. by apply Hf. Qed.

(** Splits a computation into its steps. *)
Ltac preserve :=
  repeat (intros; first
    [ solve [auto 3 with dfs] | apply preserves_ret | apply preserves_gets | apply preserves_bind | apply preserves_foreach
    | progress case_match | progress case_decide | done ]).

(** ** The FSM changes only through log entries and heartbeats *)

(** The FSM of the world evolves from [s0] by steps of the state machine. *)
Definition evolved `{!MapRange} (s0 : MetadataFSM) (w : World) : Prop := rtc fsm_step s0 (wd_fsm w).

Section evolve.
Context `{!Env, !MapRange} (s0 : MetadataFSM).

Lemma evolve_modify f : (∀ w, wd_fsm (f w) = wd_fsm w) → preserves (evolved s0) (modify f).
Proof. intros Hf. apply preserves_modify. intros w. unfold evolved. by rewrite Hf. Qed.

Lemma evolve_Now : preserves (evolved s0) Now.
Proof. by intros w Hw. Qed.
Lemma evolve_NewUUID : preserves (evolved s0) NewUUID.
Proof. by intros w Hw. Qed.

Lemma evolve_Propose c : fits c → small c → preserves (evolved s0) (Propose (encode c)).
Proof.
  intros Hfit Hsm w Hw. unfold Propose, evolved in *.
  assert (Hstep : fsm_step (wd_fsm w) (Apply (wd_fsm w) (marshal_command (encode c))).1)
    by (apply step_apply; by apply slice_ok_encode).
  destruct (raft_apply _); [destruct (Apply _ _)|..]; simpl in *;
    try done; by eapply rtc_r.
Qed.

Lemma evolve_UpdateRepairJobStatus j st : preserves (evolved s0) (UpdateRepairJobStatus j st).
Proof.
  apply preserves_bind; [apply evolve_Now|]. intros t. by apply evolve_Propose.
Qed.

Lemma evolve_ProposeUpdateNodeSpace n sp cc :
  is_uint64 sp → is_uint64 cc → preserves (evolved s0) (ProposeUpdateNodeSpace n sp cc).
Proof.
  intros. apply preserves_bind; [apply evolve_Now|]. intros t. by apply evolve_Propose.
Qed.
End evolve.

#[export] Hint Resolve evolve_modify evolve_Now evolve_NewUUID evolve_Propose
  evolve_UpdateRepairJobStatus evolve_ProposeUpdateNodeSpace : dfs.

#[export] Hint Extern 1 (fits _) => done : dfs.
#[export] Hint Extern 1 (small _) => exact I : dfs.

(** What a proposal makes of the FSM: nothing, or what the command does to it; without an
    error it was the latter, and the command had none either. *)
Lemma Propose_effect `{!Env, !MapRange} c w :
  fits c →
  (wd_fsm (Propose (encode c) w).2 = wd_fsm w ∨ wd_fsm (Propose (encode c) w).2 = (exec (wd_fsm w) c).1) ∧
  ((Propose (encode c) w).1 = None → exec (wd_fsm w) c = (wd_fsm (Propose (encode c) w).2, None)).
Proof.
  intros Hfit. unfold Propose. rewrite Apply_encode by done.
  destruct (raft_apply _); simpl; [|split; [by left|done]|split; [by right|done]].
  destruct (exec _ _) as [s' r]; simpl. split; [by right|]. by intros ->.
Qed.

(** ** Runs in which Raft commits every entry *)

Class Committing (E : Env) : Prop := committing : ∀ n, raft_apply n = RaftCommitted.

Lemma Propose_committed `{!Env, !MapRange, !Committing _} c w :
  fits c →
  Propose (encode c) w =
    ((exec (wd_fsm w) c).2, set_fsm (exec (wd_fsm w) c).1 (next_proposal w)).
Proof.
  intros Hfit. unfold Propose. rewrite committing, Apply_encode by done. by destruct (exec _ _).
Qed.

(** ** A concrete environment *)

(** A leader whose every proposal commits. *)
Definition demo_Env : Env := {|
  raft_apply _ := RaftCommitted;
  clock n := (100 * second + Z.of_nat n)%Z;
  new_uuid n := "uuid-" +:+ pretty n;
  is_leader := true;
  leader_addr := "m1:7000";
  ctx_done _ := false;
  delete_rpc _ _ := None;
|}.

#[global] Instance demo_Committing : Committing demo_Env.
Proof. done. Qed.

Lemma demo_uuid_inj : Inj (=) (=) (@new_uuid demo_Env).
Proof. intros n1 n2. cbn. intros Heq. by simplify_eq. Qed.

(** Three storage nodes and a file of one chunk, committed on [n1] only. *)
Definition demo_commands : list command :=
  [RegisterNodeC (mkCommandRegisterNode "n1" "h1:9000" 500%Z 0%Z 10%Z);
   RegisterNodeC (mkCommandRegisterNode "n2" "h2:9000" 400%Z 0%Z 10%Z);
   RegisterNodeC (mkCommandRegisterNode "n3" "h3:9000" 300%Z 0%Z 10%Z);
   CreateFileC (mkCommandCreateFile "f1" "a.txt" ["c1"] 8%Z 65536%Z [] 11%Z);
   CommitChunkC (mkCommandCommitChunk "c1" ["n1"] [Ascii.one])].

Definition demo_fsm : MetadataFSM := apply_log NewEmptyMetadataFsm (log_of demo_commands).

Lemma demo_reachable : reachable demo_fsm.
Proof. apply reachable_log, log_of_ok. repeat constructor; done. Qed.

Definition demo_world (sched : Sched) : World := mkWorld demo_fsm sched ∅ ∅ [] 0 0 0.
