(* ===== verification/Scheduler.v ===== *)
(** * The repair scheduler: metadata/scheduler/repair_scheduler.go

    Logging is left out; every other effect is a step of the monad of [World].  The
    job channel is the list [jobs] with its capacity; a worker goroutine is
    [worker_step], which takes the oldest job.  The timers [OnJobComplete] starts
    are the list [reschedules]; [fire_reschedule] is the function they run. *)

From S2P Require Import Prelude GoLib Json FsmTypes Fsm FsmCommands FsmInv FsmEquiv FsmSnapshot.
From S2P Require Import Placement World.

Definition defaultReplicationFactor : Z := 3.
Definition maxReplicationFactor : Z := 10.
Definition repairQueueCapacity : nat := 1024.

(** [NewRepairScheduler]; the strategies are parameters of the operations below. *)
Definition NewRepairScheduler (rf : Z) : Sched :=
  let rf := if decide (rf ≤ 0)%Z then defaultReplicationFactor else rf in
  mkSched ∅ ∅ [] [] (Z.min rf maxReplicationFactor).

(** [newTestableScheduler] differs in the function that proposes, which is the [Env]'s here. *)
Definition newTestableScheduler (rf : Z) : Sched :=
  let rf := if decide (rf ≤ 0)%Z then defaultReplicationFactor else rf in
  mkSched ∅ ∅ [] [] (Z.min rf maxReplicationFactor).

(** ** Helpers *)

Definition excludeNode (nodes : list NodeEntry) (nodeID : string) : list NodeEntry :=
  filter (λ n, ne_NodeID n ≠ nodeID) nodes.

Definition appendUnique (values : list string) (v : string) : list string :=
  if decide (v ∈ values) then values else values ++ [v].

Fixpoint removeJob (values : list string) (target : string) : list string :=
  match values with
  | [] => []
  | v :: rest => if decide (v = target) then rest else v :: removeJob rest target
  end.

(** [time.Duration(1<<min(attempt, 6)) * time.Second], capped at 60 s. *)
Definition retryDelay (attempt : Z) : Duration :=
  let delay := (Z.shiftl 1 (Z.min attempt 6) * second)%Z in
  if decide (60 * second < delay)%Z then (60 * second)%Z else delay.

(** The key of [pendingJobsSet]. *)
Definition pending_key (chunkID nodeID : string) : string := chunkID +:+ ":" +:+ nodeID.

Definition set_jobs (js : list string) (s : Sched) : Sched :=
  mkSched (pendingJobs s) (pendingJobsSet s) js (reschedules s) (replicationFactor s).
Definition set_pending (p : gmap string (list string)) (ps : gmap string string) (s : Sched) : Sched :=
  mkSched p ps (jobs s) (reschedules s) (replicationFactor s).
Definition add_reschedule (d : Duration) (cid : string) (s : Sched) : Sched :=
  mkSched (pendingJobs s) (pendingJobsSet s) (jobs s) (reschedules s ++ [(d, cid)]) (replicationFactor s).
Definition drop_reschedule (i : nat) (s : Sched) : Sched :=
  mkSched (pendingJobs s) (pendingJobsSet s) (jobs s) (delete i (reschedules s)) (replicationFactor s).

(** ** Operations *)

Section scheduler.
Context `{!Env, !MapRange} (sourceStrategy targetStrategy : PlacementStrategy).

Definition proposeAddReplica (chunkID nodeID : string) : M (option error) :=
  Propose (encode (AddChunkReplicaC (mkCommandAddChunkReplica chunkID nodeID))).

Definition proposeEvictChunk (chunkID nodeID reason : string) : M (option error) :=
  t ← Now;
  Propose (encode (EvictChunkFromNodeC (mkCommandEvictChunkFromNode chunkID nodeID t reason))).

(** [select { case rs.jobs <- jid: default: }] *)
Definition try_enqueue (jid : string) : M unit :=
  modify (λ w,
    let s := wd_sched w in
    if decide (length (jobs s) < repairQueueCapacity) then set_sched (set_jobs (jobs s ++ [jid]) s) w
    else w).

(** The body of the loop over the new nodes of an under-replicated chunk. *)
Definition schedule_target (chunkID sourceNode : string) (node : NodeEntry) : M unit :=
  dup ← gets (λ w, pendingJobsSet (wd_sched w) !! pending_key chunkID (ne_NodeID node));
  match dup with
  | Some _ => mret tt
  | None =>
      jid ← NewUUID;
      t ← Now;
      err ← Propose (encode (CreateRepairJobC
        (mkCommandCreateRepairJob jid t chunkID false sourceNode (ne_NodeID node))));
      match err with Some _ => mret tt | None => try_enqueue jid end
  end.

(** The body of the loop over the surplus nodes of an over-replicated chunk. *)
Definition schedule_delete (chunkID : string) (node : NodeEntry) : M unit :=
  jid ← NewUUID;
  t ← Now;
  err ← Propose (encode (CreateRepairJobC
    (mkCommandCreateRepairJob jid t chunkID true (ne_NodeID node) "")));
  match err with Some _ => mret tt | None => try_enqueue jid end.

Definition scheduleRepairJobs (chunkID : string) (liveReplicas : list NodeEntry) (deficit : Z)
    : M unit :=
  if decide (0 < deficit)%Z then
    if decide (length liveReplicas = 0) then mret tt
    else
      liveNodes ← gets (λ w, GetLiveNodes (wd_fsm w));
      chunk ← gets (λ w, GetChunk (wd_fsm w) chunkID);
      match chunk with
      | Err _ => mret tt
      | Ok c =>
          match @SelectNodes targetStrategy liveNodes chunkID (cr_Size c) (Z.to_nat deficit)
                  liveReplicas with
          | (_, Some _) => mret tt
          | (newNodes, None) =>
              let source := @SelectPrimary sourceStrategy liveReplicas in
              foreach newNodes (schedule_target chunkID (ne_NodeID source))
          end
      end
  else
    match @SelectNodeReverse targetStrategy liveReplicas chunkID 0 (Z.to_nat (- deficit)) [] with
    | (_, Some _) => mret tt
    | (deletingNodes, None) => foreach deletingNodes (schedule_delete chunkID)
    end.

(** The body of the loop of [TriggerRepair]. *)
Definition trigger_chunk (deadNodeID chkId : string) : M unit :=
  _ ← proposeEvictChunk chkId deadNodeID "node marked dead";
  live ← gets (λ w, GetChunkLocations (wd_fsm w) chkId);
  rf ← gets (λ w, replicationFactor (wd_sched w));
  match live with
  | Err _ => mret tt
  | Ok liveReplicas =>
      let liveWithoutDead := excludeNode liveReplicas deadNodeID in
      let deficit := (rf - Z.of_nat (length liveWithoutDead))%Z in
      if decide (deficit ≤ 0)%Z then mret tt
      else scheduleRepairJobs chkId liveWithoutDead deficit
  end.

Definition TriggerRepair (deadNodeID : string) : M unit :=
  chunkIDs ← gets (λ w, GetChunksByNode (wd_fsm w) deadNodeID);
  foreach chunkIDs (trigger_chunk deadNodeID).

Definition ScheduleRepairForChunk (chunkID : string) : M unit :=
  live ← gets (λ w, GetChunkLocations (wd_fsm w) chunkID);
  rf ← gets (λ w, replicationFactor (wd_sched w));
  match live with
  | Err _ => mret tt
  | Ok liveReplicas =>
      let deficit := (rf - Z.of_nat (length liveReplicas))%Z in
      if decide (deficit ≤ 0)%Z then mret tt else scheduleRepairJobs chunkID liveReplicas deficit
  end.

Definition executeJob (jobID : string) : M unit :=
  job ← gets (λ w, GetRepairJob (wd_fsm w) jobID);
  match job with
  | Err _ => mret tt
  | Ok j =>
      modify (λ w,
        let s := wd_sched w in
        let l := default [] (pendingJobs s !! rj_SourceNodeID j) in
        set_sched (set_pending
          (<[rj_SourceNodeID j := appendUnique l jobID]> (pendingJobs s))
          (<[pending_key (rj_ChunkID j) (rj_TargetNodeID j) := jobID]> (pendingJobsSet s)) s) w);;
      t ← Now;
      _ ← Propose (encode (UpdateRepairJobC
        (mkCommandUpdateRepairJob jobID RepairStatusInProgress "" t 0 "")));
      mret tt
  end.

(** [case jobID := <-rs.jobs: rs.executeJob(jobID)] of a worker. *)
Definition worker_step : M unit :=
  js ← gets (λ w, jobs (wd_sched w));
  match js with
  | [] => mret tt
  | jobID :: rest =>
      modify (λ w, set_sched (set_jobs rest (wd_sched w)) w);;
      executeJob jobID
  end.

(** [enqueueJob]: a send on a full channel waits until a worker has taken a job. *)
Definition enqueueJob (jobID : string) : M bool :=
  done ← gets (λ w, ctx_done (wd_ticks w));
  if (done : bool) then mret false
  else
    full ← gets (λ w, bool_decide (repairQueueCapacity ≤ length (jobs (wd_sched w))));
    (if (full : bool) then worker_step else mret tt);;
    modify (λ w, set_sched (set_jobs (jobs (wd_sched w) ++ [jobID]) (wd_sched w)) w);;
    mret true.

(** The body of the loop of [RecoverStuckJobs] up to [enqueueJob]: whether the job is to be
    queued again, after it got a new source where it needs one. *)
Definition recover_choice (val : RepairJob) : M bool :=
  live ← gets (λ w, GetChunkLocations (wd_fsm w) (rj_ChunkID val));
  rf ← gets (λ w, replicationFactor (wd_sched w));
  match live with
  | Err _ => mret false
  | Ok liveReplicas =>
      if decide (length liveReplicas = 0) then mret false
      else if decide (rf - Z.of_nat (length liveReplicas) ≤ 0)%Z then mret false
      else if decide (rj_SourceNodeID val ∈ ne_NodeID <$> liveReplicas) then mret true
      else
        let newSource := @SelectPrimary sourceStrategy liveReplicas in
        t ← Now;
        err ← Propose (encode (UpdateRepairJobC
          (mkCommandUpdateRepairJob (rj_JobID val) RepairStatusPending (ne_NodeID newSource) t 0 "")));
        match err with
        | Some _ => mret false
        | None => mret true
        end
  end.

(** One iteration of [RecoverStuckJobs]; [false] ends the loop. *)
Definition recover_job (val : RepairJob) : M bool :=
  done ← gets (λ w, ctx_done (wd_ticks w));
  if (done : bool) then mret false
  else
    again ← recover_choice val;
    if (again : bool) then enqueueJob (rj_JobID val) else mret true.

Fixpoint recover_loop (l : list RepairJob) : M unit :=
  match l with
  | [] => mret tt
  | val :: l' =>
      cont ← recover_job val;
      if (cont : bool) then recover_loop l' else mret tt
  end.

Definition RecoverStuckJobs : M unit :=
  stuckJobs ← gets (λ w, GetJobsByStatus (wd_fsm w) RepairStatusInProgress);
  recover_loop stuckJobs.

Definition sched_GetPendingJobsForNode (nodeID : string) : M (list string) :=
  gets (λ w, default [] (pendingJobs (wd_sched w) !! nodeID)).

(** The locked section of [OnJobComplete]. *)
Definition clear_pending (nodeid jobID : string) (s : Sched) : Sched :=
  match pendingJobs s !! nodeid with
  | None => s
  | Some jobsForNode =>
      let removed := removeJob jobsForNode jobID in
      let set' := filter (λ kv : string * string, kv.2 ≠ jobID) (pendingJobsSet s) in
      set_pending (if decide (length removed = 0) then delete nodeid (pendingJobs s)
                   else <[nodeid := removed]> (pendingJobs s)) set' s
  end.

Definition OnJobComplete (nodeid jobID : string) (success : bool) (errorMsg : string)
    : M (option error) :=
  modify (λ w, set_sched (clear_pending nodeid jobID (wd_sched w)) w);;
  job ← gets (λ w, GetRepairJob (wd_fsm w) jobID);
  match job with
  | Err e => mret (Some e)
  | Ok j =>
      if success then
        if rj_DeleteSource j then
          proposeEvictChunk (rj_ChunkID j) (rj_SourceNodeID j) "over-replicated repair completed"
        else proposeAddReplica (rj_ChunkID j) (rj_TargetNodeID j)
      else
        live ← gets (λ w, GetChunkLocations (wd_fsm w) (rj_ChunkID j));
        rf ← gets (λ w, replicationFactor (wd_sched w));
        match live with
        | Err e => mret (Some e)
        | Ok liveReplicas =>
            (if decide (0 < rf - Z.of_nat (length liveReplicas))%Z then
               modify (λ w, set_sched (add_reschedule
                 (retryDelay (to_uint64 (rj_Attempts j + 1))) (rj_ChunkID j) (wd_sched w)) w)
             else mret tt);;
            mret None
        end
  end.

(** The function a timer of [OnJobComplete] runs: [ScheduleRepairForChunk] of its chunk. *)
Definition fire_reschedule (i : nat) : M unit :=
  due ← gets (λ w, reschedules (wd_sched w) !! i);
  match due with
  | None => mret tt
  | Some (_, chunkID) =>
      modify (λ w, set_sched (drop_reschedule i (wd_sched w)) w);;
      current ← gets (λ w, GetChunkLocations (wd_fsm w) chunkID);
      rf ← gets (λ w, replicationFactor (wd_sched w));
      match current with
      | Err _ => mret tt
      | Ok currentLive =>
          let currentDeficit := (rf - Z.of_nat (length currentLive))%Z in
          if decide (0 < currentDeficit)%Z then scheduleRepairJobs chunkID currentLive currentDeficit
          else mret tt
      end
  end.
End scheduler.

(** ** Every operation changes the FSM only through the log *)

Section evolve_sched.
Context `{!Env, !MapRange} (src tgt : PlacementStrategy) (s0 : MetadataFSM).

Lemma evolve_proposeAddReplica c n : preserves (evolved s0) (proposeAddReplica c n).
Proof. by apply evolve_Propose. Qed.

Lemma evolve_proposeEvictChunk c n r : preserves (evolved s0) (proposeEvictChunk c n r).
Proof. unfold proposeEvictChunk. preserve; auto with dfs. Qed.

Lemma evolve_try_enqueue j : preserves (evolved s0) (try_enqueue j).
Proof. apply evolve_modify. intros w. cbv beta zeta. by case_decide. Qed.

#[local] Hint Resolve evolve_proposeAddReplica evolve_proposeEvictChunk evolve_try_enqueue : dfs.

Lemma evolve_scheduleRepairJobs c l d : preserves (evolved s0) (scheduleRepairJobs src tgt c l d).
Proof.
  unfold scheduleRepairJobs, schedule_target, schedule_delete. preserve; auto with dfs.
Qed.

#[local] Hint Resolve evolve_scheduleRepairJobs : dfs.

Lemma evolve_TriggerRepair n : preserves (evolved s0) (TriggerRepair src tgt n).
Proof. unfold TriggerRepair, trigger_chunk. preserve; auto with dfs. Qed.

Lemma evolve_ScheduleRepairForChunk c : preserves (evolved s0) (ScheduleRepairForChunk src tgt c).
Proof. unfold ScheduleRepairForChunk. preserve; auto with dfs. Qed.

Lemma evolve_executeJob j : preserves (evolved s0) (executeJob j).
Proof.
  unfold executeJob. preserve; auto with dfs.
Qed.

#[local] Hint Resolve evolve_executeJob : dfs.

Lemma evolve_worker_step : preserves (evolved s0) worker_step.
Proof. unfold worker_step. preserve; auto with dfs. Qed.

#[local] Hint Resolve evolve_worker_step : dfs.

Lemma evolve_recover_job j : preserves (evolved s0) (recover_job src j).
Proof.
  unfold recover_job, recover_choice, enqueueJob. preserve; auto with dfs.
Qed.

Lemma evolve_RecoverStuckJobs : preserves (evolved s0) (RecoverStuckJobs src).
Proof.
  unfold RecoverStuckJobs. preserve. intros l.
  induction l as [|j l IH]; simpl; [apply preserves_ret|].
  apply preserves_bind; [apply evolve_recover_job|].
  intros []; [apply IH|apply preserves_ret].
Qed.

Lemma evolve_OnJobComplete n j ok e : preserves (evolved s0) (OnJobComplete n j ok e).
Proof. unfold OnJobComplete. preserve; auto with dfs. Qed.

Lemma evolve_fire_reschedule i : preserves (evolved s0) (fire_reschedule src tgt i).
Proof. unfold fire_reschedule. preserve; auto with dfs. Qed.
End evolve_sched.

#[export] Hint Resolve evolve_proposeEvictChunk evolve_TriggerRepair evolve_ScheduleRepairForChunk
  evolve_worker_step evolve_RecoverStuckJobs evolve_OnJobComplete evolve_fire_reschedule : dfs.

(** ** Bounds on the scheduler's state *)

Record sched_ok (s : Sched) : Prop := {
  so_queue : length (jobs s) ≤ repairQueueCapacity;
  so_pending : ∀ n l, pendingJobs s !! n = Some l → NoDup l ∧ l ≠ [];
  so_rf : (1 ≤ replicationFactor s ≤ 10)%Z;
}.

Definition sched_inv (I : Sched → Prop) (w : World) : Prop := I (wd_sched w).

Section sched_inv.
Context `{!Env, !MapRange} (src tgt : PlacementStrategy).

(** Proposals, the clock and identifiers leave the scheduler alone. *)
Lemma sched_Propose I c : preserves (sched_inv I) (Propose c).
Proof.
  intros w Hw. unfold Propose, sched_inv in *. destruct (raft_apply _); try done.
  by destruct (Apply _ _).
Qed.
Lemma sched_Now I : preserves (sched_inv I) Now.
Proof. by intros w Hw. Qed.
Lemma sched_NewUUID I : preserves (sched_inv I) NewUUID.
Proof. by intros w Hw. Qed.
Lemma sched_modify I f : (∀ s, I s → I (f s)) →
  preserves (sched_inv I) (modify (λ w, set_sched (f (wd_sched w)) w)).
Proof. intros Hf. apply preserves_modify. intros w. apply Hf. Qed.

Lemma appendUnique_ok l j : NoDup l → NoDup (appendUnique l j) ∧ appendUnique l j ≠ [].
Proof.
  intros Hl. unfold appendUnique. case_decide as Hj; split.
  - done.
  - intros ->. set_solver.
  - by apply NoDup_snoc.
  - by destruct l.
Qed.

Lemma removeJob_sublist l j : removeJob l j `sublist_of` l.
Proof.
  induction l as [|x l IH]; simpl; [done|]. case_decide; [by apply sublist_cons|by apply sublist_skip].
Qed.

Lemma clear_pending_ok n j s : sched_ok s → sched_ok (clear_pending n j s).
Proof.
  intros [Hq Hp Hr]. unfold clear_pending. destruct (pendingJobs s !! n) as [l|] eqn:Hn; [|done].
  split; simpl; [done| |done]. case_decide as Hlen; intros n' l'.
  - intros [_ Hl']%lookup_delete_Some. eauto.
  - intros [[<- <-]|[_ Hl']]%lookup_insert_Some; [|eauto]. split.
    + eapply sublist_NoDup; [by eapply Hp|apply removeJob_sublist].
    + intros Hnil. by rewrite Hnil in Hlen.
Qed.

(** The job queue as it was. *)
Lemma jobs_executeJob js j : preserves (sched_inv (λ s, jobs s = js)) (executeJob j).
Proof.
  unfold executeJob. preserve; auto using sched_Propose, sched_Now.
  intros w Hw. done.
Qed.

Lemma ok_executeJob j : preserves (sched_inv sched_ok) (executeJob j).
Proof.
  unfold executeJob. preserve; auto using sched_Propose, sched_Now.
  intros w [Hq Hp Hr]. split; simpl; [done| |done].
  intros n l [[<- <-]|[_ Hl]]%lookup_insert_Some; [|eauto]. apply appendUnique_ok.
  destruct (pendingJobs (wd_sched w) !! _) as [l|] eqn:Hl; simpl; [by eapply Hp|constructor].
Qed.

Lemma worker_step_jobs w : jobs (wd_sched (worker_step w).2) = tail (jobs (wd_sched w)).
Proof.
  unfold worker_step, gets, mbind, M_bind. destruct (jobs (wd_sched w)) as [|j rest] eqn:Hj; [done|].
  simpl. by apply (jobs_executeJob rest j).
Qed.

Lemma ok_worker_step : preserves (sched_inv sched_ok) worker_step.
Proof.
  unfold worker_step. apply (hoare_bind _ _ _ (λ js w, sched_ok (wd_sched w) ∧ js = jobs (wd_sched w))).
  { by intros w Hw. }
  intros [|j rest]; [by intros w [? _]|].
  apply (hoare_bind _ _ _ (λ _, sched_inv sched_ok)); [|intros []; apply ok_executeJob].
  intros w [[Hq Hp Hr] Hjs]. split; simpl; try done. rewrite <-Hjs in Hq. simpl in Hq. lia.
Qed.

Lemma ok_enqueueJob j : preserves (sched_inv sched_ok) (enqueueJob j).
Proof.
  unfold enqueueJob. apply preserves_bind; [apply preserves_gets|]. intros [|]; [apply preserves_ret|].
  apply (hoare_bind _ _ _ (λ full w, sched_ok (wd_sched w) ∧
    full = bool_decide (repairQueueCapacity ≤ length (jobs (wd_sched w))))); [by intros w Hw|].
  intros full. apply (hoare_bind _ _ _ (λ _ w, sched_ok (wd_sched w) ∧
    length (jobs (wd_sched w)) < repairQueueCapacity)).
  - intros w [Hok Hfull]. destruct full.
    + split; [by apply ok_worker_step|]. rewrite worker_step_jobs.
      symmetry in Hfull. apply bool_decide_eq_true in Hfull. destruct Hok as [Hq _ _].
      destruct (jobs (wd_sched w)); simpl in *; [|lia]. unfold repairQueueCapacity in *. lia.
    + symmetry in Hfull. apply bool_decide_eq_false in Hfull. split; [done|]. simpl. lia.
  - intros []. intros w [[Hq Hp Hr] Hlt]. split; simpl; try done. rewrite length_app. simpl. lia.
Qed.

Lemma ok_try_enqueue j : preserves (sched_inv sched_ok) (try_enqueue j).
Proof.
  apply preserves_modify. intros w Hok. unfold sched_inv in *. cbv beta zeta.
  case_decide; [|done]. destruct Hok. split; simpl; try done. rewrite length_app. simpl. lia.
Qed.

#[local] Hint Resolve sched_Propose sched_Now sched_NewUUID ok_try_enqueue ok_executeJob
  ok_worker_step ok_enqueueJob : dfs.

Lemma ok_scheduleRepairJobs c l d :
  preserves (sched_inv sched_ok) (scheduleRepairJobs src tgt c l d).
Proof. unfold scheduleRepairJobs, schedule_target, schedule_delete. preserve; auto with dfs. Qed.

#[local] Hint Resolve ok_scheduleRepairJobs : dfs.

Lemma ok_proposeEvictChunk c n r : preserves (sched_inv sched_ok) (proposeEvictChunk c n r).
Proof. unfold proposeEvictChunk. preserve; auto with dfs. Qed.

#[local] Hint Resolve ok_proposeEvictChunk : dfs.

Lemma ok_TriggerRepair n : preserves (sched_inv sched_ok) (TriggerRepair src tgt n).
Proof. unfold TriggerRepair, trigger_chunk. preserve; auto with dfs. Qed.

Lemma ok_ScheduleRepairForChunk c : preserves (sched_inv sched_ok) (ScheduleRepairForChunk src tgt c).
Proof. unfold ScheduleRepairForChunk. preserve; auto with dfs. Qed.

Lemma ok_RecoverStuckJobs : preserves (sched_inv sched_ok) (RecoverStuckJobs src).
Proof.
  unfold RecoverStuckJobs. apply preserves_bind; [apply preserves_gets|]. intros l.
  induction l as [|j l IH]; simpl; [apply preserves_ret|].
  apply preserves_bind; [|intros []; [apply IH|apply preserves_ret]].
  unfold recover_job, recover_choice. preserve; auto with dfs.
Qed.

Lemma ok_OnJobComplete n j b e : preserves (sched_inv sched_ok) (OnJobComplete n j b e).
Proof.
  unfold OnJobComplete, proposeAddReplica. apply preserves_bind.
  { apply sched_modify. intros s. apply clear_pending_ok. }
  preserve; auto with dfs. apply sched_modify. intros sc []. by split.
Qed.

Lemma ok_fire_reschedule i : preserves (sched_inv sched_ok) (fire_reschedule src tgt i).
Proof.
  unfold fire_reschedule. preserve; auto with dfs. apply sched_modify. intros sc []. by split.
Qed.
End sched_inv.

#[export] Hint Resolve sched_Propose sched_Now sched_NewUUID ok_proposeEvictChunk ok_worker_step
  ok_TriggerRepair ok_ScheduleRepairForChunk ok_RecoverStuckJobs ok_OnJobComplete
  ok_fire_reschedule : dfs.

Lemma NewRepairScheduler_ok rf : sched_ok (NewRepairScheduler rf).
Proof.
  split; simpl; [lia|intros n l; by rewrite lookup_empty|].
  case_decide; unfold defaultReplicationFactor, maxReplicationFactor; lia.
Qed.

(** ** What is scheduled *)

(** Identifiers not handed out yet are not in use, and all are distinct. *)
Record uuid_fresh `{!Env} (w : World) : Prop := {
  uf_inj : Inj (=) (=) new_uuid;
  uf_jobs : ∀ n, wd_uuids w ≤ n → repairJobRegistry (wd_fsm w) !! new_uuid n = None;
}.

(** The job that [schedule_target] creates. *)
Definition new_job (jid : string) (t : Time) (chunkID source target : string) : RepairJob :=
  mkRepairJob jid chunkID "" false source target RepairStatusPending 0 t t.

(** After visiting [visited], the registry holds one new pending job per target that had
    no pending repair of the chunk, and the queue has got their identifiers. *)
Record scheduled (w0 : World) (chunkID source : string) (visited : list NodeEntry)
    (created : list (string * Time * string)) (w : World) : Prop := {
  sd_targets : created.*2 = filter (λ t, pendingJobsSet (wd_sched w0) !! pending_key chunkID t = None)
                              (ne_NodeID <$> visited);
  sd_ids : NoDup (created.*1.*1) ∧
    ∀ jid, jid ∈ created.*1.*1 → repairJobRegistry (wd_fsm w0) !! jid = None;
  sd_jobs : ∀ jid t target, (jid, t, target) ∈ created →
    repairJobRegistry (wd_fsm w) !! jid = Some (new_job jid t chunkID source target);
  sd_old : ∀ k, k ∉ created.*1.*1 →
    repairJobRegistry (wd_fsm w) !! k = repairJobRegistry (wd_fsm w0) !! k;
  sd_queue : jobs (wd_sched w) =
    jobs (wd_sched w0) ++ take (repairQueueCapacity - length (jobs (wd_sched w0))) (created.*1.*1);
  sd_rest : fileIndex (wd_fsm w) = fileIndex (wd_fsm w0) ∧
    chunkRegistry (wd_fsm w) = chunkRegistry (wd_fsm w0) ∧
    nodeRegistry (wd_fsm w) = nodeRegistry (wd_fsm w0) ∧
    pendingJobsSet (wd_sched w) = pendingJobsSet (wd_sched w0) ∧
    pendingJobs (wd_sched w) = pendingJobs (wd_sched w0);
}.

Section schedule_spec.
Context `{!Env, !MapRange, !Committing _} (w0 : World) (chunkID source : string).

(** One target without a pending repair. *)
Lemma schedule_target_run node w :
  pendingJobsSet (wd_sched w) !! pending_key chunkID (ne_NodeID node) = None →
  repairJobRegistry (wd_fsm w) !! new_uuid (wd_uuids w) = None →
  let jid := new_uuid (wd_uuids w) in
  let job := new_job jid (clock (wd_ticks w)) chunkID source (ne_NodeID node) in
  schedule_target chunkID source node w =
    try_enqueue jid (set_fsm (set_repairJobRegistry (wd_fsm w)
      (<[jid := job]> (repairJobRegistry (wd_fsm w)))) (next_proposal (next_tick (next_uuid w)))).
Proof.
  intros Hdup Hnew jid job.
  unfold schedule_target, gets, mbind, M_bind. rewrite Hdup. unfold NewUUID, Now.
  rewrite Propose_committed by done.
  cbn [exec wd_fsm next_uuid next_tick wd_ticks]. unfold handleCmdCreateRepairJob, upsert.
  cbn [cj_JobID]. by rewrite Hnew.
Qed.

Lemma schedule_target_spec node visited created w :
  uuid_fresh w → scheduled w0 chunkID source visited created w →
  let w' := (schedule_target chunkID source node w).2 in
  uuid_fresh w' ∧ ∃ created', scheduled w0 chunkID source (visited ++ [node]) created' w'.
Proof.
  intros Hfr Hsd. destruct (Hfr) as [Hinj Hfresh].
  destruct (Hsd) as [Ht [Hnd Hnew] Hj Hold Hq (Hf & Hc & Hn & Hps & Hp)].
  destruct (pendingJobsSet (wd_sched w0) !! pending_key chunkID (ne_NodeID node)) as [d|] eqn:Hd.
  { unfold schedule_target, gets, mbind, M_bind. rewrite Hps, Hd. simpl. split; [done|].
    exists created. split; try done. rewrite fmap_app, filter_app, Ht. simpl.
    rewrite filter_cons_False, app_nil_r by (by rewrite Hd). done. }
  rewrite schedule_target_run; [|by rewrite Hps|by apply Hfresh].
  set (jid := new_uuid (wd_uuids w)). set (t := clock _).
  assert (Hjid : jid ∉ created.*1.*1).
  { intros Hin. apply list_elem_of_fmap in Hin as ([j' t'] & Hj1 & Hin); simpl in Hj1; subst j'.
    apply list_elem_of_fmap in Hin as ([[j' t''] tg] & Hj2 & Hin). simplify_eq/=.
    specialize (Hj _ _ _ Hin). rewrite Hfresh in Hj by lia. done. }
  unfold try_enqueue, modify. cbv zeta. cbn [snd]. split.
  { split; [done|]. intros n Hle. case_decide; simpl in Hle |- *;
      (rewrite lookup_insert_ne; [apply Hfresh; lia|]); intros Heq%Hinj; lia. }
  exists (created ++ [(jid, t, ne_NodeID node)]). split.
  - rewrite !fmap_app, filter_app, Ht. simpl. by rewrite filter_cons_True by done.
  - rewrite !fmap_app. simpl. split; [by apply NoDup_snoc|].
    intros j' [Hin| ->%list_elem_of_singleton]%elem_of_app; [by apply Hnew|].
    rewrite <-Hold by done. by apply Hfresh.
  - intros j' t' tg [Hin|Heq%list_elem_of_singleton]%elem_of_app; case_decide; simpl;
      simplify_eq; rewrite ?lookup_insert_eq; try done;
      (rewrite lookup_insert_ne; [by apply Hj|]); intros <-; apply Hjid;
      apply list_elem_of_fmap; exists (jid, t'); (split; [done|]);
      apply list_elem_of_fmap; by exists (jid, t', tg).
  - intros k. rewrite !fmap_app. simpl. intros [Hk Hne%not_elem_of_cons]%not_elem_of_app.
    case_decide; simpl; (rewrite lookup_insert_ne; [by apply Hold|]); naive_solver.
  - rewrite !fmap_app. simpl. rewrite take_app.
    case_decide as Hlen; simpl in *; rewrite Hq in *; rewrite length_app, length_take in Hlen.
    + rewrite (take_ge [jid]), app_assoc by (simpl; lia). done.
    + replace (_ - length created.*1.*1) with 0 by lia. by rewrite app_nil_r.
  - by case_decide.
Qed.

Lemma schedule_targets_spec nodes :
  uuid_fresh w0 →
  ∃ created, scheduled w0 chunkID source nodes created
    (foreach nodes (schedule_target chunkID source) w0).2.
Proof.
  intros Hfr.
  apply (hoare_foreach nodes _ (λ visited w,
    uuid_fresh w ∧ ∃ created, scheduled w0 chunkID source visited created w)).
  - intros pre x suf _ w [Hw (created & Hsd)]. by eapply schedule_target_spec.
  - split; [done|]. exists []. split; simpl; try done.
    + split; [constructor|set_solver].
    + set_solver.
    + by rewrite take_nil, app_nil_r.
Qed.
End schedule_spec.

(** ** Evicting a dead node *)

Section trigger.
Context `{!Env, !MapRange} (src tgt : PlacementStrategy).

(** What the FSM holds besides jobs and metadata nodes. *)
Definition core (s : MetadataFSM) := (fileIndex s, chunkRegistry s, nodeRegistry s).

(** Scheduling writes jobs only. *)
Lemma core_scheduleRepairJobs m c l d :
  preserves (λ w, core (wd_fsm w) = m) (scheduleRepairJobs src tgt c l d).
Proof.
  assert (HP : ∀ req, preserves (λ w, core (wd_fsm w) = m) (Propose (encode (CreateRepairJobC req)))).
  { intros req w Hw. unfold Propose. rewrite Apply_encode by done. cbn [exec].
    unfold handleCmdCreateRepairJob, upsert. repeat case_match; by simplify_eq/=. }
  assert (HT : ∀ j, preserves (λ w, core (wd_fsm w) = m) (try_enqueue j)).
  { intros j. apply preserves_modify. intros w Hw. cbv beta zeta. by case_decide. }
  assert (HN : preserves (λ w, core (wd_fsm w) = m) Now) by by intros w.
  assert (HU : preserves (λ w, core (wd_fsm w) = m) NewUUID) by by intros w.
  unfold scheduleRepairJobs, schedule_target, schedule_delete. preserve; auto.
Qed.

Lemma core_ScheduleRepairForChunk m c :
  preserves (λ w, core (wd_fsm w) = m) (ScheduleRepairForChunk src tgt c).
Proof. unfold ScheduleRepairForChunk. preserve; intros; apply core_scheduleRepairJobs. Qed.

Lemma chunks_scheduleRepairJobs m c l d :
  preserves (λ w, chunkRegistry (wd_fsm w) = m) (scheduleRepairJobs src tgt c l d).
Proof.
  intros w Hw. pose proof (core_scheduleRepairJobs (core (wd_fsm w)) c l d w eq_refl) as Hcore.
  unfold core in Hcore. by simplify_eq.
Qed.

Lemma trigger_chunk_evicts `{!Committing _} dead x c w :
  NoDup (cr_Replicas c) → chunkRegistry (wd_fsm w) !! x = Some c → dead ∈ cr_Replicas c →
  chunkRegistry (wd_fsm (trigger_chunk src tgt dead x w).2) =
    <[x := drop_replica dead c]> (chunkRegistry (wd_fsm w)).
Proof.
  intros Hnd Hc Hin. unfold trigger_chunk, proposeEvictChunk.
  set (m := <[x := drop_replica dead c]> (chunkRegistry (wd_fsm w))).
  unfold mbind at 1, M_bind at 1. unfold mbind at 1, M_bind at 1. unfold Now.
  rewrite Propose_committed by done. cbn [exec wd_fsm next_tick].
  rewrite (exec_evict _ x dead _ _ c) by done. cbn [fst snd].
  match goal with |- context [set_fsm ?s ?w'] => set (w1 := set_fsm s w') end.
  assert (Hw1 : chunkRegistry (wd_fsm w1) = m) by done. clearbody w1. clear Hc.
  unfold gets, mbind, M_bind. repeat case_match; try done.
  by apply (chunks_scheduleRepairJobs m).
Qed.

Lemma TriggerRepair_evicts `{!Committing _} dead w0 :
  fsm_inv (wd_fsm w0) →
  chunkRegistry (wd_fsm (TriggerRepair src tgt dead w0).2) =
    drop_replica dead <$> chunkRegistry (wd_fsm w0).
Proof.
  intros Hinv. unfold TriggerRepair, gets. unfold mbind, M_bind.
  destruct (GetChunksByNode_spec (wd_fsm w0) dead Hinv) as [Hnd Hspec].
  set (l := GetChunksByNode (wd_fsm w0) dead) in *.
  pose proof (hoare_foreach l (trigger_chunk src tgt dead) (λ pre w, ∀ k,
    chunkRegistry (wd_fsm w) !! k =
      (λ c, if decide (k ∈ pre) then drop_replica dead c else c) <$> chunkRegistry (wd_fsm w0) !! k))
    as Hloop.
  apply map_eq. intros k. rewrite lookup_fmap. rewrite Hloop.
  - destruct (chunkRegistry (wd_fsm w0) !! k) as [c|] eqn:Hk; [|done]; simpl. f_equal.
    case_decide as Hkl; [done|]. rewrite drop_replica_absent; [done|].
    intros Hin. apply Hkl, Hspec. eauto.
  - intros pre x suf Hl w Hw k'.
    assert (Hx : x ∈ l) by (rewrite Hl; set_solver).
    apply Hspec in Hx as (c & Hc & Hdead).
    assert (Hpre : x ∉ pre).
    { rewrite Hl in Hnd. apply NoDup_app in Hnd as (_ & Hdis & _). intros Hx. apply (Hdis x Hx). set_solver. }
    rewrite (trigger_chunk_evicts dead x c); [|by eapply inv_replicas| |done].
    2:{ rewrite Hw, Hc. simpl. by rewrite decide_False. }
    destruct (decide (x = k')) as [<-|Hne].
    + rewrite lookup_insert_eq, Hc. simpl. rewrite decide_True by set_solver. done.
    + rewrite lookup_insert_ne, Hw by done. destruct (chunkRegistry (wd_fsm w0) !! k'); [|done]. simpl.
      f_equal. repeat case_decide; set_solver.
  - intros k'. destruct (chunkRegistry (wd_fsm w0) !! k'); done.
Qed.
End trigger.

(** What scheduling for an under-replicated chunk does. *)
Lemma scheduleRepairJobs_under `{!Env, !MapRange, !Committing _} (src tgt : PlacementStrategy)
    `{!PlacementLaws src, !PlacementLaws tgt} (w : World) (chunkID : string) (c : ChunkRecord)
    (live : list NodeEntry) (deficit : Z) :
  fsm_inv (wd_fsm w) → uuid_fresh w →
  chunkRegistry (wd_fsm w) !! chunkID = Some c → live ≠ [] → (0 < deficit)%Z →
  let cands := candidates (GetLiveNodes (wd_fsm w)) (cr_Size c) live in
  let w' := (scheduleRepairJobs src tgt chunkID live deficit w).2 in
  ((Z.of_nat (length cands) < deficit)%Z → w' = w) ∧
  ((deficit ≤ Z.of_nat (length cands))%Z →
   ∃ source targets created,
     source ∈ live ∧ Z.of_nat (length targets) = deficit ∧
     Forall (λ n, n ∈ cands ∧ ne_Status n = NodeStatusAlive ∧ ne_NodeID n ∉ ne_NodeID <$> live) targets ∧
     scheduled w chunkID (ne_NodeID source) targets created w').
Proof.
  intros Hinv Hfr Hc Hlive Hdef cands w'. subst w'. unfold scheduleRepairJobs, gets, mbind, M_bind.
  rewrite decide_True, decide_False by (done || by destruct live).
  unfold GetChunk. rewrite Hc.
  destruct (@SelectNodes tgt _ _ _ _ _) as [out [e|]] eqn:Hsel.
  - apply select_err in Hsel as [Hlen _]. fold cands in Hlen. split; [done|lia].
  - apply select_ok in Hsel as (Hlen & _ & rest & Hperm & _). fold cands in Hperm. split.
    + rewrite Hperm, length_app. lia.
    + intros _. destruct (schedule_targets_spec w chunkID
        (ne_NodeID (@SelectPrimary src live)) out Hfr) as (created & Hsd).
      exists (@SelectPrimary src live), out, created. split_and!; [by apply primary_ok|lia| |done].
      rewrite Forall_forall. intros n Hn.
      assert (Hcand : n ∈ cands) by (rewrite Hperm; set_solver).
      pose proof (proj1 (elem_of_candidates _ _ _ _) Hcand) as ([Hst _]%list_elem_of_filter & Hex & _).
      done.
Qed.

(** ** Properties *)

(** C26. When Raft commits, scheduling the repair of an under-replicated chunk either creates
    nothing, because fewer eligible nodes are alive than replicas are missing, or picks
    exactly that many distinct live nodes that do not hold the chunk, and creates one
    pending job for each of them that is not in the scheduler's [pendingJobsSet] for the
    chunk, from a replica that holds the chunk, and queues the jobs as far as the channel
    has room; nothing else changes.  A target enters [pendingJobsSet] when a worker
    executes its job, so a target whose job still waits gets a second one:
    [waiting_target_gets_second_job]. *)
Theorem schedule_repair_spec `{!Env, !MapRange, !Committing _} (src tgt : PlacementStrategy)
    `{!PlacementLaws src, !PlacementLaws tgt} (w : World) (chunkID : string) (c : ChunkRecord)
    (live : list NodeEntry) (deficit : Z) :
  fsm_inv (wd_fsm w) → uuid_fresh w →
  chunkRegistry (wd_fsm w) !! chunkID = Some c → live ≠ [] → (0 < deficit)%Z →
  let cands := candidates (GetLiveNodes (wd_fsm w)) (cr_Size c) live in
  let w' := (scheduleRepairJobs src tgt chunkID live deficit w).2 in
  ((Z.of_nat (length cands) < deficit)%Z → w' = w) ∧
  ((deficit ≤ Z.of_nat (length cands))%Z →
   ∃ source targets created,
     source ∈ live ∧ Z.of_nat (length targets) = deficit ∧
     Forall (λ n, n ∈ cands ∧ ne_Status n = NodeStatusAlive ∧ ne_NodeID n ∉ ne_NodeID <$> live) targets ∧
     scheduled w chunkID (ne_NodeID source) targets created w').
Proof. exact (scheduleRepairJobs_under src tgt w chunkID c live deficit). Qed.

Definition w_chunk_c1 : ChunkRecord :=
  mkChunkRecord "c1" "f1" 0 0 [Ascii.one] ["n1"] ChunkStatusComplete 0.
Definition w_live_n1 : NodeEntry := mkNodeEntry "n1" "h1:9000" NodeStatusAlive 500 0 10%Z 10%Z 10%Z.

Lemma schedule_repair_spec_witness :
  ∃ source targets created, source ∈ [w_live_n1] ∧ Z.of_nat (length targets) = 1%Z ∧
    scheduled (demo_world (NewRepairScheduler 2)) "c1" (ne_NodeID source) targets created
      (@scheduleRepairJobs demo_Env _ MostFreeSpaceStrategy MostFreeSpaceStrategy "c1" [w_live_n1] 1
        (demo_world (NewRepairScheduler 2))).2.
Proof.
  destruct (@schedule_repair_spec demo_Env _ _ MostFreeSpaceStrategy MostFreeSpaceStrategy _ _
    (demo_world (NewRepairScheduler 2)) "c1" w_chunk_c1 [w_live_n1] 1)
    as [_ (source & targets & created & H1 & H2 & _ & H3)].
  - exact (proj1 (reachable_inv _ demo_reachable)).
  - split; [exact demo_uuid_inj|]. intros n _.
    replace (repairJobRegistry (wd_fsm (demo_world (NewRepairScheduler 2))))
      with (∅ : gmap string RepairJob) by (vm_compute; reflexivity). apply lookup_empty.
  - vm_compute. reflexivity.
  - discriminate.
  - lia.
  - compute_decide.
  - exists source, targets, created. split_and!; [exact H1|exact H2|exact H3].
Defined.

(** The chunk is scheduled twice before a worker runs: the state machine knows that the
    target has an active repair, nobody asks it, and the target has two pending jobs, both
    queued. *)
Theorem waiting_target_gets_second_job :
  let schedule := @scheduleRepairJobs demo_Env _ MostFreeSpaceStrategy MostFreeSpaceStrategy "c1" [w_live_n1] 1 in
  let w1 := (schedule (demo_world (NewRepairScheduler 2))).2 in
  let w2 := (schedule w1).2 in
  ∃ target, HasActiveRepairForChunkTarget (wd_fsm w1) "c1" target = true ∧
    (λ kj, (rj_ChunkID kj.2, rj_TargetNodeID kj.2, rj_Status kj.2)) <$> map_to_list (repairJobRegistry (wd_fsm w2)) =
      [("c1", target, RepairStatusPending); ("c1", target, RepairStatusPending)] ∧
    length (jobs (wd_sched w2)) = 2.
Proof. exists "n2". vm_compute. split_and!; reflexivity. Qed.

(** When Raft commits, [TriggerRepair] of a node removes it from the replica list of
    every chunk, keeping all other replicas of every chunk in order. *)
Theorem trigger_repair_evicts `{!Env, !MapRange, !Committing _} (src tgt : PlacementStrategy)
    (dead : string) (w : World) :
  reachable (wd_fsm w) →
  chunkRegistry (wd_fsm (TriggerRepair src tgt dead w).2) =
    drop_replica dead <$> chunkRegistry (wd_fsm w) ∧
  GetChunksByNode (wd_fsm (TriggerRepair src tgt dead w).2) dead = [].
Proof.
  intros Hr. destruct (reachable_inv _ Hr) as [Hinv _].
  rewrite TriggerRepair_evicts by done. split; [done|].
  assert (Hr' : reachable (wd_fsm (TriggerRepair src tgt dead w).2)).
  { eapply evolve_TriggerRepair. exact Hr. }
  destruct (GetChunksByNode_spec _ dead (proj1 (reachable_inv _ Hr'))) as [_ Hspec].
  apply elem_of_nil_inv. intros k Hk. apply Hspec in Hk as (c & Hc & Hin).
  rewrite TriggerRepair_evicts, lookup_fmap in Hc by done.
  apply fmap_Some in Hc as (c0 & _ & ->). simpl in Hin.
  by apply list_elem_of_filter in Hin as [? _].
Qed.

Lemma trigger_repair_evicts_witness :
  GetChunksByNode (wd_fsm (@TriggerRepair demo_Env _ MostFreeSpaceStrategy MostFreeSpaceStrategy "n1"
    (demo_world (NewRepairScheduler 2))).2) "n1" = [].
Proof.
  apply (@trigger_repair_evicts demo_Env _ _ MostFreeSpaceStrategy MostFreeSpaceStrategy "n1"
    (demo_world (NewRepairScheduler 2))). exact demo_reachable.
Defined.

(** The retry delay of any attempt count is between one second and one minute, is
    [2^attempt] seconds up to the fifth attempt, and never shrinks. *)
Theorem retry_delay_bounds (a b : Z) :
  (0 ≤ a ≤ b)%Z →
  (second ≤ retryDelay a ≤ 60 * second)%Z ∧ (retryDelay a ≤ retryDelay b)%Z ∧
  ((a ≤ 5)%Z → retryDelay a = (2 ^ a * second)%Z).
Proof.
  intros Hab.
  assert (Hcase : ∀ x, (0 ≤ x)%Z → (x ≤ 5 ∧ retryDelay x = 2 ^ x * second)%Z ∨
    (5 < x ∧ retryDelay x = 60 * second)%Z).
  { intros x Hx. destruct (decide (x ≤ 5)%Z) as [H5|H5]; [left|right].
    - split; [done|]. assert (x = 0 ∨ x = 1 ∨ x = 2 ∨ x = 3 ∨ x = 4 ∨ x = 5)%Z as Hc by lia.
      destruct_or! Hc; by subst.
    - split; [lia|]. unfold retryDelay. by rewrite Z.min_r by lia. }
  assert (Hpow : ∀ x, (0 ≤ x ≤ 5)%Z → (1 ≤ 2 ^ x ≤ 32)%Z).
  { intros x Hx. assert (x = 0 ∨ x = 1 ∨ x = 2 ∨ x = 3 ∨ x = 4 ∨ x = 5)%Z as Hc by lia.
    destruct_or! Hc; by subst. }
  assert (Hmono : (2 ^ a ≤ 2 ^ b)%Z) by (apply Z.pow_le_mono_r; lia).
  assert (Hs : second = 1000000000%Z) by done.
  pose proof (Hpow a). pose proof (Hpow b).
  destruct (Hcase a ltac:(lia)) as [[Ha ->]|[Ha ->]], (Hcase b ltac:(lia)) as [[Hb ->]|[Hb ->]];
    rewrite ?Hs; lia.
Qed.

Lemma retry_delay_bounds_witness : retryDelay 3 = (8 * second)%Z ∧ (retryDelay 3 ≤ retryDelay 9)%Z.
Proof.
  split; [exact (proj2 (proj2 (retry_delay_bounds 3 9 ltac:(lia))) ltac:(lia))|].
  apply (retry_delay_bounds 3 9). lia.
Defined.
