(* ===== verification/Watcher.v ===== *)
(** * The node watcher: metadata/watcher/node_watcher.go

    [sweep] is one tick of the loop of [Start].  The repair it triggers is the
    scheduler's [TriggerRepair]. *)

From S2P Require Import Prelude GoLib Json FsmTypes Fsm FsmCommands FsmInv FsmEquiv FsmSnapshot.
From S2P Require Import Placement World Scheduler.

Section watcher.
Context `{!Env, !MapRange} (src tgt : PlacementStrategy) (suspectTimeout : Duration).

(** [NodeWatcher.UpdateLastSeen] *)
Definition watcher_UpdateLastSeen (nodeID : string) (seenAt : Time) : M (option error) := λ w,
  let '(s, err) := UpdateLastSeen (wd_fsm w) nodeID seenAt in (err, set_fsm s w).

Definition buildMarkDeadCmd (nodeID : string) (now : Time) : MetadataCommand :=
  encode (MarkNodeDeadC (mkCommandMarkNodeDead nodeID now)).

(** An alive node that has been silent for longer than the timeout. *)
Definition stale (now : Time) (node : NodeEntry) : Prop :=
  ne_Status node = NodeStatusAlive ∧ ¬ (Sub now (ne_LastSeen node) ≤ suspectTimeout)%Z.

(** The body of the loop of [sweep]. *)
Definition sweep_node (now : Time) (node : NodeEntry) : M unit :=
  if decide (ne_Status node ≠ NodeStatusAlive) then mret tt
  else
    let elapsed := Sub now (ne_LastSeen node) in
    if decide (elapsed ≤ suspectTimeout)%Z then mret tt
    else
      err ← Propose (buildMarkDeadCmd (ne_NodeID node) now);
      match err with
      | Some _ => mret tt
      | None => TriggerRepair src tgt (ne_NodeID node)
      end.

Definition sweep : M unit :=
  if negb is_leader then mret tt
  else
    now ← Now;
    nodes ← gets (λ w, GetAllNodes (wd_fsm w));
    foreach nodes (sweep_node now).

(** ** Lemmas *)

#[global] Instance stale_dec now n : Decision (stale now n).
Proof. unfold stale. apply _. Defined.

Lemma evolve_watcher_UpdateLastSeen s0 n t : preserves (evolved s0) (watcher_UpdateLastSeen n t).
Proof.
  intros w Hw. unfold watcher_UpdateLastSeen, evolved in *.
  assert (Hs : fsm_step (wd_fsm w) (UpdateLastSeen (wd_fsm w) n t).1) by constructor.
  destruct (UpdateLastSeen _ _ _). by eapply rtc_r.
Qed.

Lemma evolve_sweep_node s0 now n : preserves (evolved s0) (sweep_node now n).
Proof. unfold sweep_node, buildMarkDeadCmd. preserve. Qed.

Lemma evolve_sweep s0 : preserves (evolved s0) sweep.
Proof. unfold sweep, sweep_node, buildMarkDeadCmd. preserve. Qed.

Lemma ok_watcher_UpdateLastSeen n t : preserves (sched_inv sched_ok) (watcher_UpdateLastSeen n t).
Proof. intros w Hw. unfold watcher_UpdateLastSeen. by destruct (UpdateLastSeen _ _ _). Qed.

Lemma ok_sweep : preserves (sched_inv sched_ok) sweep.
Proof. unfold sweep, sweep_node. preserve. Qed.

(** Repair changes no node entry. *)
Lemma nodes_TriggerRepair m n :
  preserves (λ w, nodeRegistry (wd_fsm w) = m) (TriggerRepair src tgt n).
Proof.
  assert (HP : ∀ c, match c with CreateRepairJobC _ | EvictChunkFromNodeC _ => True | _ => False end →
    preserves (λ w, nodeRegistry (wd_fsm w) = m) (Propose (encode c))).
  { intros c Hc w Hw. unfold Propose. rewrite Apply_encode by (by destruct c).
    destruct c; try done; cbn [exec];
      unfold handleCmdCreateRepairJob, handleCmdEvictChunkFromNode, upsert;
      repeat case_match; by simplify_eq/=. }
  assert (HT : ∀ j, preserves (λ w, nodeRegistry (wd_fsm w) = m) (try_enqueue j)).
  { intros j. apply preserves_modify. intros w Hw. cbv beta zeta. by case_decide. }
  assert (HN : preserves (λ w, nodeRegistry (wd_fsm w) = m) Now) by by intros w.
  assert (HU : preserves (λ w, nodeRegistry (wd_fsm w) = m) NewUUID) by by intros w.
  unfold TriggerRepair, trigger_chunk, proposeEvictChunk, scheduleRepairJobs, schedule_target,
    schedule_delete.
  preserve; auto; by apply HP.
Qed.

Lemma exec_mark_dead s k n now :
  nodeRegistry s !! k = Some n →
  exec s (MarkNodeDeadC (mkCommandMarkNodeDead k now)) =
    (set_nodeRegistry s (<[k := set_node_status n NodeStatusDead now]> (nodeRegistry s)), None).
Proof. intros Hn. cbn [exec]. unfold handleCmdMarkNodeDead, GetNode; simpl. by rewrite Hn. Qed.

(** A stale node is marked dead and dropped from every replica list. *)
Lemma sweep_node_stale `{!Committing _} now w k n :
  fsm_inv (wd_fsm w) → nodeRegistry (wd_fsm w) !! k = Some n → stale now n →
  let w' := (sweep_node now n w).2 in
  nodeRegistry (wd_fsm w') =
    <[k := set_node_status n NodeStatusDead now]> (nodeRegistry (wd_fsm w)) ∧
  chunkRegistry (wd_fsm w') = drop_replica k <$> chunkRegistry (wd_fsm w).
Proof.
  intros Hinv Hn [Hst Hel]. pose proof (inv_node_key _ Hinv _ _ Hn) as Hk.
  unfold sweep_node. rewrite decide_False, decide_False by auto. cbv zeta.
  unfold mbind, M_bind, buildMarkDeadCmd. rewrite Propose_committed, Hk by done.
  rewrite (exec_mark_dead _ k n) by done. cbn [fst snd]. split.
  - by apply (nodes_TriggerRepair (<[k := set_node_status n NodeStatusDead now]> (nodeRegistry (wd_fsm w)))).
  - rewrite (TriggerRepair_evicts src tgt k); [done|]. by eapply inv_modify_node.
Qed.

Lemma sweep_node_fresh now w n : ¬ stale now n → (sweep_node now n w).2 = w.
Proof.
  intros Hst. unfold sweep_node, stale in *. case_decide as H1; [done|].
  cbv zeta. case_decide as H2; [done|]. destruct Hst. by split.
Qed.
End watcher.

#[export] Hint Resolve evolve_watcher_UpdateLastSeen evolve_sweep ok_watcher_UpdateLastSeen
  ok_sweep : dfs.

(** ** A whole sweep *)

(** What a sweep at [now] makes of a node entry. *)
Definition swept (suspectTimeout : Duration) (now : Time) (n : NodeEntry) : NodeEntry :=
  if decide (stale suspectTimeout now n) then set_node_status n NodeStatusDead now else n.

(** What a sweep makes of a chunk: the stale nodes are gone from its replicas. *)
Definition drop_replicas (gone : list string) (c : ChunkRecord) : ChunkRecord :=
  set_Replicas c (filter (λ x, x ∉ gone) (cr_Replicas c)).

Lemma drop_replicas_nil c : drop_replicas [] c = c.
Proof.
  unfold drop_replicas. replace (filter _ (cr_Replicas c)) with (cr_Replicas c); [by destruct c|].
  induction (cr_Replicas c) as [|x l IH]; [done|]. rewrite filter_cons_True by set_solver. by f_equal.
Qed.

Lemma drop_replicas_snoc gone k c :
  drop_replica k (drop_replicas gone c) = drop_replicas (gone ++ [k]) c.
Proof.
  unfold drop_replica, drop_replicas; simpl. f_equal. rewrite list_filter_filter.
  apply list_filter_iff. set_solver.
Qed.

Section sweep_spec.
Context `{!Env, !MapRange, !Committing _} (src tgt : PlacementStrategy) (timeout : Duration).

(** The IDs of the stale nodes among those visited. *)
Definition stale_ids (now : Time) (visited : list NodeEntry) : list string :=
  ne_NodeID <$> filter (stale timeout now) visited.

Lemma sweep_loop now w0 nodes :
  reachable (wd_fsm w0) → NoDup (ne_NodeID <$> nodes) →
  (∀ n, n ∈ nodes → nodeRegistry (wd_fsm w0) !! ne_NodeID n = Some n) →
  let w := (foreach nodes (sweep_node src tgt timeout now) w0).2 in
  (∀ k, nodeRegistry (wd_fsm w) !! k =
     (λ n, if decide (k ∈ ne_NodeID <$> nodes) then swept timeout now n else n) <$>
       nodeRegistry (wd_fsm w0) !! k) ∧
  chunkRegistry (wd_fsm w) = drop_replicas (stale_ids now nodes) <$> chunkRegistry (wd_fsm w0).
Proof.
  intros Hr Hnd Hnodes.
  pose proof (hoare_foreach nodes (sweep_node src tgt timeout now) (λ pre w,
    reachable (wd_fsm w) ∧
    (∀ k, nodeRegistry (wd_fsm w) !! k =
      (λ n, if decide (k ∈ ne_NodeID <$> pre) then swept timeout now n else n) <$>
        nodeRegistry (wd_fsm w0) !! k) ∧
    chunkRegistry (wd_fsm w) = drop_replicas (stale_ids now pre) <$> chunkRegistry (wd_fsm w0)))
    as Hloop.
  apply Hloop; clear Hloop.
  - intros pre x suf Hl w (Hrw & Hn & Hc).
    assert (Hx : nodeRegistry (wd_fsm w0) !! ne_NodeID x = Some x) by (apply Hnodes; rewrite Hl; set_solver).
    assert (Hpre : ne_NodeID x ∉ ne_NodeID <$> pre).
    { rewrite Hl, fmap_app in Hnd. apply NoDup_app in Hnd as (_ & Hdis & _). intros Hin.
      apply (Hdis _ Hin). csimpl. set_solver. }
    assert (Hxw : nodeRegistry (wd_fsm w) !! ne_NodeID x = Some x).
    { rewrite Hn, Hx. simpl. by rewrite decide_False. }
    split.
    { by eapply (evolve_sweep_node src tgt timeout NewEmptyMetadataFsm). }
    unfold stale_ids. rewrite filter_app, !fmap_app. destruct (decide (stale timeout now x)) as [Hst|Hst].
    + destruct (sweep_node_stale src tgt timeout now w (ne_NodeID x) x) as [Hn' Hc'];
        [by apply reachable_inv|done|done|]. rewrite Hn', Hc', Hc. split.
      * intros k. destruct (decide (ne_NodeID x = k)) as [<-|Hne].
        { rewrite lookup_insert_eq, Hx. simpl. rewrite decide_True by set_solver.
          unfold swept. by rewrite decide_True. }
        rewrite lookup_insert_ne, Hn by done. destruct (nodeRegistry (wd_fsm w0) !! k); [|done]; simpl.
        f_equal. repeat case_decide; set_solver.
      * rewrite filter_cons_True by done. csimpl. rewrite <-map_fmap_compose.
        apply map_fmap_ext. intros k c _. simpl. apply drop_replicas_snoc.
    + rewrite sweep_node_fresh by done. rewrite filter_cons_False by done. csimpl. rewrite app_nil_r.
      split; [|done]. intros k. rewrite Hn. destruct (nodeRegistry (wd_fsm w0) !! k) as [n|] eqn:Hk; [|done].
      simpl. f_equal. csimpl. destruct (decide (k = ne_NodeID x)) as [->|Hne].
      * rewrite decide_False by done. rewrite decide_True by set_solver. simplify_eq.
        unfold swept. by rewrite decide_False.
      * repeat case_decide; set_solver.
  - split_and!; [done| |].
    + intros k. destruct (nodeRegistry (wd_fsm w0) !! k); done.
    + rewrite <-(map_fmap_id (chunkRegistry (wd_fsm w0))) at 1. apply map_fmap_ext.
      intros k c _. unfold stale_ids. simpl. by rewrite drop_replicas_nil.
Qed.
End sweep_spec.

(** ** Properties *)

Lemma GetAllNodes_spec `{!MapRange} s :
  fsm_inv s →
  NoDup (ne_NodeID <$> GetAllNodes s) ∧
  (∀ n, n ∈ GetAllNodes s ↔ nodeRegistry s !! ne_NodeID n = Some n).
Proof.
  intros Hinv. unfold GetAllNodes. split.
  - replace (ne_NodeID <$> range_values (nodeRegistry s)) with ((map_range (nodeRegistry s)).*1);
      [apply NoDup_fst_map_range|].
    unfold range_values. rewrite <-list_fmap_compose. apply list_fmap_ext.
    intros i [k n] Hi. simpl. symmetry. apply (inv_node_key _ Hinv).
    apply elem_of_map_range. by eapply list_elem_of_lookup_2.
  - intros n. rewrite elem_of_range_values. split; [|eauto].
    intros [k Hk]. by rewrite (inv_node_key _ Hinv _ _ Hk).
Qed.

Lemma sweep_effect `{!Env, !MapRange, !Committing _} src tgt timeout w :
  reachable (wd_fsm w) → is_leader = true →
  let now := clock (wd_ticks w) in
  let w' := (sweep src tgt timeout w).2 in
  nodeRegistry (wd_fsm w') = swept timeout now <$> nodeRegistry (wd_fsm w) ∧
  chunkRegistry (wd_fsm w') =
    drop_replicas (stale_ids timeout now (GetAllNodes (wd_fsm w))) <$> chunkRegistry (wd_fsm w).
Proof.
  intros Hr Hl now w'. subst w'. unfold sweep. rewrite Hl. cbn [negb].
  unfold gets, mbind, M_bind, Now. fold now.
  destruct (GetAllNodes_spec (wd_fsm w)) as [Hnd Hspec]; [by apply reachable_inv|].
  destruct (sweep_loop src tgt timeout now (next_tick w) (GetAllNodes (wd_fsm w))) as [Hn Hc];
    [done|done|intros n; apply Hspec|].
  split; [|exact Hc]. apply map_eq. intros k. rewrite lookup_fmap. etransitivity; [apply Hn|].
  change (wd_fsm (next_tick w)) with (wd_fsm w).
  destruct (nodeRegistry (wd_fsm w) !! k) as [n|] eqn:Hk; [|done]. simpl. f_equal.
  rewrite decide_True; [done|]. apply list_elem_of_fmap. exists n.
  assert (Hid : ne_NodeID n = k) by (eapply inv_node_key; [by apply reachable_inv|done]).
  split; [done|]. apply Hspec. by rewrite Hid.
Qed.



(** [LastSeen] is lost in a snapshot, so the first sweep of a leader that restored one,
    before any heartbeat reaches it, declares every alive node dead and empties the
    replica lists of them, however recently the nodes were heard of. *)
Theorem restored_leader_kills_alive_nodes `{!Env, !MapRange, !Committing _}
    (src tgt : PlacementStrategy) (timeout : Duration) (s s0 : MetadataFSM) (data : doc) (w : World) :
  reachable s → Persist (Snapshot s) CopyFull None = (SinkClosed data, None) →
  wd_fsm w = (Restore s0 (Ok data)).1 → is_leader = true →
  (timeout < two63 - 1)%Z → (two63 ≤ clock (wd_ticks w))%Z →
  let w' := (sweep src tgt timeout w).2 in
  ∀ k n, nodeRegistry s !! k = Some n → ne_Status n = NodeStatusAlive →
    ne_Status <$> nodeRegistry (wd_fsm w') !! k = Some NodeStatusDead ∧
    ∀ cid c, chunkRegistry (wd_fsm w') !! cid = Some c → k ∉ cr_Replicas c.
Proof.
  intros Hr Hp Hw Hl Hto Hclk w' k n Hk Hst.
  assert (Hrw : reachable (wd_fsm w)).
  { rewrite Hw. eapply rtc_r; [exact Hr|]. by apply step_restart. }
  destruct (sweep_effect src tgt timeout w Hrw Hl) as [Hn Hc]. fold w' in Hn, Hc.
  destruct (snapshot_restore s s0) as (data' & Hp' & Hr'); [by apply reachable_inv|].
  rewrite Hp in Hp'. simplify_eq. rewrite Hr' in Hw. simpl in Hw.
  assert (Hwk : nodeRegistry (wd_fsm w) !! k = Some (forget_LastSeen n)).
  { rewrite Hw. simpl. by rewrite lookup_fmap, Hk. }
  assert (Hstale : stale timeout (clock (wd_ticks w)) (forget_LastSeen n)).
  { split; [done|]. simpl. unfold Sub, zero_time, two63 in *. lia. }
  rewrite Hn, Hc, lookup_fmap, Hwk. simpl. unfold swept. rewrite decide_True by done. split; [done|].
  intros cid c. rewrite lookup_fmap. intros (c0 & _ & ->)%fmap_Some. simpl.
  intros [Hni _]%list_elem_of_filter. apply Hni. unfold stale_ids. apply list_elem_of_fmap.
  destruct (GetAllNodes_spec (wd_fsm w)) as [_ Hspec]; [by apply reachable_inv|].
  assert (Hid : ne_NodeID (forget_LastSeen n) = k) by (eapply inv_node_key; [by apply reachable_inv|done]).
  exists (forget_LastSeen n). split; [done|]. apply list_elem_of_filter. split; [done|].
  apply Hspec. by rewrite Hid.
Qed.

(** The environment of the witnesses in the year 2025. *)
Definition w_late_Env : Env := {|
  raft_apply _ := RaftCommitted;
  clock n := (63870000000 * second + Z.of_nat n)%Z;
  new_uuid n := "uuid-" +:+ pretty n;
  is_leader := true;
  leader_addr := "m1:7000";
  ctx_done _ := false;
  delete_rpc _ _ := None;
|}.

#[global] Instance w_late_Committing : Committing w_late_Env.
Proof. done. Qed.

Definition w_restored : World :=
  mkWorld (Restore NewEmptyMetadataFsm (Ok (Some (enc_Snapshot (Snapshot demo_fsm))))).1
    (NewRepairScheduler 2) ∅ ∅ [] 0 0 0.

Lemma restored_leader_kills_alive_nodes_witness :
  ne_Status <$> nodeRegistry (wd_fsm (@sweep w_late_Env _ MostFreeSpaceStrategy MostFreeSpaceStrategy
    (30 * second)%Z w_restored).2) !! "n1" = Some NodeStatusDead.
Proof.
  apply (@restored_leader_kills_alive_nodes w_late_Env _ _ MostFreeSpaceStrategy MostFreeSpaceStrategy
    (30 * second)%Z demo_fsm NewEmptyMetadataFsm (Some (enc_Snapshot (Snapshot demo_fsm))) w_restored
    demo_reachable eq_refl eq_refl eq_refl ltac:(vm_compute; reflexivity)
    ltac:(vm_compute; discriminate) "n1"
    (mkNodeEntry "n1" "h1:9000" NodeStatusAlive 500 0 10%Z 10%Z 10%Z));
    vm_compute; reflexivity.
Defined.
