(* ===== verification/Reconcile.v ===== *)
(** * The reconciler: metadata/reconcile/reconciler.go

    [wd_timers] holds, per node, the inventory the pending timer will reconcile;
    [fire_timer] is the function the timer runs.  The RPCs to storage nodes are
    recorded in [wd_deletes]; their outcome is the environment's. *)

From S2P Require Import Prelude GoLib Json FsmTypes Fsm FsmCommands FsmInv FsmEquiv FsmSnapshot.
From S2P Require Import Placement World Scheduler.

(** [NewReconciler]: the replication factor, or an error. *)
Definition NewReconciler (rf : Z) : res Z :=
  if decide (rf ≤ 0)%Z then Err (ErrNew "NewReconciler: replication factor invalid") else Ok rf.

(** ** The thin storage client *)

(** What [stream.Recv] returns. *)
Inductive recv_delete :=
| RecvEOF
| RecvErr (e : error)
| RecvResponse (error_field : string) (success : bool).

(** The receive loop of [ThinStorageClient.DeleteChunk], on the messages of one stream. *)
Fixpoint delete_loop (stream : list recv_delete) : option error :=
  match stream with
  | [] => None
  | RecvEOF :: _ => None
  | RecvErr e :: _ => Some e
  | RecvResponse err success :: rest =>
      if decide (err ≠ "") then Some (ErrNew err)
      else if negb success then Some (ErrNew "storage node reported delete failure")
      else delete_loop rest
  end.

(** [ThinStorageClient.DeleteChunk]; the dial and the call may fail first. *)
Definition thin_DeleteChunk (dial call : option error) (stream : list recv_delete) : option error :=
  match dial, call with
  | Some e, _ => Some e
  | None, Some e => Some e
  | None, None => delete_loop stream
  end.

Section reconciler.
Context `{!Env, !MapRange} (src tgt : PlacementStrategy) (rf : Z).

(** ** Timers *)

Definition Schedule (nodeID : string) (reportedChunks : list string) : M unit :=
  modify (λ w, set_timers (<[nodeID := reportedChunks]> (wd_timers w)) w).

Definition Cancel (nodeID : string) : M unit :=
  modify (λ w, set_timers (delete nodeID (wd_timers w)) w).

(** ** Reconciliation *)

Definition reconcile_proposeEvictChunk (chunkID nodeID reason : string) : M (option error) :=
  t ← Now;
  Propose (encode (EvictChunkFromNodeC (mkCommandEvictChunkFromNode chunkID nodeID t reason))).

(** [storageClient.DeleteChunk] *)
Definition DeleteChunkRPC (addr chunkID : string) : M (option error) :=
  modify (add_delete (addr, chunkID));;
  mret (delete_rpc addr chunkID).

Definition evictStaleReplica (nodeID nodeAddr chunkID : string) : M unit :=
  _ ← reconcile_proposeEvictChunk chunkID nodeID "stale replica during reconciliation";
  _ ← DeleteChunkRPC nodeAddr chunkID;
  mret tt.

Definition handleMissingReplica (nodeID chunkID : string) : M unit :=
  err ← reconcile_proposeEvictChunk chunkID nodeID "missing replica during reconciliation";
  match err with
  | Some _ => mret tt
  | None =>
      live ← gets (λ w, GetChunkLocations (wd_fsm w) chunkID);
      match live with
      | Err _ => mret tt
      | Ok liveReplicas =>
          let currentLiveCount := Z.of_nat (length liveReplicas) in
          let expectedLiveCount :=
            if decide (nodeID ∈ ne_NodeID <$> liveReplicas) then (currentLiveCount - 1)%Z
            else currentLiveCount in
          if decide (expectedLiveCount < rf)%Z then ScheduleRepairForChunk src tgt chunkID
          else mret tt
      end
  end.

Definition ReconcileNode (nodeID : string) (reportedChunks : list string) : M unit :=
  node ← gets (λ w, GetNode (wd_fsm w) nodeID);
  match node with
  | Err _ => mret tt
  | Ok node =>
      expectedChunks ← gets (λ w, GetChunksByNode (wd_fsm w) nodeID);
      let reportedSet : gset string := list_to_set reportedChunks in
      let expectedSet : gset string := list_to_set expectedChunks in
      foreach reportedChunks (λ cid,
        if decide (cid ∈ expectedSet) then mret tt
        else evictStaleReplica nodeID (ne_Address node) cid);;
      foreach expectedChunks (λ cid,
        if decide (cid ∈ reportedSet) then mret tt
        else handleMissingReplica nodeID cid)
  end.

(** The function of the timer that [Schedule] starts. *)
Definition fire_timer (nodeID : string) : M unit :=
  reported ← gets (λ w, wd_timers w !! nodeID);
  match reported with
  | None => mret tt
  | Some reported => ReconcileNode nodeID reported;; Cancel nodeID
  end.

(** ** Invariants *)

Lemma evolve_Schedule s0 n l : preserves (evolved s0) (Schedule n l).
Proof. by apply evolve_modify. Qed.
Lemma evolve_Cancel s0 n : preserves (evolved s0) (Cancel n).
Proof. by apply evolve_modify. Qed.
Lemma evolve_DeleteChunkRPC s0 a c : preserves (evolved s0) (DeleteChunkRPC a c).
Proof. unfold DeleteChunkRPC. preserve. Qed.
Lemma ok_Schedule n l : preserves (sched_inv sched_ok) (Schedule n l).
Proof. by apply preserves_modify. Qed.
Lemma ok_Cancel n : preserves (sched_inv sched_ok) (Cancel n).
Proof. by apply preserves_modify. Qed.
Lemma ok_DeleteChunkRPC a c : preserves (sched_inv sched_ok) (DeleteChunkRPC a c).
Proof. unfold DeleteChunkRPC. preserve. by apply preserves_modify. Qed.

#[local] Hint Resolve evolve_DeleteChunkRPC ok_DeleteChunkRPC evolve_Cancel ok_Cancel : dfs.

Lemma evolve_ReconcileNode s0 n l : preserves (evolved s0) (ReconcileNode n l).
Proof.
  unfold ReconcileNode, evictStaleReplica, handleMissingReplica, reconcile_proposeEvictChunk. preserve.
Qed.
Lemma ok_ReconcileNode n l : preserves (sched_inv sched_ok) (ReconcileNode n l).
Proof.
  unfold ReconcileNode, evictStaleReplica, handleMissingReplica, reconcile_proposeEvictChunk. preserve.
Qed.

#[local] Hint Resolve evolve_ReconcileNode ok_ReconcileNode : dfs.

Lemma evolve_fire_timer s0 n : preserves (evolved s0) (fire_timer n).
Proof. unfold fire_timer. preserve. Qed.
Lemma ok_fire_timer n : preserves (sched_inv sched_ok) (fire_timer n).
Proof. unfold fire_timer. preserve. Qed.
End reconciler.

#[export] Hint Resolve evolve_Schedule ok_Schedule evolve_fire_timer ok_fire_timer : dfs.

(** ** The effect of a reconciliation *)

Section reconcile_spec.
Context `{!Env, !MapRange, !Committing _} (src tgt : PlacementStrategy) (rf : Z).

(** A stale replica is not in the FSM, so only the RPC has an effect. *)
Lemma evictStaleReplica_spec nodeID addr cid w :
  (∀ c, chunkRegistry (wd_fsm w) !! cid = Some c → nodeID ∉ cr_Replicas c) →
  let w' := (evictStaleReplica nodeID addr cid w).2 in
  wd_fsm w' = wd_fsm w ∧ wd_deletes w' = wd_deletes w ++ [(addr, cid)].
Proof.
  intros Hno. unfold evictStaleReplica, reconcile_proposeEvictChunk, DeleteChunkRPC.
  unfold mbind, M_bind, Now. rewrite Propose_committed by done. cbn [exec wd_fsm next_tick].
  assert (Hsame : ∀ t r, (handleCmdEvictChunkFromNode (wd_fsm w)
    (mkCommandEvictChunkFromNode cid nodeID t r)).1 = wd_fsm w).
  { intros t r. unfold handleCmdEvictChunkFromNode, GetChunk; simpl.
    destruct (chunkRegistry (wd_fsm w) !! cid) as [c|]; [|done].
    by rewrite (proj2 (getIndex_None nodeID (cr_Replicas c))) by eauto. }
  simpl. by rewrite Hsame.
Qed.

Lemma missing_chunks nodeID cid c w :
  NoDup (cr_Replicas c) → chunkRegistry (wd_fsm w) !! cid = Some c → nodeID ∈ cr_Replicas c →
  let w' := (handleMissingReplica src tgt rf nodeID cid w).2 in
  chunkRegistry (wd_fsm w') = <[cid := drop_replica nodeID c]> (chunkRegistry (wd_fsm w)).
Proof.
  intros Hnd Hc Hin. unfold handleMissingReplica, reconcile_proposeEvictChunk.
  unfold mbind at 1, M_bind at 1. unfold mbind at 1, M_bind at 1. unfold Now.
  rewrite Propose_committed by done. cbn [exec wd_fsm next_tick].
  rewrite (exec_evict _ cid nodeID _ _ c) by done. cbn [fst snd].
  match goal with |- context [set_fsm ?s ?w'] => set (w1 := set_fsm s w') end.
  set (m := <[cid := drop_replica nodeID c]> (chunkRegistry (wd_fsm w))).
  assert (Hw1 : chunkRegistry (wd_fsm w1) = m) by done. clearbody w1. clear Hc.
  unfold ScheduleRepairForChunk, gets, mbind, M_bind.
  repeat case_match; try done; by apply (chunks_scheduleRepairJobs src tgt m).
Qed.

(** The deletes of the handling of a missing replica: none. *)
Lemma deletes_handleMissing d nodeID cid :
  preserves (λ w, wd_deletes w = d) (handleMissingReplica src tgt rf nodeID cid).
Proof.
  assert (HP : ∀ c, preserves (λ w, wd_deletes w = d) (Propose c)).
  { intros c w Hw. unfold Propose. destruct (raft_apply _); [destruct (Apply _ _)|..]; done. }
  assert (HT : ∀ j, preserves (λ w, wd_deletes w = d) (try_enqueue j)).
  { intros j. apply preserves_modify. intros w Hw. cbv beta zeta. by case_decide. }
  assert (HN : preserves (λ w, wd_deletes w = d) Now) by by intros w.
  assert (HU : preserves (λ w, wd_deletes w = d) NewUUID) by by intros w.
  unfold handleMissingReplica, reconcile_proposeEvictChunk, ScheduleRepairForChunk, scheduleRepairJobs,
    schedule_target, schedule_delete. preserve; auto.
Qed.

Lemma stale_loop nodeID addr (expected : gset string) reported w0 :
  (∀ cid c, cid ∉ expected → chunkRegistry (wd_fsm w0) !! cid = Some c → nodeID ∉ cr_Replicas c) →
  let w := (foreach reported (λ cid,
    if decide (cid ∈ expected) then mret tt else evictStaleReplica nodeID addr cid) w0).2 in
  wd_fsm w = wd_fsm w0 ∧
  wd_deletes w = wd_deletes w0 ++ (pair addr <$> filter (λ cid, cid ∉ expected) reported).
Proof.
  intros Hno. apply (hoare_foreach reported _ (λ pre w, wd_fsm w = wd_fsm w0 ∧
    wd_deletes w = wd_deletes w0 ++ (pair addr <$> filter (λ cid, cid ∉ expected) pre))).
  - intros pre x suf _ w [Hf Hd]. rewrite filter_app, fmap_app, app_assoc, <-Hd. case_decide as Hx.
    + rewrite filter_cons_False by auto. simpl. by rewrite app_nil_r.
    + rewrite filter_cons_True by done.
      destruct (evictStaleReplica_spec nodeID addr x w) as [Hf' Hd']; [rewrite Hf; eauto|].
      by rewrite Hf', Hf, Hd'.
  - split; [done|]. by rewrite app_nil_r.
Qed.

Lemma missing_loop nodeID (reported : gset string) w0 :
  fsm_inv (wd_fsm w0) →
  let w := (foreach (GetChunksByNode (wd_fsm w0) nodeID) (λ cid,
    if decide (cid ∈ reported) then mret tt else handleMissingReplica src tgt rf nodeID cid) w0).2 in
  (∀ k, chunkRegistry (wd_fsm w) !! k =
     (λ c, if decide (k ∈ reported) then c else drop_replica nodeID c) <$>
       chunkRegistry (wd_fsm w0) !! k) ∧
  wd_deletes w = wd_deletes w0.
Proof.
  intros Hinv. destruct (GetChunksByNode_spec (wd_fsm w0) nodeID Hinv) as [Hnd Hspec].
  set (l := GetChunksByNode (wd_fsm w0) nodeID) in *. cbv zeta.
  pose proof (hoare_foreach l (λ cid, if decide (cid ∈ reported) then mret tt
      else handleMissingReplica src tgt rf nodeID cid) (λ pre w, (∀ k, chunkRegistry (wd_fsm w) !! k =
     (λ c, if decide (k ∈ pre ∧ k ∉ reported) then drop_replica nodeID c else c) <$>
       chunkRegistry (wd_fsm w0) !! k) ∧ wd_deletes w = wd_deletes w0)) as Hloop.
  destruct (Hloop) with (w := w0) as [Hc Hd].
  - intros pre x suf Hl w [Hc Hd].
    assert (Hx : x ∈ l) by (rewrite Hl; set_solver). apply Hspec in Hx as (c & Hx & Hin).
    assert (Hpre : x ∉ pre).
    { rewrite Hl in Hnd. apply NoDup_app in Hnd as (_ & Hdis & _). intros Hx'. apply (Hdis x Hx'). set_solver. }
    case_decide as Hrep.
    { split; [|done]. intros k. rewrite Hc. destruct (chunkRegistry (wd_fsm w0) !! k); [|done]; simpl.
      f_equal. repeat case_decide; set_solver. }
    split; [|by apply deletes_handleMissing]. intros k.
    rewrite (missing_chunks nodeID x c); [|by eapply inv_replicas| |done].
    2:{ rewrite Hc, Hx. simpl. rewrite decide_False by set_solver. done. }
    destruct (decide (x = k)) as [<-|Hne].
    + rewrite lookup_insert_eq, Hx. simpl. rewrite decide_True by set_solver. done.
    + rewrite lookup_insert_ne, Hc by done. destruct (chunkRegistry (wd_fsm w0) !! k); [|done]. simpl.
      f_equal. repeat case_decide; set_solver.
  - split; [|done]. intros k. by destruct (chunkRegistry (wd_fsm w0) !! k).
  - split; [|done]. intros k. rewrite Hc. destruct (chunkRegistry (wd_fsm w0) !! k) as [c|] eqn:Hk; [|done].
    simpl. f_equal. destruct (decide (k ∈ reported)); [rewrite decide_False by tauto; done|].
    case_decide as Hkl; [done|]. rewrite drop_replica_absent; [done|].
    intros Hin. apply Hkl. split; [|done]. apply Hspec. eauto.
Qed.
End reconcile_spec.

(** ** Properties *)

(** C29. Reconciling a registered node against its inventory, with every proposal committed,
    makes the FSM list the node exactly for the chunks that it listed before and that
    the node reported, leaves every other replica alone, and asks the node to delete
    exactly the reported chunks the FSM did not list for it, in report order. *)
Theorem reconcile_node_spec `{!Env, !MapRange, !Committing _} (src tgt : PlacementStrategy) (rf : Z)
    (nodeID : string) (reported : list string) (n : NodeEntry) (w : World) :
  reachable (wd_fsm w) → nodeRegistry (wd_fsm w) !! nodeID = Some n →
  let w' := (ReconcileNode src tgt rf nodeID reported w).2 in
  (∀ cid, chunkRegistry (wd_fsm w') !! cid =
     (λ c, if decide (cid ∈ reported) then c else drop_replica nodeID c) <$>
       chunkRegistry (wd_fsm w) !! cid) ∧
  wd_deletes w' = wd_deletes w ++
    (pair (ne_Address n) <$> filter (λ cid, cid ∉ GetChunksByNode (wd_fsm w) nodeID) reported).
Proof.
  intros Hr Hn w'. subst w'. destruct (reachable_inv _ Hr) as [Hinv _].
  unfold ReconcileNode, gets, GetNode. unfold mbind, M_bind. rewrite Hn.
  destruct (GetChunksByNode_spec (wd_fsm w) nodeID Hinv) as [_ Hspec].
  pose proof (stale_loop nodeID (ne_Address n) (list_to_set (GetChunksByNode (wd_fsm w) nodeID))
    reported w) as Hstale.
  destruct (foreach reported _ w) as [u w1]. destruct Hstale as [Hf1 Hd1].
  { intros cid c Hni Hc Hin. apply Hni, elem_of_list_to_set, Hspec. eauto. }
  simpl in Hf1, Hd1. rewrite <-Hf1 in Hinv |- *.
  destruct (missing_loop src tgt rf nodeID (list_to_set reported) w1 Hinv) as [Hc2 Hd2].
  split.
  - intros cid. rewrite Hc2. destruct (chunkRegistry (wd_fsm w1) !! cid); [|done]; simpl. f_equal.
    destruct (decide (cid ∈ reported)); [rewrite decide_True by set_solver|rewrite decide_False by set_solver];
      done.
  - rewrite Hd2, Hd1. do 2 f_equal. rewrite Hf1. apply list_filter_iff. intros cid. by rewrite elem_of_list_to_set.
Qed.

Lemma reconcile_node_spec_witness :
  wd_deletes (@ReconcileNode demo_Env _ MostFreeSpaceStrategy MostFreeSpaceStrategy 2 "n1" ["c9"]
    (demo_world (NewRepairScheduler 2))).2 = [("h1:9000", "c9")].
Proof.
  rewrite (proj2 (@reconcile_node_spec demo_Env _ _ MostFreeSpaceStrategy MostFreeSpaceStrategy 2 "n1"
    ["c9"] (mkNodeEntry "n1" "h1:9000" NodeStatusAlive 500 0 10%Z 10%Z 10%Z)
    (demo_world (NewRepairScheduler 2)) demo_reachable ltac:(vm_compute; reflexivity))).
  vm_compute. reflexivity.
Defined.
