(* ===== verification/MetaServer.v ===== *)
(** * The metadata gRPC service: metadata/server/*.go

    Each handler is a computation in the monad of [World] that answers with a value or
    a status error.  The generated message types are records with the fields the
    handlers read and write.  [reply] adds the [x-leader-grpc-addr] trailer that
    [leaderRedirect] sets. *)

From S2P Require Import Prelude GoLib Json FsmTypes Fsm FsmCommands FsmInv FsmEquiv FsmSnapshot.
From S2P Require Import Placement World Scheduler Watcher Reconcile.

(** ** Messages *)

Record NodeInfo := mkNodeInfo { ni_NodeId : string; ni_Address : string; ni_FreeSpace : Z }.
Record ChunkPlacement := mkChunkPlacement {
  cp_ChunkId : string; cp_Primary : NodeInfo; cp_Replicas : list NodeInfo }.
Record ChunkInfo := mkChunkInfo {
  ci_ChunkId : string; ci_FileId : string; ci_ChunkIndex : Z; ci_Size : Z; ci_Checksum : bytes;
  ci_Replicas : list string; ci_Status : string }.
Record FileInfo := mkFileInfo {
  fi_FileId : string; fi_FileName : string; fi_FileSize : Z; fi_ChunkSize : Z;
  fi_ChunkIds : list string; fi_Status : string; fi_CreatedAt : Z; fi_UpdatedAt : Z }.
Record RepairInstruction := mkRepairInstruction {
  ri_JobId : string; ri_ChunkId : string; ri_SourceNodeId : string; ri_SourceAddr : string;
  ri_TargetNodeId : string; ri_TargetAddr : string; ri_DeleteSource : bool }.

Inductive request :=
| RegisterNodeReq (nodeId address : string) (freeSpace : Z) (chunkIds : list string)
| DeregisterNodeReq (nodeId : string)
| HeartbeatReq (nodeId : string) (freeSpace chunkCount : Z)
| CreateFileReq (fileId fileName : string) (fileSize chunkSize : Z) (chunkIds : list string)
| GetFileReq (fileId : string)
| DeleteFileReq (fileId : string)
| ListFilesReq (pre : string)
| CommitFileReq (fileId : string) (fileSize : Z) (checksum : bytes)
| CommitChunkReq (chunkId : string) (confirmedNodes : list string) (checksum : bytes)
| GetChunkLocationsReq (chunkId : string)
| ReportCorruptionReq (chunkId reporterId : string)
| ReportRepairResultReq (nodeId jobId : string) (jobSucceed : bool) (error_field : string).

Inductive response :=
| RegisterNodeResp (nodeId : string)
| HeartbeatResp (repairJobs : list RepairInstruction)
| CreateFileResp (fileId : string) (placements : list ChunkPlacement)
| GetFileResp (file : FileInfo) (chunks : list ChunkInfo)
| ListFilesResp (files : list FileInfo)
| GetChunkLocationsResp (nodes : list NodeInfo)
| SuccessResp.

Record reply := mkReply { rp_result : res response; rp_trailer : option string }.

Definition status (c : code) (msg : string) : error := ErrStatus c msg.

(** ** Conversions *)

Definition node_info (n : NodeEntry) : NodeInfo :=
  mkNodeInfo (ne_NodeID n) (ne_Address n) (to_int64 (ne_FreeSpace n)).

Definition file_info (f : FileRecord) : FileInfo :=
  mkFileInfo (fr_FileID f) (fr_Filename f) (to_int64 (fr_FileSize f)) (to_int64 (fr_ChunkSize f))
    (fr_ChunkIDs f) (fr_Status f) (Unix (fr_CreatedAt f)) (Unix (fr_UpdatedAt f)).

(** The address of a replica that [GetFile] reports, if any. *)
Definition resolved_addr (s : MetadataFSM) (rep : string) : option string :=
  match GetNode s rep with
  | Err _ => None
  | Ok node =>
      if decide (ne_Status node = NodeStatusDead ∨ ne_Status node = NodeStatusDraining) then None
      else if decide (ne_Address node ≠ "") then Some (ne_Address node) else None
  end.

Definition chunk_info (s : MetadataFSM) (ck : ChunkRecord) : ChunkInfo :=
  mkChunkInfo (cr_ChunkID ck) (cr_FileID ck) (to_int32 (cr_ChunkIndex ck)) (cr_Size ck)
    (cr_Checksum ck) (omap (resolved_addr s) (cr_Replicas ck)) (cr_Status ck).

Definition address_or_empty (s : MetadataFSM) (nodeID : string) : string :=
  if decide (nodeID ≠ "") then
    match GetNode s nodeID with Ok n => ne_Address n | Err _ => "" end
  else "".

(** [buildRepairInstructions]: jobs the FSM does not know are skipped. *)
Definition buildRepairInstructions (s : MetadataFSM) (jobIDs : list string) : list RepairInstruction :=
  omap (λ jobID,
    match GetRepairJob s jobID with
    | Err _ => None
    | Ok val => Some (mkRepairInstruction (rj_JobID val) (rj_ChunkID val) (rj_SourceNodeID val)
        (address_or_empty s (rj_SourceNodeID val)) (rj_TargetNodeID val)
        (address_or_empty s (rj_TargetNodeID val)) (rj_DeleteSource val))
    end) jobIDs.

Definition minChunkSize : Z := 64 * 1024.
Definition maxChunkSize : Z := 64 * 1024 * 1024.

(** ** Handlers *)

Section handlers.
Context `{!Env, !MapRange, !GoSort}.
Context (src tgt : PlacementStrategy) (rf : Z) (suspectTimeout : Duration).

Definition leaderRedirect (s : MetadataFSM) : reply :=
  if decide (leader_addr = "") then mkReply (Err (status Unavailable "no leader elected yet")) None
  else mkReply (Err (status FailedPrecondition "not leader"))
         (match GetMetadataNodeByRaftAddr s leader_addr with Ok e => Some (mn_GrpcAddr e) | Err _ => None end).

(** One chunk of the placement loop of [CreateFile]. *)
Definition place_chunk (aliveNodes : list NodeEntry) (chunkSize : Z) (v : string) : res ChunkPlacement :=
  match @SelectNodes tgt aliveNodes v chunkSize (Z.to_nat rf) [] with
  | (_, Some _) | ([], None) => Err (status Internal "error getting placement for chunk")
  | (primary :: replicas, None) =>
      Ok (mkChunkPlacement v (node_info primary) (node_info <$> replicas))
  end.

Definition CreateFile (fileId fileName : string) (fileSize chunkSize : Z) (chunkIds : list string)
    : M (res response) :=
  fileId ← (if decide (fileId = "") then NewUUID else mret fileId);
  existing ← gets (λ w, GetFile (wd_fsm w) fileId);
  match existing with
  | Ok _ => mret (Err (status AlreadyExists "file already exists"))
  | Err _ =>
      if decide (chunkSize ≤ 0)%Z then mret (Err (status InvalidArgument "chunk_size must be positive"))
      else if decide (chunkSize < minChunkSize)%Z then
        mret (Err (status InvalidArgument "chunk_size is below minimum"))
      else if decide (maxChunkSize < chunkSize)%Z then
        mret (Err (status InvalidArgument "chunk_size exceeds maximum"))
      else
        aliveNodes ← gets (λ w, GetLiveNodes (wd_fsm w));
        match res_mapM (place_chunk aliveNodes chunkSize) chunkIds with
        | Err e => mret (Err e)
        | Ok placements =>
            t ← Now;
            err ← Propose (encode (CreateFileC (mkCommandCreateFile fileId fileName chunkIds
              (to_uint64 fileSize) (to_uint64 chunkSize) [] t)));
            match err with
            | Some _ => mret (Err (status Internal "error proposing command"))
            | None => mret (Ok (CreateFileResp fileId placements))
            end
        end
  end.

Definition handle_GetFile (fileId : string) : M (res response) := gets (λ w,
  let s := wd_fsm w in
  match GetFile s fileId with
  | Err _ => Err (status NotFound "file not found")
  | Ok file =>
      if decide (fr_Status file ≠ FileStatusComplete) then Err (status NotFound "file is not available")
      else
        match GetFileChunks s fileId with
        | Err _ => Err (status Internal "error fetching file chunks")
        | Ok chunks => Ok (GetFileResp (file_info file) (chunk_info s <$> chunks))
        end
  end).

Definition DeleteFile (fileId : string) : M (res response) :=
  file ← gets (λ w, GetFile (wd_fsm w) fileId);
  match file with
  | Err _ => mret (Err (status NotFound "file not found"))
  | Ok _ =>
      err ← Propose (encode (DeleteFileC (mkCommandDeleteFile fileId)));
      match err with
      | Some _ => mret (Err (status Internal "error proposing delete command"))
      | None => mret (Ok SuccessResp)
      end
  end.

(** The requested prefix is not used. *)
Definition handle_ListFiles (pre : string) : M (res response) := gets (λ w,
  Ok (ListFilesResp (file_info <$>
    filter (λ f, fr_Status f = FileStatusComplete) (ListFiles (wd_fsm w) "")))).

Definition CommitFile (fileId : string) (fileSize : Z) (checksum : bytes) : M (res response) :=
  err ← Propose (encode (CommitFileC (mkCommandCommitFile fileId (to_uint64 fileSize) checksum)));
  match err with
  | Some _ => mret (Err (status Internal "error proposing commit command"))
  | None => mret (Ok SuccessResp)
  end.

Definition CommitChunk (chunkId : string) (confirmedNodes : list string) (checksum : bytes)
    : M (res response) :=
  err ← Propose (encode (CommitChunkC (mkCommandCommitChunk chunkId confirmedNodes checksum)));
  match err with
  | Some _ => mret (Err (status Internal "error proposing commit-chunk command"))
  | None =>
      locations ← gets (λ w, GetChunkLocations (wd_fsm w) chunkId);
      (match locations with
       | Err _ => mret tt
       | Ok l => if decide (Z.of_nat (length l) < rf)%Z then ScheduleRepairForChunk src tgt chunkId
                 else mret tt
       end);;
      mret (Ok SuccessResp)
  end.

Definition handle_GetChunkLocations (chunkId : string) : M (res response) := gets (λ w,
  match GetChunkLocations (wd_fsm w) chunkId with
  | Err e => if decide (e = ErrChunkNotFound) then Err (status NotFound "chunk not found")
             else Err (status Internal "error fetching chunk locations")
  | Ok nodes => Ok (GetChunkLocationsResp (node_info <$> nodes))
  end).

Definition ReportCorruption (chunkId reporterId : string) : M (res response) :=
  t ← Now;
  err ← Propose (encode (EvictChunkFromNodeC
    (mkCommandEvictChunkFromNode chunkId reporterId t "corruption reported by node")));
  match err with
  | Some _ => mret (Err (status Internal "error proposing eviction command"))
  | None => ScheduleRepairForChunk src tgt chunkId;; mret (Ok SuccessResp)
  end.

Definition RegisterNode (nodeId address : string) (freeSpace : Z) (chunkIds : list string)
    : M (res response) :=
  t ← Now;
  err ← Propose (encode (RegisterNodeC (mkCommandRegisterNode nodeId address (to_uint64 freeSpace)
    (to_uint64 (Z.of_nat (length chunkIds))) t)));
  match err with
  | Some _ => mret (Err (status Internal "error proposing register command"))
  | None => Schedule nodeId chunkIds;; mret (Ok (RegisterNodeResp nodeId))
  end.

Definition DeregisterNode (nodeId : string) : M (res response) :=
  node ← gets (λ w, GetNode (wd_fsm w) nodeId);
  match node with
  | Err _ => mret (Err (status NotFound "node not found"))
  | Ok _ =>
      t ← Now;
      err ← Propose (encode (DeregisterNodeC (mkCommandDeregisterNode nodeId t)));
      match err with
      | Some _ => mret (Err (status Internal "error proposing deregister command"))
      | None => TriggerRepair src tgt nodeId;; mret (Ok SuccessResp)
      end
  end.

(** [h.heartbeatsCount[req.NodeId]++] *)
Definition count_beat (nodeId : string) : M Z := λ w,
  let count := (default 0%Z (wd_beats w !! nodeId) + 1)%Z in
  (count, set_beats (<[nodeId := count]> (wd_beats w)) w).

Definition Heartbeat (nodeId : string) (freeSpace chunkCount : Z) : M (res response) :=
  node ← gets (λ w, GetNode (wd_fsm w) nodeId);
  match node with
  | Err e => mret (Err (if decide (e = ErrNodeNotFound) then status NotFound "node not registered"
                        else status Internal "internal"))
  | Ok _ =>
      count ← count_beat nodeId;
      t ← Now;
      _ ← watcher_UpdateLastSeen nodeId t;
      _ ← (if decide (count `mod` 10 = 0)%Z then
             ProposeUpdateNodeSpace nodeId (to_uint64 freeSpace) (to_uint64 chunkCount)
           else mret None);
      pjobs ← sched_GetPendingJobsForNode nodeId;
      ins ← gets (λ w, buildRepairInstructions (wd_fsm w) pjobs);
      mret (Ok (HeartbeatResp ins))
  end.

Definition ReportRepairResult (nodeId jobId : string) (jobSucceed : bool) (error_field : string)
    : M (res response) :=
  err ← UpdateRepairJobStatus jobId (if jobSucceed then RepairStatusDone else RepairStatusFailed);
  match err with
  | Some e => mret (Err e)
  | None =>
      err ← OnJobComplete nodeId jobId jobSucceed error_field;
      match err with
      | Some e => mret (Err e)
      | None => mret (Ok SuccessResp)
      end
  end.

Definition run_handler (req : request) : M (res response) :=
  match req with
  | RegisterNodeReq n a fs cs => RegisterNode n a fs cs
  | DeregisterNodeReq n => DeregisterNode n
  | HeartbeatReq n fs cc => Heartbeat n fs cc
  | CreateFileReq f n sz cz cs => CreateFile f n sz cz cs
  | GetFileReq f => handle_GetFile f
  | DeleteFileReq f => DeleteFile f
  | ListFilesReq p => handle_ListFiles p
  | CommitFileReq f sz ck => CommitFile f sz ck
  | CommitChunkReq c ns ck => CommitChunk c ns ck
  | GetChunkLocationsReq c => handle_GetChunkLocations c
  | ReportCorruptionReq c r => ReportCorruption c r
  | ReportRepairResultReq n j ok e => ReportRepairResult n j ok e
  end.

(** Every handler starts with [if !h.isLeader() { return nil, h.leaderRedirect(ctx) }]. *)
Definition handle (req : request) : M reply := λ w,
  if negb is_leader then (leaderRedirect (wd_fsm w), w)
  else let '(r, w') := run_handler req w in (mkReply r None, w').
End handlers.

(** ** The service as a transition system *)

(** The metadata process on this node: requests, the watcher's ticks, repair workers and
    timers, start-up recovery, entries replicated from another leader, and restarts. *)
Inductive service_step `{!MapRange, !GoSort} (src tgt : PlacementStrategy) (rf : Z) (timeout : Duration)
    : World → World → Prop :=
| sv_request (E : Env) req w :
    (∀ f n sz cz cs, req = CreateFileReq f n sz cz cs → (Z.of_nat (length cs) < two63)%Z) →
    service_step src tgt rf timeout w (handle src tgt rf req w).2
| sv_sweep (E : Env) w : service_step src tgt rf timeout w (sweep src tgt timeout w).2
| sv_worker (E : Env) w : service_step src tgt rf timeout w (worker_step w).2
| sv_recover (E : Env) w : service_step src tgt rf timeout w (RecoverStuckJobs src w).2
| sv_timer (E : Env) w n : service_step src tgt rf timeout w (fire_timer src tgt rf n w).2
| sv_reschedule (E : Env) w i : service_step src tgt rf timeout w (fire_reschedule src tgt i w).2
| sv_replicated w data : slice_ok data →
    service_step src tgt rf timeout w (set_fsm (Apply (wd_fsm w) data).1 w)
| sv_restart w data s0 factor :
    Persist (Snapshot (wd_fsm w)) CopyFull None = (SinkClosed data, None) →
    service_step src tgt rf timeout w
      (mkWorld (Restore s0 (Ok data)).1 (NewRepairScheduler factor) ∅ ∅ [] 0 0 0).

Section service_invariant.
Context `{!MapRange, !GoSort} (src tgt : PlacementStrategy) (rf : Z) (timeout : Duration).

Lemma evolve_count_beat `{!Env} s0 n : preserves (evolved s0) (count_beat n).
Proof. by intros w Hw. Qed.
Lemma ok_count_beat `{!Env} n : preserves (sched_inv sched_ok) (count_beat n).
Proof. by intros w Hw. Qed.
Lemma evolve_register `{!Env} s0 n a fs cs : preserves (evolved s0) (RegisterNode n a fs cs).
Proof.
  unfold RegisterNode. preserve. intros t. apply evolve_Propose; [|done].
  split; apply to_uint64_range.
Qed.
Lemma evolve_create `{!Env} s0 f n sz cz cs :
  (Z.of_nat (length cs) < two63)%Z → preserves (evolved s0) (CreateFile tgt rf f n sz cz cs).
Proof.
  intros Hlen. unfold CreateFile. preserve. intros t. apply evolve_Propose; [|done].
  split; apply to_uint64_range.
Qed.
Lemma evolve_commit_file `{!Env} s0 f sz ck : preserves (evolved s0) (CommitFile f sz ck).
Proof. unfold CommitFile. preserve. apply evolve_Propose; [|done]. apply to_uint64_range. Qed.
Lemma evolve_space `{!Env} s0 n sp cc :
  preserves (evolved s0) (ProposeUpdateNodeSpace n (to_uint64 sp) (to_uint64 cc)).
Proof. apply evolve_ProposeUpdateNodeSpace; apply to_uint64_range. Qed.
Lemma ok_status `{!Env} j st : preserves (sched_inv sched_ok) (UpdateRepairJobStatus j st).
Proof. unfold UpdateRepairJobStatus. preserve. Qed.
Lemma ok_space `{!Env} n sp cc : preserves (sched_inv sched_ok) (ProposeUpdateNodeSpace n sp cc).
Proof. unfold ProposeUpdateNodeSpace. preserve. Qed.

#[local] Hint Resolve evolve_count_beat ok_count_beat evolve_register evolve_create
  evolve_commit_file evolve_space ok_status ok_space : dfs.

Lemma evolve_run_handler `{!Env} s0 req :
  (∀ f n sz cz cs, req = CreateFileReq f n sz cz cs → (Z.of_nat (length cs) < two63)%Z) →
  preserves (evolved s0) (run_handler src tgt rf req).
Proof.
  intros Hreq. destruct req; cbn [run_handler]; eauto with dfs;
    unfold DeregisterNode, Heartbeat, handle_GetFile, DeleteFile, handle_ListFiles, CommitChunk,
      handle_GetChunkLocations, ReportCorruption, ReportRepairResult, sched_GetPendingJobsForNode;
    preserve.
Qed.

Lemma ok_run_handler `{!Env} req : preserves (sched_inv sched_ok) (run_handler src tgt rf req).
Proof.
  destruct req; cbn [run_handler];
    unfold DeregisterNode, Heartbeat, handle_GetFile, DeleteFile, handle_ListFiles, CommitChunk,
      handle_GetChunkLocations, ReportCorruption, ReportRepairResult, sched_GetPendingJobsForNode,
      RegisterNode, CreateFile, CommitFile;
    preserve.
Qed.

Definition service_ok (w : World) : Prop := reachable (wd_fsm w) ∧ sched_ok (wd_sched w).

Lemma service_ok_run {A} (m : M A) w :
  preserves (evolved NewEmptyMetadataFsm) m → preserves (sched_inv sched_ok) m →
  service_ok w → service_ok (m w).2.
Proof. intros He Ho [Hr Hs]. split; [by apply He|by apply Ho]. Qed.

Lemma service_step_ok w w' : service_step src tgt rf timeout w w' → service_ok w → service_ok w'.
Proof.
  intros Hstep Hok. destruct Hstep as [E req w Hreq|E w|E w|E w|E w n|E w i|w data Hd|w data s0 f Hp].
  - unfold handle. destruct is_leader; [|done]; simpl.
    pose proof (service_ok_run (run_handler src tgt rf req) w) as Hrun.
    destruct (run_handler _ _ _ _ _) as [r w']. apply Hrun; [|apply ok_run_handler|done].
    by apply evolve_run_handler.
  - apply service_ok_run; auto with dfs.
  - apply service_ok_run; auto with dfs.
  - apply service_ok_run; auto with dfs.
  - apply service_ok_run; auto with dfs.
  - apply service_ok_run; auto with dfs.
  - destruct Hok as [Hr Hs]. split; [|done]. eapply rtc_r; [exact Hr|]. by apply step_apply.
  - destruct Hok as [Hr Hs]. split; [|apply NewRepairScheduler_ok].
    eapply rtc_r; [exact Hr|]. by apply step_restart.
Qed.
Lemma service_run_ok w w' : rtc (service_step src tgt rf timeout) w w' → service_ok w → service_ok w'.
Proof. induction 1; eauto using service_step_ok. Qed.
End service_invariant.

(** ** Properties *)

(** A service that starts with an empty FSM. *)
Definition initial_world (factor : Z) : World :=
  mkWorld NewEmptyMetadataFsm (NewRepairScheduler factor) ∅ ∅ [] 0 0 0.

(** C17. Whatever requests, ticks, worker runs, timers, replicated entries and restarts a
    metadata process goes through, with whatever Raft, the clock and the placement
    strategies do, its FSM is well formed, the job queue stays within its capacity,
    no job is pending twice for one node, and the replication factor stays in 1..10. *)
Theorem service_invariant `{!MapRange, !GoSort} (src tgt : PlacementStrategy) (rf : Z)
    (timeout : Duration) (factor : Z) (w : World) :
  rtc (service_step src tgt rf timeout) (initial_world factor) w →
  fsm_inv (wd_fsm w) ∧ sched_ok (wd_sched w).
Proof.
  intros Hr. destruct (service_run_ok src tgt rf timeout _ _ Hr) as [Hre Hs].
  - split; [apply rtc_refl|apply NewRepairScheduler_ok].
  - split; [by apply reachable_inv|done].
Qed.

Lemma service_invariant_witness :
  fsm_inv (wd_fsm (@handle demo_Env _ _ MostFreeSpaceStrategy MostFreeSpaceStrategy 1
    (RegisterNodeReq "n1" "h1:9000" 100 []) (initial_world 1)).2).
Proof.
  apply (service_invariant MostFreeSpaceStrategy MostFreeSpaceStrategy 1 (30 * second)%Z 1).
  apply rtc_once. apply (@sv_request _ _ _ _ _ _ demo_Env). intros. discriminate.
Defined.

(** A node that is not the leader changes nothing on any request and answers with a
    status that tells the client where to go: Unavailable while no leader is known,
    else FailedPrecondition with the leader's gRPC address as trailer when it is
    registered. *)
Theorem follower_redirects `{!Env, !MapRange, !GoSort} (src tgt : PlacementStrategy) (rf : Z)
    (req : request) (w : World) :
  is_leader = false →
  let r := (handle src tgt rf req w).1 in
  (handle src tgt rf req w).2 = w ∧
  (leader_addr = "" → r = mkReply (Err (ErrStatus Unavailable "no leader elected yet")) None) ∧
  (leader_addr ≠ "" → rp_result r = Err (ErrStatus FailedPrecondition "not leader") ∧
     rp_trailer r = mn_GrpcAddr <$> mdNodeRegistry (wd_fsm w) !! leader_addr).
Proof.
  intros Hl. unfold handle. rewrite Hl. simpl. unfold leaderRedirect, GetMetadataNodeByRaftAddr.
  split; [done|]. case_decide; [done|]. split; [done|]. intros _. simpl. split; [done|].
  by destruct (mdNodeRegistry (wd_fsm w) !! leader_addr).
Qed.

Definition w_follower_Env : Env := {|
  raft_apply _ := RaftRejected (ErrNew "node is not the leader");
  clock n := Z.of_nat n;
  new_uuid n := "uuid-" +:+ pretty n;
  is_leader := false;
  leader_addr := "m1:7000";
  ctx_done _ := false;
  delete_rpc _ _ := None;
|}.

Definition w_follower : World :=
  set_fsm (set_mdNodeRegistry NewEmptyMetadataFsm
    {["m1:7000" := mkMetadataNodeEntry "m1" "m1:7000" "m1:9090"]}) (initial_world 3).

Lemma follower_redirects_witness :
  rp_trailer (@handle w_follower_Env _ _ MostFreeSpaceStrategy MostFreeSpaceStrategy 3
    (GetFileReq "f1") w_follower).1 = Some "m1:9090".
Proof.
  destruct (proj2 (proj2 (@follower_redirects w_follower_Env _ _ MostFreeSpaceStrategy
    MostFreeSpaceStrategy 3 (GetFileReq "f1") w_follower eq_refl)) ltac:(discriminate)) as [_ H].
  rewrite H. vm_compute. reflexivity.
Defined.
