(* ===== verification/MetaTheorems.v ===== *)
(** * End-to-end properties of the metadata service

    Uploading a file through the handlers and reading it back, the placement of a new
    file, repair reports, and the effect of draining a node. *)

From S2P Require Import Prelude GoLib Json FsmTypes Fsm FsmCommands FsmInv FsmEquiv FsmSnapshot.
From S2P Require Import Placement World Scheduler Watcher Reconcile MetaServer.

(** ** Committing the chunks of a file *)

(** What an uploader reports of one chunk: the nodes that confirmed it and its checksum. *)
Record upload := mkUpload { up_ChunkId : string; up_Nodes : list string; up_Checksum : bytes }.

(** The record of a chunk after its commit. *)
Definition committed_chunk (fileId : string) (i : nat) (u : upload) : ChunkRecord :=
  mkChunkRecord (up_ChunkId u) fileId (Z.of_nat i) 0 (up_Checksum u) (up_Nodes u) ChunkStatusComplete 0.

(** ** Creating the file *)

(** A [CreateFile] that succeeds, whatever Raft did before: the placements it returns and
    the command it applied. *)
Lemma create_file_run `{!Env, !MapRange} (tgt : PlacementStrategy) (rf : Z) fileId name size chunkSize ids w0 w1 fid placements :
  fileId ≠ "" →
  CreateFile tgt rf fileId name size chunkSize ids w0 = (Ok (CreateFileResp fid placements), w1) →
  fid = fileId ∧ (minChunkSize ≤ chunkSize ≤ maxChunkSize)%Z ∧
  res_mapM (place_chunk tgt rf (GetLiveNodes (wd_fsm w0)) chunkSize) ids = Ok placements ∧
  ∃ t, handleCmdCreateFile (wd_fsm w0) (mkCommandCreateFile fileId name ids (to_uint64 size)
    (to_uint64 chunkSize) [] t) = (wd_fsm w1, None).
Proof.
  intros Hne. unfold CreateFile. rewrite decide_False by done. unfold mret, M_ret.
  unfold mbind at 1, M_bind at 1. unfold gets, mbind, M_bind, Now.
  destruct (GetFile (wd_fsm w0) fileId); [done|]. repeat (case_decide; [done|]).
  destruct (res_mapM _ ids) as [pl|]; [|done].
  set (cmd := CreateFileC _). destruct (Propose_effect cmd (next_tick w0)) as [_ Hok]; [split; apply to_uint64_range|].
  destruct (Propose (encode cmd) (next_tick w0)) as [[?|] w2]; [done|]. intros [= <- <- <-].
  split_and!; [done|lia|lia|done|]. eexists. exact (Hok eq_refl).
Qed.

Section upload.
Context `{!Env, !MapRange, !GoSort, !Committing _} (src tgt : PlacementStrategy) (rf : Z).

(** [CommitChunk] for each chunk in turn; [Some] is the first error. *)
Fixpoint commit_all (ups : list upload) : M (option error) :=
  match ups with
  | [] => mret None
  | u :: ups' =>
      r ← CommitChunk src tgt rf (up_ChunkId u) (up_Nodes u) (up_Checksum u);
      match r with Err e => mret (Some e) | Ok _ => commit_all ups' end
  end.

(** The reported nodes are registered, each once. *)
Definition upload_ok (nodes : gmap string NodeEntry) (u : upload) : Prop :=
  NoDup (up_Nodes u) ∧ ∀ x, x ∈ up_Nodes u → is_Some (nodes !! x).

Lemma commit_one w fileId i u :
  chunkRegistry (wd_fsm w) !! up_ChunkId u = Some (new_chunk_stub fileId i (up_ChunkId u)) →
  upload_ok (nodeRegistry (wd_fsm w)) u →
  ∃ w', CommitChunk src tgt rf (up_ChunkId u) (up_Nodes u) (up_Checksum u) w = (Ok SuccessResp, w') ∧
    core (wd_fsm w') = (fileIndex (wd_fsm w),
      <[up_ChunkId u := committed_chunk fileId i u]> (chunkRegistry (wd_fsm w)), nodeRegistry (wd_fsm w)).
Proof.
  intros Hc [Hnd Hreg]. unfold CommitChunk. unfold mbind at 1, M_bind at 1.
  rewrite Propose_committed by done. cbn [exec]. unfold handleCmdCommitChunk, GetChunk. simpl. rewrite Hc.
  rewrite decide_True by done. simpl.
  assert (Hnorm : normalizeReplicaNodeIDs (wd_fsm w) (up_Nodes u) = up_Nodes u).
  { unfold normalizeReplicaNodeIDs. by rewrite (normalize_known (wd_fsm w) (up_Nodes u) []). }
  rewrite Hnorm. match goal with |- context [set_fsm ?s ?w'] => set (w1 := set_fsm s w') end.
  change (fileIndex (wd_fsm w), <[up_ChunkId u := committed_chunk fileId i u]> (chunkRegistry (wd_fsm w)),
    nodeRegistry (wd_fsm w)) with (core (wd_fsm w1)).
  unfold gets, mbind, M_bind. destruct (GetChunkLocations (wd_fsm w1) _) as [l|]; [case_decide|]; [|eauto..].
  pose proof (core_ScheduleRepairForChunk src tgt (core (wd_fsm w1)) (up_ChunkId u) w1 eq_refl) as Hcore.
  destruct (ScheduleRepairForChunk _ _ _ w1) as [[] w2]. eauto.
Qed.

Lemma commit_all_spec ups w fileId (idx : string → nat) :
  NoDup (up_ChunkId <$> ups) →
  (∀ u, u ∈ ups → chunkRegistry (wd_fsm w) !! up_ChunkId u =
     Some (new_chunk_stub fileId (idx (up_ChunkId u)) (up_ChunkId u)) ∧
     upload_ok (nodeRegistry (wd_fsm w)) u) →
  ∃ w', commit_all ups w = (None, w') ∧
    fileIndex (wd_fsm w') = fileIndex (wd_fsm w) ∧ nodeRegistry (wd_fsm w') = nodeRegistry (wd_fsm w) ∧
    (∀ u, u ∈ ups → chunkRegistry (wd_fsm w') !! up_ChunkId u =
       Some (committed_chunk fileId (idx (up_ChunkId u)) u)) ∧
    (∀ k, k ∉ up_ChunkId <$> ups → chunkRegistry (wd_fsm w') !! k = chunkRegistry (wd_fsm w) !! k).
Proof.
  revert w. induction ups as [|u ups IH]; intros w Hnd Hups; simpl.
  { exists w. split_and!; set_solver. }
  csimpl in Hnd. apply NoDup_cons in Hnd as [Hu Hnd].
  destruct (Hups u) as [Hc Hok]; [set_solver|].
  destruct (commit_one w fileId (idx (up_ChunkId u)) u Hc Hok) as (w1 & Hrun & Hcore).
  unfold core in Hcore. injection Hcore as Hf1 Hc1 Hn1.
  destruct (IH w1 Hnd) as (w2 & Hrun2 & Hf2 & Hn2 & Hin2 & Hout2).
  { intros u' Hu'. destruct (Hups u') as [Hc' Hok']; [set_solver|]. rewrite Hc1, Hn1.
    rewrite lookup_insert_ne; [done|]. intros Heq. apply Hu. rewrite Heq. set_solver. }
  exists w2. unfold mbind, M_bind. rewrite Hrun. split_and!; [done|congruence|congruence| |].
  - intros u' [->|Hu']%elem_of_cons; [|by apply Hin2].
    rewrite Hout2, Hc1 by done. by rewrite lookup_insert_eq.
  - intros k. csimpl. intros [Hne Hk]%not_elem_of_cons. rewrite Hout2, Hc1 by done.
    by rewrite lookup_insert_ne.
Qed.

Lemma getIndex_lookup x l i : NoDup l → l !! i = Some x → getIndex x l = Some i.
Proof.
  revert i. induction l as [|y l IH]; intros [|i] Hnd Hi; simplify_eq/=.
  - by rewrite decide_True.
  - apply NoDup_cons in Hnd as [Hy Hnd]. rewrite decide_False; [by rewrite (IH i)|].
    intros ->. apply Hy. by eapply list_elem_of_lookup_2.
Qed.

(** The answer of [GetFile] for an uploaded chunk. *)
Definition uploaded_info (s : MetadataFSM) (fileId : string) (i : nat) (u : upload) : ChunkInfo :=
  mkChunkInfo (up_ChunkId u) fileId (to_int32 (Z.of_nat i)) 0 (up_Checksum u)
    (omap (resolved_addr s) (up_Nodes u)) ChunkStatusComplete.

Lemma collect_committed reg ups fileId k :
  (∀ i u, ups !! i = Some u → reg !! up_ChunkId u = Some (committed_chunk fileId (k + i) u)) →
  collect_chunks reg (up_ChunkId <$> ups) = Ok (imap (λ i, committed_chunk fileId (k + i)) ups) ∧
  check_chunks_complete reg (up_ChunkId <$> ups) = None.
Proof.
  revert k. induction ups as [|u ups IH]; intros k Hreg; [done|]. csimpl.
  rewrite (Hreg 0 u) by done. destruct (IH (S k)) as [Hcol Hchk].
  { intros i u' Hu'. rewrite Nat.add_succ_comm. by apply (Hreg (S i)). }
  rewrite Hcol. split; [|by rewrite decide_True]. simpl. rewrite Nat.add_0_r. do 2 f_equal.
  apply imap_ext. intros i x _. simpl. by rewrite Nat.add_succ_r.
Qed.

(** C38. The upload protocol works end to end: once [CreateFile] has accepted a file with
    distinct chunk IDs, committing every chunk with registered nodes and then the file
    with the size it was created with succeeds, and [GetFile] then returns the file and,
    in order, each chunk's checksum and the addresses of its usable replicas. *)
Theorem upload_then_get fileId name size chunkSize ups checksum w0 w1 placements :
  fileId ≠ "" →
  CreateFile tgt rf fileId name size chunkSize (up_ChunkId <$> ups) w0 =
    (Ok (CreateFileResp fileId placements), w1) →
  NoDup (up_ChunkId <$> ups) →
  (∀ u, u ∈ ups → upload_ok (nodeRegistry (wd_fsm w0)) u) →
  ∃ w2 w3 file,
    commit_all ups w1 = (None, w2) ∧ CommitFile fileId size checksum w2 = (Ok SuccessResp, w3) ∧
    (handle_GetFile fileId w3).1 =
      Ok (GetFileResp file (imap (uploaded_info (wd_fsm w0) fileId) ups)) ∧
    fi_FileId file = fileId ∧ fi_FileName file = name ∧ fi_ChunkIds file = up_ChunkId <$> ups ∧
    fi_FileSize file = to_int64 (to_uint64 size) ∧ fi_Status file = FileStatusComplete.
Proof.
  intros Hne Hcreate Hnd Hups.
  destruct (create_file_run _ _ _ _ _ _ _ _ _ _ _ Hne Hcreate) as (_ & _ & _ & t & Hc).
  unfold handleCmdCreateFile in Hc. simpl in Hc.
  destruct (GetFile (wd_fsm w0) fileId); [done|]. destruct (existsb _ _); [done|].
  injection Hc as Hw1.
  assert (Hstub : ∀ i u, ups !! i = Some u →
    chunkRegistry (wd_fsm w1) !! up_ChunkId u = Some (new_chunk_stub fileId i (up_ChunkId u))).
  { intros i u Hi. rewrite <-Hw1. simpl.
    destruct (stubs_lookup (new_chunk_stub fileId) (up_ChunkId <$> ups) (chunkRegistry (wd_fsm w0))
      (up_ChunkId u)) as [[Hni _]|(j & Hj & ->)]; [done|..].
    - destruct Hni. apply list_elem_of_fmap. exists u. split; [done|]. by eapply list_elem_of_lookup_2.
    - do 2 f_equal. eapply (NoDup_lookup _ _ _ (up_ChunkId u) Hnd); [done|].
      by rewrite list_lookup_fmap, Hi. }
  assert (Hidx : ∀ i u, ups !! i = Some u →
    default 0 (getIndex (up_ChunkId u) (up_ChunkId <$> ups)) = i).
  { intros i u Hi. by rewrite (getIndex_lookup _ _ i) by (done || by rewrite list_lookup_fmap, Hi). }
  destruct (commit_all_spec ups w1 fileId (λ cid, default 0 (getIndex cid (up_ChunkId <$> ups))) Hnd)
    as (w2 & Hcommit & Hf2 & Hn2 & Hin2 & _).
  { intros u Hu. destruct (proj1 (list_elem_of_lookup _ _) Hu) as [i Hi].
    rewrite (Hidx i) by done. split; [by apply Hstub|]. rewrite <-Hw1. simpl. by apply Hups. }
  destruct (collect_committed (chunkRegistry (wd_fsm w2)) ups fileId 0) as [Hcol Hchk].
  { intros i u Hi. rewrite Hin2 by (by eapply list_elem_of_lookup_2). by rewrite (Hidx i). }
  unfold CommitFile. exists w2. eexists _, _. split; [done|].
  unfold mbind, M_bind. rewrite Propose_committed by (apply to_uint64_range). cbn [exec].
  unfold handleCmdCommitFile, GetFile. simpl. rewrite Hf2, <-Hw1. simpl. rewrite lookup_insert_eq. simpl.
  rewrite decide_False by auto. rewrite Hchk. simpl. split; [done|].
  unfold handle_GetFile, gets, GetFileChunks, GetFile. simpl. rewrite lookup_insert_eq. simpl.
  rewrite Hcol.
  assert (Hinfo : ∀ s3, nodeRegistry s3 = nodeRegistry (wd_fsm w0) →
    chunk_info s3 <$> imap (λ i, committed_chunk fileId (0 + i)) ups =
      imap (uploaded_info (wd_fsm w0) fileId) ups).
  { intros s3 Hs3. rewrite fmap_imap. apply imap_ext. intros i u Hi. simpl.
    unfold uploaded_info, chunk_info. simpl. f_equal. unfold resolved_addr, GetNode; simpl. by rewrite Hs3. }
  rewrite Hinfo; [done|]. simpl. by rewrite Hn2, <-Hw1.
Qed.
End upload.

Definition w_up_fsm : MetadataFSM := apply_log NewEmptyMetadataFsm (log_of
  [RegisterNodeC (mkCommandRegisterNode "n1" "h1:9000" 1000000%Z 0%Z 10%Z);
   RegisterNodeC (mkCommandRegisterNode "n2" "h2:9000" 2000000%Z 0%Z 10%Z)]).
Definition w_up_world : World := set_fsm w_up_fsm (initial_world 2).
Definition w_uploads : list upload :=
  [mkUpload "c1" ["n1"; "n2"] [Ascii.one]; mkUpload "c2" ["n2"] [Ascii.zero]].
Definition w_created : res response * World :=
  @CreateFile demo_Env _ MostFreeSpaceStrategy 2 "f9" "b.txt" 100000 65536 ["c1"; "c2"] w_up_world.
Definition w_placements : list ChunkPlacement :=
  match w_created.1 with Ok (CreateFileResp _ p) => p | _ => [] end.

Lemma upload_then_get_witness :
  ∃ w2 w3 file,
    @commit_all demo_Env _ MostFreeSpaceStrategy MostFreeSpaceStrategy 2 w_uploads w_created.2 = (None, w2) ∧
    @CommitFile demo_Env _ "f9" 100000 [] w2 = (Ok SuccessResp, w3) ∧
    (handle_GetFile "f9" w3).1 = Ok (GetFileResp file
      [mkChunkInfo "c1" "f9" 0 0 [Ascii.one] ["h1:9000"; "h2:9000"] ChunkStatusComplete;
       mkChunkInfo "c2" "f9" 1 0 [Ascii.zero] ["h2:9000"] ChunkStatusComplete]).
Proof.
  destruct (@upload_then_get demo_Env _ _ MostFreeSpaceStrategy MostFreeSpaceStrategy 2 "f9" "b.txt"
    100000 65536 w_uploads [] w_up_world w_created.2 w_placements ltac:(discriminate)
    ltac:(vm_compute; reflexivity) ltac:(compute_decide)) as (w2 & w3 & file & H1 & H2 & H3 & _).
  - intros u Hu. split.
    + apply list_elem_of_In in Hu. destruct Hu as [<-|[<-|[]]]; compute_decide.
    + apply list_elem_of_In in Hu.
      intros x Hx. apply list_elem_of_In in Hx.
      destruct Hu as [<-|[<-|[]]]; [destruct Hx as [<-|[<-|[]]]|destruct Hx as [<-|[]]]; compute_decide.
  - exists w2, w3, file. split_and!; [exact H1|exact H2|]. rewrite H3. vm_compute. reflexivity.
Defined.

(** ** Placement of a new file *)

Lemma res_mapM_Forall2 {A B} (f : A → res B) l ys :
  res_mapM f l = Ok ys → Forall2 (λ x y, f x = Ok y) l ys.
Proof.
  revert ys. induction l as [|x l IH]; intros ys; simpl; [intros [= <-]; constructor|].
  destruct (f x) as [y|] eqn:Hx; [|done]; simpl. destruct (res_mapM f l) as [ys'|]; [|done].
  intros [= <-]. constructor; [done|]. by apply IH.
Qed.

Lemma GetLiveNodes_NoDup `{!MapRange} s : fsm_inv s → NoDup (ne_NodeID <$> GetLiveNodes s).
Proof.
  intros Hinv. eapply sublist_NoDup; [apply (GetAllNodes_spec s Hinv)|].
  apply fmap_sublist, sublist_filter.
Qed.

(** The nodes of a placement, primary first. *)
Definition placement_nodes (p : ChunkPlacement) : list NodeInfo := cp_Primary p :: cp_Replicas p.

(** A placed chunk: its nodes are the best of the live nodes with room. *)
Lemma place_chunk_best `{!MapRange} (tgt : PlacementStrategy) `{!PlacementLaws tgt} rf s chunkSize v p :
  place_chunk tgt rf (GetLiveNodes s) chunkSize v = Ok p →
  cp_ChunkId p = v ∧ ∃ out, placement_nodes p = node_info <$> out ∧
    best_of better (candidates (GetLiveNodes s) chunkSize []) (Z.to_nat rf) out.
Proof.
  unfold place_chunk. destruct (@SelectNodes tgt _ _ _ _ _) as [[|o out] [e|]] eqn:Hsel; try done.
  intros [= <-]. split; [done|]. exists (o :: out). split; [done|]. by apply select_ok in Hsel.
Qed.

(** An accepted [CreateFile] has a chunk size between 64 KB and 64 MB and returns one
    placement per requested chunk, in order: as many distinct nodes as the replication
    factor, each alive and with room for a chunk of that size. *)
Theorem create_file_placements `{!Env, !MapRange} (tgt : PlacementStrategy)
    `{!PlacementLaws tgt} (rf : Z) (fileId name : string) (size chunkSize : Z) (ids : list string)
    (w0 w1 : World) (fid : string) (placements : list ChunkPlacement) :
  reachable (wd_fsm w0) → fileId ≠ "" → (0 < rf)%Z →
  CreateFile tgt rf fileId name size chunkSize ids w0 = (Ok (CreateFileResp fid placements), w1) →
  (minChunkSize ≤ chunkSize ≤ maxChunkSize)%Z ∧ cp_ChunkId <$> placements = ids ∧
  Forall (λ p, Z.of_nat (length (placement_nodes p)) = rf ∧ NoDup (ni_NodeId <$> placement_nodes p) ∧
    ∀ i, i ∈ placement_nodes p → ∃ n, nodeRegistry (wd_fsm w0) !! ni_NodeId i = Some n ∧
      i = node_info n ∧ ne_Status n = NodeStatusAlive ∧ (chunkSize ≤ ne_FreeSpace n)%Z) placements.
Proof.
  intros Hr Hne Hrf Hcreate. destruct (reachable_inv _ Hr) as [Hinv _].
  destruct (create_file_run _ _ _ _ _ _ _ _ _ _ _ Hne Hcreate) as (_ & Hcs & Hmap & _).
  apply res_mapM_Forall2 in Hmap. split; [done|].
  pose proof (λ v p, place_chunk_best tgt rf (wd_fsm w0) chunkSize v p) as Hpl.
  assert (Hu64 : to_uint64 chunkSize = chunkSize).
  { apply to_uint64_id. unfold is_uint64, two64, minChunkSize, maxChunkSize in *. lia. }
  clear Hcreate. split.
  - induction Hmap as [|v p ids' pls Hp _ IH]; [done|]. csimpl. destruct (Hpl _ _ Hp) as [-> _]. by rewrite IH.
  - induction Hmap as [|v p ids' pls Hp _ IH]; [constructor|]. constructor; [|done].
    destruct (Hpl _ _ Hp) as (_ & out & Hout & Hlen & _ & rest & Hperm & _). rewrite Hout. split_and!.
    + rewrite length_fmap. lia.
    + rewrite <-list_fmap_compose. change (ni_NodeId ∘ node_info) with ne_NodeID.
      assert (Hnd : NoDup (ne_NodeID <$> out ++ rest)).
      { rewrite <-Hperm. eapply sublist_NoDup; [by apply GetLiveNodes_NoDup|].
        apply fmap_sublist, candidates_sublist. }
      rewrite fmap_app in Hnd. by apply NoDup_app in Hnd as [? _].
    + intros i (n & -> & Hn)%list_elem_of_fmap. exists n.
      assert (Hc : n ∈ candidates (GetLiveNodes (wd_fsm w0)) chunkSize []) by (rewrite Hperm; set_solver).
      apply elem_of_candidates in Hc as ([Hst [k Hk]%elem_of_range_values]%list_elem_of_filter & _ & Hfree).
      simpl. rewrite (inv_node_key _ Hinv _ _ Hk). split_and!; [done..|].
      rewrite Hu64 in Hfree. apply Hfree. unfold minChunkSize in *. lia.
Qed.

Lemma create_file_placements_witness : cp_ChunkId <$> w_placements = ["c1"; "c2"].
Proof.
  apply (@create_file_placements demo_Env _ MostFreeSpaceStrategy _ 2 "f9" "b.txt" 100000 65536
    ["c1"; "c2"] w_up_world w_created.2 "f9" w_placements);
    [|discriminate|lia|vm_compute; reflexivity].
  apply reachable_log, log_of_ok. repeat constructor; done.
Defined.

(** ** Repair reports *)

Lemma report_success_run `{!Env, !MapRange, !Committing _} w nodeId jobId msg (j : RepairJob) (c : ChunkRecord) :
  repairJobRegistry (wd_fsm w) !! jobId = Some j → rj_DeleteSource j = false →
  chunkRegistry (wd_fsm w) !! rj_ChunkID j = Some c →
  let '(r, w') := ReportRepairResult nodeId jobId true msg w in
  r = Ok SuccessResp ∧
  rj_Status <$> repairJobRegistry (wd_fsm w') !! jobId = Some RepairStatusDone ∧
  cr_Replicas <$> chunkRegistry (wd_fsm w') !! rj_ChunkID j = Some (appendUnique (cr_Replicas c) (rj_TargetNodeID j)) ∧
  wd_sched w' = clear_pending nodeId jobId (wd_sched w) ∧
  nodeRegistry (wd_fsm w') = nodeRegistry (wd_fsm w).
Proof.
  intros Hj Hdel Hc. unfold ReportRepairResult, UpdateRepairJobStatus, OnJobComplete, proposeAddReplica.
  unfold gets, modify, mbind, M_bind, Now. rewrite Propose_committed by done.
  cbn [exec wd_fsm next_tick]. unfold handleCmdUpdateRepairJob. simpl. rewrite Hj. simpl.
  unfold GetRepairJob. simpl. rewrite lookup_insert_eq. simpl. rewrite Hdel.
  rewrite Propose_committed by done. cbn [exec]. unfold handleCmdAddChunkReplica, GetChunk, appendUnique. simpl. rewrite Hc.
  case_decide as Hin; simpl; rewrite lookup_insert_eq; simpl; split_and!; try done; by rewrite ?lookup_insert_eq, ?Hc.
Qed.

(** Reporting a successful under-replication repair of a known job and chunk records
    the target as a replica of the chunk, exactly once, and marks the job done. *)
Theorem report_success_adds_replica `{!Env, !MapRange, !Committing _} (w : World)
    (nodeId jobId msg : string) (j : RepairJob) (c : ChunkRecord) :
  reachable (wd_fsm w) → repairJobRegistry (wd_fsm w) !! jobId = Some j → rj_DeleteSource j = false →
  chunkRegistry (wd_fsm w) !! rj_ChunkID j = Some c →
  let '(r, w') := ReportRepairResult nodeId jobId true msg w in
  r = Ok SuccessResp ∧
  rj_Status <$> repairJobRegistry (wd_fsm w') !! jobId = Some RepairStatusDone ∧
  ∃ c', chunkRegistry (wd_fsm w') !! rj_ChunkID j = Some c' ∧ rj_TargetNodeID j ∈ cr_Replicas c' ∧
    NoDup (cr_Replicas c') ∧ ∀ x, x ∈ cr_Replicas c' ↔ x ∈ cr_Replicas c ∨ x = rj_TargetNodeID j.
Proof.
  intros Hr Hj Hdel Hc. destruct (reachable_inv _ Hr) as [Hinv _].
  pose proof (appendUnique_ok _ (rj_TargetNodeID j) (inv_replicas _ Hinv _ _ Hc)) as [Hnd _].
  pose proof (report_success_run w nodeId jobId msg j c Hj Hdel Hc) as Hrun.
  destruct (ReportRepairResult _ _ _ _ w) as [r w']. destruct Hrun as (-> & Hst & Hreps & _).
  destruct (chunkRegistry (wd_fsm w') !! rj_ChunkID j) as [c'|]; [|done]. injection Hreps as Hreps. rewrite <-Hreps in Hnd.
  assert (Hel : ∀ x, x ∈ cr_Replicas c' ↔ x ∈ cr_Replicas c ∨ x = rj_TargetNodeID j).
  { intros x. rewrite Hreps. unfold appendUnique. case_decide; set_solver. }
  split_and!; [done|done|]. exists c'. split_and!; [done|apply Hel; by right|done|exact Hel].
Qed.

Definition w_job : RepairJob :=
  mkRepairJob "j1" "c1" "" false "n1" "n2" RepairStatusInProgress 7 20%Z 21%Z.
Definition w_repair_commands : list command := demo_commands ++
  [CreateRepairJobC (mkCommandCreateRepairJob "j1" 20%Z "c1" false "n1" "n2");
   UpdateRepairJobC (mkCommandUpdateRepairJob "j1" RepairStatusInProgress "" 21%Z 7%Z "")].
Definition w_repair_world : World :=
  set_fsm (apply_log NewEmptyMetadataFsm (log_of w_repair_commands)) (initial_world 2).

Lemma w_repair_reachable : reachable (wd_fsm w_repair_world).
Proof. apply reachable_log, log_of_ok. repeat constructor; done. Qed.

Lemma report_success_adds_replica_witness :
  ∃ c', chunkRegistry (wd_fsm (@ReportRepairResult demo_Env _ "n1" "j1" true "" w_repair_world).2) !! "c1" =
    Some c' ∧ "n2" ∈ cr_Replicas c'.
Proof.
  pose proof (@report_success_adds_replica demo_Env _ _ w_repair_world "n1" "j1" "" w_job w_chunk_c1
    w_repair_reachable ltac:(vm_compute; reflexivity) eq_refl ltac:(vm_compute; reflexivity)) as H.
  destruct (@ReportRepairResult demo_Env _ "n1" "j1" true "" w_repair_world) as [r w'].
  destruct H as (_ & _ & c' & Hc & Ht & _). exists c'. split; [exact Hc|exact Ht].
Defined.

(** A failed repair is always retried after two seconds, however many attempts the job
    has had: the status update that precedes the scheduling resets the attempt count. *)
Theorem failed_repair_never_backs_off `{!Env, !MapRange, !Committing _} (w : World)
    (nodeId jobId msg : string) (j : RepairJob) (live : list NodeEntry) :
  repairJobRegistry (wd_fsm w) !! jobId = Some j →
  GetChunkLocations (wd_fsm w) (rj_ChunkID j) = Ok live →
  (Z.of_nat (length live) < replicationFactor (wd_sched w))%Z →
  let '(r, w') := ReportRepairResult nodeId jobId false msg w in
  r = Ok SuccessResp ∧
  reschedules (wd_sched w') = reschedules (wd_sched w) ++ [((2 * second)%Z, rj_ChunkID j)] ∧
  rj_Attempts <$> repairJobRegistry (wd_fsm w') !! jobId = Some 0%Z.
Proof.
  intros Hj Hlive Hdef.
  unfold ReportRepairResult, UpdateRepairJobStatus, OnJobComplete.
  unfold gets, modify, mbind, M_bind, Now. rewrite Propose_committed by done.
  cbn [exec wd_fsm next_tick]. unfold handleCmdUpdateRepairJob. simpl. rewrite Hj. simpl.
  unfold GetRepairJob. simpl. rewrite lookup_insert_eq. simpl.
  change (GetChunkLocations (set_repairJobRegistry (wd_fsm w) _) (rj_ChunkID j))
    with (GetChunkLocations (wd_fsm w) (rj_ChunkID j)). rewrite Hlive.
  assert (Hrf : replicationFactor (clear_pending nodeId jobId (wd_sched w)) = replicationFactor (wd_sched w)
    ∧ reschedules (clear_pending nodeId jobId (wd_sched w)) = reschedules (wd_sched w)).
  { unfold clear_pending. by destruct (pendingJobs (wd_sched w) !! nodeId). }
  destruct Hrf as [-> Hrs]. rewrite decide_True by lia. simpl. rewrite Hrs, lookup_insert_eq. done.
Qed.

Lemma failed_repair_never_backs_off_witness :
  reschedules (wd_sched (@ReportRepairResult demo_Env _ "n1" "j1" false "io" w_repair_world).2) =
    [((2 * second)%Z, "c1")].
Proof.
  pose proof (@failed_repair_never_backs_off demo_Env _ _ w_repair_world "n1" "j1" "io" w_job
    [w_live_n1] ltac:(vm_compute; reflexivity) ltac:(vm_compute; reflexivity)
    ltac:(vm_compute; reflexivity)) as H.
  destruct (@ReportRepairResult demo_Env _ "n1" "j1" false "io" w_repair_world) as [r w'].
  destruct H as (_ & H & _). exact H.
Defined.

(** ** Draining a node *)

(** Deregistering a node drops it from every chunk before any copy is made: a chunk
    whose only replica it held has no replica left in the metadata, although the node
    still has the data. *)
Theorem deregister_drops_last_replica `{!Env, !MapRange, !Committing _} (src tgt : PlacementStrategy)
    (w : World) (nodeId : string) (n : NodeEntry) (cid : string) (c : ChunkRecord) :
  reachable (wd_fsm w) → nodeRegistry (wd_fsm w) !! nodeId = Some n →
  chunkRegistry (wd_fsm w) !! cid = Some c → cr_Replicas c = [nodeId] →
  let '(r, w') := DeregisterNode src tgt nodeId w in
  r = Ok SuccessResp ∧ cr_Replicas <$> chunkRegistry (wd_fsm w') !! cid = Some [] ∧
  GetChunkLocations (wd_fsm w') cid = Ok [].
Proof.
  intros Hr Hn Hc Hrep. unfold DeregisterNode, gets, GetNode. unfold mbind, M_bind, Now. rewrite Hn.
  rewrite Propose_committed by done. cbn [exec wd_fsm next_tick].
  unfold handleCmdDeregisterNode, GetNode. simpl. rewrite Hn. simpl.
  match goal with |- context [TriggerRepair src tgt nodeId ?w0] => set (w1 := w0) end.
  pose proof (TriggerRepair_evicts src tgt nodeId w1) as Hev.
  destruct (TriggerRepair src tgt nodeId w1) as [[] w2]. simpl in Hev.
  assert (Hreg : chunkRegistry (wd_fsm w2) = drop_replica nodeId <$> chunkRegistry (wd_fsm w)).
  { apply Hev. eapply inv_modify_node; [by apply reachable_inv|done|done]. }
  assert (Hdrop : cr_Replicas (drop_replica nodeId c) = []).
  { unfold drop_replica. simpl. rewrite Hrep. rewrite filter_cons_False by auto. done. }
  unfold mret, M_ret, GetChunkLocations, GetChunk. rewrite Hreg, lookup_fmap, Hc.
  cbn [fmap option_fmap option_map res_bind]. by rewrite Hdrop.
Qed.

Lemma deregister_drops_last_replica_witness :
  GetChunkLocations (wd_fsm (@DeregisterNode demo_Env _ MostFreeSpaceStrategy MostFreeSpaceStrategy "n1"
    (demo_world (NewRepairScheduler 2))).2) "c1" = Ok [].
Proof.
  pose proof (@deregister_drops_last_replica demo_Env _ _ MostFreeSpaceStrategy MostFreeSpaceStrategy
    (demo_world (NewRepairScheduler 2)) "n1" w_live_n1 "c1" w_chunk_c1 demo_reachable
    ltac:(vm_compute; reflexivity) ltac:(vm_compute; reflexivity) eq_refl) as H.
  destruct (@DeregisterNode demo_Env _ MostFreeSpaceStrategy MostFreeSpaceStrategy "n1"
    (demo_world (NewRepairScheduler 2))) as [r w'].
  destruct H as (_ & _ & H). exact H.
Defined.
