(* ===== verification/Lifecycle.v ===== *)
(** * Start and Stop of the background goroutines of the metadata service

    The loop of [NodeWatcher.Start] with the callers of [Stop], and the goroutines that
    [RepairScheduler.Start] starts with the caller that [Stop] makes wait, as interleaved
    steps.  What the loops run is [sweep], [executeJob] and [recover_choice].  A
    [select] with several ready cases takes any of them.  The rest of the process may
    change the shared state between any two steps. *)

From S2P Require Import Prelude GoLib Json FsmTypes Fsm FsmCommands FsmInv FsmEquiv FsmSnapshot Placement World Scheduler Watcher Reconcile MetaServer.

(** ** The node watcher *)

(** A caller of [Stop]: before its [select], about to close the channel, or done. *)
Inductive stop_pc := StopSelect | StopClose | StopDone.

(** The goroutine of [Start]; [time.NewTicker] panics on an interval that is not positive. *)
Inductive loop_pc := Entering | Looping | Left.

Record Watch := mkWatch {
  wt_interval : Duration;
  wt_world : World;
  wt_closed : bool;          (* stopCh *)
  wt_loop : loop_pc;
  wt_stops : list stop_pc;
  wt_panicked : bool;
}.

Definition NewNodeWatcher (interval : Duration) (w : World) : Watch := mkWatch interval w false Entering [] false.

Definition set_loop (l : loop_pc) (x : Watch) : Watch :=
  mkWatch (wt_interval x) (wt_world x) (wt_closed x) l (wt_stops x) (wt_panicked x).
Definition set_stops (l : list stop_pc) (x : Watch) : Watch :=
  mkWatch (wt_interval x) (wt_world x) (wt_closed x) (wt_loop x) l (wt_panicked x).
Definition with_world (w : World) (x : Watch) : Watch :=
  mkWatch (wt_interval x) w (wt_closed x) (wt_loop x) (wt_stops x) (wt_panicked x).
Definition closing (x : Watch) : Watch :=
  mkWatch (wt_interval x) (wt_world x) true (wt_loop x) (wt_stops x) (wt_panicked x).
Definition panicking (x : Watch) : Watch :=
  mkWatch (wt_interval x) (wt_world x) (wt_closed x) (wt_loop x) (wt_stops x) true.

Section watch.
Context `{!MapRange, !GoSort} (src tgt : PlacementStrategy) (suspectTimeout : Duration).

(** [watch_stop i] is one step of the [i]-th call of [Stop]. *)
Inductive watch_stop (i : nat) (x : Watch) : Watch → Prop :=
| ws_closed : wt_stops x !! i = Some StopSelect → wt_closed x = true →
    watch_stop i x (set_stops (<[i := StopDone]> (wt_stops x)) x)
| ws_default : wt_stops x !! i = Some StopSelect → wt_closed x = false →
    watch_stop i x (set_stops (<[i := StopClose]> (wt_stops x)) x)
| ws_close : wt_stops x !! i = Some StopClose → wt_closed x = false →
    watch_stop i x (closing (set_stops (<[i := StopDone]> (wt_stops x)) x))
| ws_panic : wt_stops x !! i = Some StopClose → wt_closed x = true →
    watch_stop i x (panicking (set_stops (<[i := StopDone]> (wt_stops x)) x)).

Inductive watch_step (x : Watch) : Watch → Prop :=
| ws_ticker : wt_loop x = Entering → (0 < wt_interval x)%Z → watch_step x (set_loop Looping x)
| ws_no_ticker : wt_loop x = Entering → (wt_interval x ≤ 0)%Z → watch_step x (panicking (set_loop Left x))
| ws_sweep (E : Env) : wt_loop x = Looping → watch_step x (with_world (sweep src tgt suspectTimeout (wt_world x)).2 x)
| ws_return : wt_loop x = Looping → wt_closed x = true → watch_step x (set_loop Left x)
| ws_call : watch_step x (set_stops (wt_stops x ++ [StopSelect]) x)
| ws_stop i x' : watch_stop i x x' → watch_step x x'
| ws_world w : watch_step x (with_world w x).

(** The steps when no call of [Stop] begins before the others have returned. *)
Definition one_at_a_time (x x' : Watch) : Prop :=
  watch_step x x' ∧ (length (wt_stops x') ≠ length (wt_stops x) → Forall (.= StopDone) (wt_stops x)).

(** All calls but possibly the last have returned, and the last one closes an open channel. *)
Record calls_ok (x : Watch) : Prop := {
  cl_done : ∀ i, S i < length (wt_stops x) → wt_stops x !! i = Some StopDone;
  cl_close : ∀ i, wt_stops x !! i = Some StopClose → wt_closed x = false;
  cl_stopped : StopDone ∈ wt_stops x → wt_closed x = true;
  cl_calm : (0 < wt_interval x)%Z → wt_panicked x = false;
}.

Lemma stop_set_ok i x pc pc' closed :
  calls_ok x → wt_stops x !! i = Some pc → pc ≠ StopDone →
  (pc' = StopClose → closed = false) → (pc' = StopDone → closed = true) → (wt_closed x = true → closed = true) →
  calls_ok (mkWatch (wt_interval x) (wt_world x) closed (wt_loop x) (<[i := pc']> (wt_stops x)) (wt_panicked x)).
Proof.
  intros [Hd Hc Hs Hp] Hi Hne Hc' Hs' Hmono. pose proof (lookup_lt_Some _ _ _ Hi) as Hlt.
  assert (Hlast : ∀ j pc0, wt_stops x !! j = Some pc0 → j ≠ i → pc0 = StopDone).
  { intros j pc0 Hj Hji. destruct (decide (S j < length (wt_stops x))) as [Hj'|Hj'].
    - specialize (Hd j Hj'). congruence.
    - pose proof (lookup_lt_Some _ _ _ Hj). assert (Hi' : S i < length (wt_stops x)) by lia.
      specialize (Hd i Hi'). congruence. }
  split; cbn [wt_stops wt_closed wt_panicked wt_interval].
  - intros j. rewrite length_insert. intros Hj. destruct (decide (j = i)) as [->|Hji].
    { specialize (Hd i Hj). congruence. }
    rewrite list_lookup_insert_ne by done. by apply Hd.
  - intros j [(-> & Hpc & _)|[Hji Hj]]%list_lookup_insert_Some; [by apply Hc'|].
    by pose proof (Hlast _ _ Hj (not_eq_sym Hji)).
  - intros [j [(-> & Hpc & _)|[Hji Hj]]%list_lookup_insert_Some]%list_elem_of_lookup; [by apply Hs'|].
    apply Hmono, Hs. by apply list_elem_of_lookup_2 in Hj.
  - done.
Qed.

Lemma one_at_a_time_ok x x' : one_at_a_time x x' → calls_ok x → calls_ok x'.
Proof.
  intros [Hstep Hserial] Hok. destruct Hstep as [| | | | |i x' Hs|].
  - by destruct Hok.
  - destruct Hok. split; [done..|]. cbn. lia.
  - by destruct Hok.
  - by destruct Hok.
  - assert (Hall : Forall (.= StopDone) (wt_stops x)) by (apply Hserial; cbn; rewrite length_app; simpl; lia).
    rewrite Forall_forall in Hall. destruct Hok as [Hd Hc Hs Hp]. split; cbn [wt_stops wt_closed wt_panicked wt_interval set_stops].
    + intros i. rewrite length_app. simpl. intros Hi. rewrite lookup_app_l by lia.
      destruct (lookup_lt_is_Some_2 (wt_stops x) i ltac:(lia)) as [pc Hpc]. rewrite Hpc. f_equal.
      by apply Hall, list_elem_of_lookup_2 with i.
    + intros i [Hi|[_ Hi]]%lookup_app_Some; [by apply (Hc i)|].
      apply list_lookup_singleton_Some in Hi as [_ [=]].
    + intros [Hin|[=]%list_elem_of_singleton]%elem_of_app. by apply Hs.
    + done.
  - destruct Hs as [Hi Hcl|Hi Hcl|Hi Hcl|Hi Hcl].
    + by apply (stop_set_ok i x StopSelect StopDone (wt_closed x)).
    + by apply (stop_set_ok i x StopSelect StopClose (wt_closed x)).
    + by apply (stop_set_ok i x StopClose StopDone true).
    + by rewrite (cl_close _ Hok i Hi) in Hcl.
  - by destruct Hok.
Qed.

(** [Stop] of the watcher, called any number of times one call after the other, while
    sweeps run: no call panics, and once a call has returned the loop is told to end
    (the channel is closed, which it stays), so a loop that runs can always leave. *)
Theorem watcher_stops (interval : Duration) (w : World) (x : Watch) :
  (0 < interval)%Z → rtc one_at_a_time (NewNodeWatcher interval w) x →
  wt_panicked x = false ∧
  (StopDone ∈ wt_stops x → wt_loop x = Looping → watch_step x (set_loop Left x)).
Proof.
  intros Hint Hrun.
  assert (Hok : calls_ok x ∧ wt_interval x = interval).
  { apply (rtc_keeps one_at_a_time (λ x, calls_ok x ∧ wt_interval x = interval) (NewNodeWatcher interval w) x); [|done|].
    - intros y y' [Hy Hi] Hs. split; [by apply (one_at_a_time_ok y)|].
      destruct Hs as [Hs _]; destruct Hs as [| | | | |? ? Hs|]; [done..|by destruct Hs|done].
    - split; [|done]. split; cbn; [lia|done|by intros ?%not_elem_of_nil|done]. }
  destruct Hok as [[Hd Hc Hs Hp] <-]. split; [by apply Hp|]. intros Hdone Hl. apply ws_return; [done|by apply Hs].
Qed.
End watch.

Lemma watcher_stops_witness :
  wt_panicked (mkWatch 5%Z (initial_world 3) true Looping [StopDone; StopDone] false) = false ∧
  watch_step MostFreeSpaceStrategy MostFreeSpaceStrategy 10%Z (mkWatch 5%Z (initial_world 3) true Looping [StopDone; StopDone] false)
    (mkWatch 5%Z (initial_world 3) true Left [StopDone; StopDone] false).
Proof.
  destruct (watcher_stops MostFreeSpaceStrategy MostFreeSpaceStrategy 10%Z 5%Z (initial_world 3)
    (mkWatch 5%Z (initial_world 3) true Looping [StopDone; StopDone] false)) as [H1 H2]; [lia| |].
  - eapply rtc_l; [split; [by apply ws_ticker|done]|].
    eapply rtc_l; [split; [by apply ws_call|constructor]|].
    eapply rtc_l; [split; [apply (ws_stop _ _ _ _ 0), ws_default; reflexivity|done]|].
    eapply rtc_l; [split; [apply (ws_stop _ _ _ _ 0), ws_close; reflexivity|done]|].
    eapply rtc_l; [split; [by apply ws_call|intros _; repeat constructor]|].
    eapply rtc_l; [split; [apply (ws_stop _ _ _ _ 1), ws_closed; reflexivity|done]|]. apply rtc_refl.
  - split; [exact H1|]. apply H2; [left|reflexivity].
Defined.

(** Two calls of [Stop] at the same time: both find the channel open, and the second close
    panics. *)
Theorem concurrent_stops_panic `{!MapRange, !GoSort} (src tgt : PlacementStrategy) (timeout interval : Duration) (w : World) :
  rtc (watch_step src tgt timeout) (NewNodeWatcher interval w) (mkWatch interval w true Entering [StopDone; StopDone] true).
Proof.
  eapply rtc_l; [apply ws_call|]. eapply rtc_l; [apply ws_call|].
  eapply rtc_l; [apply (ws_stop _ _ _ _ 0), ws_default; reflexivity|].
  eapply rtc_l; [apply (ws_stop _ _ _ _ 1), ws_default; reflexivity|].
  eapply rtc_l; [apply (ws_stop _ _ _ _ 0), ws_close; reflexivity|].
  eapply rtc_l; [apply (ws_stop _ _ _ _ 1), ws_panic; reflexivity|]. apply rtc_refl.
Qed.

(** ** The repair scheduler *)

Definition workerCount : nat := 5.

(** A worker of [spawnWorkers]: at its [select], with a job it took, returning, or counted
    off by its [wg.Done()]. *)
Inductive worker_pc := WkSelect | WkJob (jobID : string) | WkReturned | WkDone.

(** The goroutine around [spawnWorkers]: before [wg.Add(count)], with workers to launch and
    then at [wg.Wait()], returning, or done with [rs.wg]. *)
Inductive spawn_pc := SpStart | SpLaunch (left : nat) | SpReturned | SpDone.

(** The goroutine of [RecoverStuckJobs]: before its scan, at the check of the context with
    the jobs left, past the check, in [enqueueJob], returning, or done with [rs.wg]. *)
Inductive recover_pc :=
| RcStart
| RcHead (l : list RepairJob)
| RcJob (val : RepairJob) (l : list RepairJob)
| RcSend (jobID : string) (l : list RepairJob)
| RcReturned
| RcDone.

(** A call of [Stop]: not made, at [rs.wg.Wait()], or returned. *)
Inductive stop_call := NotStopped | Joining | Joined.

Record Repairs := mkRepairs {
  rp_world : World;
  rp_cancelled : bool;          (* rs.ctx *)
  rp_wg : nat;                  (* the counter of rs.wg *)
  rp_spawner : spawn_pc;
  rp_inner : nat;               (* the counter of the wg of spawnWorkers *)
  rp_workers : list worker_pc;
  rp_recovery : recover_pc;
  rp_stop : stop_call;
}.

Definition scheduler_Start (w : World) : Repairs := mkRepairs w false 2 SpStart 0 [] RcStart NotStopped.

Definition cancel (x : Repairs) : Repairs :=
  mkRepairs (rp_world x) true (rp_wg x) (rp_spawner x) (rp_inner x) (rp_workers x) (rp_recovery x) Joining.

Definition with_repairs_world (w : World) (x : Repairs) : Repairs :=
  mkRepairs w (rp_cancelled x) (rp_wg x) (rp_spawner x) (rp_inner x) (rp_workers x) (rp_recovery x) (rp_stop x).
Definition with_spawner (sp : spawn_pc) (wg inner : nat) (l : list worker_pc) (x : Repairs) : Repairs :=
  mkRepairs (rp_world x) (rp_cancelled x) wg sp inner l (rp_recovery x) (rp_stop x).
Definition with_worker (w : World) (i : nat) (pc : worker_pc) (inner : nat) (x : Repairs) : Repairs :=
  mkRepairs w (rp_cancelled x) (rp_wg x) (rp_spawner x) inner (<[i := pc]> (rp_workers x)) (rp_recovery x) (rp_stop x).
Definition with_recovery (w : World) (r : recover_pc) (wg : nat) (x : Repairs) : Repairs :=
  mkRepairs w (rp_cancelled x) wg (rp_spawner x) (rp_inner x) (rp_workers x) r (rp_stop x).

Section repairs.
Context `{!MapRange, !GoSort} (src : PlacementStrategy).

Notation queue w := (jobs (wd_sched w)).
Notation with_queue js w := (set_sched (set_jobs js (wd_sched w)) w).

(** A step of a worker, of the goroutine that spawns them, of the recovery, and the return
    of [Stop].  A [select] with several ready cases takes any of them. *)
Inductive own_step (x : Repairs) : Repairs → Prop :=
| wk_take i j rest : rp_workers x !! i = Some WkSelect → queue (rp_world x) = j :: rest →
    own_step x (with_worker (with_queue rest (rp_world x)) i (WkJob j) (rp_inner x) x)
| wk_run (E : Env) i j : rp_workers x !! i = Some (WkJob j) →
    own_step x (with_worker (executeJob j (rp_world x)).2 i WkSelect (rp_inner x) x)
| wk_exit i : rp_workers x !! i = Some WkSelect → rp_cancelled x = true →
    own_step x (with_worker (rp_world x) i WkReturned (rp_inner x) x)
| wk_done i : rp_workers x !! i = Some WkReturned →
    own_step x (with_worker (rp_world x) i WkDone (pred (rp_inner x)) x)
| sp_add : rp_spawner x = SpStart →
    own_step x (with_spawner (SpLaunch workerCount) (rp_wg x) (rp_inner x + workerCount) (rp_workers x) x)
| sp_go k : rp_spawner x = SpLaunch (S k) →
    own_step x (with_spawner (SpLaunch k) (rp_wg x) (rp_inner x) (rp_workers x ++ [WkSelect]) x)
| sp_wait : rp_spawner x = SpLaunch 0 → rp_inner x = 0 →
    own_step x (with_spawner SpReturned (rp_wg x) (rp_inner x) (rp_workers x) x)
| sp_done : rp_spawner x = SpReturned →
    own_step x (with_spawner SpDone (pred (rp_wg x)) (rp_inner x) (rp_workers x) x)
| rc_scan : rp_recovery x = RcStart →
    own_step x (with_recovery (rp_world x) (RcHead (GetJobsByStatus (wd_fsm (rp_world x)) RepairStatusInProgress)) (rp_wg x) x)
| rc_end : rp_recovery x = RcHead [] → own_step x (with_recovery (rp_world x) RcReturned (rp_wg x) x)
| rc_stop val l : rp_recovery x = RcHead (val :: l) → rp_cancelled x = true →
    own_step x (with_recovery (rp_world x) RcReturned (rp_wg x) x)
| rc_next val l : rp_recovery x = RcHead (val :: l) → rp_cancelled x = false →
    own_step x (with_recovery (rp_world x) (RcJob val l) (rp_wg x) x)
| rc_choose (E : Env) val l : rp_recovery x = RcJob val l →
    own_step x (let '(again, w) := recover_choice src val (rp_world x) in
                with_recovery w (if again : bool then RcSend (rj_JobID val) l else RcHead l) (rp_wg x) x)
| rc_send j l : rp_recovery x = RcSend j l → length (queue (rp_world x)) < repairQueueCapacity →
    own_step x (with_recovery (with_queue (queue (rp_world x) ++ [j]) (rp_world x)) (RcHead l) (rp_wg x) x)
| rc_cancelled j l : rp_recovery x = RcSend j l → rp_cancelled x = true →
    own_step x (with_recovery (rp_world x) RcReturned (rp_wg x) x)
| rc_done : rp_recovery x = RcReturned → own_step x (with_recovery (rp_world x) RcDone (pred (rp_wg x)) x)
| st_return : rp_stop x = Joining → rp_wg x = 0 →
    own_step x (mkRepairs (rp_world x) (rp_cancelled x) (rp_wg x) (rp_spawner x) (rp_inner x) (rp_workers x) (rp_recovery x) Joined).

(** And of the rest of the process. *)
Inductive repairs_step (x : Repairs) : Repairs → Prop :=
| rs_own x' : own_step x x' → repairs_step x x'
| rs_stop : rp_stop x = NotStopped → repairs_step x (cancel x)
| rs_world w : repairs_step x (with_repairs_world w x).

(** *** The counters of the wait groups *)

Definition running (pc : worker_pc) : nat := match pc with WkDone => 0 | _ => 1 end.
Definition to_launch (sp : spawn_pc) : nat := match sp with SpLaunch k => k | _ => 0 end.

Lemma sum_list_insert {A} (f : A → nat) (l : list A) i x y :
  l !! i = Some x → sum_list_with f (<[i := y]> l) + f x = sum_list_with f l + f y.
Proof.
  revert i. induction l as [|z l IH]; intros [|i] Hi; simplify_eq/=; [lia|]. specialize (IH i Hi). lia.
Qed.

Record groups_ok (x : Repairs) : Prop := {
  go_wg : rp_wg x = (match rp_spawner x with SpDone => 0 | _ => 1 end) + (match rp_recovery x with RcDone => 0 | _ => 1 end);
  go_inner : rp_inner x = to_launch (rp_spawner x) + sum_list_with running (rp_workers x);
  go_waited : rp_spawner x = SpReturned ∨ rp_spawner x = SpDone → rp_inner x = 0;
  go_launched : length (rp_workers x) + to_launch (rp_spawner x) = match rp_spawner x with SpStart => 0 | _ => workerCount end;
  go_cancelled : rp_stop x ≠ NotStopped → rp_cancelled x = true;
  go_joined : rp_stop x = Joined → rp_wg x = 0;
}.

Lemma worker_ok w i pc pc' inner x :
  groups_ok x → rp_workers x !! i = Some pc → running pc = 1 → inner = rp_inner x + running pc' - 1 →
  groups_ok (with_worker w i pc' inner x).
Proof.
  intros [H1 H2 H3 H4 H5 H6] Hi Hpc ->. pose proof (sum_list_insert running (rp_workers x) i pc pc' Hi) as Hs.
  assert (Hrun : 1 ≤ sum_list_with running (rp_workers x)).
  { rewrite <-Hpc. apply sum_list_with_in. by eapply list_elem_of_lookup_2. }
  split; cbn; rewrite ?length_insert; try done; [lia|]. intros Hsp. specialize (H3 Hsp). lia.
Qed.

Lemma recovery_ok w r wg x :
  groups_ok x → rp_recovery x ≠ RcDone → wg = (match r with RcDone => pred (rp_wg x) | _ => rp_wg x end) →
  groups_ok (with_recovery w r wg x).
Proof.
  intros [H1 H2 H3 H4 H5 H6] Hr ->. assert (Hpos : 1 ≤ rp_wg x) by (rewrite H1; destruct (rp_recovery x); (done || lia)).
  split; cbn; try done; [|intros Hj; specialize (H6 Hj); lia].
  rewrite H1. destruct (rp_spawner x), (rp_recovery x), r; done.
Qed.

Lemma own_step_ok x x' : groups_ok x → own_step x x' → groups_ok x'.
Proof.
  intros Hok Hs. pose proof Hok as [H1 H2 H3 H4 H5 H6].
  destruct Hs as [i j rest Hi Hq|E i j Hi|i Hi Hc|i Hi|Hsp|k Hsp|Hsp Hin|Hsp|Hr|Hr|val l Hr Hc|val l Hr Hc|E val l Hr|j l Hr Hq|j l Hr Hc|Hr|Hst Hwg].
  1-4: eapply worker_ok; [done|exact Hi|done|simpl; lia].
  9: destruct (recover_choice src val (rp_world x)) as [[] w].
  5-13: try (apply recovery_ok; [done|by rewrite Hr|done]).
  1-4: rewrite Hsp in *; split; cbn in *; unfold workerCount in *; rewrite ?length_app, ?sum_list_with_app; simpl;
    try done; try (by intros [[=]|[=]]); try lia.
  - intros _. apply H3. by left.
  - intros Hj. by rewrite (H6 Hj).
  - split; cbn; try done. intros _. apply H5. by rewrite Hst.
Qed.

Lemma repairs_step_ok x x' : groups_ok x → repairs_step x x' → groups_ok x'.
Proof.
  intros Hok [? Hs|Hs|w]; [by eapply own_step_ok|..]; destruct Hok; by split.
Qed.

(** *** The end of the goroutines *)

(** The steps a goroutine can still take once the context is cancelled. *)
Definition worker_left (pc : worker_pc) : nat := match pc with WkSelect => 2 | WkJob _ => 3 | WkReturned => 1 | WkDone => 0 end.
Definition spawner_left (sp : spawn_pc) : nat :=
  match sp with SpStart => 3 * workerCount + 3 | SpLaunch k => 3 * k + 2 | SpReturned => 1 | SpDone => 0 end.
Definition recovery_left (r : recover_pc) : nat :=
  match r with RcStart => 3 | RcHead _ => 2 | RcJob _ _ => 6 | RcSend _ _ => 5 | RcReturned => 1 | RcDone => 0 end.
Definition stop_left (st : stop_call) : nat := match st with Joined => 0 | _ => 1 end.

Definition remaining (x : Repairs) : nat :=
  2 * length (queue (rp_world x)) + sum_list_with worker_left (rp_workers x) + spawner_left (rp_spawner x) +
  recovery_left (rp_recovery x) + stop_left (rp_stop x).

Lemma keeps_queue_Propose `{!Env} js c : preserves (λ w, queue w = js) (Propose c).
Proof. intros w Hw. unfold Propose. repeat case_match; by simplify_eq/=. Qed.
Lemma keeps_queue_Now `{!Env} js : preserves (λ w, queue w = js) Now.
Proof. by intros w Hw. Qed.

Lemma executeJob_queue `{!Env} j w : queue (executeJob j w).2 = queue w.
Proof.
  assert (Hk : preserves (λ w', queue w' = queue w) (executeJob j)); [|by apply Hk].
  pose proof (keeps_queue_Propose (queue w)). pose proof (keeps_queue_Now (queue w)). unfold executeJob. preserve; auto.
Qed.

Lemma recover_choice_queue `{!Env} val w : queue (recover_choice src val w).2 = queue w.
Proof.
  assert (Hk : preserves (λ w', queue w' = queue w) (recover_choice src val)); [|by apply Hk].
  pose proof (keeps_queue_Propose (queue w)). pose proof (keeps_queue_Now (queue w)). unfold recover_choice. preserve; auto.
Qed.

Lemma own_step_decreases x x' :
  rp_cancelled x = true → own_step x x' → rp_cancelled x' = true ∧ remaining x' < remaining x.
Proof.
  intros Hcan Hs. unfold remaining.
  destruct Hs as [i j rest Hi Hq|E i j Hi|i Hi Hc|i Hi|Hsp|k Hsp|Hsp Hin|Hsp|Hr|Hr|val l Hr Hc|val l Hr Hc|E val l Hr|j l Hr Hq|j l Hr Hc|Hr|Hst Hwg].
  1-4: pose proof (λ pc, sum_list_insert worker_left (rp_workers x) i _ pc Hi) as Hsum; (split; [done|]); cbn; simpl in Hsum.
  - specialize (Hsum (WkJob j)). rewrite Hq. simpl in *. lia.
  - specialize (Hsum WkSelect). rewrite executeJob_queue. simpl in *. lia.
  - specialize (Hsum WkReturned). simpl in *. lia.
  - specialize (Hsum WkDone). simpl in *. lia.
  - split; [done|]. cbn. rewrite Hsp. simpl. lia.
  - split; [done|]. cbn. rewrite Hsp, sum_list_with_app. simpl. lia.
  - split; [done|]. cbn. rewrite Hsp. simpl. lia.
  - split; [done|]. cbn. rewrite Hsp. simpl. lia.
  - split; [done|]. cbn. rewrite Hr. simpl. lia.
  - split; [done|]. cbn. rewrite Hr. simpl. lia.
  - split; [done|]. cbn. rewrite Hr. simpl. lia.
  - congruence.
  - pose proof (recover_choice_queue val (rp_world x)) as Hq. destruct (recover_choice src val (rp_world x)) as [again w]. simpl in Hq.
    split; [done|]. cbn. rewrite Hr, Hq. destruct again; simpl; lia.
  - split; [done|]. cbn. rewrite Hr, length_app. simpl. lia.
  - split; [done|]. cbn. rewrite Hr. simpl. lia.
  - split; [done|]. cbn. rewrite Hr. simpl. lia.
  - split; [done|]. cbn. rewrite Hst. simpl. lia.
Qed.

Lemma own_steps_bounded n x x' :
  rp_cancelled x = true → nsteps own_step n x x' → rp_cancelled x' = true ∧ n + remaining x' ≤ remaining x.
Proof.
  intros Hc Hn. induction Hn as [x|n x y z Hs _ IH]; [done|].
  destruct (own_step_decreases x y Hc Hs) as [Hc' Hlt]. destruct (IH Hc'). split; [done|lia].
Qed.

(** Two steps for each queued job, three for each worker, nine for the other goroutines
    and one for the return of [Stop]. *)
Lemma remaining_bound x : groups_ok x → remaining x ≤ 2 * length (queue (rp_world x)) + 3 * workerCount + 10.
Proof.
  intros [_ _ _ H4 _ _]. unfold remaining.
  assert (Hw : ∀ l, sum_list_with worker_left l ≤ 3 * length l).
  { induction l as [|pc l IH]; [done|]. simpl. destruct pc; simpl; lia. }
  specialize (Hw (rp_workers x)).
  assert (Hr : recovery_left (rp_recovery x) ≤ 6) by (destruct (rp_recovery x); simpl; lia).
  assert (Hs : stop_left (rp_stop x) ≤ 1) by (destruct (rp_stop x); simpl; lia).
  unfold workerCount in *. destruct (rp_spawner x); simpl in *; unfold workerCount in *; lia.
Qed.

(** While [Stop] waits, some goroutine can go on, or it returns. *)
Lemma joining_goes_on (E : Env) x : groups_ok x → rp_stop x = Joining → ∃ y, own_step x y.
Proof.
  intros Hok Hst. pose proof (go_cancelled _ Hok ltac:(by rewrite Hst)) as Hc.
  destruct (rp_recovery x) as [|[|val l]|val l|j l| |] eqn:Hr;
    [by eexists; apply rc_scan|by eexists; apply rc_end|by eexists; eapply rc_stop|by eexists; eapply rc_choose
    |by eexists; eapply rc_cancelled|by eexists; apply rc_done|].
  destruct (rp_spawner x) as [|[|k]| |] eqn:Hsp;
    [by eexists; apply sp_add| |by eexists; eapply sp_go|by eexists; apply sp_done|].
  - destruct (decide (rp_inner x = 0)) as [Hz|Hz]; [by eexists; apply sp_wait|].
    assert (Hw : ∃ i pc, rp_workers x !! i = Some pc ∧ pc ≠ WkDone).
    { pose proof (go_inner _ Hok) as Hin. rewrite Hsp in Hin. simpl in Hin. rewrite Hin in Hz.
      clear -Hz. induction (rp_workers x) as [|pc l IH]; [done|]. simpl in Hz. destruct pc; [by exists 0; eauto..|].
      destruct IH as (i & pc & Hi & Hne); [done|]. by exists (S i), pc. }
    destruct Hw as (i & [| | |] & Hi & Hne);
      [by eexists; eapply wk_exit|by eexists; eapply wk_run|by eexists; eapply wk_done|done].
  - eexists. apply st_return; [done|]. rewrite (go_wg _ Hok), Hsp, Hr. done.
Qed.

(** C28. [Stop] of the scheduler waits for its goroutines, by the counters of the two wait
    groups, and comes back.  Whatever the rest of the process does, when [Stop] has returned
    no worker runs, nor the recovery of stuck jobs, and none will: the goroutines take no
    further step.  And once [Stop] has been called, if nobody else puts jobs into the queue,
    the goroutines take at most two steps for each queued job, three for each worker and ten
    more, whichever cases their selects take and wherever the recovery is, and when none of
    them can take a step, [Stop] has returned. *)
Theorem scheduler_stop_joins (w : World) (x x' : Repairs) (n : nat) :
  rtc repairs_step (scheduler_Start w) x →
  (rp_stop x = Joined → ∀ y, ¬ own_step x y) ∧
  (rp_stop x = Joining → nsteps own_step n x x' →
    n ≤ 2 * length (queue (rp_world x)) + 3 * workerCount + 10 ∧ ((∀ y, ¬ own_step x' y) → rp_stop x' = Joined)).
Proof.
  intros Hrun. assert (Hok : groups_ok x).
  { apply (rtc_keeps _ groups_ok _ _ repairs_step_ok Hrun). by split. }
  split.
  - intros Hj y Hs. pose proof (go_joined _ Hok Hj) as Hwg. rewrite (go_wg _ Hok) in Hwg.
    assert (Hsp : rp_spawner x = SpDone) by (by destruct (rp_spawner x)).
    assert (Hr : rp_recovery x = RcDone) by (by destruct (rp_recovery x), (rp_spawner x)).
    pose proof (go_inner _ Hok) as Hin. rewrite (go_waited _ Hok), Hsp in Hin by auto. simpl in Hin.
    assert (Hw : ∀ i pc, rp_workers x !! i = Some pc → pc = WkDone).
    { intros i pc Hi. pose proof (sum_list_with_in pc running (rp_workers x) ltac:(by eapply list_elem_of_lookup_2)) as Hle.
      destruct pc; simpl in Hle; (lia || done). }
    destruct Hs; try congruence; by match goal with H : rp_workers x !! _ = _ |- _ => specialize (Hw _ _ H) end.
  - intros Hj Hn. destruct (own_steps_bounded n x x') as [Hc Hb]; [apply (go_cancelled _ Hok); by rewrite Hj|done|].
    pose proof (remaining_bound x Hok). split; [lia|]. intros Hstuck.
    assert (Hx' : groups_ok x' ∧ rp_stop x' ≠ NotStopped).
    { apply (rtc_keeps own_step (λ x, groups_ok x ∧ rp_stop x ≠ NotStopped) x x').
      - intros a b [Ha Hsa] Hs. split; [by apply (own_step_ok a)|]. destruct Hs; try done.
        by destruct (recover_choice src val (rp_world a)).
      - by apply rtc_nsteps_2 in Hn.
      - by rewrite Hj. }
    destruct Hx' as [Ho Hs']. destruct (rp_stop x') eqn:He; [done| |done].
    destruct (joining_goes_on demo_Env x' Ho He) as [y Hy]. by apply Hstuck in Hy.
Qed.
End repairs.

(** [Stop] is called at once; the recovery scans and ends, the workers are launched and
    leave. *)
Definition w_pool (launch inner : nat) (l : list worker_pc) : Repairs :=
  mkRepairs (initial_world 3) true 1 (SpLaunch launch) inner l RcDone Joining.
Definition w_joining : Repairs := w_pool 4 5 [WkSelect].
Definition w_stopped : Repairs := mkRepairs (initial_world 3) true 0 SpDone 0 (replicate 5 WkDone) RcDone Joined.

Lemma scheduler_stop_joins_witness :
  (∀ y, ¬ own_step MostFreeSpaceStrategy w_stopped y) ∧
  nsteps (own_step MostFreeSpaceStrategy) 1 w_joining (with_worker (initial_world 3) 0 WkReturned 5 w_joining) ∧
  1 ≤ 2 * length (jobs (wd_sched (rp_world w_joining))) + 3 * workerCount + 10.
Proof.
  assert (Hjoining : rtc (repairs_step MostFreeSpaceStrategy) (scheduler_Start (initial_world 3)) w_joining).
  { eapply rtc_l; [apply rs_stop; reflexivity|]. eapply rtc_l; [apply rs_own, rc_scan; reflexivity|].
    eapply rtc_l; [apply rs_own, rc_end; reflexivity|]. eapply rtc_l; [apply rs_own, rc_done; reflexivity|].
    eapply rtc_l; [apply rs_own, sp_add; reflexivity|]. eapply rtc_l; [apply rs_own, (sp_go _ _ 4); reflexivity|].
    apply rtc_refl. }
  assert (Hleave : ∀ d k l, l !! d = Some WkSelect →
    rtc (repairs_step MostFreeSpaceStrategy) (w_pool 0 (S k) l) (w_pool 0 k (<[d := WkDone]> l))).
  { intros d k l Hl.
    refine (rtc_l _ _ (w_pool 0 (S k) (<[d := WkReturned]> l)) _ (rs_own _ _ _ (wk_exit _ (w_pool 0 (S k) l) d Hl eq_refl)) _).
    assert (Hret : <[d := WkReturned]> l !! d = Some WkReturned) by (apply list_lookup_insert_eq; by eapply lookup_lt_Some).
    rewrite <-(list_insert_insert_eq l d WkDone WkReturned).
    exact (rtc_once _ _ (rs_own _ _ _ (wk_done _ (w_pool 0 (S k) (<[d := WkReturned]> l)) d Hret))). }
  assert (Hone : nsteps (own_step MostFreeSpaceStrategy) 1 w_joining (with_worker (initial_world 3) 0 WkReturned 5 w_joining)).
  { eapply nsteps_l; [apply (wk_exit _ _ 0); reflexivity|apply nsteps_O]. }
  split_and!; [|exact Hone|].
  - refine (proj1 (scheduler_stop_joins MostFreeSpaceStrategy (initial_world 3) w_stopped w_stopped 0 _) eq_refl).
    etrans; [exact Hjoining|].
    refine (rtc_l _ _ (w_pool 3 5 (replicate 2 WkSelect)) _ (rs_own _ _ _ (sp_go _ w_joining 3 eq_refl)) _).
    refine (rtc_l _ _ (w_pool 2 5 (replicate 3 WkSelect)) _ (rs_own _ _ _ (sp_go _ (w_pool 3 5 (replicate 2 WkSelect)) 2 eq_refl)) _).
    refine (rtc_l _ _ (w_pool 1 5 (replicate 4 WkSelect)) _ (rs_own _ _ _ (sp_go _ (w_pool 2 5 (replicate 3 WkSelect)) 1 eq_refl)) _).
    refine (rtc_l _ _ (w_pool 0 5 (replicate 5 WkSelect)) _ (rs_own _ _ _ (sp_go _ (w_pool 1 5 (replicate 4 WkSelect)) 0 eq_refl)) _).
    etrans; [apply (Hleave 0 4); reflexivity|]. etrans; [apply (Hleave 1 3); reflexivity|]. etrans; [apply (Hleave 2 2); reflexivity|].
    etrans; [apply (Hleave 3 1); reflexivity|]. etrans; [apply (Hleave 4 0); reflexivity|].
    refine (rtc_l _ _ (mkRepairs (initial_world 3) true 1 SpReturned 0 (replicate 5 WkDone) RcDone Joining) _
      (rs_own _ _ _ (sp_wait _ (w_pool 0 0 (replicate 5 WkDone)) eq_refl eq_refl)) _).
    refine (rtc_l _ _ (mkRepairs (initial_world 3) true 0 SpDone 0 (replicate 5 WkDone) RcDone Joining) _
      (rs_own _ _ _ (sp_done _ (mkRepairs (initial_world 3) true 1 SpReturned 0 (replicate 5 WkDone) RcDone Joining) eq_refl)) _).
    exact (rtc_once _ _ (rs_own _ _ _ (st_return _ (mkRepairs (initial_world 3) true 0 SpDone 0 (replicate 5 WkDone) RcDone Joining) eq_refl eq_refl))).
  - exact (proj1 (proj2 (scheduler_stop_joins MostFreeSpaceStrategy (initial_world 3) w_joining _ 1 Hjoining) eq_refl Hone)).
Defined.
