(* ===== verification/Sha256.v ===== *)
(** * SHA-256 and internal/checksum

    [crypto/sha256] as FIPS 180-4 defines it, on 32-bit words kept in [Z], so that the
    checksums and chunk identifiers of the model are those of the program.  The
    theorems use of it only that it is a function, that a digest has 32 bytes, and,
    where they say so, that two given inputs do not collide. *)

From S2P Require Import Prelude.

#[local] Open Scope Z_scope.

Definition w32 (x : Z) : Z := x `mod` two32.
Definition rotr (n x : Z) : Z := Z.lor (Z.shiftr x n) (w32 (Z.shiftl x (32 - n))).

Definition K256 : list Z :=
  [1116352408; 1899447441; 3049323471; 3921009573; 961987163; 1508970993; 2453635748; 2870763221;
   3624381080; 310598401; 607225278; 1426881987; 1925078388; 2162078206; 2614888103; 3248222580;
   3835390401; 4022224774; 264347078; 604807628; 770255983; 1249150122; 1555081692; 1996064986;
   2554220882; 2821834349; 2952996808; 3210313671; 3336571891; 3584528711; 113926993; 338241895;
   666307205; 773529912; 1294757372; 1396182291; 1695183700; 1986661051; 2177026350; 2456956037;
   2730485921; 2820302411; 3259730800; 3345764771; 3516065817; 3600352804; 4094571909; 275423344;
   430227734; 506948616; 659060556; 883997877; 958139571; 1322822218; 1537002063; 1747873779;
   1955562222; 2024104815; 2227730452; 2361852424; 2428436474; 2756734187; 3204031479; 3329325298].

Definition H256 : list Z :=
  [1779033703; 3144134277; 1013904242; 2773480762; 1359893119; 2600822924; 528734635; 1541459225].

Definition Ch (x y z : Z) : Z := Z.lxor (Z.land x y) (Z.land (Z.lxor x (two32 - 1)) z).
Definition Maj (x y z : Z) : Z := Z.lxor (Z.lxor (Z.land x y) (Z.land x z)) (Z.land y z).
Definition BSig0 (x : Z) : Z := Z.lxor (Z.lxor (rotr 2 x) (rotr 13 x)) (rotr 22 x).
Definition BSig1 (x : Z) : Z := Z.lxor (Z.lxor (rotr 6 x) (rotr 11 x)) (rotr 25 x).
Definition SSig0 (x : Z) : Z := Z.lxor (Z.lxor (rotr 7 x) (rotr 18 x)) (Z.shiftr x 3).
Definition SSig1 (x : Z) : Z := Z.lxor (Z.lxor (rotr 17 x) (rotr 19 x)) (Z.shiftr x 10).

(** Big-endian words. *)
Definition byte_to_Z (b : byte) : Z := Z.of_N (Ascii.N_of_ascii b).
Definition Z_to_byte (z : Z) : byte := Ascii.ascii_of_N (Z.to_N z).

Fixpoint words (l : list Z) : list Z :=
  match l with
  | a :: b :: c :: d :: rest =>
      (Z.shiftl a 24 + Z.shiftl b 16 + Z.shiftl c 8 + d) :: words rest
  | _ => []
  end.

Definition word_bytes (w : Z) : list Z :=
  [Z.shiftr w 24 `mod` 256; Z.shiftr w 16 `mod` 256; Z.shiftr w 8 `mod` 256; w `mod` 256].

(** The message schedule, newest word first. *)
Fixpoint extend (n : nat) (w : list Z) : list Z :=
  match n with
  | O => w
  | S n' =>
      let g i := nth i w 0 in
      extend n' (w32 (SSig1 (g 1%nat) + g 6%nat + SSig0 (g 14%nat) + g 15%nat) :: w)
  end.
Definition schedule (block : list Z) : list Z := rev (extend 48 (rev (words block))).

Definition round (st : list Z) (kw : Z * Z) : list Z :=
  match st with
  | [a; b; c; d; e; f; g; h] =>
      let t1 := h + BSig1 e + Ch e f g + kw.1 + kw.2 in
      let t2 := BSig0 a + Maj a b c in
      [w32 (t1 + t2); a; b; c; w32 (d + t1); e; f; g]
  | _ => st
  end.

Definition compress (h : list Z) (block : list Z) : list Z :=
  zip_with (λ x y, w32 (x + y)) h (foldl round h (zip K256 (schedule block))).

(** A one bit, zeros, and the length in bits as 64-bit big-endian. *)
Definition pad (l : list Z) : list Z :=
  let n := length l in
  let z := ((119 - (n mod 64)) mod 64)%nat in
  let bits := Z.of_nat n * 8 in
  l ++ [128] ++ repeat 0 z ++ word_bytes (Z.shiftr bits 32 `mod` two32) ++ word_bytes (bits `mod` two32).

Fixpoint blocks (fuel : nat) (l : list Z) (h : list Z) : list Z :=
  match fuel, l with
  | O, _ => h
  | _, [] => h
  | S fuel', _ => blocks fuel' (drop 64 l) (compress h (take 64 l))
  end.

(** [sha256.Sum256]; the padded message has at most [length l / 64 + 2] blocks. *)
Definition sha256 (data : bytes) : bytes :=
  let l := pad (byte_to_Z <$> data) in
  Z_to_byte <$> mjoin (word_bytes <$> blocks (length l) l H256).

(** [hex.EncodeToString] *)
Definition hex_digit (n : N) : byte :=
  Ascii.ascii_of_N (if decide (n < 10)%N then n + 48 else n + 87)%N.
Definition hex_byte (b : byte) : bytes :=
  [hex_digit (Ascii.N_of_ascii b / 16)%N; hex_digit (Ascii.N_of_ascii b `mod` 16)%N].
Definition hex_encode (b : bytes) : bytes := mjoin (hex_byte <$> b).

(** [[]byte(s)] and [string(b)] *)
Definition to_bytes (s : string) : bytes := String.list_ascii_of_string s.
Definition of_bytes (b : bytes) : string := String.string_of_list_ascii b.

(** [Compute] and [ComputeChunkID] of internal/checksum; [%d] of a non-negative index. *)
Definition Compute_checksum (data : bytes) : bytes := sha256 data.
Definition ComputeChunkID (fileID : string) (index : nat) : string :=
  of_bytes (hex_encode (sha256 (to_bytes (fileID +:+ pretty index)))).

(** ** Test vectors and lengths *)

Example sha256_empty :
  of_bytes (hex_encode (sha256 [])) =
    "e3b0c44298fc1c149afbf4c8996fb92427ae41e4649b934ca495991b7852b855".
Proof. vm_compute. reflexivity. Qed.

Example sha256_abc :
  of_bytes (hex_encode (sha256 (to_bytes "abc"))) =
    "ba7816bf8f01cfea414140de5dae2223b00361a396177a9cb410ff61f20015ad".
Proof. vm_compute. reflexivity. Qed.

Lemma length_round st kw : length (round st kw) = length st.
Proof. unfold round. by repeat case_match. Qed.

Lemma length_rounds l st : length (foldl round st l) = length st.
Proof. revert st. induction l as [|x l IH]; intros st; simpl; [done|]. by rewrite IH, length_round. Qed.

Lemma length_blocks n l h : length (blocks n l h) = length h.
Proof.
  revert l h. induction n as [|n IH]; intros [|x l] h; try done.
  simpl blocks. rewrite IH. unfold compress. rewrite length_zip_with, length_rounds. lia.
Qed.

Lemma sha256_length data : length (sha256 data) = 32%nat.
Proof.
  unfold sha256. rewrite length_fmap. generalize (length_blocks
    (length (pad (byte_to_Z <$> data))) (pad (byte_to_Z <$> data)) H256).
  generalize (blocks (length (pad (byte_to_Z <$> data))) (pad (byte_to_Z <$> data)) H256) as h.
  intros h Hh. simpl in Hh. do 8 (destruct h as [|? h]; [done|]). by destruct h.
Qed.

#[global] Opaque sha256.

Lemma length_hex b : length (hex_encode b) = (2 * length b)%nat.
Proof. induction b as [|x b IH]; [done|]. unfold hex_encode in *. csimpl. rewrite IH. lia. Qed.

(** Every character of a hexadecimal string is a digit or a letter from a to f. *)
Definition is_hex (c : byte) : Prop :=
  let n := Ascii.N_of_ascii c in ((48 ≤ n ∧ n ≤ 57) ∨ (97 ≤ n ∧ n ≤ 102))%N.

Lemma hex_digit_is_hex n : (n < 16)%N → is_hex (hex_digit n).
Proof.
  intros Hn. unfold is_hex, hex_digit. case_decide; rewrite Ascii.N_ascii_embedding by lia; lia.
Qed.

Lemma N_of_ascii_bound c : (Ascii.N_of_ascii c < 256)%N.
Proof. destruct c as [[] [] [] [] [] [] [] []]; vm_compute; reflexivity. Qed.

Lemma hex_encode_is_hex b : Forall is_hex (hex_encode b).
Proof.
  induction b as [|x b IH]; [constructor|]. unfold hex_encode in *. csimpl.
  pose proof (N_of_ascii_bound x).
  constructor; [apply hex_digit_is_hex, N.Div0.div_lt_upper_bound; lia|].
  constructor; [apply hex_digit_is_hex, N.mod_lt; lia|done].
Qed.
