(* ===== verification/DiskStore.v ===== *)
(** * The chunk store of a storage node: storage/store/disk.go and checksum_index.go

    The disk is a map from paths to contents, and the bbolt bucket a map from chunk
    IDs to checksums, which outlives the process as the files do.  The n-th call to the
    operating system or to bbolt has the outcome [io n] decides: it works, or it
    fails, a failing write leaving some prefix of its data behind.  [rootDir] and
    [tempDir] are kept as [filepath.Clean] leaves them. *)

From Stdlib Require Import Ascii.
From S2P Require Import Prelude GoLib GoText Sha256.

(** ** Errors *)

Definition ErrInvalidChunkId : error := ErrSentinel "chunk-id is not valid".
Definition Err_ChunkNotFound : error := ErrSentinel "chunk not found".
Definition ErrChecksumMismatch : error := ErrSentinel "checksum mismatch".
Definition ErrInsufficientSpace : error := ErrSentinel "insufficient space".
Definition ErrFailedToDelete : error := ErrSentinel "chunk deletion failed".
Definition ErrVerifyFailed : error := ErrSentinel "chunk mismatch checksum verification failed".
Definition ErrDatabaseNotOpened : error := ErrSentinel "database not opened".
Definition ErrDatabaseAlreadyOpened : error := ErrSentinel "database already opened".
Definition ErrKeyNotFound : error := ErrSentinel "key not found".
Definition ErrEmptyKey : error := ErrSentinel "key must not be empty".
Definition ErrNotExist : error := ErrSentinel "file does not exist".

(** ** State *)

Record DiskStore := mkDiskStore {
  rootDir : string;
  tempDir : string;
  splitLevel : Z;            (* uint16 *)
  totalSpace : Z;            (* uint64 *)
  usedSpace : Z;             (* uint64 *)
  index : gmap string bytes; (* the bucket in the database file *)
  opened : bool;             (* the database is open *)
  files : gmap string bytes;
  io_calls : nat;
}.

Definition set_used (u : Z) (s : DiskStore) : DiskStore :=
  mkDiskStore (rootDir s) (tempDir s) (splitLevel s) (totalSpace s) u (index s) (opened s) (files s)
    (io_calls s).
Definition set_index (i : gmap string bytes) (s : DiskStore) : DiskStore :=
  mkDiskStore (rootDir s) (tempDir s) (splitLevel s) (totalSpace s) (usedSpace s) i (opened s) (files s)
    (io_calls s).
Definition set_opened (o : bool) (s : DiskStore) : DiskStore :=
  mkDiskStore (rootDir s) (tempDir s) (splitLevel s) (totalSpace s) (usedSpace s) (index s) o (files s)
    (io_calls s).
Definition set_files (f : gmap string bytes) (s : DiskStore) : DiskStore :=
  mkDiskStore (rootDir s) (tempDir s) (splitLevel s) (totalSpace s) (usedSpace s) (index s) (opened s) f
    (io_calls s).
Definition next_io (s : DiskStore) : DiskStore :=
  mkDiskStore (rootDir s) (tempDir s) (splitLevel s) (totalSpace s) (usedSpace s) (index s) (opened s)
    (files s) (S (io_calls s)).

Inductive io_outcome := IoOk | IoFail (e : error) (written : nat).

(** ** The monad: state, and an error that ends the function *)

Definition SE (A : Type) : Type := DiskStore → res A * DiskStore.

#[global] Instance SE_ret : MRet SE := λ A a s, (Ok a, s).
#[global] Instance SE_bind : MBind SE := λ A B f m s,
  match m s with
  | (Ok a, s') => f a s'
  | (Err e, s') => (Err e, s')
  end.

Definition throw {A} (e : error) : SE A := λ s, (Err e, s).
Definition lift {A} (r : res A) : SE A := λ s, (r, s).
Definition get_st {A} (f : DiskStore → A) : SE A := λ s, (Ok (f s), s).
Definition put_st (f : DiskStore → DiskStore) : SE unit := λ s, (Ok tt, f s).
(** The error as a value, for calls whose error the code inspects. *)
Definition attempt {A} (m : SE A) : SE (res A) := λ s, let '(r, s') := m s in (Ok r, s').

Section os.
Context (io : nat → io_outcome).

(** One call: the effect when it works, the effect when it fails. *)
Definition os_call {A} (ok : SE A) (failed : nat → DiskStore → DiskStore) : SE A := λ s,
  match io (io_calls s) with
  | IoOk => ok (next_io s)
  | IoFail e n => (Err e, failed n (next_io s))
  end.

Definition os_Stat (path : string) : SE Z :=
  os_call (λ s, match files s !! path with
                | Some c => (Ok (Z.of_nat (length c)), s)
                | None => (Err ErrNotExist, s)
                end) (λ _ s, s).

Definition os_ReadFile (path : string) : SE bytes :=
  os_call (λ s, match files s !! path with
                | Some c => (Ok c, s)
                | None => (Err ErrNotExist, s)
                end) (λ _ s, s).

Definition os_WriteFile (path : string) (data : bytes) : SE unit :=
  os_call (λ s, (Ok tt, set_files (<[path := data]> (files s)) s))
    (λ n s, set_files (<[path := take n data]> (files s)) s).

Definition os_Remove (path : string) : SE unit :=
  os_call (λ s, match files s !! path with
                | Some _ => (Ok tt, set_files (delete path (files s)) s)
                | None => (Err ErrNotExist, s)
                end) (λ _ s, s).

Definition os_Rename (src dst : string) : SE unit :=
  os_call (λ s, match files s !! src with
                | Some c => (Ok tt, set_files (<[dst := c]> (delete src (files s))) s)
                | None => (Err ErrNotExist, s)
                end) (λ _ s, s).

(** A call without an effect on contents: [MkdirAll], [Sync], [Open] for reading. *)
Definition os_plain : SE unit := os_call (λ s, (Ok tt, s)) (λ _ s, s).

(** ** The checksum index *)

Definition index_Open : SE unit :=
  o ← get_st opened;
  if (o : bool) then throw ErrDatabaseAlreadyOpened
  else os_call (λ s, (Ok tt, set_opened true s)) (λ _ s, s).

Definition index_Put (key : string) (value : bytes) : SE unit :=
  if decide (key = "") then throw ErrEmptyKey
  else
    o ← get_st opened;
    if negb o then throw ErrDatabaseNotOpened
    else os_call (λ s, (Ok tt, set_index (<[key := value]> (index s)) s)) (λ _ s, s).

Definition index_Get (key : string) : SE bytes :=
  o ← get_st opened;
  if negb o then throw ErrDatabaseNotOpened
  else
    v ← get_st (λ s, index s !! key);
    match v with Some v => mret v | None => throw ErrKeyNotFound end.

(** Keys in bucket order. *)
Definition index_GetAll `{!GoSort} : SE (list string) :=
  o ← get_st opened;
  if negb o then throw ErrDatabaseNotOpened
  else get_st (λ s, go_sort String.ltb (map_to_list (index s)).*1).

Fixpoint put_each (data : list (string * bytes)) : SE unit :=
  match data with
  | [] => mret tt
  | (k, v) :: rest => index_Put k v ;; put_each rest
  end.

Definition index_PutAll (data : list (string * bytes)) : SE unit :=
  o ← get_st opened;
  if negb o then throw ErrDatabaseNotOpened else put_each data.

Definition index_Delete (key : string) : SE unit :=
  if decide (key = "") then throw ErrEmptyKey
  else
    o ← get_st opened;
    if negb o then throw ErrDatabaseNotOpened
    else
      v ← get_st (λ s, index s !! key);
      match v with
      | None => throw ErrKeyNotFound
      | Some _ => os_call (λ s, (Ok tt, set_index (delete key (index s)) s)) (λ _ s, s)
      end.

Definition index_CleanUp : SE unit := put_st (set_opened false).

(** ** Paths *)

(** [strings.Contains(s, "..")] *)
Fixpoint contains_dotdot (s : string) : bool :=
  match s with
  | String c s' =>
      (bool_decide (c = "."%char) &&
       match s' with String d _ => bool_decide (d = "."%char) | _ => false end)
      || contains_dotdot s'
  | _ => false
  end.

(** [len(chunkId) < int(2*ds.splitLevel)], the product being a [uint16]. *)
Definition too_short (chunkId : string) (level : Z) : Prop :=
  (Z.of_nat (String.length chunkId) < (2 * level) `mod` 65536)%Z.

#[global] Instance too_short_dec chunkId level : Decision (too_short chunkId level).
Proof. unfold too_short. apply _. Defined.

Definition validateChunkId (level : Z) (chunkId : string) : res unit :=
  if decide (chunkId = "") then Err ErrInvalidChunkId
  else if decide (too_short chunkId level) then Err ErrInvalidChunkId
  else if contains_char "/"%char chunkId || contains_char "\"%char chunkId || contains_dotdot chunkId then
    Err ErrInvalidChunkId
  else Ok tt.

(** The shard directories, innermost last: [cid[i*2 : i*2+2]] for each level. *)
Definition shards (chunkId : string) (level : Z) : list string :=
  (λ i, String.substring (2 * i) 2 chunkId) <$> seq 0 (Z.to_nat level).

Definition getDirForChunkId (chunkId : string) (level : Z) : res (list string) :=
  if decide (chunkId = "") then Err ErrInvalidChunkId
  else if decide (too_short chunkId level) then Err ErrInvalidChunkId
  else Ok (shards chunkId level).

(** [filepath.Join] of a clean directory and components that need no cleaning. *)
Definition join_path (root : string) (components : list string) : string :=
  let rel := String.concat "/" components in
  if decide (root = ".") then rel
  else if decide (root = "/") then "/" +:+ rel
  else root +:+ "/" +:+ rel.

Definition PathForChunk (s : DiskStore) (chunkId : string) : res string :=
  let? _ := validateChunkId (splitLevel s) chunkId in
  let? shardDir := getDirForChunkId chunkId (splitLevel s) in
  Ok (join_path (rootDir s) (shardDir ++ [chunkId +:+ ".chunk"])).

(** The temporary file; the format string puts two dots before [tmp]. *)
Definition TempDir (s : DiskStore) (chunkId : string) : res string :=
  let? _ := validateChunkId (splitLevel s) chunkId in
  Ok (join_path (tempDir s) [chunkId +:+ "." +:+ ".tmp"]).

(** ** Operations of the store *)

Definition DEFAULT_STORE_SIZE : Z := 4 * 2 ^ 30.

Definition DIR_SHARD_LEVEL : Z := 2.

(** The functional options; the directories are given as [filepath.Clean] leaves them. *)
Definition DiskStoreOptions : Type := DiskStore → DiskStore.

Definition WithRootDir (dir : string) : DiskStoreOptions := λ s,
  mkDiskStore dir (tempDir s) (splitLevel s) (totalSpace s) (usedSpace s) (index s) (opened s) (files s)
    (io_calls s).
Definition WithTempDir (dir : string) : DiskStoreOptions := λ s,
  mkDiskStore (rootDir s) dir (splitLevel s) (totalSpace s) (usedSpace s) (index s) (opened s) (files s)
    (io_calls s).
Definition WithSplitLevel (level : Z) : DiskStoreOptions := λ s,
  mkDiskStore (rootDir s) (tempDir s) level (totalSpace s) (usedSpace s) (index s) (opened s) (files s)
    (io_calls s).
Definition WithTotalSpace (total : Z) : DiskStoreOptions := λ s,
  mkDiskStore (rootDir s) (tempDir s) (splitLevel s) total (usedSpace s) (index s) (opened s) (files s)
    (io_calls s).

Definition ErrNoChecksumStore : error :=
  ErrSentinel "DiskStore: checksumStore is required — use WithChecksumStore()".

(** [NewDiskStore] over what is on the disk already.  [checksumStore] is the index that
    [WithChecksumStore] injects, opened or not, with the bucket of its database. *)
Definition NewDiskStore (opts : list DiskStoreOptions) (checksumStore : option (gmap string bytes * bool))
    (disk : gmap string bytes) : res DiskStore :=
  let ds := mkDiskStore "." "." DIR_SHARD_LEVEL DEFAULT_STORE_SIZE 0 ∅ false disk 0 in
  let ds := foldl (λ s opt, opt s) ds opts in
  let '(r, ds) := (os_plain ;; os_plain) ds in
  match r with
  | Err e => Err e
  | Ok _ =>
      match checksumStore with
      | None => Err ErrNoChecksumStore
      | Some (bucket, o) => Ok (set_opened o (set_index bucket ds))
      end
  end.

Definition Exists (chunkId : string) : SE bool :=
  level ← get_st splitLevel;
  match validateChunkId level chunkId with
  | Err _ => mret false
  | Ok _ => r ← attempt (index_Get chunkId); mret (match r with Ok _ => true | Err _ => false end)
  end.

Definition Delete (chunkId : string) : SE unit :=
  level ← get_st splitLevel;
  _ ← lift (validateChunkId level chunkId);
  there ← Exists chunkId;
  if negb there then throw Err_ChunkNotFound
  else
    path ← get_st (λ s, PathForChunk s chunkId);
    chunkPath ← lift path;
    info ← attempt (os_Stat chunkPath);
    match info with
    | Err e => throw (if decide (e = ErrNotExist) then Err_ChunkNotFound else e)
    | Ok fileSize =>
        removed ← attempt (os_Remove chunkPath);
        match removed with
        | Err _ => throw (ErrWrap "delete" ErrFailedToDelete)
        | Ok _ =>
            _ ← attempt (index_Delete chunkId);
            put_st (λ s, set_used
              (if decide (fileSize ≤ usedSpace s)%Z then (usedSpace s - fileSize)%Z else 0%Z) s)
        end
    end.

(** The size of the chunk's file if the chunk exists, for the overwrite accounting. *)
Definition existing_size (chunkId path : string) : SE Z :=
  there ← Exists chunkId;
  if (there : bool) then
    r ← attempt (os_Stat path); mret (match r with Ok n => n | Err _ => 0%Z end)
  else mret 0%Z.

(** The free-space check: the net increase against the free space, both [uint64]. *)
Definition check_space (newSize existingSize : Z) : SE unit :=
  freeSpace ← get_st (λ s, to_uint64 (totalSpace s - usedSpace s));
  let netDelta := if decide (existingSize < newSize)%Z then (newSize - existingSize)%Z else 0%Z in
  if decide (freeSpace < netDelta)%Z then throw ErrInsufficientSpace else mret tt.

(** The final adjustment of [usedSpace]. *)
Definition account (newSize existingSize : Z) : SE unit :=
  put_st (λ s, set_used
    (if decide (existingSize ≤ newSize)%Z then to_uint64 (usedSpace s + (newSize - existingSize))
     else to_uint64 (usedSpace s - (existingSize - newSize))) s).

Definition Write (chunkId : string) (value : bytes) : SE unit :=
  level ← get_st splitLevel;
  _ ← lift (validateChunkId level chunkId);
  path ← get_st (λ s, PathForChunk s chunkId);
  chunkPath ← lift path;
  existingSize ← existing_size chunkId chunkPath;
  let newSize := Z.of_nat (length value) in
  check_space newSize existingSize;;
  _ ← lift (getDirForChunkId chunkId level);
  os_plain;;
  os_WriteFile chunkPath value;;
  index_Put chunkId (sha256 value);;
  account newSize existingSize.

Definition Rename (source chunkId : string) : SE unit :=
  level ← get_st splitLevel;
  _ ← lift (validateChunkId level chunkId);
  _ ← os_Stat source;
  path ← get_st (λ s, PathForChunk s chunkId);
  dest ← lift path;
  os_plain;;
  existingDestSize ← existing_size chunkId dest;
  srcSize ← os_Stat source;
  check_space srcSize existingDestSize;;
  os_plain;; (* Open *)
  os_plain;; (* Sync *)
  os_plain;; (* Close *)
  os_Rename source dest;;
  _ ← attempt os_plain; (* directory sync *)
  data ← os_ReadFile dest;
  index_Put chunkId (sha256 data);;
  account srcSize existingDestSize.

Definition Read (chunkId : string) : SE bytes :=
  level ← get_st splitLevel;
  match validateChunkId level chunkId with
  | Err _ => throw Err_ChunkNotFound
  | Ok _ =>
      there ← Exists chunkId;
      if negb there then throw Err_ChunkNotFound
      else
        path ← get_st (λ s, PathForChunk s chunkId);
        chunkPath ← lift path;
        os_ReadFile chunkPath
  end.

Definition Verify (chunkId : string) : SE bytes :=
  level ← get_st splitLevel;
  _ ← lift (validateChunkId level chunkId);
  val ← index_Get chunkId;
  data ← Read chunkId;
  if decide (sha256 data = val) then mret val else throw ErrVerifyFailed.

Definition FreeSpace : SE Z := get_st (λ s,
  if decide (totalSpace s < usedSpace s)%Z then 0%Z else (totalSpace s - usedSpace s)%Z).

Definition Size : SE Z := get_st usedSpace.

Definition List `{!GoSort} : SE (list string) := index_GetAll.
End os.
