(* ===== verification/DiskStoreSpec.v ===== *)
(** * Correctness of the chunk store

    Paths stay inside the root directory and never collide.  In a run without I/O
    faults the store keeps its invariant ([store_ok]): every indexed chunk has a file
    with the recorded checksum, and [usedSpace] is the total size of those files and
    at most [totalSpace].  Reads return what was written. *)

From Stdlib Require Import Ascii.
From S2P Require Import Prelude GoLib GoText Sha256 DiskStore.

(** ** Strings *)

Lemma string_app_inv_tail a b x : a +:+ x = b +:+ x → a = b.
Proof.
  revert b. induction a as [|c a IH]; intros [|d b] Heq; simpl in *; [done|..].
  - apply (f_equal String.length) in Heq. simpl in Heq. rewrite !length_app_string in Heq. simpl in Heq. lia.
  - apply (f_equal String.length) in Heq. simpl in Heq. rewrite !length_app_string in Heq. simpl in Heq. lia.
  - injection Heq as -> Heq. f_equal. by apply IH.
Qed.

(** What follows the last slash. *)
Fixpoint last_comp (s : string) : string :=
  match s with
  | EmptyString => EmptyString
  | String c s' =>
      if contains_char "/"%char s' then last_comp s'
      else if decide (c = "/"%char) then s' else String c s'
  end.

Lemma last_comp_id s : contains_char "/"%char s = false → last_comp s = s.
Proof.
  destruct s as [|c s]; simpl; [done|]. intros [Hc Hs]%orb_false_iff.
  rewrite Hs. apply bool_decide_eq_false in Hc. by rewrite decide_False by auto.
Qed.

Lemma last_comp_app a x :
  contains_char "/"%char x = false → last_comp (a +:+ String "/" x) = x.
Proof.
  intros Hx. induction a as [|c a IH]; simpl.
  - by rewrite Hx.
  - rewrite contains_char_app. simpl. rewrite orb_true_r. apply IH.
Qed.

Lemma concat_snoc comps x :
  String.concat "/" (comps ++ [x]) = x ∨ ∃ a, String.concat "/" (comps ++ [x]) = a +:+ String "/" x.
Proof.
  induction comps as [|y comps IH]; [by left|]. right. simpl.
  destruct (comps ++ [x]) as [|z l] eqn:Hl; [by destruct comps|].
  destruct IH as [IH|[a IH]].
  - rewrite IH. by exists y.
  - rewrite IH. exists (y +:+ "/" +:+ a). by rewrite <-!string_app_assoc.
Qed.

Lemma last_comp_join root comps x :
  contains_char "/"%char x = false → last_comp (join_path root (comps ++ [x])) = x.
Proof.
  intros Hx. unfold join_path.
  destruct (concat_snoc comps x) as [->|[a ->]]; repeat case_decide.
  - by apply last_comp_id.
  - by apply (last_comp_app "").
  - by apply last_comp_app.
  - by apply last_comp_app.
  - by apply (last_comp_app ("/" +:+ a)).
  - rewrite !string_app_assoc. by apply last_comp_app.
Qed.

(** ** Valid identifiers *)

Record valid_id (level : Z) (id : string) : Prop := {
  vi_nonempty : id ≠ "";
  vi_long : (2 * level ≤ Z.of_nat (String.length id))%Z;
  vi_slash : contains_char "/"%char id = false;
  vi_dotdot : contains_dotdot id = false;
}.

Lemma validate_valid level id :
  (0 ≤ level < 32768)%Z → validateChunkId level id = Ok tt → valid_id level id.
Proof.
  intros Hl. unfold validateChunkId. case_decide; [done|]. case_decide as Hs; [done|].
  destruct (contains_char "/"%char id) eqn:H1; [done|].
  destruct (contains_char "\"%char id); [done|].
  destruct (contains_dotdot id) eqn:H2; [done|]. intros _. split; try done.
  unfold too_short in Hs. rewrite Z.mod_small in Hs by lia. lia.
Qed.

Lemma substring_slash n m s c :
  contains_char c s = false → contains_char c (String.substring n m s) = false.
Proof.
  revert n m. induction s as [|d s IH]; intros n m; simpl; [by destruct n, m|].
  intros [Hd Hs]%orb_false_iff. destruct n as [|n]; [destruct m as [|m]; [done|]|by apply IH].
  simpl. by rewrite Hd, IH.
Qed.

Lemma substring_length n m s : n + m ≤ String.length s → String.length (String.substring n m s) = m.
Proof.
  revert n m. induction s as [|d s IH]; intros n m; simpl.
  - intros Hle. assert (n = 0 ∧ m = 0) as [-> ->] by lia. done.
  - intros Hle. destruct n as [|n]; [destruct m as [|m]; [done|]|apply IH; lia].
    simpl. f_equal. apply IH. lia.
Qed.

Lemma substring_dotdot n s : contains_dotdot s = false → String.substring n 2 s ≠ "..".
Proof.
  revert n. induction s as [|c s IH]; intros n Hs; [by destruct n|].
  simpl in Hs. apply orb_false_iff in Hs as [Hc Hs]. destruct n as [|n]; [|by apply IH].
  intros Heq. simpl in Heq. injection Heq as -> Heq. destruct s as [|d s]; [done|].
  simpl in Heq. injection Heq as -> _. done.
Qed.

(** A component that [filepath.Clean] keeps as it is and that names one entry. *)
Definition plain_component (x : string) : Prop :=
  x ≠ "" ∧ x ≠ "." ∧ x ≠ ".." ∧ contains_char "/"%char x = false.

Lemma shards_plain level id :
  (0 ≤ level)%Z → valid_id level id → Forall plain_component (shards id level).
Proof.
  intros Hl [Hne Hlong Hs Hd]. unfold shards. rewrite Forall_fmap, Forall_forall.
  intros i [_ Hi]%elem_of_seq. simpl.
  assert (Hlen : String.length (String.substring (i + (i + 0)) 2 id) = 2).
  { apply substring_length. lia. }
  split_and!.
  - intros Heq. by rewrite Heq in Hlen.
  - intros Heq. by rewrite Heq in Hlen.
  - by apply substring_dotdot.
  - by apply substring_slash.
Qed.

Lemma chunk_name_plain level id : valid_id level id → plain_component (id +:+ ".chunk").
Proof.
  intros [Hne _ Hs _]. assert (Hlen : String.length (id +:+ ".chunk") = String.length id + 6)
    by apply length_app_string.
  split_and!; try (intros Heq; rewrite Heq in Hlen; simpl in Hlen; lia).
  by rewrite contains_char_app, Hs.
Qed.

(** ** Paths *)

Lemma PathForChunk_Ok s id p :
  (0 ≤ splitLevel s < 32768)%Z → PathForChunk s id = Ok p →
  valid_id (splitLevel s) id ∧ validateChunkId (splitLevel s) id = Ok tt ∧
  p = join_path (rootDir s) (shards id (splitLevel s) ++ [id +:+ ".chunk"]).
Proof.
  intros Hl. unfold PathForChunk, getDirForChunkId.
  destruct (validateChunkId (splitLevel s) id) as [[]|] eqn:Hv; simpl; [|done].
  repeat case_decide; simpl; try done. intros [= <-]. by pose proof (validate_valid _ _ Hl Hv).
Qed.

Lemma PathForChunk_valid s id :
  validateChunkId (splitLevel s) id = Ok tt → ∃ p, PathForChunk s id = Ok p.
Proof.
  intros Hv. unfold PathForChunk, getDirForChunkId. rewrite Hv. simpl.
  unfold validateChunkId in Hv. repeat case_decide; try done. simpl. eauto.
Qed.

Lemma PathForChunk_last s id p :
  (0 ≤ splitLevel s < 32768)%Z → PathForChunk s id = Ok p → last_comp p = id +:+ ".chunk".
Proof.
  intros Hl (Hv & _ & ->)%PathForChunk_Ok; [|done].
  apply last_comp_join. by apply (chunk_name_plain (splitLevel s)).
Qed.

Lemma PathForChunk_inj s id1 id2 p :
  (0 ≤ splitLevel s < 32768)%Z → PathForChunk s id1 = Ok p → PathForChunk s id2 = Ok p → id1 = id2.
Proof.
  intros Hl H1%PathForChunk_last H2%PathForChunk_last; try done. rewrite H1 in H2.
  by apply string_app_inv_tail in H2.
Qed.

Lemma TempDir_last s id p :
  (0 ≤ splitLevel s < 32768)%Z → TempDir s id = Ok p → last_comp p = id +:+ "..tmp".
Proof.
  intros Hl. unfold TempDir. destruct (validateChunkId (splitLevel s) id) as [[]|] eqn:Hv; simpl; [|done].
  intros [= <-]. apply (last_comp_join (tempDir s) []).
  rewrite contains_char_app. by rewrite (vi_slash _ _ (validate_valid _ _ Hl Hv)).
Qed.

Lemma suffix_last_char a b c d : a +:+ String c "" = b +:+ String d "" → c = d.
Proof.
  revert b. induction a as [|x a IH]; intros [|y b] Heq; simpl in *.
  - by injection Heq.
  - injection Heq as -> Heq. by destruct b.
  - injection Heq as -> Heq. by destruct a.
  - injection Heq as -> Heq. by apply IH in Heq.
Qed.

(** A temporary file is never the file of a chunk. *)
Lemma TempDir_not_chunk s id1 id2 p q :
  (0 ≤ splitLevel s < 32768)%Z → TempDir s id1 = Ok p → PathForChunk s id2 = Ok q → p ≠ q.
Proof.
  intros Hl Hp%TempDir_last Hq%PathForChunk_last; try done. intros ->. rewrite Hp in Hq.
  change ("..tmp") with ("..tm" +:+ "p") in Hq. change (".chunk") with (".chun" +:+ "k") in Hq.
  rewrite !string_app_assoc in Hq. by apply suffix_last_char in Hq.
Qed.

(** ** Sums over the index *)

Section sums.
Implicit Types (f g : string → Z) (m : gmap string bytes).

Definition sum_over f m : Z := map_fold (λ id _ acc, (f id + acc)%Z) 0%Z m.

Lemma sum_insert f m k v : m !! k = None → sum_over f (<[k := v]> m) = (f k + sum_over f m)%Z.
Proof.
  intros Hk. unfold sum_over.
  rewrite (map_fold_insert_L (λ id (_ : bytes) acc, (f id + acc)%Z)) by (done || intros; lia). done.
Qed.

Lemma sum_delete f m k v : m !! k = Some v → sum_over f m = (f k + sum_over f (delete k m))%Z.
Proof.
  intros Hk. unfold sum_over.
  rewrite (map_fold_delete_L (λ id (_ : bytes) acc, (f id + acc)%Z) 0%Z k v m) by (done || intros; lia). done.
Qed.

Lemma sum_ext f g m : (∀ k, is_Some (m !! k) → f k = g k) → sum_over f m = sum_over g m.
Proof.
  induction m as [|k v m Hk IH] using map_ind; intros Hfg; [done|].
  rewrite !sum_insert by done. rewrite (Hfg k) by (rewrite lookup_insert_eq; eauto).
  f_equal. apply IH. intros k' [v' Hk']. apply Hfg. rewrite lookup_insert_ne; [eauto|].
  intros ->. congruence.
Qed.

(** Overwriting or adding one entry, with a new weight for it. *)
Lemma sum_update f g m k v :
  (∀ k', k' ≠ k → is_Some (m !! k') → f k' = g k') →
  sum_over g (<[k := v]> m) =
    (sum_over f m + g k - match m !! k with Some _ => f k | None => 0 end)%Z.
Proof.
  intros Hfg. destruct (m !! k) as [v'|] eqn:Hk.
  - rewrite (sum_delete f m k v'), <-insert_delete_eq, sum_insert by (done || apply lookup_delete_eq).
    rewrite (sum_ext g f (delete k m)); [lia|].
    intros k' [x Hx]. apply lookup_delete_Some in Hx as [Hne Hx]. symmetry. apply Hfg; eauto.
  - rewrite sum_insert by done. rewrite (sum_ext g f m); [lia|].
    intros k' [x Hx]. symmetry. apply Hfg; [|eauto]. intros ->. congruence.
Qed.
End sums.

(** ** The invariant *)

(** Bytes on disk of a chunk. *)
Definition chunk_bytes (s : DiskStore) (id : string) : Z :=
  match PathForChunk s id with
  | Ok p => match files s !! p with Some d => Z.of_nat (length d) | None => 0%Z end
  | Err _ => 0%Z
  end.

Record store_ok (s : DiskStore) : Prop := {
  st_level : (0 ≤ splitLevel s < 32768)%Z;
  st_total : is_uint64 (totalSpace s);
  st_open : opened s = true;
  st_files : ∀ id sum, index s !! id = Some sum →
    ∃ p d, PathForChunk s id = Ok p ∧ files s !! p = Some d ∧ sha256 d = sum;
  st_used : usedSpace s = sum_over (chunk_bytes s) (index s);
  st_cap : (0 ≤ usedSpace s ≤ totalSpace s)%Z;
}.

(** Every call to the operating system and to bbolt works. *)
Definition no_faults (io : nat → io_outcome) : Prop := ∀ n, io n = IoOk.

Definition set_calls (n : nat) (s : DiskStore) : DiskStore :=
  mkDiskStore (rootDir s) (tempDir s) (splitLevel s) (totalSpace s) (usedSpace s) (index s) (opened s)
    (files s) n.

Lemma store_ok_calls n s : store_ok s → store_ok (set_calls n s).
Proof. intros []. by split. Qed.

(** The weight of a chunk that is not indexed is not counted. *)
Definition old_size (s : DiskStore) (id : string) : Z :=
  match index s !! id with Some _ => chunk_bytes s id | None => 0%Z end.

Lemma bind_run {A B} (m : SE A) (f : A → SE B) s a s' : m s = (Ok a, s') → (m ≫= f) s = f a s'.
Proof. intros Hm. unfold mbind, SE_bind. by rewrite Hm. Qed.

Lemma bind_err {A B} (m : SE A) (f : A → SE B) s e s' : m s = (Err e, s') → (m ≫= f) s = (Err e, s').
Proof. intros Hm. unfold mbind, SE_bind. by rewrite Hm. Qed.

Section runs.
Context (io : nat → io_outcome) (Hio : no_faults io).

Lemma os_call_ok {A} (ok : SE A) failed s : os_call io ok failed s = ok (next_io s).
Proof. unfold os_call. by rewrite Hio. Qed.

Lemma os_Stat_run p c s : files s !! p = Some c → os_Stat io p s = (Ok (Z.of_nat (length c)), next_io s).
Proof. intros Hc. unfold os_Stat. rewrite os_call_ok. simpl. by rewrite Hc. Qed.

Lemma os_ReadFile_run p c s : files s !! p = Some c → os_ReadFile io p s = (Ok c, next_io s).
Proof. intros Hc. unfold os_ReadFile. rewrite os_call_ok. simpl. by rewrite Hc. Qed.

Lemma os_plain_run s : os_plain io s = (Ok tt, next_io s).
Proof. unfold os_plain. by rewrite os_call_ok. Qed.

Lemma os_Rename_run src dst c s :
  files s !! src = Some c →
  os_Rename io src dst s = (Ok tt, set_files (<[dst := c]> (delete src (files s))) (next_io s)).
Proof. intros Hc. unfold os_Rename. rewrite os_call_ok. simpl. by rewrite Hc. Qed.

Lemma Exists_run id s :
  validateChunkId (splitLevel s) id = Ok tt → opened s = true →
  Exists id s = (Ok (bool_decide (is_Some (index s !! id))), s).
Proof.
  intros Hv Ho. unfold Exists, attempt, index_Get, get_st, mbind, SE_bind. rewrite Hv, Ho. simpl.
  by destruct (index s !! id) eqn:Hi.
Qed.

Lemma existing_size_run id p s :
  store_ok s → validateChunkId (splitLevel s) id = Ok tt → PathForChunk s id = Ok p →
  ∃ n, existing_size io id p s = (Ok (old_size s id), set_calls n s).
Proof.
  intros Hok Hv Hp. unfold existing_size. unfold mbind at 1, SE_bind at 1.
  rewrite Exists_run by (done || apply Hok). unfold old_size, chunk_bytes. rewrite Hp.
  destruct (index s !! id) as [sum|] eqn:Hi; simpl.
  - destruct (st_files _ Hok _ _ Hi) as (p' & d & Hp' & Hd & _).
    assert (p' = p) as -> by congruence.
    unfold mbind, SE_bind, attempt, os_Stat. rewrite os_call_ok. cbn [files next_io]. rewrite Hd.
    by exists (S (io_calls s)).
  - exists (io_calls s). by destruct s.
Qed.

Lemma check_space_run new old s :
  store_ok s → check_space new old s =
    (if decide (totalSpace s - usedSpace s < (if decide (old < new) then new - old else 0))%Z
     then (Err ErrInsufficientSpace, s) else (Ok tt, s)).
Proof.
  intros Hok. unfold check_space, get_st, mbind, SE_bind.
  rewrite to_uint64_id; [by case_decide|].
  pose proof (st_cap _ Hok). pose proof (st_total _ Hok). unfold is_uint64 in *. lia.
Qed.

(** The store after an accepted write of [data] to [p]. *)
Definition stored (s : DiskStore) (fs : gmap string bytes) (id : string) (data : bytes) : DiskStore :=
  mkDiskStore (rootDir s) (tempDir s) (splitLevel s) (totalSpace s)
    (usedSpace s + Z.of_nat (length data) - old_size s id) (<[id := sha256 data]> (index s)) (opened s) fs
    (io_calls s).

(** Putting one file in place keeps the invariant. *)
Lemma stored_ok s fs id p data :
  store_ok s → PathForChunk s id = Ok p → fs !! p = Some data →
  (∀ id' p', id' ≠ id → PathForChunk s id' = Ok p' → is_Some (index s !! id') → fs !! p' = files s !! p') →
  (usedSpace s + Z.of_nat (length data) - old_size s id ≤ totalSpace s)%Z →
  store_ok (stored s fs id data).
Proof.
  intros Hok Hp Hd Hother Hcap.
  assert (Hsum : (usedSpace s + Z.of_nat (length data) - old_size s id)%Z =
    sum_over (chunk_bytes (stored s fs id data)) (<[id := sha256 data]> (index s))).
  { rewrite (sum_update (chunk_bytes s)).
    - rewrite (st_used _ Hok). unfold chunk_bytes at 3.
      change (PathForChunk (stored s fs id data) id) with (PathForChunk s id). rewrite Hp. simpl. rewrite Hd.
      unfold old_size. by destruct (index s !! id).
    - intros k Hk Hin. unfold chunk_bytes.
      change (PathForChunk (stored s fs id data) k) with (PathForChunk s k).
      destruct (PathForChunk s k) as [pk|] eqn:Hpk; [|done]. simpl. by rewrite (Hother k pk). }
  split; simpl; try apply Hok; [|done|].
  - intros id' sum [[<- <-]|[Hne Hi]]%lookup_insert_Some.
    + exists p, data. split_and!; [exact Hp|done|done].
    + destruct (st_files _ Hok _ _ Hi) as (p' & d & Hp' & Hd' & Hs). exists p', d.
      split_and!; [exact Hp'| |done]. rewrite (Hother id' p'); eauto.
  - split; [|done]. rewrite Hsum. unfold sum_over.
    apply (map_fold_weak_ind (λ r _, (0 ≤ r)%Z)); [done|]. intros k v m' r _ Hr.
    unfold chunk_bytes. repeat case_match; lia.
Qed.

(** The file of another chunk is elsewhere. *)
Lemma other_path s id p id' p' :
  store_ok s → PathForChunk s id = Ok p → id' ≠ id → PathForChunk s id' = Ok p' → p ≠ p'.
Proof. intros Hok Hp Hne Hp' ->. apply Hne. eapply PathForChunk_inj; [apply Hok|done|done]. Qed.

Lemma sum_nonneg s m : (0 ≤ sum_over (chunk_bytes s) m)%Z.
Proof.
  unfold sum_over. apply (map_fold_weak_ind (λ r _, (0 ≤ r)%Z)); [done|].
  intros k v m' r _ Hr. unfold chunk_bytes. repeat case_match; lia.
Qed.

Lemma old_size_bounds s id : store_ok s → (0 ≤ old_size s id ≤ usedSpace s)%Z.
Proof.
  intros Hok. pose proof (st_cap _ Hok). unfold old_size.
  destruct (index s !! id) as [sum|] eqn:Hi; [|lia].
  rewrite (st_used _ Hok), (sum_delete _ _ _ _ Hi). pose proof (sum_nonneg s (delete id (index s))).
  split; [|lia]. unfold chunk_bytes. repeat case_match; lia.
Qed.

(** Recording the checksum and the size. *)
Lemma record_run id data old s :
  id ≠ "" → opened s = true →
  is_uint64 (usedSpace s + Z.of_nat (length data) - old)%Z →
  ∃ n, (index_Put io id (sha256 data);; account (Z.of_nat (length data)) old) s =
    (Ok tt, set_calls n (set_used (usedSpace s + Z.of_nat (length data) - old)
              (set_index (<[id := sha256 data]> (index s)) s))).
Proof.
  intros Hne Ho Hr. unfold index_Put. rewrite decide_False by done.
  unfold get_st, mbind, SE_bind. rewrite Ho. cbn [negb]. rewrite os_call_ok. unfold account, put_st.
  exists (S (io_calls s)). simpl. unfold set_used, set_calls. simpl. do 2 f_equal.
  case_decide; (etransitivity; [apply to_uint64_id|]); unfold is_uint64 in *; lia.
Qed.

(** Whether the store takes [n] more bytes under [id]. *)
Definition rejects (s : DiskStore) (id : string) (n : Z) : Prop :=
  (totalSpace s < usedSpace s + n - old_size s id ∧ old_size s id < n)%Z.

#[global] Instance rejects_dec s id n : Decision (rejects s id n).
Proof. unfold rejects. apply _. Defined.

Lemma check_space_rejects s id n k :
  store_ok s → check_space n (old_size s id) (set_calls k s) =
    (if decide (rejects s id n) then (Err ErrInsufficientSpace, set_calls k s) else (Ok tt, set_calls k s)).
Proof.
  intros Hok. rewrite check_space_run by (by apply store_ok_calls). simpl. pose proof (st_cap _ Hok).
  unfold rejects. repeat case_decide; lia || done.
Qed.

Lemma accepts_range s id n :
  store_ok s → (0 ≤ n)%Z → ¬ rejects s id n →
  (0 ≤ usedSpace s + n - old_size s id ≤ totalSpace s)%Z ∧ is_uint64 (usedSpace s + n - old_size s id)%Z.
Proof.
  intros Hok Hn Hr. pose proof (old_size_bounds s id Hok). pose proof (st_cap _ Hok).
  pose proof (st_total _ Hok). unfold rejects, is_uint64 in *. lia.
Qed.

(** How a [Write] of a valid identifier ends. *)
Lemma Write_run id v s p :
  store_ok s → PathForChunk s id = Ok p →
  ∃ n, Write io id v s =
    (if decide (rejects s id (Z.of_nat (length v))) then (Err ErrInsufficientSpace, set_calls n s)
     else (Ok tt, set_calls n (stored s (<[p := v]> (files s)) id v))).
Proof.
  intros Hok Hp. destruct (PathForChunk_Ok s id p (st_level _ Hok) Hp) as (Hid & Hv & _).
  destruct (existing_size_run id p s Hok Hv Hp) as [n Hex].
  assert (Hdir : getDirForChunkId id (splitLevel s) = Ok (shards id (splitLevel s))).
  { unfold validateChunkId in Hv. unfold getDirForChunkId. repeat case_decide; done. }
  unfold Write. unfold get_st, lift, mbind, SE_bind. rewrite Hv, Hp, Hex.
  rewrite check_space_rejects by done. case_decide as Hr; [by exists n|]. rewrite Hdir.
  unfold os_plain, os_WriteFile. rewrite !os_call_ok.
  destruct (accepts_range s id (Z.of_nat (length v)) Hok ltac:(lia) Hr) as [_ Hrange].
  destruct (record_run id v (old_size s id) (set_files (<[p := v]> (files s)) (next_io (next_io (set_calls n s)))))
    as [n' Hrec]; [by apply Hid|apply Hok|done|].
  exists n'. etransitivity; [exact Hrec|]. done.
Qed.

(** How a [Rename] of a present temporary file ends. *)
Lemma Rename_run src id data s p :
  store_ok s → PathForChunk s id = Ok p → files s !! src = Some data →
  ∃ n, Rename io src id s =
    (if decide (rejects s id (Z.of_nat (length data))) then (Err ErrInsufficientSpace, set_calls n s)
     else (Ok tt, set_calls n (stored s (<[p := data]> (delete src (files s))) id data))).
Proof.
  intros Hok Hp Hsrc. destruct (PathForChunk_Ok s id p (st_level _ Hok) Hp) as (Hid & Hv & _).
  unfold Rename.
  erewrite bind_run; [|reflexivity]. erewrite bind_run; [|by unfold lift; rewrite Hv].
  erewrite bind_run; [|by apply os_Stat_run]. erewrite bind_run; [|reflexivity].
  erewrite bind_run; [|unfold lift; change (PathForChunk (next_io s) id) with (PathForChunk s id); by rewrite Hp].
  erewrite bind_run; [|apply os_plain_run].
  destruct (existing_size_run id p (next_io (next_io s))) as [n Hex]; [by repeat apply (store_ok_calls (S _))|done..|].
  erewrite bind_run; [|exact Hex]. erewrite bind_run; [|by apply os_Stat_run].
  set (k := io_calls (next_io (set_calls n (next_io (next_io s))))).
  change (next_io (set_calls n (next_io (next_io s)))) with (set_calls k s).
  change (old_size (next_io (next_io s)) id) with (old_size s id). clearbody k. clear Hex.
  pose proof (check_space_rejects s id (Z.of_nat (length data)) k Hok) as Hsp.
  case_decide as Hr; [exists k; by erewrite bind_err|].
  erewrite bind_run; [|exact Hsp]. do 3 (erewrite bind_run; [|apply os_plain_run]).
  erewrite bind_run; [|by apply os_Rename_run].
  erewrite bind_run; [|unfold attempt; by rewrite os_plain_run].
  erewrite bind_run; [|apply (os_ReadFile_run p data); simpl; apply lookup_insert_eq].
  match goal with |- context [(index_Put _ _ _ ;; _) ?st] => set (s3 := st) end.
  destruct (accepts_range s id (Z.of_nat (length data)) Hok ltac:(lia) Hr) as [_ Hrange].
  destruct (record_run id data (old_size s id) s3) as [n' Hrec]; [by apply Hid|apply Hok|done|].
  exists n'. etransitivity; [exact Hrec|]. done.
Qed.

(** How a [Delete] of an indexed chunk ends. *)
Lemma Delete_run id sum s p :
  store_ok s → PathForChunk s id = Ok p → index s !! id = Some sum →
  ∃ n, Delete io id s = (Ok tt, set_calls n
    (set_used (usedSpace s - chunk_bytes s id)
      (set_index (delete id (index s)) (set_files (delete p (files s)) s)))).
Proof.
  intros Hok Hp Hi. destruct (PathForChunk_Ok s id p (st_level _ Hok) Hp) as (Hid & Hv & _).
  destruct (st_files _ Hok _ _ Hi) as (p' & d & Hp' & Hd & _). assert (p' = p) as -> by congruence.
  pose proof (old_size_bounds s id Hok) as Hb. unfold old_size in Hb. rewrite Hi in Hb.
  unfold Delete.
  erewrite bind_run; [|reflexivity]. erewrite bind_run; [|by unfold lift; rewrite Hv].
  erewrite bind_run; [|apply Exists_run; [done|apply Hok]]. rewrite bool_decide_true by (rewrite Hi; eauto).
  cbn [negb]. erewrite bind_run; [|reflexivity]. erewrite bind_run; [|by unfold lift; rewrite Hp].
  erewrite bind_run; [|unfold attempt; by rewrite (os_Stat_run p d)]. cbv beta iota.
  erewrite bind_run; [|unfold attempt, os_Remove; rewrite os_call_ok; cbn [files next_io]; by rewrite Hd].
  cbv beta iota. erewrite bind_run.
  2:{ unfold attempt, index_Delete. rewrite decide_False by apply Hid.
      unfold get_st, mbind, SE_bind. simpl. rewrite (st_open _ Hok). simpl. rewrite Hi, os_call_ok. reflexivity. }
  unfold put_st. eexists. unfold chunk_bytes in *. rewrite Hp, Hd in *. simpl.
  rewrite decide_True by lia. reflexivity.
Qed.
End runs.
