(* ===== verification/DiskStoreTheorems.v ===== *)
(** * The chunk store refines a capacity-bounded map

    The abstract store is a map from chunk IDs to contents with a capacity.  In runs
    without faults each operation of [DiskStore] is the abstract one on [contents];
    under any faults an operation on one chunk leaves the others as they were. *)

From Stdlib Require Import Ascii.
From S2P Require Import Prelude GoLib GoText Sha256 DiskStore DiskStoreSpec.

(** ** The abstract store *)

Definition blen (d : bytes) : Z := Z.of_nat (length d).

(** The bytes a map of chunks takes. *)
Definition used_bytes (m : gmap string bytes) : Z :=
  sum_over (λ id, match m !! id with Some d => blen d | None => 0%Z end) m.

Definition size_of (m : gmap string bytes) (id : string) : Z :=
  match m !! id with Some d => blen d | None => 0%Z end.

Inductive store_op :=
| OpWrite (id : string) (data : bytes)
| OpRename (source id : string) (data : bytes) (* [data]: what the source holds *)
| OpDelete (id : string)
| OpRead (id : string)
| OpVerify (id : string)
| OpExists (id : string)
| OpSize
| OpFreeSpace.

Inductive store_val := VUnit | VBytes (b : bytes) | VBool (b : bool) | VSize (n : Z).

Definition spec_put (level total : Z) (id : string) (d : bytes) (m : gmap string bytes)
    : res store_val * gmap string bytes :=
  match validateChunkId level id with
  | Err e => (Err e, m)
  | Ok _ =>
      if decide (total < used_bytes m + blen d - size_of m id ∧ size_of m id < blen d)%Z
      then (Err ErrInsufficientSpace, m)
      else (Ok VUnit, <[id := d]> m)
  end.

Definition spec_op (level total : Z) (op : store_op) (m : gmap string bytes)
    : res store_val * gmap string bytes :=
  match op with
  | OpWrite id d | OpRename _ id d => spec_put level total id d m
  | OpDelete id =>
      match validateChunkId level id with
      | Err e => (Err e, m)
      | Ok _ => match m !! id with
                | Some _ => (Ok VUnit, delete id m)
                | None => (Err Err_ChunkNotFound, m)
                end
      end
  | OpRead id => (match m !! id with Some d => Ok (VBytes d) | None => Err Err_ChunkNotFound end, m)
  | OpVerify id =>
      (match validateChunkId level id with
       | Err e => Err e
       | Ok _ => match m !! id with Some d => Ok (VBytes (sha256 d)) | None => Err ErrKeyNotFound end
       end, m)
  | OpExists id => (Ok (VBool (bool_decide (is_Some (m !! id)))), m)
  | OpSize => (Ok (VSize (used_bytes m)), m)
  | OpFreeSpace => (Ok (VSize (total - used_bytes m)%Z), m)
  end.

(** ** The concrete store *)

Definition ret_as {A} (f : A → store_val) (m : SE A) : SE store_val := a ← m; mret (f a).

Definition run_op (io : nat → io_outcome) (op : store_op) : SE store_val :=
  match op with
  | OpWrite id d => ret_as (λ _, VUnit) (Write io id d)
  | OpRename src id _ => ret_as (λ _, VUnit) (Rename io src id)
  | OpDelete id => ret_as (λ _, VUnit) (Delete io id)
  | OpRead id => ret_as VBytes (Read io id)
  | OpVerify id => ret_as VBytes (Verify io id)
  | OpExists id => ret_as VBool (Exists id)
  | OpSize => ret_as VSize Size
  | OpFreeSpace => ret_as VSize FreeSpace
  end.

(** A rename moves a file that is not already the file of a chunk. *)
Definition op_ready (s : DiskStore) (op : store_op) : Prop :=
  match op with
  | OpRename src id d =>
      files s !! src = Some d ∧ ∀ id' p, PathForChunk s id' = Ok p → p ≠ src
  | _ => True
  end.

(** What the store holds: the file of every indexed chunk. *)
Definition contents (s : DiskStore) : gmap string bytes :=
  map_imap (λ id _, match PathForChunk s id with Ok p => files s !! p | Err _ => None end) (index s).

(** ** The abstraction *)

Lemma sum_dom f (m1 m2 : gmap string bytes) : dom m1 = dom m2 → sum_over f m1 = sum_over f m2.
Proof.
  revert m2. induction m1 as [|k v m1 Hk IH] using map_ind; intros m2 Hdom.
  - rewrite dom_empty_L in Hdom. symmetry in Hdom. apply dom_empty_inv_L in Hdom. by subst.
  - rewrite dom_insert_L in Hdom. assert (is_Some (m2 !! k)) as [v' Hv'] by (apply elem_of_dom; set_solver).
    rewrite sum_insert, (sum_delete f m2 k v') by done. f_equal. apply IH.
    rewrite dom_delete_L, <-Hdom. apply not_elem_of_dom in Hk. set_solver.
Qed.

Lemma contents_lookup s id :
  contents s !! id =
    match index s !! id with
    | Some _ => match PathForChunk s id with Ok p => files s !! p | Err _ => None end
    | None => None
    end.
Proof. unfold contents. rewrite map_lookup_imap. by destruct (index s !! id). Qed.

Lemma contents_Some s id d :
  store_ok s → contents s !! id = Some d →
  ∃ p, PathForChunk s id = Ok p ∧ files s !! p = Some d ∧ index s !! id = Some (sha256 d).
Proof.
  intros Hok. rewrite contents_lookup. destruct (index s !! id) as [sum|] eqn:Hi; [|done].
  destruct (st_files _ Hok _ _ Hi) as (p & d' & -> & Hf & <-). rewrite Hf. intros [= ->]. eauto.
Qed.

Lemma contents_None s id : store_ok s → contents s !! id = None ↔ index s !! id = None.
Proof.
  intros Hok. rewrite contents_lookup. destruct (index s !! id) as [sum|] eqn:Hi; [|done].
  destruct (st_files _ Hok _ _ Hi) as (p & d' & -> & -> & _). done.
Qed.

Lemma contents_dom s : store_ok s → dom (contents s) = dom (index s).
Proof.
  intros Hok. apply set_eq. intros id. rewrite !elem_of_dom, <-!not_eq_None_Some.
  by rewrite contents_None.
Qed.

Lemma contents_size s id : store_ok s → size_of (contents s) id = old_size s id.
Proof.
  intros Hok. unfold size_of, old_size. rewrite contents_lookup. unfold chunk_bytes.
  destruct (index s !! id); [|done]. by destruct (PathForChunk s id).
Qed.

Lemma contents_used s : store_ok s → used_bytes (contents s) = usedSpace s.
Proof.
  intros Hok. rewrite (st_used _ Hok). unfold used_bytes.
  rewrite (sum_dom _ _ (index s)) by (by apply contents_dom). apply sum_ext. intros id [sum Hi].
  change (size_of (contents s) id = chunk_bytes s id). rewrite contents_size by done.
  unfold old_size. by rewrite Hi.
Qed.

(** Two stores with the same identity of paths, differing in one entry. *)
Lemma contents_stored s fs id p d n :
  store_ok s → PathForChunk s id = Ok p → fs !! p = Some d →
  (∀ id' p', id' ≠ id → PathForChunk s id' = Ok p' → fs !! p' = files s !! p') →
  contents (set_calls n (stored s fs id d)) = <[id := d]> (contents s).
Proof.
  intros Hok Hp Hd Hother. apply map_eq. intros k. rewrite contents_lookup. simpl.
  change (PathForChunk (set_calls n (stored s fs id d)) k) with (PathForChunk s k).
  destruct (decide (k = id)) as [->|Hne].
  - rewrite !lookup_insert_eq. by rewrite Hp.
  - rewrite !lookup_insert_ne by done. rewrite contents_lookup. destruct (index s !! k); [|done].
    destruct (PathForChunk s k) as [pk|] eqn:Hpk; [|done]. by apply (Hother k).
Qed.

Lemma contents_calls n s : contents (set_calls n s) = contents s.
Proof. done. Qed.

(** The store without one chunk. *)
Definition removed (s : DiskStore) (id p : string) : DiskStore :=
  set_used (usedSpace s - chunk_bytes s id)
    (set_index (delete id (index s)) (set_files (delete p (files s)) s)).

Lemma removed_other s id p k pk :
  store_ok s → PathForChunk s id = Ok p → k ≠ id → PathForChunk s k = Ok pk →
  files (removed s id p) !! pk = files s !! pk.
Proof. intros Hok Hp Hne Hpk. simpl. apply lookup_delete_ne. by eapply other_path. Qed.

Lemma contents_removed s id p :
  store_ok s → PathForChunk s id = Ok p → contents (removed s id p) = delete id (contents s).
Proof.
  intros Hok Hp. apply map_eq. intros k. rewrite contents_lookup. cbn [index removed set_used set_index].
  change (PathForChunk (removed s id p) k) with (PathForChunk s k).
  destruct (decide (k = id)) as [->|Hne]; [by rewrite !lookup_delete_eq|].
  rewrite !lookup_delete_ne, contents_lookup by done. destruct (index s !! k); [|done].
  destruct (PathForChunk s k) as [pk|] eqn:Hpk; [|done]. by eapply removed_other.
Qed.

Lemma removed_ok s id p sum :
  store_ok s → PathForChunk s id = Ok p → index s !! id = Some sum → store_ok (removed s id p).
Proof.
  intros Hok Hp Hi. pose proof (old_size_bounds s id Hok) as Hb. unfold old_size in Hb. rewrite Hi in Hb.
  pose proof (st_cap _ Hok). split; simpl; try apply Hok; [| |lia].
  - intros k sum' [Hne Hk]%lookup_delete_Some. destruct (st_files _ Hok _ _ Hk) as (pk & d & Hpk & Hd & Hs).
    exists pk, d. split_and!; [exact Hpk| |done]. rewrite <-Hd. by apply (removed_other s id p k).
  - rewrite (st_used _ Hok), (sum_delete _ _ _ _ Hi).
    rewrite (sum_ext (chunk_bytes (removed s id p)) (chunk_bytes s)); [lia|].
    intros k [x [Hne Hk]%lookup_delete_Some]. unfold chunk_bytes.
    change (PathForChunk (removed s id p) k) with (PathForChunk s k).
    destruct (PathForChunk s k) as [pk|] eqn:Hpk; [|done]. by rewrite (removed_other s id p k).
Qed.

(** ** Refinement *)

Section refine.
Context (io : nat → io_outcome) (Hio : no_faults io).

(** A run matches the abstract operation. *)
Definition matches (s : DiskStore) (out : res store_val * DiskStore) (spec : res store_val * gmap string bytes)
    : Prop :=
  store_ok out.2 ∧ spec = (out.1, contents out.2) ∧
  splitLevel out.2 = splitLevel s ∧ totalSpace out.2 = totalSpace s.

Lemma matches_same s r n : store_ok s → matches s (r, set_calls n s) (r, contents s).
Proof. intros Hok. split_and!; try done. by apply store_ok_calls. Qed.

Lemma matches_id s r : store_ok s → matches s (r, s) (r, contents s).
Proof. done. Qed.

(** What [Write] and [Rename] have in common. *)
Lemma put_matches s fs id p d n (out : res unit * DiskStore) :
  store_ok s → PathForChunk s id = Ok p → fs !! p = Some d →
  (∀ id' p', id' ≠ id → PathForChunk s id' = Ok p' → fs !! p' = files s !! p') →
  out = (if decide (rejects s id (blen d)) then (Err ErrInsufficientSpace, set_calls n s)
         else (Ok tt, set_calls n (stored s fs id d))) →
  matches s (match out with (Ok _, s') => (Ok VUnit, s') | (Err e, s') => (Err e, s') end)
    (spec_put (splitLevel s) (totalSpace s) id d (contents s)).
Proof.
  intros Hok Hp Hd Hother ->.
  destruct (PathForChunk_Ok s id p (st_level _ Hok) Hp) as (_ & Hv & _).
  unfold spec_put. rewrite Hv, contents_used, contents_size by done.
  change (if decide _ then ?a else ?b) with (if decide (rejects s id (blen d)) then a else b) at 2.
  case_decide as Hr; [by apply matches_same|].
  split_and!; try done.
  - apply store_ok_calls, (stored_ok _ _ _ p); try done.
    + eauto.
    + apply (accepts_range s id (blen d)); unfold blen; done || lia.
  - simpl. f_equal. symmetry. by apply (contents_stored s fs id p).
Qed.

Lemma Write_matches id d s :
  store_ok s → matches s (run_op io (OpWrite id d) s) (spec_op (splitLevel s) (totalSpace s) (OpWrite id d) (contents s)).
Proof.
  intros Hok. simpl. unfold ret_as, mbind, SE_bind.
  destruct (validateChunkId (splitLevel s) id) as [[]|e] eqn:Hv.
  - destruct (PathForChunk_valid s id Hv) as [p Hp].
    destruct (Write_run io Hio id d s p Hok Hp) as [n Hrun].
    apply (put_matches s (<[p := d]> (files s)) id p d n); try done; [apply lookup_insert_eq|].
    intros id' p' Hne Hp'. apply lookup_insert_ne. by eapply other_path.
  - unfold spec_put. rewrite Hv. unfold Write, get_st, lift, mbind, SE_bind. rewrite Hv.
    by apply matches_id.
Qed.

Lemma Rename_matches src id d s :
  store_ok s → op_ready s (OpRename src id d) →
  matches s (run_op io (OpRename src id d) s)
    (spec_op (splitLevel s) (totalSpace s) (OpRename src id d) (contents s)).
Proof.
  intros Hok [Hsrc Hfree]. simpl. unfold ret_as, mbind, SE_bind.
  destruct (validateChunkId (splitLevel s) id) as [[]|e] eqn:Hv.
  - destruct (PathForChunk_valid s id Hv) as [p Hp].
    destruct (Rename_run io Hio src id d s p Hok Hp Hsrc) as [n Hrun].
    apply (put_matches s (<[p := d]> (delete src (files s))) id p d n); try done; [apply lookup_insert_eq|].
    intros id' p' Hne Hp'. rewrite lookup_insert_ne by (by eapply other_path).
    apply lookup_delete_ne. by apply not_eq_sym, (Hfree id').
  - unfold spec_put. rewrite Hv. unfold Rename, get_st, lift, mbind, SE_bind. rewrite Hv.
    by apply matches_id.
Qed.

Lemma Delete_matches id s :
  store_ok s → matches s (run_op io (OpDelete id) s) (spec_op (splitLevel s) (totalSpace s) (OpDelete id) (contents s)).
Proof.
  intros Hok. simpl. unfold ret_as. destruct (validateChunkId (splitLevel s) id) as [[]|e] eqn:Hv.
  - destruct (PathForChunk_valid s id Hv) as [p Hp]. destruct (contents s !! id) as [d|] eqn:Hc.
    + destruct (contents_Some s id d Hok Hc) as (p' & Hp' & Hd & Hi).
      destruct (Delete_run io Hio id (sha256 d) s p Hok Hp Hi) as [n Hrun]. erewrite bind_run by exact Hrun.
      split_and!; try done.
      * by apply store_ok_calls, (removed_ok _ _ _ (sha256 d)).
      * simpl. f_equal. symmetry. by apply contents_removed.
    + apply contents_None in Hc; [|done]. erewrite bind_err; [by apply matches_id|].
      unfold Delete. erewrite bind_run; [|reflexivity]. erewrite bind_run; [|by unfold lift; rewrite Hv].
      erewrite bind_run; [|apply Exists_run; [done|apply Hok]]. by rewrite bool_decide_false by (rewrite Hc; by intros []).
  - erewrite bind_err; [by apply matches_id|]. unfold Delete, get_st, lift, mbind, SE_bind. by rewrite Hv.
Qed.

(** A chunk that is stored has a valid identifier. *)
Lemma contents_validate s id d :
  store_ok s → contents s !! id = Some d → validateChunkId (splitLevel s) id = Ok tt.
Proof.
  intros Hok (p & Hp & _)%contents_Some; [|done].
  by destruct (PathForChunk_Ok s id p (st_level _ Hok) Hp) as (_ & Hv & _).
Qed.

Lemma Exists_ok id s : store_ok s → Exists id s = (Ok (bool_decide (is_Some (contents s !! id))), s).
Proof.
  intros Hok. destruct (validateChunkId (splitLevel s) id) as [[]|e] eqn:Hv.
  - rewrite Exists_run by (done || apply Hok). do 2 f_equal. apply bool_decide_ext.
    by rewrite <-!not_eq_None_Some, contents_None.
  - unfold Exists, get_st, mbind, SE_bind. rewrite Hv. rewrite bool_decide_false; [done|].
    intros [d Hd]. apply contents_validate in Hd; [congruence|done].
Qed.

Lemma Read_ok id s :
  store_ok s → ∃ n, Read io id s =
    (match contents s !! id with Some d => Ok d | None => Err Err_ChunkNotFound end, set_calls n s).
Proof.
  intros Hok. unfold Read. erewrite bind_run; [|reflexivity].
  destruct (contents s !! id) as [d|] eqn:Hc.
  - rewrite (contents_validate s id d) by done. erewrite bind_run; [|by apply Exists_ok].
    rewrite bool_decide_true by (rewrite Hc; eauto). cbn [negb].
    destruct (contents_Some s id d Hok Hc) as (p & Hp & Hd & _).
    erewrite bind_run; [|reflexivity]. erewrite bind_run; [|by unfold lift; rewrite Hp].
    exists (S (io_calls s)). by apply os_ReadFile_run.
  - exists (io_calls s). destruct (validateChunkId (splitLevel s) id) as [[]|e]; [|by destruct s].
    erewrite bind_run; [|by apply Exists_ok]. rewrite Hc. by destruct s.
Qed.

Lemma Verify_matches id s :
  store_ok s → matches s (run_op io (OpVerify id) s) (spec_op (splitLevel s) (totalSpace s) (OpVerify id) (contents s)).
Proof.
  intros Hok. simpl. unfold ret_as. destruct (validateChunkId (splitLevel s) id) as [[]|e] eqn:Hv.
  - destruct (contents s !! id) as [d|] eqn:Hc.
    + destruct (contents_Some s id d Hok Hc) as (p & Hp & Hd & Hi). destruct (Read_ok id s Hok) as [n Hr].
      rewrite Hc in Hr. erewrite bind_run; [by apply matches_same|].
      unfold Verify. erewrite bind_run; [|reflexivity]. erewrite bind_run; [|by unfold lift; rewrite Hv].
      erewrite bind_run; [|unfold index_Get, get_st, mbind, SE_bind; rewrite (st_open _ Hok); simpl; by rewrite Hi].
      erewrite bind_run; [|exact Hr]. by rewrite decide_True.
    + apply contents_None in Hc; [|done]. erewrite bind_err; [by apply matches_id|].
      unfold Verify. erewrite bind_run; [|reflexivity]. erewrite bind_run; [|by unfold lift; rewrite Hv].
      erewrite bind_err; [done|]. unfold index_Get, get_st, mbind, SE_bind. rewrite (st_open _ Hok). simpl.
      by rewrite Hc.
  - erewrite bind_err; [by apply matches_id|]. unfold Verify, get_st, lift, mbind, SE_bind. by rewrite Hv.
Qed.

Lemma op_matches op s :
  store_ok s → op_ready s op →
  matches s (run_op io op s) (spec_op (splitLevel s) (totalSpace s) op (contents s)).
Proof.
  intros Hok Hready. destruct op as [id d|src id d|id|id|id|id| |].
  - by apply Write_matches.
  - by apply Rename_matches.
  - by apply Delete_matches.
  - simpl. destruct (Read_ok id s Hok) as [n Hr]. unfold ret_as, mbind, SE_bind. rewrite Hr.
    destruct (contents s !! id); by apply matches_same.
  - by apply Verify_matches.
  - simpl. unfold ret_as, mbind, SE_bind. rewrite Exists_ok by done. by apply matches_id.
  - simpl. rewrite contents_used by done. by apply matches_id.
  - simpl. rewrite contents_used by done. pose proof (st_cap _ Hok).
    unfold ret_as, FreeSpace, get_st, mbind, SE_bind. rewrite decide_False by lia. by apply matches_id.
Qed.
End refine.

(** ** Faults *)

(** [s'] has the same chunk under [id] as [s], the same paths and the same index state. *)
Definition same_chunk (id p : string) (s s' : DiskStore) : Prop :=
  index s' !! id = index s !! id ∧ files s' !! p = files s !! p ∧
  rootDir s' = rootDir s ∧ splitLevel s' = splitLevel s ∧ totalSpace s' = totalSpace s ∧
  opened s' = opened s ∧ tempDir s' = tempDir s.

#[global] Instance same_chunk_preorder id p : PreOrder (same_chunk id p).
Proof. split; [done|]. intros s1 s2 s3. unfold same_chunk. intuition congruence. Qed.

(** A computation that leaves one chunk alone, whatever it returns, in a store with the
    directories of [s0]. *)
Definition frames {A} (s0 : DiskStore) (id p : string) (m : SE A) : Prop :=
  ∀ s, rootDir s = rootDir s0 → splitLevel s = splitLevel s0 → same_chunk id p s (m s).2.

Section frames.
Context (io : nat → io_outcome) (s0 : DiskStore) (id p : string).

Lemma frames_bind {A B} (m : SE A) (f : A → SE B) :
  frames s0 id p m → (∀ a, frames s0 id p (f a)) → frames s0 id p (m ≫= f).
Proof.
  intros Hm Hf s Hr Hl. unfold mbind, SE_bind. specialize (Hm s Hr Hl).
  destruct (m s) as [[a|e] s']; [|done]. etransitivity; [exact Hm|].
  destruct Hm as (_ & _ & Hr' & Hl' & _). simpl in *. apply Hf; congruence.
Qed.

Lemma frames_pure {A} (r : res A) : frames s0 id p (lift r).
Proof. by intros s. Qed.

Lemma frames_get {A} (f : DiskStore → A) : frames s0 id p (get_st f).
Proof. by intros s. Qed.

Lemma frames_path {A} k (f : res string → SE A) :
  frames s0 id p (f (PathForChunk s0 k)) → frames s0 id p (get_st (λ s, PathForChunk s k) ≫= f).
Proof.
  intros Hf s Hr Hl. unfold get_st, mbind, SE_bind.
  replace (PathForChunk s k) with (PathForChunk s0 k) by (unfold PathForChunk; by rewrite Hr, Hl). by apply Hf.
Qed.

Lemma frames_attempt {A} (m : SE A) : frames s0 id p m → frames s0 id p (attempt m).
Proof. intros Hm s Hr Hl. unfold attempt. specialize (Hm s Hr Hl). by destruct (m s). Qed.

Lemma frames_call {A} (ok : SE A) failed :
  frames s0 id p ok → (∀ n s, same_chunk id p s (failed n s)) → frames s0 id p (os_call io ok failed).
Proof.
  intros Hok Hf s Hr Hl. unfold os_call. destruct (io (io_calls s)) as [|e n].
  - exact (Hok (next_io s) Hr Hl).
  - exact (Hf n (next_io s)).
Qed.

Lemma frames_used f : frames s0 id p (put_st (λ s, set_used (f s) s)).
Proof. by intros s. Qed.

Lemma frames_plain : frames s0 id p (os_plain io).
Proof. by apply frames_call. Qed.

Lemma frames_Stat q : frames s0 id p (os_Stat io q).
Proof. apply frames_call; [|done]. intros s ? ?. by destruct (files s !! q). Qed.

Lemma frames_ReadFile q : frames s0 id p (os_ReadFile io q).
Proof. apply frames_call; [|done]. intros s ? ?. by destruct (files s !! q). Qed.

Lemma frames_WriteFile q d : q ≠ p → frames s0 id p (os_WriteFile io q d).
Proof. intros Hq. apply frames_call; [intros s ? ?|intros n s]; split_and!; try done; by apply lookup_insert_ne. Qed.

Lemma frames_Remove q : q ≠ p → frames s0 id p (os_Remove io q).
Proof.
  intros Hq. apply frames_call; [|done]. intros s ? ?. destruct (files s !! q); [|done].
  split_and!; try done. by apply lookup_delete_ne.
Qed.

Lemma frames_Rename src q : q ≠ p → src ≠ p → frames s0 id p (os_Rename io src q).
Proof.
  intros Hq Hsrc. apply frames_call; [|done]. intros s ? ?. destruct (files s !! src); [|done].
  split_and!; try done. simpl. by rewrite lookup_insert_ne, lookup_delete_ne.
Qed.

Lemma frames_index_Put k v : k ≠ id → frames s0 id p (index_Put io k v).
Proof.
  intros Hk. unfold index_Put. case_decide; [apply frames_pure|]. apply frames_bind; [apply frames_get|].
  intros []; simpl negb; cbv iota; [|apply frames_pure]. apply frames_call; [|done]. intros s ? ?.
  split_and!; try done. by apply lookup_insert_ne.
Qed.

Lemma frames_index_Delete k : k ≠ id → frames s0 id p (index_Delete io k).
Proof.
  intros Hk. unfold index_Delete. case_decide; [apply frames_pure|]. apply frames_bind; [apply frames_get|].
  intros []; simpl negb; cbv iota; [|apply frames_pure]. apply frames_bind; [apply frames_get|].
  intros [v|]; [|apply frames_pure]. apply frames_call; [|done]. intros s ? ?.
  split_and!; try done. by apply lookup_delete_ne.
Qed.

Lemma frames_index_Get k : frames s0 id p (index_Get k).
Proof.
  apply frames_bind; [apply frames_get|]. intros []; simpl negb; cbv iota; [|apply frames_pure].
  apply frames_bind; [apply frames_get|]. intros [v|]; apply frames_pure.
Qed.
End frames.

Create HintDb frames.
#[export] Hint Resolve frames_pure frames_get frames_attempt frames_used frames_plain frames_Stat
  frames_ReadFile frames_WriteFile frames_Remove frames_Rename frames_index_Put frames_index_Delete
  frames_index_Get : frames.

(** Splits a computation into its calls. *)
Ltac frames :=
  repeat first
    [ progress intros
    | progress cbv zeta
    | solve [eauto with frames]
    | apply frames_path
    | apply frames_bind
    | apply frames_attempt
    | solve [apply frames_pure]
    | case_decide
    | case_match ].

Lemma frames_Exists s0 id p k : frames s0 id p (Exists k).
Proof. unfold Exists. frames. Qed.

#[export] Hint Resolve frames_Exists : frames.

(** The operations that change the store, on a chunk other than [id]. *)
Section ops.
Context (io : nat → io_outcome) (s0 : DiskStore) (id p k : string).
Context (Hp : ∀ q, PathForChunk s0 k = Ok q → q ≠ p) (Hk : k ≠ id).

Lemma frames_existing_size q : frames s0 id p (existing_size io k q).
Proof. unfold existing_size. frames. Qed.

Lemma frames_check_space a b : frames s0 id p (check_space a b).
Proof. unfold check_space. frames. Qed.

Lemma frames_account a b : frames s0 id p (account a b).
Proof. unfold account. frames. Qed.

#[local] Hint Resolve frames_existing_size frames_check_space frames_account : frames.

Lemma frames_lift_path {A} (f : string → SE A) :
  (∀ q, q ≠ p → frames s0 id p (f q)) → frames s0 id p (lift (PathForChunk s0 k) ≫= f).
Proof.
  intros Hf. destruct (PathForChunk s0 k) as [q|e] eqn:Hq.
  - intros s Hr Hl. apply (Hf q); auto.
  - by intros s Hr Hl.
Qed.

Lemma frames_Write v : frames s0 id p (Write io k v).
Proof. unfold Write. do 2 (apply frames_bind; [frames|intros]). apply frames_path, frames_lift_path. frames. Qed.

Lemma frames_Delete : frames s0 id p (Delete io k).
Proof.
  unfold Delete. do 3 (apply frames_bind; [frames|intros]). case_match; [apply frames_pure|].
  apply frames_path, frames_lift_path. frames.
Qed.

Lemma frames_store_Rename src : src ≠ p → frames s0 id p (Rename io src k).
Proof.
  intros Hsrc. unfold Rename. do 3 (apply frames_bind; [frames|intros]).
  apply frames_path, frames_lift_path. frames.
Qed.
End ops.

(** ** Properties *)

Definition op_target (op : store_op) : option string :=
  match op with
  | OpWrite id _ | OpRename _ id _ | OpDelete id => Some id
  | _ => None
  end.

Definition op_source (op : store_op) : option string :=
  match op with OpRename src _ _ => Some src | _ => None end.

Lemma frames_Read io s0 id p k : frames s0 id p (Read io k).
Proof. unfold Read. frames. Qed.

#[export] Hint Resolve frames_Read : frames.

Lemma frames_Verify io s0 id p k : frames s0 id p (Verify io k).
Proof. unfold Verify. frames. Qed.

Lemma frames_op io s0 id p op :
  (0 ≤ splitLevel s0 < 32768)%Z → PathForChunk s0 id = Ok p →
  op_target op ≠ Some id → op_source op ≠ Some p → frames s0 id p (run_op io op).
Proof.
  intros Hl Hp Ht Hs.
  assert (Hother : ∀ k q, k ≠ id → PathForChunk s0 k = Ok q → q ≠ p).
  { intros k q Hk Hq ->. apply Hk. by eapply PathForChunk_inj. }
  destruct op as [k d|src k d|k|k|k|k| |]; simpl in *; (apply frames_bind; [|frames]).
  - apply frames_Write; [intros q; apply Hother|]; congruence.
  - apply frames_store_Rename; [intros q; apply Hother| |]; congruence.
  - apply frames_Delete; [intros q; apply Hother|]; congruence.
  - apply frames_Read.
  - apply frames_Verify.
  - apply frames_Exists.
  - apply frames_get.
  - apply frames_get.
Qed.

(** A run of operations; errors are returned to the callers and the run goes on. *)
Definition run_ops (io : nat → io_outcome) (ops : list store_op) (s : DiskStore) : DiskStore :=
  foldl (λ s op, (run_op io op s).2) s ops.

Lemma run_ops_frames io ops s id p :
  (0 ≤ splitLevel s < 32768)%Z → PathForChunk s id = Ok p →
  Forall (λ op, op_target op ≠ Some id ∧ op_source op ≠ Some p) ops →
  same_chunk id p s (run_ops io ops s).
Proof.
  intros Hl Hp Hops. revert s Hl Hp. induction Hops as [|op ops [Ht Hs] _ IH]; intros s Hl Hp; [done|].
  assert (Hstep : same_chunk id p s (run_op io op s).2) by (by apply (frames_op io s)).
  etransitivity; [exact Hstep|]. destruct Hstep as (_ & _ & Hr & Hlv & _).
  apply IH; [by rewrite Hlv|]. rewrite <-Hp. unfold PathForChunk. by rewrite Hr, Hlv.
Qed.

Definition all_ok : nat → io_outcome := λ _, IoOk.

(** The store [NewDiskStore] makes over a fresh disk. *)
Definition demo_store : DiskStore := mkDiskStore "/data" "/data/tmp" 2 100 0 ∅ true ∅ 0.

Lemma empty_store_ok s :
  (0 ≤ splitLevel s < 32768)%Z → is_uint64 (totalSpace s) → opened s = true → index s = ∅ →
  usedSpace s = 0%Z → store_ok s.
Proof.
  intros Hl Ht Ho Hi Hu. split; try done; rewrite ?Hi, ?Hu; try done. unfold is_uint64 in Ht. lia.
Qed.

Lemma demo_store_ok : store_ok demo_store.
Proof. by apply empty_store_ok. Qed.

(** C8. Refinement of the chunk store: in a run without faults every operation of
    [DiskStore] returns what the capacity-bounded map returns on the stored contents,
    errors included, changes the contents as the map does, and keeps the invariant:
    every indexed chunk has its file, its checksum is the SHA-256 of that file, and
    [usedSpace] is the sum of the stored sizes and never exceeds [totalSpace]. *)
Theorem disk_store_refines io op s :
  no_faults io → store_ok s → op_ready s op →
  let '(r, s') := run_op io op s in
  spec_op (splitLevel s) (totalSpace s) op (contents s) = (r, contents s') ∧ store_ok s' ∧
  splitLevel s' = splitLevel s ∧ totalSpace s' = totalSpace s.
Proof.
  intros Hio Hok Hready. pose proof (op_matches io Hio op s Hok Hready) as (Hok' & Hspec & Hl & Ht).
  destruct (run_op io op s) as [r s']. split_and!; done.
Qed.

Lemma disk_store_refines_witness :
  contents (run_op all_ok (OpWrite "abcdef" (to_bytes "hello")) demo_store).2 !! "abcdef" = Some (to_bytes "hello").
Proof.
  pose proof (disk_store_refines all_ok (OpWrite "abcdef" (to_bytes "hello")) demo_store
    ltac:(done) demo_store_ok I) as H.
  destruct (run_op all_ok (OpWrite "abcdef" (to_bytes "hello")) demo_store) as [r s'].
  destruct H as (H & _). simpl. injection H as _ <-. vm_compute. reflexivity.
Defined.

(** C31. Fault isolation: whatever calls to the operating system and to bbolt fail, and
    however often, a run of operations on other chunks changes neither the file nor the
    recorded checksum of a chunk. *)
Theorem faults_isolated io ops s id p :
  (0 ≤ splitLevel s < 32768)%Z → PathForChunk s id = Ok p →
  Forall (λ op, op_target op ≠ Some id ∧ op_source op ≠ Some p) ops →
  let s' := run_ops io ops s in
  PathForChunk s' id = Ok p ∧ files s' !! p = files s !! p ∧ index s' !! id = index s !! id ∧
  contents s' !! id = contents s !! id.
Proof.
  intros Hl Hp Hops s'. destruct (run_ops_frames io ops s id p Hl Hp Hops) as (Hi & Hf & Hr & Hlv & _).
  assert (Hp' : PathForChunk s' id = Ok p) by (rewrite <-Hp; unfold PathForChunk, s'; by rewrite Hr, Hlv).
  split_and!; try done. rewrite !contents_lookup, Hp, Hp'. unfold s'. by rewrite Hi, Hf.
Qed.

Definition demo_store2 : DiskStore := (Write all_ok "abcdef" (to_bytes "hello") demo_store).2.

(** Every third call fails. *)
Definition flaky : nat → io_outcome := λ n, if decide (n mod 3 = 2) then IoFail (ErrSentinel "EIO") 1 else IoOk.

Lemma faults_isolated_witness :
  let s' := run_ops flaky [OpWrite "bcdefg" (to_bytes "x"); OpDelete "bcdefg"; OpWrite "zzzz" []] demo_store2 in
  contents s' !! "abcdef" = Some (to_bytes "hello").
Proof.
  destruct (faults_isolated flaky [OpWrite "bcdefg" (to_bytes "x"); OpDelete "bcdefg"; OpWrite "zzzz" []]
    demo_store2 "abcdef" "/data/ab/cd/abcdef.chunk") as (_ & _ & _ & H).
  - vm_compute. done.
  - vm_compute. reflexivity.
  - repeat constructor; discriminate.
  - etransitivity; [exact H|]. vm_compute. reflexivity.
Defined.

(** C32. Path safety: the file of a chunk is below the root directory, one plain
    component per shard level and the file name (none of them empty, dot or dot-dot,
    none with a separator), different chunks have different files, and no temporary
    file is the file of a chunk. *)
Theorem path_confined s id p :
  (0 ≤ splitLevel s < 32768)%Z → PathForChunk s id = Ok p →
  (∃ comps, p = join_path (rootDir s) comps ∧ Forall plain_component comps ∧
     length comps = S (Z.to_nat (splitLevel s))) ∧
  (∀ id', PathForChunk s id' = Ok p → id' = id) ∧ (∀ id', TempDir s id' ≠ Ok p).
Proof.
  intros Hl Hp. destruct (PathForChunk_Ok s id p Hl Hp) as (Hid & _ & Heq). split_and!.
  - eexists. split_and!; [exact Heq| |].
    + apply Forall_app. split; [by apply shards_plain; [lia|]|].
      constructor; [by apply (chunk_name_plain (splitLevel s))|done].
    + rewrite length_app. unfold shards. rewrite length_fmap, length_seq. simpl. lia.
  - intros id' Hp'. by eapply PathForChunk_inj.
  - intros id' Ht. by apply (TempDir_not_chunk s id' id p p).
Qed.

Lemma path_confined_witness :
  ∃ comps, "/data/ab/cd/abcdef.chunk" = join_path "/data" comps ∧ Forall plain_component comps ∧ length comps = 3.
Proof.
  destruct (path_confined demo_store "abcdef" "/data/ab/cd/abcdef.chunk") as (H & _ & _).
  - vm_compute. done.
  - vm_compute. reflexivity.
  - exact H.
Defined.

(** Characters that validation refuses. *)
Lemma hex_string l :
  Forall is_hex l → contains_char "/"%char (of_bytes l) = false ∧ contains_char "\"%char (of_bytes l) = false ∧
    contains_dotdot (of_bytes l) = false.
Proof.
  induction 1 as [|c l Hc _ (H1 & H2 & H3)]; [done|].
  assert (Hne : ∀ d, ¬ is_hex d → c ≠ d) by (intros d Hd ->; done).
  change (of_bytes (c :: l)) with (String c (of_bytes l)). simpl. rewrite H1, H2, H3.
  rewrite !bool_decide_false; [done|apply Hne|apply not_eq_sym, Hne|apply not_eq_sym, Hne];
    unfold is_hex; vm_compute; intuition congruence.
Qed.

Lemma of_bytes_length l : String.length (of_bytes l) = length l.
Proof. induction l as [|c l IH]; [done|]. change (S (String.length (of_bytes l)) = S (length l)). by rewrite IH. Qed.

(** Chunk identifiers: what [ComputeChunkID] returns is 64 hexadecimal digits,
    which every store that shards to at most 32 levels accepts. *)
Theorem chunk_ids_valid fileID i level :
  (0 ≤ level ≤ 32)%Z →
  String.length (ComputeChunkID fileID i) = 64 ∧ validateChunkId level (ComputeChunkID fileID i) = Ok tt.
Proof.
  intros Hl. unfold ComputeChunkID. generalize (to_bytes (fileID +:+ pretty i)) as inp. intros inp.
  destruct (hex_string _ (hex_encode_is_hex (sha256 inp))) as (H1 & H2 & H3).
  assert (Hlen : String.length (of_bytes (hex_encode (sha256 inp))) = 64)
    by (by rewrite of_bytes_length, length_hex, sha256_length).
  split; [done|]. unfold validateChunkId. rewrite H1, H2, H3.
  rewrite decide_False by (intros Heq; by rewrite Heq in Hlen).
  rewrite decide_False; [done|]. unfold too_short. rewrite Hlen, Z.mod_small by lia. lia.
Qed.

Lemma chunk_ids_valid_witness : validateChunkId 2 (ComputeChunkID "file-1" 0) = Ok tt.
Proof. apply (chunk_ids_valid "file-1" 0 2). done. Defined.

(** Restart: a store built over the directories and the index of a previous run
    holds the same chunks, and counts none of them: the used space is zero and the
    whole capacity is reported free. *)
Theorem restart_forgets_usage io s :
  no_faults io → store_ok s →
  ∃ s', NewDiskStore io [WithRootDir (rootDir s); WithTempDir (tempDir s); WithSplitLevel (splitLevel s);
                         WithTotalSpace (totalSpace s)] (Some (index s, opened s)) (files s) = Ok s' ∧
    contents s' = contents s ∧ (Size s').1 = Ok 0%Z ∧ (FreeSpace s').1 = Ok (totalSpace s) ∧
    (store_ok s' ↔ used_bytes (contents s) = 0%Z).
Proof.
  intros Hio Hok. pose proof (st_total _ Hok) as Ht. unfold NewDiskStore.
  unfold os_plain, mbind, SE_bind. cbn [foldl]. rewrite !os_call_ok by done. eexists. split_and!; [reflexivity|done|done|..].
  - simpl. rewrite decide_False by (unfold is_uint64 in Ht; lia). by rewrite Z.sub_0_r.
  - rewrite contents_used by done. rewrite (st_used _ Hok). split.
    + intros Hok'. pose proof (st_used _ Hok') as Hu. simpl in Hu. symmetry. exact Hu.
    + intros Hu. split; simpl; try apply Hok.
      * symmetry. exact Hu.
      * unfold is_uint64 in Ht. lia.
Qed.

Lemma restart_forgets_usage_witness :
  ∃ s', NewDiskStore all_ok [WithRootDir "/data"; WithTempDir "/data/tmp"; WithSplitLevel 2; WithTotalSpace 100]
          (Some (∅, true)) ∅ = Ok s' ∧ (Size s').1 = Ok 0%Z.
Proof.
  destruct (restart_forgets_usage all_ok demo_store ltac:(done) demo_store_ok) as (s' & H & _ & Hs & _).
  exists s'. split; [exact H|exact Hs].
Defined.

(** The fourth call, the index update of an overwrite, fails. *)
Definition index_fails : nat → io_outcome := λ n,
  if decide (n = io_calls demo_store2 + 3) then IoFail (ErrSentinel "EIO") 0 else IoOk.

(** A write that fails is not undone: when the index update of an overwrite fails,
    the chunk keeps the new bytes with the old checksum, so it reads as the new
    contents and no longer verifies. *)
Theorem failed_overwrite_corrupts :
  let '(r, s') := Write index_fails "abcdef" (to_bytes "world!") demo_store2 in
  r = Err (ErrSentinel "EIO") ∧ (Read all_ok "abcdef" s').1 = Ok (to_bytes "world!") ∧
  (Verify all_ok "abcdef" demo_store2).1 = Ok (sha256 (to_bytes "hello")) ∧
  (Verify all_ok "abcdef" s').1 = Err ErrVerifyFailed.
Proof. vm_compute. done. Qed.
