(* ===== verification/StoreInterface.v ===== *)
(** * The interface of the chunk store: storage/store/interface.go

    [Store] is the Go interface that the writers, readers, handlers and the replication
    manager are given.  [StoreLaws] is what they may rely on: seen through its contents, a
    store is the capacity-bounded map of DiskStoreTheorems.v, its listing names the chunks
    it holds, and the path of a temporary file is never that of a chunk.  The disk store
    meets the contract on a working disk, so that every history of calls on it goes as on
    that map. *)

From S2P Require Import Prelude GoLib Sha256 DiskStore DiskStoreSpec DiskStoreTheorems.

(** ** The interface *)

Class Store (S : Type) := {
  st_Write : string → bytes → S → res unit * S;
  st_Rename : string → string → S → res unit * S;
  st_Read : string → S → res bytes * S;
  st_Delete : string → S → res unit * S;
  st_Exists : string → S → bool * S;
  st_TempDir : string → S → res string;
  st_Verify : string → S → res bytes * S;
  st_List : S → res (list string) * S;
  st_FreeSpace : S → res Z * S;
  st_PathForChunk : string → S → res string;
  st_Size : S → res Z * S;
}.

(** A call and its result, as values. *)
Definition as_val {A S} (f : A → store_val) (out : res A * S) : res store_val * S :=
  match out with (Ok a, s) => (Ok (f a), s) | (Err e, s) => (Err e, s) end.

Definition st_op {S} `{!Store S} (op : store_op) (s : S) : res store_val * S :=
  match op with
  | OpWrite id d => as_val (λ _, VUnit) (st_Write id d s)
  | OpRename src id _ => as_val (λ _, VUnit) (st_Rename src id s)
  | OpDelete id => as_val (λ _, VUnit) (st_Delete id s)
  | OpRead id => as_val VBytes (st_Read id s)
  | OpVerify id => as_val VBytes (st_Verify id s)
  | OpExists id => let '(b, s') := st_Exists id s in (Ok (VBool b), s')
  | OpSize => as_val VSize (st_Size s)
  | OpFreeSpace => as_val VSize (st_FreeSpace s)
  end.

(** A rename needs its source: [staged path data] says that a file that is not the file of
    a chunk lies at [path] and holds [data]. *)
Definition rename_ready (staged : string → bytes → Prop) (op : store_op) : Prop :=
  match op with OpRename src _ d => staged src d | _ => True end.

Class StoreLaws (S : Type) `{!Store S} := {
  st_ok : S → Prop;
  st_contents : S → gmap string bytes;
  st_limits : S → Z * Z;                        (* shard level and capacity *)
  st_staged : S → string → bytes → Prop;
  law_op : ∀ op s, st_ok s → rename_ready (st_staged s) op →
    spec_op (st_limits s).1 (st_limits s).2 op (st_contents s) = ((st_op op s).1, st_contents (st_op op s).2) ∧
    st_ok (st_op op s).2 ∧ st_limits (st_op op s).2 = st_limits s;
  law_List : ∀ s, st_ok s → ∃ l, st_List s = (Ok l, s) ∧ l ≡ₚ elements (dom (st_contents s));
  law_paths : ∀ s id, st_ok s →
    match validateChunkId (st_limits s).1 id with
    | Ok _ => (∃ p, st_PathForChunk id s = Ok p) ∧ ∃ p, st_TempDir id s = Ok p
    | Err e => st_PathForChunk id s = Err e ∧ st_TempDir id s = Err e
    end;
  law_PathForChunk : ∀ s id1 id2 p, st_ok s → st_PathForChunk id1 s = Ok p → st_PathForChunk id2 s = Ok p → id1 = id2;
  law_TempDir : ∀ s id1 id2 p q, st_ok s → st_TempDir id1 s = Ok p → st_PathForChunk id2 s = Ok q → p ≠ q;
}.

(** ** Histories *)

Inductive store_call := CallOp (op : store_op) | CallList.
Inductive call_val := CallVal (v : store_val) | CallKeys (ks : gset string).

Definition call_ready {S} (staged : S → string → bytes → Prop) (s : S) (c : store_call) : Prop :=
  match c with CallOp op => rename_ready (staged s) op | CallList => True end.

Definition do_call {S} `{!Store S} (c : store_call) (s : S) : res call_val * S :=
  match c with
  | CallOp op => match st_op op s with (Ok v, s') => (Ok (CallVal v), s') | (Err e, s') => (Err e, s') end
  | CallList => match st_List s with (Ok l, s') => (Ok (CallKeys (list_to_set l)), s') | (Err e, s') => (Err e, s') end
  end.

Definition spec_call (level total : Z) (c : store_call) (m : gmap string bytes) : res call_val * gmap string bytes :=
  match c with
  | CallOp op => match spec_op level total op m with (Ok v, m') => (Ok (CallVal v), m') | (Err e, m') => (Err e, m') end
  | CallList => (Ok (CallKeys (dom m)), m)
  end.

Fixpoint history {S} `{!Store S} (calls : list store_call) (s : S) : list (res call_val) * S :=
  match calls with
  | [] => ([], s)
  | c :: calls => let '(r, s1) := do_call c s in let '(rs, s2) := history calls s1 in (r :: rs, s2)
  end.

Fixpoint spec_history (level total : Z) (calls : list store_call) (m : gmap string bytes) : list (res call_val) * gmap string bytes :=
  match calls with
  | [] => ([], m)
  | c :: calls => let '(r, m1) := spec_call level total c m in let '(rs, m2) := spec_history level total calls m1 in (r :: rs, m2)
  end.

(** Each rename of the history finds its source. *)
Fixpoint history_ready {S} `{!Store S} (staged : S → string → bytes → Prop) (calls : list store_call) (s : S) : Prop :=
  match calls with
  | [] => True
  | c :: calls => call_ready staged s c ∧ history_ready staged calls (do_call c s).2
  end.

Section laws.
Context {S : Type} `{!Store S, !StoreLaws S}.

Lemma do_call_spec (c : store_call) (s : S) :
  st_ok s → call_ready st_staged s c →
  spec_call (st_limits s).1 (st_limits s).2 c (st_contents s) = ((do_call c s).1, st_contents (do_call c s).2) ∧
  st_ok (do_call c s).2 ∧ st_limits (do_call c s).2 = st_limits s.
Proof.
  intros Hok Hr. destruct c as [op|]; simpl in *.
  - destruct (law_op op s Hok Hr) as (-> & Hok' & Hl). by destruct (st_op op s) as [[v|e] s'].
  - destruct (law_List s Hok) as (l & -> & Hp). simpl. split; [|done]. do 3 f_equal.
    apply leibniz_equiv. rewrite Hp. by rewrite list_to_set_elements.
Qed.

Lemma history_spec (calls : list store_call) (s : S) :
  st_ok s → history_ready st_staged calls s →
  spec_history (st_limits s).1 (st_limits s).2 calls (st_contents s) = ((history calls s).1, st_contents (history calls s).2) ∧
  st_ok (history calls s).2 ∧ st_limits (history calls s).2 = st_limits s.
Proof.
  revert s. induction calls as [|c calls IH]; intros s Hok; simpl; [done|]. intros [Hr Hrest].
  destruct (do_call_spec c s Hok Hr) as (-> & Hok1 & Hl1). destruct (do_call c s) as [r s1]. simpl in *.
  rewrite <-Hl1. destruct (IH s1 Hok1 Hrest) as (-> & Hok2 & Hl2). by destruct (history calls s1) as [rs s2].
Qed.
End laws.

(** ** The disk store *)

Definition disk_staged (s : DiskStore) (path : string) (data : bytes) : Prop :=
  files s !! path = Some data ∧ ∀ id p, PathForChunk s id = Ok p → p ≠ path.

#[export] Instance disk_Store `{!GoSort} (io : nat → io_outcome) : Store DiskStore := {
  st_Write := Write io;
  st_Rename := Rename io;
  st_Read := Read io;
  st_Delete := Delete io;
  st_Exists id s := let '(r, s') := Exists id s in (match r with Ok b => b | Err _ => false end, s');
  st_TempDir id s := TempDir s id;
  st_Verify := Verify io;
  st_List := List;
  st_FreeSpace := FreeSpace;
  st_PathForChunk id s := PathForChunk s id;
  st_Size := Size;
}.

Lemma disk_op `{!GoSort} io op (s : DiskStore) : store_ok s → @st_op _ (disk_Store io) op s = run_op io op s.
Proof.
  intros Hok. destruct op as [id d|src id d|id|id|id|id| |]; simpl; unfold ret_as, mbind, SE_bind, mret, SE_ret, as_val.
  6: by rewrite Exists_ok.
  6-7: done.
  all: by repeat case_match.
Qed.

Lemma disk_paths (s : DiskStore) id :
  store_ok s →
  match validateChunkId (splitLevel s) id with
  | Ok _ => (∃ p, PathForChunk s id = Ok p) ∧ ∃ p, TempDir s id = Ok p
  | Err e => PathForChunk s id = Err e ∧ TempDir s id = Err e
  end.
Proof.
  intros Hok. destruct (validateChunkId _ _) as [[]|e] eqn:Hv.
  - split; [by apply PathForChunk_valid|]. unfold TempDir. rewrite Hv. simpl. eauto.
  - unfold PathForChunk, TempDir. by rewrite Hv.
Qed.

#[export] Instance disk_StoreLaws `{!GoSort} (io : nat → io_outcome) (Hio : no_faults io) : @StoreLaws DiskStore (disk_Store io).
Proof.
  refine (Build_StoreLaws _ (disk_Store io) store_ok contents (λ s, (splitLevel s, totalSpace s)) disk_staged _ _ _ _ _).
  - intros op s Hok Hr. rewrite disk_op by done. cbn [fst snd].
    assert (Hready : op_ready s op) by (by destruct op).
    destruct (op_matches io Hio op s Hok Hready) as (Hok' & -> & Hl & Ht). split_and!; [done|done|by rewrite Hl, Ht].
  - intros s Hok. simpl. unfold List, index_GetAll, get_st, mbind, SE_bind. rewrite (st_open _ Hok). simpl.
    eexists. split; [done|]. rewrite go_sort_perm, contents_dom by done. apply NoDup_Permutation.
    + apply NoDup_fst_map_to_list.
    + apply NoDup_elements.
    + intros k. rewrite elem_of_elements, elem_of_dom, list_elem_of_fmap. split.
      * intros ([k' v] & -> & Hkv%elem_of_map_to_list). by exists v.
      * intros [v Hv]. exists (k, v). by rewrite elem_of_map_to_list.
  - intros s id Hok. by apply disk_paths.
  - intros s id1 id2 p Hok. apply PathForChunk_inj, Hok.
  - intros s id1 id2 p q Hok. apply TempDir_not_chunk, Hok.
Defined.

(** ** Properties *)

(** C10. Every history of calls on the disk store, on a disk that works, goes as on a map of
    chunks bounded by the store's capacity: reads, writes, renames of staged files,
    deletions, verifications, existence checks, listings and space queries return exactly
    the map's answers, errors included, in a sound store, which the history leaves sound and
    with the map's contents.  A rename of the history finds a staged file that is not the
    file of a chunk. *)
Theorem disk_store_histories `{!GoSort} (io : nat → io_outcome) (calls : list store_call) (s : DiskStore) :
  no_faults io → store_ok s → @history_ready _ (disk_Store io) disk_staged calls s →
  let '(rs, s') := @history _ (disk_Store io) calls s in
  spec_history (splitLevel s) (totalSpace s) calls (contents s) = (rs, contents s') ∧
  store_ok s' ∧ splitLevel s' = splitLevel s ∧ totalSpace s' = totalSpace s.
Proof.
  intros Hio Hok Hr. destruct (@history_spec _ _ (disk_StoreLaws io Hio) calls s Hok Hr) as (H1 & H2 & H3).
  destruct (history calls s) as [rs s']. injection H3 as Hl Ht. by split_and!.
Qed.

(** An empty disk store of 100 bytes: an upload through a temporary file, one that does not
    fit, a listing, a deletion. *)
Definition w_calls : list store_call :=
  [CallOp (OpRename "/data/tmp/abcdef..tmp" "abcdef" (to_bytes "hello")); CallOp (OpWrite "ghijkl" (to_bytes "a chunk of ninety-six bytes, one more than fits beside the five of the first: the store says no."));
   CallOp (OpRead "abcdef"); CallList; CallOp (OpDelete "abcdef"); CallOp OpFreeSpace; CallOp (OpRead "abcdef")].
Definition w_staged : gmap string bytes := {[ "/data/tmp/abcdef..tmp" := to_bytes "hello" ]}.
Definition w_disk : DiskStore := mkDiskStore "/data" "/data/tmp" 2 100 0 ∅ true w_staged 0.

Lemma disk_store_histories_witness :
  (@history _ (disk_Store all_ok) w_calls w_disk).1 =
    [Ok (CallVal VUnit); Err ErrInsufficientSpace; Ok (CallVal (VBytes (to_bytes "hello"))); Ok (CallKeys {[ "abcdef" ]});
     Ok (CallVal VUnit); Ok (CallVal (VSize 100)); Err Err_ChunkNotFound].
Proof.
  assert (Hready : @history_ready _ (disk_Store all_ok) disk_staged w_calls w_disk).
  { split; [|repeat split]. split; [reflexivity|]. intros id p Hp Heq.
    eapply (TempDir_not_chunk w_disk "abcdef" id); [simpl; lia|reflexivity|exact Hp|by symmetry]. }
  pose proof (disk_store_histories all_ok w_calls w_disk (λ _, eq_refl) ltac:(by apply empty_store_ok) Hready) as H.
  destruct (@history _ (disk_Store all_ok) w_calls w_disk) as [rs s']. destruct H as [H _].
  apply (f_equal fst) in H. cbn [fst] in H. rewrite <-H. vm_compute. reflexivity.
Defined.
