(* ===== verification/ChecksumIndex.v ===== *)
(** * The checksum index on its own: storage/store/checksum_index.go

    [DiskStore] uses the index as a map in its own state.  Here is the generic
    [BoltChecksumIndex] as it is written: values of any type under a codec, in a bucket of a
    database file that [Open] opens and [CleanUp] closes.  bbolt is a parameter, the class
    [Bolt], with what its documentation says as the laws [BoltLaws]; calls to it may fail.
    The theorems: an open index is a map from keys to values, what was put is there after
    a restart, and over [ByteCodec] the index behaves as [DiskStore] has it. *)

From Stdlib Require Import Ascii.
From S2P Require Import Prelude GoLib GoText Sha256 DiskStore.

Definition ErrBucketNotFound : error := ErrSentinel "bucket not found".

(** ** Codecs *)

Record Codec (T : Type) := mkCodec { Marshal : T → res bytes; Unmarshal : bytes → res T }.
Arguments mkCodec {_} _ _.
Arguments Marshal {_} _ _.
Arguments Unmarshal {_} _ _.

(** What the index needs of a codec. *)
Class Faithful {T} (c : Codec T) : Prop := faithful : ∀ v b, Marshal c v = Ok b → Unmarshal c b = Ok v.

Definition StringCodec : Codec string := mkCodec (λ v, Ok (to_bytes v)) (λ b, Ok (String.string_of_list_ascii b)).
Definition ByteCodec : Codec bytes := mkCodec Ok Ok.
(** [[32]byte] as a vector. *)
Definition Sha256Codec : Codec (vec ascii 32) :=
  mkCodec (λ v, Ok (vec_to_list v))
    (λ b, match decide (length b = 32) with
          | left Hlen => Ok (eq_rect _ (vec ascii) (list_to_vec b) 32 Hlen)
          | right _ => Err (ErrNew "sha256: expected 32 bytes")
          end).

#[global] Instance StringCodec_faithful : Faithful StringCodec.
Proof. intros v b [= <-]. simpl. unfold to_bytes. by rewrite String.string_of_list_ascii_of_string. Qed.
#[global] Instance ByteCodec_faithful : Faithful ByteCodec.
Proof. by intros v b [= <-]. Qed.
Lemma vec_to_list_cast {A m n} (w : vec A m) (Heq : m = n) : vec_to_list (eq_rect m (vec A) w n Heq) = vec_to_list w.
Proof. by destruct Heq. Qed.

#[global] Instance Sha256Codec_faithful : Faithful Sha256Codec.
Proof.
  intros v b [= <-]. simpl. destruct (decide _) as [Hlen|Hlen]; [|by rewrite length_vec_to_list in Hlen]. f_equal.
  apply vec_to_list_inj2. by rewrite vec_to_list_cast, vec_to_list_to_vec.
Qed.

(** ** bbolt *)

(** bbolt's limits. *)
Definition MaxKeySize : nat := 32768.
Definition MaxValueSize : Z := 2147483646.

(** The buckets of a database, as a transaction sees them. *)
Notation Tx := (gmap string (gmap string bytes)).

(** [F] is what is outside of the process; a handle is the file it was opened on. *)
Class Bolt (F : Type) := {
  bolt_Open : string → F → maybe_panic (option error) * F;
  bolt_Close : string → F → option error * F;
  bolt_Update : string → (Tx → res Tx) → F → option error * F;
  bolt_View : ∀ {A}, string → (Tx → res A) → F → res A;
  tx_CreateBucketIfNotExists : string → Tx → res Tx;
  bucket_Put : string → bytes → gmap string bytes → res (gmap string bytes);
  bucket_Delete : string → gmap string bytes → res (gmap string bytes);
  bucket_keys : gmap string bytes → list string; (* the order of [ForEach] *)
  bolt_data : string → F → Tx;   (* what is committed to a file *)
  bolt_held : F → gset string;   (* the files that are open, and locked *)
}.

Class BoltLaws (F : Type) `{!Bolt F} : Prop := {
  open_data : ∀ f s g, bolt_data g (bolt_Open f s).2 = bolt_data g s;
  open_held : ∀ f s, match (bolt_Open f s).1 with
    | Returns None => f ∉ bolt_held s ∧ bolt_held (bolt_Open f s).2 = {[f]} ∪ bolt_held s
    | Returns (Some _) | Blocks => bolt_held (bolt_Open f s).2 = bolt_held s
    | Panics => False
    end;
  close_data : ∀ f s g, bolt_data g (bolt_Close f s).2 = bolt_data g s;
  close_held : ∀ f s, (bolt_Close f s).1 = None → bolt_held (bolt_Close f s).2 = bolt_held s ∖ {[f]};
  (* all of the transaction or nothing; an error of its function rolls it back *)
  update_atomic : ∀ f body s, f ∈ bolt_held s →
    bolt_held (bolt_Update f body s).2 = bolt_held s ∧
    (∀ g, g ≠ f → bolt_data g (bolt_Update f body s).2 = bolt_data g s) ∧
    match body (bolt_data f s) with
    | Err e => (bolt_Update f body s).1 = Some e ∧ bolt_data f (bolt_Update f body s).2 = bolt_data f s
    | Ok tx => (bolt_Update f body s).1 = None ∧ bolt_data f (bolt_Update f body s).2 = tx ∨
        (bolt_Update f body s).1 ≠ None ∧ bolt_data f (bolt_Update f body s).2 = bolt_data f s
    end;
  view_snapshot : ∀ A f (body : Tx → res A) s, f ∈ bolt_held s → bolt_View f body s = body (bolt_data f s);
  create_bucket : ∀ name tx, name ≠ "" → String.length name ≤ MaxKeySize →
    tx_CreateBucketIfNotExists name tx = Ok (<[name := default ∅ (tx !! name)]> tx);
  put_effect : ∀ k v m m', bucket_Put k v m = Ok m' → m' = <[k := v]> m;
  delete_effect : ∀ k m, bucket_Delete k m = Ok (delete k m);
  keys_perm : ∀ m, bucket_keys m ≡ₚ (map_to_list m).*1;
  keys_ordered : ∀ m, ordered String.ltb (bucket_keys m);
}.

(** Nothing fails: the disk works. *)
Record reliable {F} `{!Bolt F} (s : F) : Prop := {
  rl_update : ∀ f body tx, f ∈ bolt_held s → body (bolt_data f s) = Ok tx → (bolt_Update f body s).1 = None;
  rl_put : ∀ k v m, k ≠ "" → String.length k ≤ MaxKeySize → (Z.of_nat (length v) ≤ MaxValueSize)%Z →
    is_Some (res_to_option (bucket_Put k v m));
}.

(** ** Paths: path/filepath *)

Definition slash : ascii := "/".

(** The components of [Clean], innermost first. *)
Definition clean_step (rooted : bool) (acc : list string) (c : string) : list string :=
  if decide (c = "" ∨ c = ".") then acc
  else if decide (c = "..") then
    match acc with
    | [] => if rooted then [] else [".."]
    | d :: rest => if decide (d = "..") then ".." :: acc else rest
    end
  else c :: acc.

Definition is_rooted (p : string) : bool := match p with String c _ => bool_decide (c = slash) | _ => false end.

Definition filepath_Clean (p : string) : string :=
  let rooted := is_rooted p in
  let comps := reverse (foldl (clean_step rooted) [] (split slash p)) in
  if rooted then String slash (join slash comps)
  else if decide (comps = []) then "." else join slash comps.

Fixpoint filepath_Join (elems : list string) : string :=
  match elems with
  | [] => ""
  | e :: rest => if decide (e = "") then filepath_Join rest else filepath_Clean (join slash (e :: rest))
  end.

Definition filepath_Dir (p : string) : string :=
  let dirs := removelast (split slash p) in
  filepath_Clean (if decide (dirs = []) then "" else join slash dirs +:+ "/").

(** [filepath.Abs], given [os.Getwd]. *)
Definition filepath_Abs (getwd : res string) (p : string) : res string :=
  if is_rooted p then Ok (filepath_Clean p) else let? wd := getwd in Ok (filepath_Join [wd; p]).

(** ** The index *)

Record BoltChecksumIndex (T : Type) := mkIndex {
  ci_db : option string; (* the file the handle is open on *)
  ci_path : string;
  ci_bucket : string;
  ci_codec : Codec T;
}.
Arguments mkIndex {_} _ _ _ _.
Arguments ci_db {_} _.
Arguments ci_path {_} _.
Arguments ci_bucket {_} _.
Arguments ci_codec {_} _.

Definition BoltChecksumIndexOpts (T : Type) : Type := BoltChecksumIndex T → BoltChecksumIndex T.

Section index.
Context {T : Type} {F : Type} `{!Bolt F}.

Definition set_db (db : option string) (c : BoltChecksumIndex T) : BoltChecksumIndex T :=
  mkIndex db (ci_path c) (ci_bucket c) (ci_codec c).

Definition WithDbPath (path : string) : BoltChecksumIndexOpts T := λ b, mkIndex (ci_db b) path (ci_bucket b) (ci_codec b).

Definition WithDefaultPath : BoltChecksumIndexOpts T := WithDbPath (filepath_Join ["."; "storage"; "store"]).

Definition NewChecksumIndexBoltDB (codec : option (Codec T)) (opts : list (BoltChecksumIndexOpts T)) : res (BoltChecksumIndex T) :=
  match codec with
  | None => Err (ErrNew "ChecksumIndexBoltDB: codec is required")
  | Some codec => Ok (foldl (λ b opt, opt b) (WithDefaultPath (mkIndex None "" "checksums" codec)) opts)
  end.

(** [getwd] and [mkdir] are the calls to the operating system. *)
Definition ci_Open (getwd : res string) (mkdir : string → option error) (c : BoltChecksumIndex T) (s : F)
    : maybe_panic (option error) * BoltChecksumIndex T * F :=
  if decide (ci_db c ≠ None) then (Returns (Some ErrDatabaseAlreadyOpened), c, s)
  else
    match filepath_Abs getwd (filepath_Join [ci_path c; "checksum.db"]) with
    | Err e => (Returns (Some e), c, s)
    | Ok dbFile =>
        match mkdir (filepath_Dir dbFile) with
        | Some e => (Returns (Some e), c, s)
        | None =>
            match bolt_Open dbFile s with
            | (Returns None, s1) =>
                let c1 := set_db (Some dbFile) c in
                let '(err, s2) := bolt_Update dbFile (tx_CreateBucketIfNotExists (ci_bucket c)) s1 in
                (Returns err, c1, s2)
            | (Returns (Some e), s1) => (Returns (Some e), c, s1)
            | (Panics, s1) => (Panics, c, s1)
            | (Blocks, s1) => (Blocks, c, s1)
            end
        end
    end.

(** The bucket of the index in a transaction. *)
Definition in_bucket {A} (c : BoltChecksumIndex T) (body : gmap string bytes → res A) (tx : Tx) : res A :=
  match tx !! ci_bucket c with
  | None => Err ErrBucketNotFound
  | Some b => body b
  end.

Definition bucket_update (c : BoltChecksumIndex T) (body : gmap string bytes → res (gmap string bytes)) (tx : Tx) : res Tx :=
  let? b := in_bucket c body tx in Ok (<[ci_bucket c := b]> tx).

Definition ci_Put (key : string) (value : T) (c : BoltChecksumIndex T) (s : F) : option error * F :=
  if decide (key = "") then (Some ErrEmptyKey, s)
  else
    match ci_db c with
    | None => (Some ErrDatabaseNotOpened, s)
    | Some db => bolt_Update db (bucket_update c (λ b, let? data := Marshal (ci_codec c) value in bucket_Put key data b)) s
    end.

Definition ci_Get (key : string) (c : BoltChecksumIndex T) (s : F) : res T :=
  match ci_db c with
  | None => Err ErrDatabaseNotOpened
  | Some db => bolt_View db (in_bucket c (λ b,
      match b !! key with
      | None => Err ErrKeyNotFound
      | Some data => Unmarshal (ci_codec c) data
      end)) s
  end.

Definition ci_GetAll (c : BoltChecksumIndex T) (s : F) : res (list string) :=
  match ci_db c with
  | None => Err ErrDatabaseNotOpened
  | Some db => bolt_View db (in_bucket c (λ b, Ok (bucket_keys b))) s
  end.

Fixpoint put_all (data : list (string * T)) (c : BoltChecksumIndex T) (s : F) : option error * F :=
  match data with
  | [] => (None, s)
  | (k, v) :: rest =>
      match ci_Put k v c s with
      | (Some e, s') => (Some e, s')
      | (None, s') => put_all rest c s'
      end
  end.

Definition ci_PutAll (data : list (string * T)) (c : BoltChecksumIndex T) (s : F) : option error * F :=
  if decide (ci_db c = None) then (Some ErrDatabaseNotOpened, s) else put_all data c s.

Definition ci_Delete (key : string) (c : BoltChecksumIndex T) (s : F) : option error * F :=
  if decide (key = "") then (Some ErrEmptyKey, s)
  else
    match ci_db c with
    | None => (Some ErrDatabaseNotOpened, s)
    | Some db => bolt_Update db (bucket_update c (λ b,
        match b !! key with
        | None => Err ErrKeyNotFound
        | Some _ => bucket_Delete key b
        end)) s
    end.

Definition ci_CleanUp (c : BoltChecksumIndex T) (s : F) : BoltChecksumIndex T * F :=
  match ci_db c with
  | None => (c, s)
  | Some db => (set_db None c, (bolt_Close db s).2)
  end.
End index.

(** ** The abstract index: a map *)

Inductive ci_op (T : Type) :=
| OpPut (key : string) (value : T)
| OpGet (key : string)
| OpGetAll
| OpPutAll (data : list (string * T))
| OpDelete (key : string).
Arguments OpPut {_} _ _.
Arguments OpGet {_} _.
Arguments OpGetAll {_}.
Arguments OpPutAll {_} _.
Arguments OpDelete {_} _.

Inductive ci_result (T : Type) := Done (err : option error) | Value (r : res T) | Keys (r : res (list string)).
Arguments Done {_} _.
Arguments Value {_} _.
Arguments Keys {_} _.

Section spec.
Context {T : Type} (codec : Codec T) `{!GoSort}.

(** A value that the codec rejects is not stored. *)
Definition spec_put (k : string) (v : T) (m : gmap string T) : option error * gmap string T :=
  if decide (k = "") then (Some ErrEmptyKey, m)
  else match Marshal codec v with Err e => (Some e, m) | Ok _ => (None, <[k := v]> m) end.

Fixpoint spec_put_all (data : list (string * T)) (m : gmap string T) : option error * gmap string T :=
  match data with
  | [] => (None, m)
  | (k, v) :: rest =>
      match spec_put k v m with
      | (Some e, m') => (Some e, m')
      | (None, m') => spec_put_all rest m'
      end
  end.

Definition spec_op (op : ci_op T) (m : gmap string T) : ci_result T * gmap string T :=
  match op with
  | OpPut k v => let '(e, m') := spec_put k v m in (Done e, m')
  | OpGet k => (Value (match m !! k with Some v => Ok v | None => Err ErrKeyNotFound end), m)
  | OpGetAll => (Keys (Ok (go_sort String.ltb (map_to_list m).*1)), m)
  | OpPutAll data => let '(e, m') := spec_put_all data m in (Done e, m')
  | OpDelete k =>
      if decide (k = "") then (Done (Some ErrEmptyKey), m)
      else match m !! k with None => (Done (Some ErrKeyNotFound), m) | Some _ => (Done None, delete k m) end
  end.

(** What is left behind when bbolt fails: nothing of the operation, or, of [PutAll], the
    pairs before the one that failed. *)
Definition spec_fault (op : ci_op T) (m m' : gmap string T) : Prop :=
  match op with
  | OpPut _ _ | OpDelete _ => m' = m
  | OpPutAll data => ∃ n, n < length data ∧ spec_put_all (take n data) m = (None, m')
  | OpGet _ | OpGetAll => False
  end.

(** Keys and values are within bbolt's limits. *)
Definition pair_fits (kv : string * T) : Prop :=
  String.length kv.1 ≤ MaxKeySize ∧ ∀ d, Marshal codec kv.2 = Ok d → (Z.of_nat (length d) ≤ MaxValueSize)%Z.

Definition op_fits (op : ci_op T) : Prop :=
  match op with
  | OpPut k v => pair_fits (k, v)
  | OpPutAll data => Forall pair_fits data
  | _ => True
  end.

Fixpoint spec_run (ops : list (ci_op T)) (m : gmap string T) : list (ci_result T) * gmap string T :=
  match ops with
  | [] => ([], m)
  | op :: rest => let '(r, m1) := spec_op op m in let '(rs, m2) := spec_run rest m1 in (r :: rs, m2)
  end.
End spec.

Section run.
Context {T F : Type} `{!Bolt F}.

Definition ci_run_op (c : BoltChecksumIndex T) (op : ci_op T) (s : F) : ci_result T * F :=
  match op with
  | OpPut k v => let '(e, s') := ci_Put k v c s in (Done e, s')
  | OpGet k => (Value (ci_Get k c s), s)
  | OpGetAll => (Keys (ci_GetAll c s), s)
  | OpPutAll data => let '(e, s') := ci_PutAll data c s in (Done e, s')
  | OpDelete k => let '(e, s') := ci_Delete k c s in (Done e, s')
  end.

Fixpoint ci_run (c : BoltChecksumIndex T) (ops : list (ci_op T)) (s : F) : list (ci_result T) * F :=
  match ops with
  | [] => ([], s)
  | op :: rest => let '(r, s1) := ci_run_op c op s in let '(rs, s2) := ci_run c rest s1 in (r :: rs, s2)
  end.
End run.

(** ** The index implements the map *)

(** The bucket holds the values of [m], marshalled. *)
Definition encodes {T} (codec : Codec T) (m : gmap string T) (b : gmap string bytes) : Prop :=
  ∀ k, match m !! k with Some v => ∃ d, Marshal codec v = Ok d ∧ b !! k = Some d | None => b !! k = None end.

Lemma encodes_insert {T} (codec : Codec T) m b k v d :
  encodes codec m b → Marshal codec v = Ok d → encodes codec (<[k := v]> m) (<[k := d]> b).
Proof.
  intros He Hd k'. destruct (decide (k' = k)) as [->|Hne]; [rewrite !lookup_insert_eq; eauto|].
  rewrite !lookup_insert_ne by done. apply He.
Qed.

Lemma encodes_delete {T} (codec : Codec T) m b k : encodes codec m b → encodes codec (delete k m) (delete k b).
Proof.
  intros He k'. destruct (decide (k' = k)) as [->|Hne]; [by rewrite !lookup_delete_eq|].
  rewrite !lookup_delete_ne by done. apply He.
Qed.

Lemma encodes_dom {T} (codec : Codec T) m b : encodes codec m b → dom m = dom b.
Proof.
  intros He. apply set_eq. intros k. rewrite !elem_of_dom. specialize (He k).
  destruct (m !! k); [destruct He as (d & _ & ->)|rewrite He]; by split; intros []; eauto.
Qed.

(** Sorted keys are determined by the set of keys. *)
Lemma ordered_unique (l1 l2 : list string) : l1 ≡ₚ l2 → ordered String.ltb l1 → ordered String.ltb l2 → l1 = l2.
Proof.
  intros Hp H1 H2. refine (StronglySorted_unique _ _ _ H1 H2 Hp).
  intros x y Hyx Hxy. rewrite <-not_true_iff_false, string_ltb_lt in Hyx, Hxy.
  destruct (String.compare x y) eqn:Hc; [by apply String.compare_eq_iff|done|].
  rewrite String.compare_antisym, Hc in Hyx. done.
Qed.

Section refinement.
Context {T F : Type} `{!Bolt F, !BoltLaws F, !GoSort}.

(** The index is open and its bucket holds [m]. *)
Definition represents (c : BoltChecksumIndex T) (s : F) (m : gmap string T) : Prop :=
  ∃ f b, ci_db c = Some f ∧ f ∈ bolt_held s ∧ bolt_data f s !! ci_bucket c = Some b ∧ encodes (ci_codec c) m b.

(** A transaction on the bucket: its function fails, it commits, or bbolt fails. *)
Lemma bucket_transaction (c : BoltChecksumIndex T) f b body (s : F) :
  f ∈ bolt_held s → bolt_data f s !! ci_bucket c = Some b →
  let '(e, s') := bolt_Update f (bucket_update c body) s in
  f ∈ bolt_held s' ∧
  match body b with
  | Err e' => e = Some e' ∧ bolt_data f s' !! ci_bucket c = Some b
  | Ok b' => e = None ∧ bolt_data f s' !! ci_bucket c = Some b' ∨
      e ≠ None ∧ bolt_data f s' !! ci_bucket c = Some b ∧ ¬ reliable s
  end.
Proof.
  intros Hf Hb. pose proof (update_atomic f (bucket_update c body) s Hf) as (Hheld & _ & Hup).
  pose proof (λ Hr, rl_update s Hr f (bucket_update c body)) as Hrel.
  assert (Hbody : bucket_update c body (bolt_data f s) = let? b' := body b in Ok (<[ci_bucket c := b']> (bolt_data f s))).
  { unfold bucket_update, in_bucket. by rewrite Hb. }
  rewrite Hbody in Hup, Hrel.
  destruct (bolt_Update f (bucket_update c body) s) as [e s']. simpl in *. rewrite Hheld. split; [done|].
  destruct (body b) as [b'|e']; simpl in *.
  - destruct Hup as [[-> Hd]|[He Hd]]; [left|right]; rewrite Hd.
    + by rewrite lookup_insert_eq.
    + split_and!; [done|done|]. intros Hr. by destruct (He (Hrel Hr _ Hf eq_refl)).
  - destruct Hup as [-> ->]. done.
Qed.

Lemma ci_Put_spec k v c s m :
  represents c s m →
  let '(e, s') := ci_Put k v c s in
  (e = (spec_put (ci_codec c) k v m).1 ∧ represents c s' (spec_put (ci_codec c) k v m).2) ∨
  (e ≠ None ∧ represents c s' m ∧ ¬ (reliable s ∧ pair_fits (ci_codec c) (k, v))).
Proof.
  intros (f & b & Hf & Hheld & Hb & He). unfold ci_Put, spec_put. case_decide as Hk; [left; split; [done|by exists f, b]|].
  rewrite Hf. match goal with |- context [bucket_update c ?body] => pose proof (bucket_transaction c f b body s Hheld Hb) as Htx end.
  destruct (bolt_Update _ _ s) as [e s']. destruct Htx as [Hheld' Htx].
  destruct (Marshal (ci_codec c) v) as [d|e'] eqn:Hd; simpl in Htx.
  - destruct (bucket_Put k d b) as [b'|e'] eqn:Hput.
    + apply put_effect in Hput as ->. destruct Htx as [[-> Hd']|(He' & Hd' & Hr)].
      * left. split; [done|]. exists f, (<[k := d]> b). split_and!; [done..|]. by apply encodes_insert.
      * right. split_and!; [done|by exists f, b|naive_solver].
    + destruct Htx as [-> Hd']. right. split_and!; [done|by exists f, b|]. intros [Hr [Hlen Hval]].
      destruct (rl_put s Hr k d b Hk Hlen (Hval d Hd)) as [x Hx]. by rewrite Hput in Hx.
  - destruct Htx as [-> Hd']. left. split; [done|]. by exists f, b.
Qed.

Lemma put_all_spec data c s m :
  represents c s m →
  let '(e, s') := put_all data c s in
  (e = (spec_put_all (ci_codec c) data m).1 ∧ represents c s' (spec_put_all (ci_codec c) data m).2) ∨
  (e ≠ None ∧ (∃ m', represents c s' m' ∧ ∃ n, n < length data ∧ spec_put_all (ci_codec c) (take n data) m = (None, m')) ∧
    ¬ ((∀ s : F, reliable s) ∧ Forall (pair_fits (ci_codec c)) data)).
Proof.
  revert s m. induction data as [|[k v] data IH]; intros s m Hm; [by left|]. simpl.
  pose proof (ci_Put_spec k v c s m Hm) as Hput. destruct (ci_Put k v c s) as [e s1].
  destruct Hput as [[-> Hm1]|(He & Hm1 & Hr)].
  - destruct (spec_put (ci_codec c) k v m) as [[e|] m1] eqn:Hs; simpl in Hm1 |- *; [by left|].
    specialize (IH s1 m1 Hm1). destruct (put_all data c s1) as [e s2]. destruct IH as [?|(He & (m' & Hm' & n & Hn & Htake) & Hr)]; [by left|].
    right. split_and!; [done| |intros [? ?%Forall_cons]; naive_solver]. exists m'. split; [done|]. exists (S n). simpl. rewrite Hs. split; [lia|done].
  - destruct e as [e|]; [|done]. right. split_and!; [done| |intros [? ?%Forall_cons]; naive_solver]. exists m. split; [done|]. exists 0. simpl. split; [lia|done].
Qed.

Lemma ci_Delete_spec k c s m :
  represents c s m →
  let '(e, s') := ci_Delete k c s in
  (Done e = (spec_op (ci_codec c) (OpDelete k) m).1 ∧ represents c s' (spec_op (ci_codec c) (OpDelete k) m).2) ∨
  (e ≠ None ∧ represents c s' m ∧ ¬ reliable s).
Proof.
  intros (f & b & Hf & Hheld & Hb & He). unfold ci_Delete. cbn [spec_op]. case_decide as Hk; [left; split; [done|by exists f, b]|].
  rewrite Hf. match goal with |- context [bucket_update c ?body] => pose proof (bucket_transaction c f b body s Hheld Hb) as Htx end.
  destruct (bolt_Update _ _ s) as [e s']. destruct Htx as [Hheld' Htx]. pose proof (He k) as Hek.
  destruct (m !! k) as [v|].
  - destruct Hek as (d & _ & Hd). rewrite Hd, delete_effect in Htx. destruct Htx as [[-> Hd']|(He' & Hd' & Hr)].
    + left. split; [done|]. exists f, (delete k b). split_and!; [done..|]. by apply encodes_delete.
    + right. split_and!; [done|by exists f, b|done].
  - rewrite Hek in Htx. destruct Htx as [-> Hd']. left. split; [done|]. by exists f, b.
Qed.

Lemma ci_Get_spec `{!Faithful (ci_codec c)} k s m :
  represents c s m → ci_Get k c s = match m !! k with Some v => Ok v | None => Err ErrKeyNotFound end.
Proof.
  intros (f & b & Hf & Hheld & Hb & He). unfold ci_Get. rewrite Hf, view_snapshot by done. unfold in_bucket. rewrite Hb.
  specialize (He k). destruct (m !! k) as [v|]; [|by rewrite He]. destruct He as (d & Hd & ->). by apply faithful.
Qed.

Lemma ci_GetAll_spec c s m : represents c s m → ci_GetAll c s = Ok (go_sort String.ltb (map_to_list m).*1).
Proof.
  intros (f & b & Hf & Hheld & Hb & He). unfold ci_GetAll. rewrite Hf, view_snapshot by done. unfold in_bucket. rewrite Hb. f_equal.
  apply ordered_unique; [|apply keys_ordered|apply go_sort_ordered, string_ltb_sw].
  rewrite keys_perm, go_sort_perm. apply NoDup_Permutation; [apply NoDup_fst_map_to_list..|]. intros k.
  assert (Hdom : ∀ {V} (m : gmap string V), k ∈ (map_to_list m).*1 ↔ k ∈ dom m).
  { intros V m'. rewrite list_elem_of_fmap, elem_of_dom. split.
    - intros ([k' v] & -> & Hkv%elem_of_map_to_list). by eexists.
    - intros [v Hv]. exists (k, v). by rewrite elem_of_map_to_list. }
  by rewrite !Hdom, (encodes_dom _ _ _ He).
Qed.

Lemma ci_op_spec `{!Faithful (ci_codec c)} op s m :
  represents c s m →
  let '(r, s') := ci_run_op c op s in
  (r = (spec_op (ci_codec c) op m).1 ∧ represents c s' (spec_op (ci_codec c) op m).2) ∨
  (∃ e m', r = Done (Some e) ∧ represents c s' m' ∧ spec_fault (ci_codec c) op m m' ∧ ¬ ((∀ s : F, reliable s) ∧ op_fits (ci_codec c) op)).
Proof.
  intros Hm. destruct op as [k v|k| |data|k]; cbn [ci_run_op].
  - pose proof (ci_Put_spec k v c s m Hm) as Hop. destruct (ci_Put k v c s) as [e s'].
    cbn [spec_op]. destruct (spec_put _ k v m) as [e1 m1]. destruct Hop as [[-> ?]|(He & ? & ?)]; [by left|right].
    destruct e as [e|]; [|done]. exists e, m. split_and!; [done|done|done|naive_solver].
  - left. cbn [spec_op]. split; [|done]. by rewrite (ci_Get_spec k s m).
  - left. cbn [spec_op]. split; [|done]. by rewrite (ci_GetAll_spec c s m).
  - pose proof (put_all_spec data c s m Hm) as Hop. unfold ci_PutAll.
    destruct Hm as (f & b & Hf & Hrest). rewrite decide_False by (rewrite Hf; done).
    cbn [spec_op]. destruct (put_all data c s) as [e s'], (spec_put_all _ data m) as [e1 m1].
    destruct Hop as [[-> ?]|(He & (m' & ? & ?) & ?)]; [by left|right]. destruct e as [e|]; [|done]. by exists e, m'.
  - pose proof (ci_Delete_spec k c s m Hm) as Hop. destruct (ci_Delete k c s) as [e s'].
    destruct Hop as [[He ?]|(He & ? & ?)]; [by left|right].
    destruct e as [e|]; [|done]. exists e, m. split_and!; [done|done|done|naive_solver].
Qed.
End refinement.

(** ** A database in memory *)

(** Everything works but for keys and values over bbolt's limits, and an open file is locked. *)
Record MemBolt := mkMemBolt { mb_files : gmap string Tx; mb_held : gset string }.

#[global] Instance MemBolt_bolt : Bolt MemBolt := {|
  bolt_Open f s := if decide (f ∈ mb_held s) then (Blocks, s) else (Returns None, mkMemBolt (mb_files s) ({[f]} ∪ mb_held s));
  bolt_Close f s := (None, mkMemBolt (mb_files s) (mb_held s ∖ {[f]}));
  bolt_Update f body s :=
    match body (default ∅ (mb_files s !! f)) with
    | Ok tx => (None, mkMemBolt (<[f := tx]> (mb_files s)) (mb_held s))
    | Err e => (Some e, s)
    end;
  bolt_View A f body s := body (default ∅ (mb_files s !! f));
  tx_CreateBucketIfNotExists name tx :=
    if decide (name = "") then Err (ErrNew "bucket name required") else Ok (<[name := default ∅ (tx !! name)]> tx);
  bucket_Put k v m := if decide (MaxKeySize < String.length k) then Err (ErrNew "key too large") else Ok (<[k := v]> m);
  bucket_Delete k m := Ok (delete k m);
  bucket_keys m := go_sort String.ltb (map_to_list m).*1;
  bolt_data f s := default ∅ (mb_files s !! f);
  bolt_held := mb_held;
|}.

#[global] Instance MemBolt_laws : BoltLaws MemBolt.
Proof.
  split; simpl.
  - intros f s g. by case_decide.
  - intros f s. by case_decide.
  - done.
  - done.
  - intros f body s Hf. destruct (body _); simpl; [|done]. split_and!; [done| |left].
    + intros g Hg. by rewrite lookup_insert_ne.
    + by rewrite lookup_insert_eq.
  - done.
  - intros name tx Hn _. by rewrite decide_False.
  - intros k v m m'. case_decide; [done|]. by intros [= <-].
  - done.
  - intros m. exact (go_sort_perm String.ltb (map_to_list m).*1).
  - intros m. exact (go_sort_ordered String.ltb (map_to_list m).*1 string_ltb_sw).
Qed.

Lemma MemBolt_reliable (s : MemBolt) : reliable s.
Proof.
  split; simpl.
  - intros f body tx _ Hb. unfold bolt_data in Hb. simpl in Hb. by rewrite Hb.
  - intros k v m _ Hk _. rewrite decide_False by lia. by eexists.
Qed.

(** ** Properties *)

(** C11. An open index is a map.  Whatever is put, read, listed or deleted, over any codec that
    reads back what it wrote and whatever bbolt does within its documentation: each
    operation answers and leaves what the map does, or it returns an error and leaves the map as it
    was, after [PutAll] with the pairs before the one that failed; and when bbolt does not fail
    and keys and values are within its limits, any sequence of operations answers as the map does. *)
Theorem index_refines_map {T F : Type} `{!Bolt F, !BoltLaws F, !GoSort} (c : BoltChecksumIndex T) (ops : list (ci_op T)) (op : ci_op T)
    (s : F) (m : gmap string T) :
  Faithful (ci_codec c) → represents c s m →
  (let '(r, s') := ci_run_op c op s in
   (r = (spec_op (ci_codec c) op m).1 ∧ represents c s' (spec_op (ci_codec c) op m).2) ∨
   (∃ e m', r = Done (Some e) ∧ represents c s' m' ∧ spec_fault (ci_codec c) op m m')) ∧
  ((∀ s : F, reliable s) → Forall (op_fits (ci_codec c)) ops →
   (ci_run c ops s).1 = (spec_run (ci_codec c) ops m).1 ∧ represents c (ci_run c ops s).2 (spec_run (ci_codec c) ops m).2).
Proof.
  intros Hc Hm. split.
  - pose proof (ci_op_spec op s m Hm) as Hop. destruct (ci_run_op c op s) as [r s']. naive_solver.
  - intros Hr Hfit. revert s m Hm. induction Hfit as [|o ops Ho _ IH]; intros s m Hm; [done|]. simpl.
    pose proof (ci_op_spec o s m Hm) as Hop. destruct (ci_run_op c o s) as [r s'].
    destruct Hop as [[-> Hm']|(? & ? & _ & _ & _ & Hn)]; [|by destruct Hn; auto].
    destruct (spec_op (ci_codec c) o m) as [r m']. simpl in *. destruct (IH s' m' Hm') as [H1 H2].
    destruct (ci_run c ops s'), (spec_run (ci_codec c) ops m'). simpl in *. by rewrite H1.
Qed.

Definition w_index_file : string := "/data/checksum.db".
Definition w_index : BoltChecksumIndex string := mkIndex (Some w_index_file) "/data" "checksums" StringCodec.
Definition w_bolt : MemBolt := mkMemBolt {[w_index_file := {["checksums" := {["a" := to_bytes "1"]}]}]} {[w_index_file]}.

Lemma w_represents : represents w_index w_bolt {["a" := "1"]}.
Proof.
  exists w_index_file, {["a" := to_bytes "1"]}. split_and!; [done|vm_compute; reflexivity..|].
  intros k. destruct (decide (k = "a")) as [->|Hne]; [rewrite !lookup_singleton_eq; eauto|].
  by rewrite !lookup_singleton_ne.
Qed.

Lemma index_refines_map_witness :
  (ci_run w_index [OpPut "b" "2"; OpPutAll [("c", "3"); ("", "4"); ("d", "5")]; OpDelete "a"; OpGet "a"; OpGet "c"; OpGetAll] w_bolt).1 =
  [Done None; Done (Some ErrEmptyKey); Done None; Value (Err ErrKeyNotFound); Value (Ok "3"); Keys (Ok ["b"; "c"])].
Proof.
  set (ops := [OpPut "b" "2"; OpPutAll [("c", "3"); ("", "4"); ("d", "5")]; OpDelete "a"; OpGet "a"; OpGet "c"; OpGetAll]).
  destruct (index_refines_map w_index ops OpGetAll w_bolt {["a" := "1"]} StringCodec_faithful w_represents) as [_ Hrun].
  destruct Hrun as [H _]; [exact MemBolt_reliable| |rewrite H; vm_compute; reflexivity].
  assert (Hfit : ∀ k v, String.length k = 1 ∨ k = "" → String.length v = 1 → pair_fits (ci_codec w_index) (k, v)).
  { intros k v Hk Hv. split; [apply Nat.leb_le; destruct Hk as [Hk| ->]; cbn [fst]; [rewrite Hk|]; vm_compute; reflexivity|].
    intros d Hd. injection Hd as <-. destruct v as [|x [|y v]]; try discriminate Hv. done. }
  unfold ops. repeat first [apply Forall_nil_2|apply Forall_cons_2]; try exact I; apply Hfit; auto.
Defined.

(** ** The life of an index *)

(** What an index holds outlives it: when its database has been closed by [CleanUp], every
    index of the same file, bucket and codec whose [Open] succeeds holds the same map.
    While it is open, no other [Open] of its file succeeds; an index that is closed, or was
    never opened, refuses every operation; and after an [Open] that failed once the file was
    open, every further [Open] is refused. *)
Theorem index_survives_reopen {T F : Type} `{!Bolt F, !BoltLaws F} (c c2 : BoltChecksumIndex T) (s : F) (m : gmap string T) (f : string)
    (getwd : res string) (mkdir : string → option error) :
  represents c s m → ci_db c = Some f → ci_db c2 = None → ci_bucket c2 = ci_bucket c → ci_codec c2 = ci_codec c →
  String.length (ci_bucket c) ≤ MaxKeySize → ci_bucket c ≠ "" →
  filepath_Abs getwd (filepath_Join [ci_path c2; "checksum.db"]) = Ok f →
  (ci_Open getwd mkdir c2 s).1.1 ≠ Returns None ∧
  (∀ c3 s3, ci_Open getwd mkdir c2 (ci_CleanUp c s).2 = (Returns None, c3, s3) → represents c3 s3 m) ∧
  (∀ k v, ci_Get k (ci_CleanUp c s).1 s = Err ErrDatabaseNotOpened ∧
    (k ≠ "" → (ci_Put k v (ci_CleanUp c s).1 s) = (Some ErrDatabaseNotOpened, s))) ∧
  (∀ e c3 s3, ci_Open getwd mkdir c2 s = (Returns (Some e), c3, s3) → ci_db c3 ≠ None →
    (ci_Open getwd mkdir c3 s3).1.1 = Returns (Some ErrDatabaseAlreadyOpened)).
Proof.
  intros (f' & b & Hf' & Hheld & Hb & He) Hf Hc2 Hbk Hcod Hlen Hne Hpath. rewrite Hf in Hf'. injection Hf' as <-.
  assert (Hopen : ∀ s1, ci_Open getwd mkdir c2 s1 =
    match mkdir (filepath_Dir f) with
    | Some e => (Returns (Some e), c2, s1)
    | None =>
        match bolt_Open f s1 with
        | (Returns None, s2) =>
            let '(err, s3) := bolt_Update f (tx_CreateBucketIfNotExists (ci_bucket c2)) s2 in (Returns err, set_db (Some f) c2, s3)
        | (Returns (Some e), s2) => (Returns (Some e), c2, s2)
        | (Panics, s2) => (Panics, c2, s2)
        | (Blocks, s2) => (Blocks, c2, s2)
        end
    end).
  { intros s1. unfold ci_Open. rewrite Hc2, decide_False by naive_solver. by rewrite Hpath. }
  split_and!.
  - rewrite Hopen. destruct (mkdir _); [done|]. pose proof (open_held f s) as Hl.
    destruct (bolt_Open f s) as [[[e|]| |] s2]; simpl in *; try done. by destruct Hl.
  - intros c3 s3. rewrite Hopen. destruct (mkdir _); [done|]. unfold ci_CleanUp. rewrite Hf. cbn [snd].
    set (s1 := (bolt_Close f s).2). pose proof (open_held f s1) as Hl. pose proof (open_data f s1 f) as Hd.
    destruct (bolt_Open f s1) as [[[e|]| |] s2]; simpl in *; try done. destruct Hl as [_ Hl].
    pose proof (update_atomic f (tx_CreateBucketIfNotExists (ci_bucket c2)) s2 ltac:(set_solver)) as (Hl3 & _ & Hup).
    destruct (bolt_Update _ _ s2) as [err s3']. rewrite create_bucket in Hup by congruence. simpl in *.
    intros [= -> <- <-]. destruct Hup as [[_ Hup]|[? _]]; [|done].
    exists f, b. simpl. rewrite Hl3, Hup, Hbk, lookup_insert_eq, Hd, Hcod. unfold s1. rewrite close_data, Hb. split_and!; [done|set_solver|done|done].
  - intros k v. unfold ci_CleanUp. rewrite Hf. split; [done|]. intros Hk. unfold ci_Put. by rewrite decide_False.
  - intros e c3 s3 _ Hc3. unfold ci_Open. by rewrite decide_True.
Qed.

(** Closed, and opened again by a new index on the same directory. *)
Definition w_reopened : maybe_panic (option error) * BoltChecksumIndex string * MemBolt :=
  ci_Open (Err ErrNotExist) (λ _, None) (mkIndex None "/data" "checksums" StringCodec) (ci_CleanUp w_index w_bolt).2.

Lemma index_survives_reopen_witness : represents w_reopened.1.2 w_reopened.2 {["a" := "1"]}.
Proof.
  assert (Hr : w_reopened.1.1 = Returns None) by (vm_compute; reflexivity).
  destruct (index_survives_reopen w_index (mkIndex None "/data" "checksums" StringCodec) w_bolt {["a" := "1"]} w_index_file
    (Err ErrNotExist) (λ _, None) w_represents eq_refl eq_refl eq_refl eq_refl) as (_ & H & _).
  - apply Nat.leb_le. vm_compute. reflexivity.
  - discriminate.
  - vm_compute. reflexivity.
  - apply H. fold w_reopened. destruct w_reopened as [[r c3] s3]. simpl in Hr |- *. rewrite Hr. reflexivity.
Defined.

(** ** The index of the disk store *)

(** The operations of the index as [DiskStore] has them. *)
Definition store_op `{!GoSort} (io : nat → io_outcome) (op : ci_op bytes) (d : DiskStore) : ci_result bytes * DiskStore :=
  let done (r : res unit * DiskStore) := (Done (match r.1 with Ok _ => None | Err e => Some e end), r.2) in
  match op with
  | OpPut k v => done (index_Put io k v d)
  | OpGet k => let '(r, d') := index_Get k d in (Value r, d')
  | OpGetAll => let '(r, d') := index_GetAll d in (Keys r, d')
  | OpPutAll data => done (index_PutAll io data d)
  | OpDelete k => done (index_Delete io k d)
  end.

(** The index over bbolt and that of the store hold the same. *)
Definition same_index {F} `{!Bolt F} (c : BoltChecksumIndex bytes) (s : F) (d : DiskStore) : Prop :=
  ci_codec c = ByteCodec ∧
  match ci_db c with
  | Some f => opened d = true ∧ f ∈ bolt_held s ∧ bolt_data f s !! ci_bucket c = Some (index d)
  | None => opened d = false
  end.

Section same.
Context {F : Type} `{!Bolt F, !BoltLaws F, !GoSort}.

(** A call with one transaction, and the call of the store that it is. *)
Lemma same_transaction c f s d body (ok : gmap string bytes → gmap string bytes) :
  ci_codec c = ByteCodec → ci_db c = Some f → opened d = true → f ∈ bolt_held s → bolt_data f s !! ci_bucket c = Some (index d) →
  (∀ b', body (index d) = Ok b' → b' = ok (index d)) →
  ∃ o, let '(e, s') := bolt_Update f (bucket_update c body) s in
    let '(r, d') := os_call (λ _, o) (λ d, (Ok tt, set_index (ok (index d)) d)) (λ _ d, d) d in
    e = (match r with Ok _ => None | Err e => Some e end) ∧ same_index c s' d'.
Proof.
  intros Hc Hf Ho Hheld Hb Hok. pose proof (bucket_transaction c f (index d) body s Hheld Hb) as Htx.
  destruct (bolt_Update _ _ s) as [e s']. destruct Htx as [Hheld' Htx]. unfold same_index. rewrite Hc, Hf.
  destruct (body (index d)) as [b'|e'].
  - rewrite (Hok b' eq_refl) in Htx. destruct Htx as [[-> Hd]|(He & Hd & _)]; [by exists IoOk|].
    destruct e as [e|]; [|done]. by exists (IoFail e 0).
  - destruct Htx as [-> Hd]. by exists (IoFail e' 0).
Qed.

Lemma same_put c k v s d :
  same_index c s d → ∃ o, let '(e, s') := ci_Put k v c s in
    let '(r, d') := index_Put (λ _, o) k v d in e = (match r with Ok _ => None | Err e => Some e end) ∧ same_index c s' d'.
Proof.
  intros Hs. pose proof Hs as [Hc Hd]. unfold ci_Put, index_Put. case_decide; [by exists IoOk|].
  unfold get_st, mbind, SE_bind. destruct (ci_db c) as [f|] eqn:Hf; [|rewrite Hd; by exists IoOk].
  destruct Hd as (Ho & Hheld & Hb). rewrite Ho. cbn [negb]. rewrite Hc. cbn [Marshal ByteCodec res_bind].
  apply same_transaction; try done. intros b'. apply put_effect.
Qed.

Lemma same_delete c k s d :
  same_index c s d → ∃ o, let '(e, s') := ci_Delete k c s in
    let '(r, d') := index_Delete (λ _, o) k d in e = (match r with Ok _ => None | Err e => Some e end) ∧ same_index c s' d'.
Proof.
  intros Hs. pose proof Hs as [Hc Hd]. unfold ci_Delete, index_Delete. case_decide; [by exists IoOk|].
  unfold get_st, mbind, SE_bind. destruct (ci_db c) as [f|] eqn:Hf; [|rewrite Hd; by exists IoOk].
  destruct Hd as (Ho & Hheld & Hb). rewrite Ho. cbn [negb]. destruct (index d !! k) as [v|] eqn:Hk.
  - apply (same_transaction c f s d _ (delete k)); try done. intros b'. rewrite Hk, delete_effect. congruence.
  - match goal with |- context [bucket_update c ?body] => pose proof (bucket_transaction c f (index d) body s Hheld Hb) as Htx end.
    destruct (bolt_Update _ _ s) as [e s']. rewrite Hk in Htx. destruct Htx as (Hheld' & -> & Hd).
    exists IoOk. split; [done|]. unfold same_index. by rewrite Hf.
Qed.

Lemma same_op c op s d :
  same_index c s d → (∀ data, op ≠ OpPutAll data) →
  ∃ o, let '(r, s') := ci_run_op c op s in let '(r', d') := store_op (λ _, o) op d in r = r' ∧ same_index c s' d'.
Proof.
  intros Hs Hop. destruct op as [k v|k| |data|k]; cbn [ci_run_op store_op].
  - destruct (same_put c k v s d Hs) as [o Ho]. exists o. destruct (ci_Put k v c s), (index_Put _ k v d) as [r d'].
    destruct Ho as [-> Ho]. by destruct r.
  - exists IoOk. pose proof Hs as [Hc Hd]. unfold ci_Get, index_Get, get_st, mbind, SE_bind. rewrite Hc.
    destruct (ci_db c) as [f|] eqn:Hf; [|by rewrite Hd]. destruct Hd as (Ho & Hheld & Hb). rewrite Ho, view_snapshot by done.
    unfold in_bucket. rewrite Hb. cbn [negb]. by destruct (index d !! k).
  - exists IoOk. pose proof Hs as [Hc Hd]. unfold ci_GetAll, index_GetAll, get_st, mbind, SE_bind.
    destruct (ci_db c) as [f|] eqn:Hf; [|by rewrite Hd]. destruct Hd as (Ho & Hheld & Hb). rewrite Ho, view_snapshot by done.
    unfold in_bucket. rewrite Hb. cbn [negb]. split; [|done]. do 2 f_equal.
    apply ordered_unique; [by rewrite keys_perm, go_sort_perm|apply keys_ordered|apply go_sort_ordered, string_ltb_sw].
  - by destruct (Hop data).
  - destruct (same_delete c k s d Hs) as [o Ho]. exists o. destruct (ci_Delete k c s), (index_Delete _ k d) as [r d'].
    destruct Ho as [-> Ho]. by destruct r.
Qed.
End same.

(** Everything the index over bbolt does with [ByteCodec], as the storage node builds it, the
    disk store's index can do: for each operation that the store uses there is an outcome
    of the store's call under which it answers the same and the two still hold the same,
    open or closed, errors of bbolt included.  What holds of [DiskStore] for every outcome
    of its calls therefore holds of a store with the real index. *)
Theorem bolt_index_is_store_index {F : Type} `{!Bolt F, !BoltLaws F, !GoSort} (c : BoltChecksumIndex bytes) (op : ci_op bytes)
    (s : F) (d : DiskStore) :
  same_index c s d → (∀ data, op ≠ OpPutAll data) →
  ∃ o, let '(r, s') := ci_run_op c op s in let '(r', d') := store_op (λ _, o) op d in r = r' ∧ same_index c s' d'.
Proof. apply same_op. Qed.

Definition w_byte_index : BoltChecksumIndex bytes := mkIndex (Some w_index_file) "/data" "checksums" ByteCodec.

Lemma bolt_index_is_store_index_witness : ∃ o,
  let '(r, s') := ci_run_op w_byte_index (OpDelete "a") w_bolt in
  let '(r', d') := store_op (λ _, o) (OpDelete "a") (mkDiskStore "/data" "/data/tmp" 2 50 0 {["a" := to_bytes "1"]} true ∅ 0) in
  r = r' ∧ same_index w_byte_index s' d'.
Proof.
  apply (bolt_index_is_store_index w_byte_index (OpDelete "a") w_bolt); [|intros data; discriminate].
  split; [reflexivity|]. simpl. split_and!; [reflexivity|vm_compute; reflexivity..].
Defined.
