(* ===== verification/Chunk.v ===== *)
(** * Chunk streams: storage/chunk/writer.go and reader.go

    A [ChunkWriter] appends frames to the temporary file of a chunk and commits it with
    [DiskStore.Rename]; a [ChunkReader] streams a committed chunk in frames.  The
    writer's open file is its path with an offset, which is what it is as long as no
    second writer for the same chunk is active (Writers.v has the descriptors of any
    number of writers); the reader's open file is the contents
    the path had when it was opened, since a commit renames a new file into place.  A
    read returns as many bytes as the file has left, up to the size of the buffer. *)

From S2P Require Import Prelude GoLib Sha256 DiskStore.

(** ** The writer *)

Definition ErrOperationAborted : error := ErrSentinel "op has been aborted".
Definition ErrWriterClosed : error := ErrSentinel "write over a closed writer".

Record ChunkWriter := mkChunkWriter {
  cw_filepath : string;
  cw_offset : nat;    (* of the open file *)
  cw_chunkId : string;
  cw_isDone : bool;
  cw_hasher : bytes;  (* what the hash has consumed *)
  cw_written : Z;     (* int64 *)
}.

(** Writing [data] at an offset of a file. *)
Definition overlay (c : bytes) (off : nat) (data : bytes) : bytes :=
  take off c ++ replicate (off - length c) (Ascii.ascii_of_N 0) ++ data ++ drop (off + length data) c.

Definition write_at (path : string) (off : nat) (data : bytes) (s : DiskStore) : DiskStore :=
  match files s !! path with
  | Some c => set_files (<[path := overlay c off data]> (files s)) s
  | None => s
  end.

Section chunk.
Context (io : nat → io_outcome).

Definition os_Create (path : string) : SE unit :=
  os_call io (λ s, (Ok tt, set_files (<[path := []]> (files s)) s)) (λ _ s, s).

Definition NewChunkWriter (chunkId : string) : SE ChunkWriter :=
  if decide (chunkId = "") then throw ErrInvalidChunkId
  else
    tmp ← get_st (λ s, TempDir s chunkId);
    tmpPath ← lift tmp;
    os_Create tmpPath;;
    mret (mkChunkWriter tmpPath 0 chunkId false [] 0).

(** [Write] also returns the writer, whose offset and hash have moved.  [name] is the path
    at which the open file is found now, if it still has one. *)
Definition fd_Write (name : option string) (cw : ChunkWriter) (data : bytes) (s : DiskStore)
    : res unit * ChunkWriter * DiskStore :=
  if cw_isDone cw then (Err ErrWriterClosed, cw, s)
  else
    let write data s := match name with Some path => write_at path (cw_offset cw) data s | None => s end in
    match io (io_calls s) with
    | IoFail e n =>
        let n := (n `min` length data)%nat in
        (Err e, mkChunkWriter (cw_filepath cw) (cw_offset cw + n) (cw_chunkId cw) (cw_isDone cw)
                  (cw_hasher cw) (cw_written cw),
         write (take n data) (next_io s))
    | IoOk =>
        let n := length data in
        let cw' := mkChunkWriter (cw_filepath cw) (cw_offset cw + n) (cw_chunkId cw) (cw_isDone cw)
                     (cw_hasher cw ++ data) (to_int64 (cw_written cw + Z.of_nat n)) in
        let '(r, s'') := os_plain io (write data (next_io s)) in (* Sync *)
        (r, cw', s'')
    end.

(** The open file of the only writer of a chunk is found where it was created. *)
Definition cw_Write (cw : ChunkWriter) : bytes → DiskStore → res unit * ChunkWriter * DiskStore :=
  fd_Write (Some (cw_filepath cw)) cw.

Definition cw_done (cw : ChunkWriter) : ChunkWriter :=
  mkChunkWriter (cw_filepath cw) (cw_offset cw) (cw_chunkId cw) true (cw_hasher cw) (cw_written cw).

Definition Abort_writer (cw : ChunkWriter) (s : DiskStore) : ChunkWriter * DiskStore :=
  let '(_, s1) := os_plain io s in (* Close *)
  let '(_, s2) := os_Remove io (cw_filepath cw) s1 in
  (cw_done cw, s2).

Definition ComputedChecksum (cw : ChunkWriter) : bytes := sha256 (cw_hasher cw).

Definition Finalize (cw : ChunkWriter) (expectedChecksum : bytes) (s : DiskStore)
    : res unit * ChunkWriter * DiskStore :=
  if cw_isDone cw then (Err ErrOperationAborted, cw, s)
  else
    let computed := sha256 (cw_hasher cw) in
    if decide (computed ≠ expectedChecksum) then
      let '(cw', s') := Abort_writer cw s in (Err ErrChecksumMismatch, cw', s')
    else
      let '(_, s1) := os_plain io s in (* Sync *)
      let '(_, s2) := os_plain io s1 in (* Close *)
      let cw1 := cw_done cw in
      match Rename io (cw_filepath cw1) (cw_chunkId cw1) s2 with
      | (Err e, s3) => let '(cw2, s4) := Abort_writer cw1 s3 in (Err e, cw2, s4)
      | (Ok _, s3) => (Ok tt, cw1, s3)
      end.

(** ** The reader *)

Definition DefaultFrameSize : Z := 32 * 1024.

Definition EOF : error := ErrSentinel "EOF".
Definition ErrInvalid : error := ErrSentinel "invalid argument".

Record Frame := mkFrame {
  fr_Data : bytes;
  fr_Checksum : bytes;
  fr_IsLast : bool;
}.

Record ChunkReader := mkChunkReader {
  cr_chunkId : string;
  cr_file : option bytes; (* [nil] once closed *)
  cr_pos : nat;
  cr_frameSize : Z;       (* int *)
}.

Definition NewChunkReader (chunkId : string) (frameSize : Z) : SE ChunkReader :=
  if decide (chunkId = "") then throw ErrInvalidChunkId
  else
    there ← Exists chunkId;
    if negb there then throw Err_ChunkNotFound
    else
      path ← get_st (λ s, PathForChunk s chunkId);
      absChunkPath ← lift path;
      let frameSize := if decide (frameSize ≤ 0)%Z then DefaultFrameSize else frameSize in
      f ← os_ReadFile io absChunkPath; (* Open *)
      mret (mkChunkReader chunkId (Some f) 0 frameSize).

Definition cr_seek (cr : ChunkReader) (pos : nat) : ChunkReader :=
  mkChunkReader (cr_chunkId cr) (cr_file cr) pos (cr_frameSize cr).

Definition Close_reader (cr : ChunkReader) : ChunkReader :=
  mkChunkReader (cr_chunkId cr) None (cr_pos cr) (cr_frameSize cr).

Definition Next (cr : ChunkReader) (s : DiskStore) : res Frame * ChunkReader * DiskStore :=
  match cr_file cr with
  | None => (Err ErrInvalid, cr, s)
  | Some f =>
      match os_plain io s with (* Read *)
      | (Err e, s1) => (Err e, cr, s1)
      | (Ok _, s1) =>
          let buf := take (Z.to_nat (cr_frameSize cr + 1)) (drop (cr_pos cr) f) in
          let n := length buf in
          if decide (n = 0%nat) then (Err EOF, cr, s1)
          else
            let isLast := bool_decide (Z.of_nat n ≤ cr_frameSize cr)%Z in
            let data := take (n `min` Z.to_nat (cr_frameSize cr)) buf in
            let frame := mkFrame data (sha256 data) isLast in
            let cr1 := cr_seek cr (cr_pos cr + n) in
            if isLast then (Ok frame, cr1, s1)
            else
              match os_plain io s1 with (* Seek *)
              | (Err e, s2) => (Err e, Close_reader cr1, s2)
              | (Ok _, s2) => (Ok frame, cr_seek cr1 (cr_pos cr1 - 1), s2)
              end
      end
  end.
End chunk.
