(* ===== verification/StorageServer.v ===== *)
(** * The storage node's services: storage/server and the transfer of storage/replication

    [PutChunk], [GetChunk], [DeleteChunk] and [VerifyChunk] of storage_handler.go,
    [ReplicateChunk] of replication_handler.go, and [replicateToSingleNode] of
    replication/manager.go, which streams a chunk of one store into another.  A received
    stream is the list of its messages; its end is the end of the list, and a transport
    error is an element.  The replicator and the metadata client a handler is built
    with are parameters. *)

From S2P Require Import Prelude GoLib Sha256 DiskStore Chunk.

Inductive recv (A : Type) := RecvMsg (a : A) | RecvErr (e : error).
Arguments RecvMsg {_} _.
Arguments RecvErr {_} _.

Record PutChunkRequest := mkPutChunkRequest {
  pc_ChunkId : string;
  pc_Data : bytes;
  pc_Checksum : bytes;
  pc_IsLast : bool;
  pc_ReplicateTo : list (option string); (* the address of each non-nil [NodeInfo] *)
}.

Record PutChunkResponse := mkPutChunkResponse { pr_ChunkId : string; pr_Checksum : bytes }.

Record CommitChunkRequest := mkCommitChunkRequest {
  ccr_ChunkId : string;
  ccr_ConfirmedNodes : list string;
  ccr_Checksum : bytes;
}.

Record StorageServerHandler := mkStorageServerHandler {
  Replicator : option (string → list string → list string * option error);
  MetaClient : option (CommitChunkRequest → option error);
  NodeID : string;
}.

(** The constructors: a handler works on the store it is given, which must not be nil. *)
Definition NewStorageServerHandler {S} (s : option S) (metaClient : option (CommitChunkRequest → option error)) (nodeID : string)
    (r : list (string → list string → list string * option error)) : res (S * StorageServerHandler) :=
  match s with
  | None => Err (ErrNew "StorageServer: Store must not be nil")
  | Some s => Ok (s, mkStorageServerHandler (head r) metaClient nodeID)
  end.

Definition NewReplicationServerHandler {S} (s : option S) : res S :=
  match s with None => Err ErrInvalidChunkId | Some s => Ok s end.

(** How a [PutChunk] ends: its result, and the commit it sent to the metadata node. *)
Record put_out := mkPutOut {
  po_result : res PutChunkResponse;
  po_commit : option CommitChunkRequest;
}.

Definition put_fail (c : code) (msg : string) : put_out := mkPutOut (Err (ErrStatus c msg)) None.

(** The addresses of the first frame. *)
Definition replica_targets (l : list (option string)) : list string :=
  omap (λ ni, match ni with Some a => if decide (a = "") then None else Some a | None => None end) l.

(** After a successful finalise: replication, then the commit. *)
Definition put_commit (h : StorageServerHandler) (last : PutChunkRequest) (replicateTo : list string) : put_out :=
  let confirmedNodes := [NodeID h] ++
    match Replicator h with
    | Some r => if decide (replicateTo = []) then [] else (r (pc_ChunkId last) replicateTo).1
    | None => []
    end in
  let resp := mkPutChunkResponse (pc_ChunkId last) (pc_Checksum last) in
  match MetaClient h with
  | None => mkPutOut (Ok resp) None
  | Some commit =>
      let req := mkCommitChunkRequest (pc_ChunkId last) confirmedNodes (pc_Checksum last) in
      match commit req with
      | Some _ => mkPutOut (Err (ErrStatus Internal "metadata commit failed")) (Some req)
      | None => mkPutOut (Ok resp) (Some req)
      end
  end.

(** What receiving ends with: an error to the client, or the last frame of a finalised
    chunk with the addresses to replicate it to. *)
Definition put_received : Type := put_out + (PutChunkRequest * list string).

Section server.
Context (io : nat → io_outcome).

(** The end of the stream. *)
Definition put_eof (writer : option ChunkWriter) (replicateTo : list string) (lastFrame : option PutChunkRequest)
    (s : DiskStore) : put_received * DiskStore :=
  match writer with
  | None => (inl (put_fail InvalidArgument "no data received"), s)
  | Some w =>
      match lastFrame with
      | Some last =>
          if negb (pc_IsLast last) then
            (inl (put_fail InvalidArgument "stream closed before final frame"), (Abort_writer io w s).2)
          else
            match Finalize io w (pc_Checksum last) s with
            | (Err _, _, s') => (inl (put_fail Internal "failed to finalize chunk"), s')
            | (Ok _, _, s') => (inr (last, replicateTo), s')
            end
      | None => (inl (put_fail InvalidArgument "stream closed before final frame"), (Abort_writer io w s).2)
      end
  end.

(** One frame against the open writer of [registeredChunkId]. *)
Definition put_frame (w : ChunkWriter) (registeredChunkId : string) (frame : PutChunkRequest) (s : DiskStore)
    : (put_out + ChunkWriter) * DiskStore :=
  if decide (registeredChunkId ≠ pc_ChunkId frame) then
    (inl (put_fail InvalidArgument "chunk-id mismatch across frames"), (Abort_writer io w s).2)
  else
    match cw_Write io w (pc_Data frame) s with
    | (Err _, w', s') => (inl (put_fail Internal "failed to write chunk frame"), (Abort_writer io w' s').2)
    | (Ok _, w', s') => (inr w', s')
    end.

Fixpoint put_loop (stream : list (recv PutChunkRequest)) (writer : option ChunkWriter)
    (registeredChunkId : string) (replicateTo : list string) (lastFrame : option PutChunkRequest)
    (s : DiskStore) : put_received * DiskStore :=
  match stream with
  | [] => put_eof writer replicateTo lastFrame s
  | RecvErr _ :: _ =>
      (inl (put_fail Internal "stream error"),
       match writer with Some w => (Abort_writer io w s).2 | None => s end)
  | RecvMsg frame :: rest =>
      match writer with
      | None =>
          match NewChunkWriter io (pc_ChunkId frame) s with
          | (Err _, s') => (inl (put_fail Internal "failed to initialise chunk writer"), s')
          | (Ok w, s') =>
              match put_frame w (pc_ChunkId frame) frame s' with
              | (inl out, s'') => (inl out, s'')
              | (inr w', s'') =>
                  put_loop rest (Some w') (pc_ChunkId frame) (replica_targets (pc_ReplicateTo frame))
                    (Some frame) s''
              end
          end
      | Some w =>
          match put_frame w registeredChunkId frame s with
          | (inl out, s'') => (inl out, s'')
          | (inr w', s'') => put_loop rest (Some w') registeredChunkId replicateTo (Some frame) s''
          end
      end
  end.

Definition PutChunk (h : StorageServerHandler) (stream : list (recv PutChunkRequest)) (s : DiskStore)
    : put_out * DiskStore :=
  match put_loop stream None "" [] None s with
  | (inl out, s') => (out, s')
  | (inr (last, replicateTo), s') => (put_commit h last replicateTo, s')
  end.

(** ** Reading *)

(** [send n] is the error of the n-th [stream.Send], if it fails. *)
Fixpoint get_loop (send : nat → option error) (fuel : nat) (cr : ChunkReader) (sent : list Frame) (s : DiskStore)
    : option (res unit * list Frame * DiskStore) :=
  match fuel with
  | O => None
  | S fuel' =>
      match Next io cr s with
      | (Err e, _, s') =>
          if decide (e = EOF) then Some (Ok tt, sent, s')
          else Some (Err (ErrStatus Internal "error reading chunk data"), sent, s')
      | (Ok frame, cr', s') =>
          match send (length sent) with
          | Some _ => Some (Err (ErrStatus Internal "failed to send chunk frame"), sent, s')
          | None =>
              if fr_IsLast frame then Some (Ok tt, sent ++ [frame], s')
              else get_loop send fuel' cr' (sent ++ [frame]) s'
          end
      end
  end.

(** Enough for every frame of the open file. *)
Definition reader_fuel (cr : ChunkReader) : nat :=
  match cr_file cr with Some f => S (length f) | None => 1 end.

Definition GetChunk (send : nat → option error) (chunkId : string) (s : DiskStore)
    : option (res unit * list Frame * DiskStore) :=
  if decide (chunkId = "") then Some (Err (ErrStatus InvalidArgument "chunk_id must not be empty"), [], s)
  else
    match Exists chunkId s with
    | (Ok true, s1) =>
        match NewChunkReader io chunkId 0 s1 with
        | (Err e, s2) =>
            if errors_Is e Err_ChunkNotFound then Some (Err (ErrStatus NotFound "chunk not found"), [], s2)
            else Some (Err (ErrStatus Internal "failed to open chunk for reading"), [], s2)
        | (Ok cr, s2) => get_loop send (reader_fuel cr) cr [] s2
        end
    | (_, s1) => Some (Err (ErrStatus NotFound "chunk not found"), [], s1)
    end.

(** ** Deletion and verification *)

Definition DeleteChunk (chunkId : string) (s : DiskStore) : res unit * DiskStore :=
  if decide (chunkId = "") then (Err (ErrStatus InvalidArgument "chunk_id must not be empty"), s)
  else
    match Delete io chunkId s with
    | (Err e, s') =>
        if errors_Is e Err_ChunkNotFound then (Ok tt, s')
        else (Err (ErrStatus Internal "failed to delete chunk"), s')
    | (Ok _, s') => (Ok tt, s')
    end.

(** The result is [IsValid]. *)
Definition VerifyChunk (chunkId : string) (checksum : bytes) (s : DiskStore) : res bool * DiskStore :=
  if decide (chunkId = "") then (Err (ErrStatus InvalidArgument "chunk_id must not be empty"), s)
  else
    match Exists chunkId s with
    | (Ok true, s1) =>
        match Verify io chunkId s1 with
        | (Err e, s2) =>
            if errors_Is e ErrVerifyFailed then (Ok false, s2)
            else (Err (ErrStatus Internal "verification failed"), s2)
        | (Ok computed, s2) =>
            if decide (checksum ≠ [] ∧ computed ≠ checksum) then (Ok false, s2) else (Ok true, s2)
        end
    | (_, s1) => (Err (ErrStatus NotFound "chunk not found"), s1)
    end.
End server.

(** ** Replication *)

Record ReplicateChunkRequest := mkReplicateChunkRequest {
  rq_ChunkId : string;
  rq_Data : bytes;
  rq_IsFirst : bool;
  rq_IsLast : bool;
}.

Record ReplicateChunkResponse := mkReplicateChunkResponse {
  rs_Ok : bool;
  rs_IsFinal : bool;
  rs_ChunkId : string;
  rs_Checksum : bytes;
}.

(** What one message makes the receiver do: return, or send an ack and wait. *)
Inductive repl_step :=
| ReplReturn (r : res (option ReplicateChunkResponse))
| ReplAck (w : ChunkWriter) (registeredChunkId : string).

Section replication.
Context (io : nat → io_outcome).

(** The first frame opens a writer; later frames keep the one there is. *)
Definition repl_open (writer : option ChunkWriter) (registered : string) (frame : ReplicateChunkRequest)
    (s : DiskStore) : res (option ChunkWriter * string) * DiskStore :=
  if rq_IsFirst frame then
    if decide (rq_ChunkId frame = "") then
      (Err (ErrStatus InvalidArgument "chunk_id must not be empty on first frame"), s)
    else
      match NewChunkWriter io (rq_ChunkId frame) s with
      | (Err _, s') => (Err (ErrStatus Internal "failed to initialise chunk writer"), s')
      | (Ok w, s') => (Ok (Some w, rq_ChunkId frame), s')
      end
  else (Ok (writer, registered), s).

Definition repl_write (w : ChunkWriter) (frame : ReplicateChunkRequest) (s : DiskStore)
    : res unit * ChunkWriter * DiskStore :=
  if decide (rq_Data frame = []) then (Ok tt, w, s) else cw_Write io w (rq_Data frame) s.

(** One received frame; [ack] is the error of sending its ack, if that fails. *)
Definition repl_frame (writer : option ChunkWriter) (registered : string) (ack : option error)
    (frame : ReplicateChunkRequest) (s : DiskStore) : repl_step * DiskStore :=
  match repl_open writer registered frame s with
  | (Err e, s1) => (ReplReturn (Err e), s1)
  | (Ok (None, _), s1) => (ReplReturn (Err (ErrStatus InvalidArgument "first frame must have is_first=true")), s1)
  | (Ok (Some w, registered), s1) =>
      if decide (rq_ChunkId frame ≠ "" ∧ rq_ChunkId frame ≠ registered) then
        (ReplReturn (Err (ErrStatus InvalidArgument "chunk_id mismatch mid-stream")), (Abort_writer io w s1).2)
      else
        match repl_write w frame s1 with
        | (Err _, w2, s2) => (ReplReturn (Err (ErrStatus Internal "failed to write frame")), (Abort_writer io w2 s2).2)
        | (Ok _, w2, s2) =>
            if rq_IsLast frame then
              let finalChecksum := ComputedChecksum w2 in
              match Finalize io w2 finalChecksum s2 with
              | (Err _, _, s3) => (ReplReturn (Err (ErrStatus Internal "failed to finalise chunk")), s3)
              | (Ok _, _, s3) =>
                  match ack with
                  | Some e => (ReplReturn (Err e), s3)
                  | None => (ReplReturn (Ok (Some (mkReplicateChunkResponse true true registered finalChecksum))), s3)
                  end
              end
            else
              match ack with
              | Some _ => (ReplReturn (Err (ErrStatus Internal "failed to send frame ack")), (Abort_writer io w2 s2).2)
              | None => (ReplAck w2 registered, s2)
              end
        end
  end.

(** The end of the stream, and a transport error. *)
Definition repl_eof (writer : option ChunkWriter) : res (option ReplicateChunkResponse) :=
  match writer with
  | None => Err (ErrStatus InvalidArgument "no frames received")
  | Some _ => Ok None
  end.

Definition repl_recv_error (writer : option ChunkWriter) (s : DiskStore)
    : res (option ReplicateChunkResponse) * DiskStore :=
  (Err (ErrStatus Internal "stream recv error"),
   match writer with Some w => (Abort_writer io w s).2 | None => s end).

Fixpoint repl_loop (acks : nat → option error) (n : nat) (stream : list (recv ReplicateChunkRequest))
    (writer : option ChunkWriter) (registered : string) (s : DiskStore)
    : res (option ReplicateChunkResponse) * DiskStore :=
  match stream with
  | [] => (repl_eof writer, s)
  | RecvErr _ :: _ => repl_recv_error writer s
  | RecvMsg frame :: rest =>
      match repl_frame writer registered (acks n) frame s with
      | (ReplReturn r, s') => (r, s')
      | (ReplAck w registered', s') => repl_loop acks (S n) rest (Some w) registered' s'
      end
  end.

Definition ReplicateChunk (acks : nat → option error) (stream : list (recv ReplicateChunkRequest))
    (s : DiskStore) : res (option ReplicateChunkResponse) * DiskStore :=
  repl_loop acks 0 stream None "" s.
End replication.

(** [replicateToSingleNode]: the frames of the sender's reader go one by one to the
    receiver, each waiting for its ack.  [io] and [src] are the sender's disk, [io'] and
    [dst] the receiver's; [net n] is the transport error of the n-th frame, which the
    receiver sees too. *)
Section transfer.
Context (io io' : nat → io_outcome) (net : nat → option error).

Fixpoint transfer_loop (fuel : nat) (chunkId : string) (cr : ChunkReader) (n : nat) (writer : option ChunkWriter)
    (registered : string) (src dst : DiskStore) : option (res unit * DiskStore * DiskStore) :=
  match fuel with
  | O => None
  | S fuel' =>
      match Next io cr src with
      | (Err e, _, src') =>
          if decide (e = EOF) then
            (* CloseSend, then the receiver's answer to the end of the stream *)
            match repl_eof writer with
            | Err e' => Some (Err (ErrWrap "recv final response" e'), src', dst)
            | Ok _ => Some (Ok tt, src', dst)
            end
          else Some (Err (ErrWrap "read frame" e), src', (repl_recv_error io' writer dst).2)
      | (Ok frame, cr', src') =>
          let req := mkReplicateChunkRequest chunkId (fr_Data frame) (bool_decide (n = 0%nat)) (fr_IsLast frame) in
          match net n with
          | Some e => Some (Err (ErrWrap "send frame" e), src', (repl_recv_error io' writer dst).2)
          | None =>
              match repl_frame io' writer registered None req dst with
              | (ReplReturn (Err e), dst') => Some (Err (ErrWrap "recv ack" e), src', dst')
              | (ReplReturn (Ok None), dst') => Some (Err (ErrWrap "recv ack" EOF), src', dst')
              | (ReplReturn (Ok (Some ack)), dst') =>
                  if negb (rs_Ok ack) then Some (Err (ErrNew "negative ack"), src', dst')
                  else if fr_IsLast frame then Some (Ok tt, src', dst')
                  else Some (Err (ErrWrap "send frame" EOF), src', dst') (* the receiver has returned *)
              | (ReplAck w registered', dst') =>
                  if fr_IsLast frame then Some (Ok tt, src', dst')
                  else transfer_loop fuel' chunkId cr' (S n) (Some w) registered' src' dst'
              end
          end
      end
  end.

Definition replicateToSingleNode (dial : option error) (chunkId : string) (src dst : DiskStore)
    : option (res unit * DiskStore * DiskStore) :=
  match dial with
  | Some e => Some (Err (ErrWrap "dial" e), src, dst)
  | None =>
      match NewChunkReader io chunkId 0 src with
      | (Err e, src') => Some (Err (ErrWrap "open ChunkReader" e), src', dst)
      | (Ok cr, src') => transfer_loop (reader_fuel cr) chunkId cr 0 None "" src' dst
      end
  end.
End transfer.
