(* ===== verification/StorageTheorems.v ===== *)
(** * Correctness of the storage node's services

    On a disk that works, [PutChunk] stores exactly the accepted streams and leaves the
    stored chunks alone on all others, [GetChunk] streams back what is stored, and a
    transfer puts the sender's chunk into the receiver's store. *)

From S2P Require Import Prelude GoLib Sha256 DiskStore DiskStoreSpec DiskStoreTheorems Chunk StorageServer.

(** ** Changes to a temporary file *)

(** [s'] is [s] but for the file [tmp] and the number of calls. *)
Record only_tmp (tmp : string) (s s' : DiskStore) : Prop := {
  ot_root : rootDir s' = rootDir s;
  ot_temp : tempDir s' = tempDir s;
  ot_level : splitLevel s' = splitLevel s;
  ot_total : totalSpace s' = totalSpace s;
  ot_used : usedSpace s' = usedSpace s;
  ot_index : index s' = index s;
  ot_open : opened s' = opened s;
  ot_files : ∀ q, q ≠ tmp → files s' !! q = files s !! q;
}.

#[global] Instance only_tmp_preorder tmp : PreOrder (only_tmp tmp).
Proof.
  split; [by split|]. intros s1 s2 s3 H1 H2. destruct H1, H2. split; try congruence.
  intros q Hq. by rewrite ot_files1, ot_files0.
Qed.

(** No chunk has its file at [tmp]. *)
Definition not_chunk (s : DiskStore) (tmp : string) : Prop := ∀ id p, PathForChunk s id = Ok p → p ≠ tmp.

Lemma TempDir_not_a_chunk s id tmp : store_ok s → TempDir s id = Ok tmp → not_chunk s tmp.
Proof. intros Hok Ht id' p Hp. apply not_eq_sym. eapply TempDir_not_chunk; [apply Hok|done|done]. Qed.

Lemma only_tmp_path tmp s s' id : only_tmp tmp s s' → PathForChunk s' id = PathForChunk s id.
Proof. intros Ho. unfold PathForChunk. by rewrite (ot_root _ _ _ Ho), (ot_level _ _ _ Ho). Qed.

Lemma only_tmp_not_chunk tmp s s' : only_tmp tmp s s' → not_chunk s tmp → not_chunk s' tmp.
Proof. intros Ho Hn id p. rewrite (only_tmp_path tmp s s') by done. apply Hn. Qed.

Lemma only_tmp_file tmp s s' id p :
  only_tmp tmp s s' → not_chunk s tmp → PathForChunk s id = Ok p → files s' !! p = files s !! p.
Proof. intros Ho Hn Hp. apply (ot_files _ _ _ Ho). by eapply Hn. Qed.

Lemma only_tmp_contents tmp s s' : only_tmp tmp s s' → not_chunk s tmp → contents s' = contents s.
Proof.
  intros Ho Hn. apply map_eq. intros id. rewrite !contents_lookup, (ot_index _ _ _ Ho).
  rewrite (only_tmp_path tmp s s') by done. destruct (index s !! id); [|done].
  destruct (PathForChunk s id) as [p|] eqn:Hp; [|done]. by apply (only_tmp_file tmp s s' id).
Qed.

Lemma only_tmp_ok tmp s s' : only_tmp tmp s s' → not_chunk s tmp → store_ok s → store_ok s'.
Proof.
  intros Ho Hn Hok. pose proof Ho as [Hr Ht Hl Hto Hu Hi Hop Hf].
  split; rewrite ?Hl, ?Hto, ?Hop, ?Hu, ?Hi; try apply Hok.
  - intros id sum Hid. destruct (st_files _ Hok id sum Hid) as (p & d & Hp & Hd & Hs). exists p, d.
    rewrite (only_tmp_path tmp s s') by done. by rewrite (only_tmp_file tmp s s' id p).
  - rewrite (st_used _ Hok). apply sum_ext. intros id _. unfold chunk_bytes.
    rewrite (only_tmp_path tmp s s') by done. destruct (PathForChunk s id) as [p|] eqn:Hp; [|done].
    by rewrite (only_tmp_file tmp s s' id p).
Qed.

Lemma only_tmp_next tmp s : only_tmp tmp s (next_io s).
Proof. by split. Qed.

Lemma only_tmp_set tmp s fs :
  (∀ q, q ≠ tmp → fs !! q = files s !! q) → only_tmp tmp s (set_files fs s).
Proof. by split. Qed.

(** ** The writer *)

Lemma overlay_end c data : overlay c (length c) data = c ++ data.
Proof.
  unfold overlay. rewrite take_ge, Nat.sub_diag, drop_ge by lia. simpl. by rewrite app_nil_r.
Qed.

(** An open writer that has received [d]. *)
Record writing (cw : ChunkWriter) (id : string) (d : bytes) (s : DiskStore) : Prop := {
  wr_path : TempDir s id = Ok (cw_filepath cw);
  wr_id : cw_chunkId cw = id;
  wr_done : cw_isDone cw = false;
  wr_hash : cw_hasher cw = d;
  wr_off : cw_offset cw = length d;
  wr_file : files s !! cw_filepath cw = Some d;
}.

Lemma only_tmp_TempDir tmp s s' id : only_tmp tmp s s' → TempDir s' id = TempDir s id.
Proof. intros Ho. unfold TempDir. by rewrite (ot_temp _ _ _ Ho), (ot_level _ _ _ Ho). Qed.

Section writer.
Context (io : nat → io_outcome) (Hio : no_faults io).

Lemma NewChunkWriter_run id s tmp :
  TempDir s id = Ok tmp →
  ∃ cw s', NewChunkWriter io id s = (Ok cw, s') ∧ writing cw id [] s' ∧ cw_filepath cw = tmp ∧ only_tmp tmp s s'.
Proof.
  intros Ht. unfold NewChunkWriter. rewrite decide_False by (by intros ->).
  erewrite bind_run; [|reflexivity]. erewrite bind_run; [|by unfold lift; rewrite Ht].
  erewrite bind_run; [|unfold os_Create; by rewrite os_call_ok].
  do 2 eexists. split_and!; [reflexivity| |done|].
  - split; try done. simpl. apply lookup_insert_eq.
  - etransitivity; [apply only_tmp_next|]. apply only_tmp_set. intros q Hq. by apply lookup_insert_ne.
Qed.

Lemma NewChunkWriter_bad id s e : TempDir s id = Err e → ∃ e', NewChunkWriter io id s = (Err e', s).
Proof.
  intros Ht. unfold NewChunkWriter. case_decide; [by eexists|]. erewrite bind_run; [|reflexivity].
  rewrite Ht. by eexists.
Qed.

Lemma cw_Write_run cw id d data s :
  writing cw id d s →
  ∃ cw' s', cw_Write io cw data s = (Ok tt, cw', s') ∧ writing cw' id (d ++ data) s' ∧
    cw_filepath cw' = cw_filepath cw ∧ only_tmp (cw_filepath cw) s s'.
Proof.
  intros [Hp Hid Hdone Hh Hoff Hf]. unfold cw_Write, fd_Write. rewrite Hdone, Hio.
  unfold os_plain. rewrite os_call_ok by done. cbv zeta. do 2 eexists. split; [reflexivity|].
  unfold write_at. change (files (next_io s)) with (files s). rewrite Hf. split_and!; [|done|].
  - split; simpl; try done.
    + by rewrite Hh.
    + rewrite Hoff, length_app. done.
    + by rewrite lookup_insert_eq, Hoff, overlay_end.
  - etransitivity; [apply only_tmp_next|]. etransitivity; [|apply only_tmp_next].
    apply only_tmp_set. intros q Hq. by apply lookup_insert_ne.
Qed.

Lemma Abort_run cw s :
  let s' := (Abort_writer io cw s).2 in
  only_tmp (cw_filepath cw) s s' ∧ files s' !! cw_filepath cw = None.
Proof.
  unfold Abort_writer, os_plain, os_Remove. rewrite !os_call_ok by done. simpl.
  destruct (files s !! cw_filepath cw) eqn:Hf; simpl; split; try (by apply lookup_delete_eq); try done.
  do 2 (etransitivity; [apply only_tmp_next|]). apply only_tmp_set. intros q Hq. by apply lookup_delete_ne.
Qed.
Lemma TempDir_valid s id tmp : TempDir s id = Ok tmp → validateChunkId (splitLevel s) id = Ok tt.
Proof. unfold TempDir. by destruct (validateChunkId (splitLevel s) id) as [[]|]. Qed.

(** Aborting removes the temporary file and nothing else. *)
Lemma Abort_ok cw s :
  store_ok s → not_chunk s (cw_filepath cw) →
  let s' := (Abort_writer io cw s).2 in
  store_ok s' ∧ contents s' = contents s ∧ files s' !! cw_filepath cw = None.
Proof.
  intros Hok Hn. destruct (Abort_run cw s) as [Ho Hnone]. split_and!; [|..|done].
  - by eapply only_tmp_ok.
  - by eapply only_tmp_contents.
Qed.

(** Committing what was written is the put of the abstract store. *)
Lemma Finalize_commit cw id d s :
  store_ok s → writing cw id d s →
  ∃ r cw' s', Finalize io cw (sha256 d) s = (r, cw', s') ∧ store_ok s' ∧ files s' !! cw_filepath cw = None ∧
    spec_put (splitLevel s) (totalSpace s) id d (contents s) =
      (match r with Ok _ => Ok VUnit | Err e => Err e end, contents s').
Proof.
  intros Hok [Ht Hid Hdone Hh _ Hf]. pose proof (TempDir_not_a_chunk s id _ Hok Ht) as Hn.
  destruct (PathForChunk_valid s id (TempDir_valid _ _ _ Ht)) as [p Hp]. pose proof (Hn id p Hp) as Hne.
  set (tmp := cw_filepath cw) in *.
  destruct (Rename_run io Hio tmp id d (next_io (next_io s)) p) as [n Hrun]; try done.
  { exact (store_ok_calls (S (S (io_calls s))) s Hok). }
  assert (Hother : ∀ id' p', id' ≠ id → PathForChunk s id' = Ok p' →
    <[p := d]> (delete tmp (files s)) !! p' = files s !! p').
  { intros id' p' Hid' Hp'. rewrite lookup_insert_ne by (by apply (other_path s id p id' p')).
    apply lookup_delete_ne, not_eq_sym. by apply (Hn id'). }
  destruct (put_matches (next_io (next_io s)) (<[p := d]> (delete tmp (files s))) id p d n _
    (store_ok_calls (S (S (io_calls s))) s Hok) Hp (lookup_insert_eq _ _ _) Hother Hrun)
    as (Hok' & Hspec & _).
  unfold Finalize. rewrite Hdone, Hh, decide_False by (intros []; done).
  unfold os_plain. rewrite !os_call_ok by done. cbn [cw_done cw_chunkId cw_filepath]. fold tmp.
  rewrite Hid, Hrun in *. clear Hrun. case_decide; simpl in Hok', Hspec.
  - destruct (Abort_ok (cw_done cw) (set_calls n (next_io (next_io s)))) as (H1 & H2 & H3); [done|exact Hn|].
    destruct (Abort_writer io (cw_done cw) _) as [cw2 s4]. do 3 eexists. split_and!; [done..|].
    change (contents s) with (contents (next_io (next_io s))). etransitivity; [exact Hspec|].
    f_equal. symmetry. exact H2.
  - do 3 eexists. split_and!; [done|exact Hok'| |exact Hspec].
    simpl. by rewrite lookup_insert_ne, lookup_delete_eq.
Qed.

Lemma Finalize_mismatch cw id d e s :
  store_ok s → writing cw id d s → sha256 d ≠ e →
  ∃ cw' s', Finalize io cw e s = (Err ErrChecksumMismatch, cw', s') ∧ store_ok s' ∧ contents s' = contents s ∧
    files s' !! cw_filepath cw = None.
Proof.
  intros Hok [Ht Hid Hdone Hh _ Hf] Hne. unfold Finalize. rewrite Hdone, Hh, decide_True by done.
  destruct (Abort_ok cw s Hok (TempDir_not_a_chunk s id _ Hok Ht)) as (H1 & H2 & H3).
  destruct (Abort_writer io cw s) as [cw' s']. eauto 10.
Qed.
End writer.

(** ** PutChunk *)

(** The last frame and the bytes of an accepted stream, after frames with bytes [d] for
    [id], of which [last] was the last one. *)
Fixpoint accept_rest (stream : list (recv PutChunkRequest)) (id : string) (d : bytes) (last : PutChunkRequest)
    : option (PutChunkRequest * bytes) :=
  match stream with
  | [] => if decide (pc_IsLast last = true ∧ sha256 d = pc_Checksum last) then Some (last, d) else None
  | RecvErr _ :: _ => None
  | RecvMsg f :: rest =>
      if decide (pc_ChunkId f = id) then accept_rest rest id (d ++ pc_Data f) f else None
  end.

Definition accept_stream (stream : list (recv PutChunkRequest))
    : option (PutChunkRequest * PutChunkRequest * bytes) :=
  match stream with
  | RecvMsg f :: rest =>
      match accept_rest rest (pc_ChunkId f) (pc_Data f) f with
      | Some (last, d) => Some (f, last, d)
      | None => None
      end
  | _ => None
  end.

(** An error to the client, and nothing sent to the metadata node. *)
Definition refused (out : put_out) : Prop := (∃ e, po_result out = Err e) ∧ po_commit out = None.

(** Receiving failed that way. *)
Definition turned_away (r : put_received) : Prop := ∃ out, r = inl out ∧ refused out.

(** How receiving ends, given what the stream amounts to. *)
Definition put_outcome (s : DiskStore) (id : string) (targets : list string)
    (acc : option (PutChunkRequest * bytes)) (rcv : put_received) (s' : DiskStore) : Prop :=
  store_ok s' ∧
  match acc with
  | Some (last, d) => ∃ r, spec_put (splitLevel s) (totalSpace s) id d (contents s) = (r, contents s') ∧
      match r with Ok _ => rcv = inr (last, targets) | Err _ => turned_away rcv end
  | None => contents s' = contents s ∧ turned_away rcv
  end.

Lemma put_fail_refused c msg : refused (put_fail c msg).
Proof. split; simpl; eauto. Qed.

Lemma put_fail_away c msg : turned_away (inl (put_fail c msg)).
Proof. eexists. split; [done|apply put_fail_refused]. Qed.

#[export] Hint Resolve put_fail_refused put_fail_away : dfs.

(** The outcome does not depend on a temporary file of the state it starts from. *)
Lemma put_outcome_tmp tmp s1 s2 id targets acc out s' :
  only_tmp tmp s1 s2 → not_chunk s1 tmp →
  put_outcome s2 id targets acc out s' → put_outcome s1 id targets acc out s'.
Proof.
  intros Ho Hn. unfold put_outcome.
  by rewrite (only_tmp_contents _ _ _ Ho Hn), (ot_level _ _ _ Ho), (ot_total _ _ _ Ho).
Qed.

Section put.
Context (io : nat → io_outcome) (Hio : no_faults io).

Lemma put_aborted cw id d s out targets :
  store_ok s → writing cw id d s → turned_away out →
  put_outcome s id targets None out (Abort_writer io cw s).2 ∧
  files (Abort_writer io cw s).2 !! cw_filepath cw = None.
Proof.
  intros Hok Hw Hr.
  destruct (Abort_ok io Hio cw s Hok (TempDir_not_a_chunk s id _ Hok (wr_path _ _ _ _ Hw))) as (H1 & H2 & H3).
  done.
Qed.

Lemma put_eof_ok cw id d s targets last :
  store_ok s → writing cw id d s →
  let '(out, s') := put_eof io (Some cw) targets (Some last) s in
  put_outcome s id targets (accept_rest [] id d last) out s' ∧ files s' !! cw_filepath cw = None.
Proof.
  intros Hok Hw. simpl. destruct (pc_IsLast last) eqn:Hlast; simpl.
  - destruct (decide (sha256 d = pc_Checksum last)) as [Heq|Hne].
    + rewrite decide_True by done. destruct (Finalize_commit io Hio cw id d s Hok Hw) as (r & cw' & s' & Hf & Hok' & Hnone & Hspec).
      rewrite <-Heq, Hf.
      destruct r; (split; [split; [done|]|done]); (eexists; split; [exact Hspec|]); cbv iota; auto with dfs.
    + rewrite decide_False by naive_solver.
      destruct (Finalize_mismatch io Hio cw id d (pc_Checksum last) s Hok Hw Hne) as (cw' & s' & -> & Hok' & Hc & Hnone).
      split; [split; [done|]|done]. eauto with dfs.
  - apply (put_aborted cw id d s); auto with dfs.
Qed.

Lemma put_loop_ok stream cw id d s targets last :
  store_ok s → writing cw id d s →
  let '(out, s') := put_loop io stream (Some cw) id targets (Some last) s in
  put_outcome s id targets (accept_rest stream id d last) out s' ∧ files s' !! cw_filepath cw = None.
Proof.
  revert cw d s last. induction stream as [|[f|e] rest IH]; intros cw d s last Hok Hw.
  - by apply put_eof_ok.
  - simpl. unfold put_frame. destruct (decide (pc_ChunkId f = id)) as [Heq|Hne].
    + rewrite decide_False by (intros []; done).
      destruct (cw_Write_run io Hio cw id d (pc_Data f) s Hw) as (cw' & s' & -> & Hw' & Hp & Ho).
      pose proof (TempDir_not_a_chunk s id _ Hok (wr_path _ _ _ _ Hw)) as Hn.
      specialize (IH cw' (d ++ pc_Data f) s' f (only_tmp_ok _ _ _ Ho Hn Hok) Hw').
      destruct (put_loop io rest (Some cw') id targets (Some f) s') as [out s''].
      destruct IH as [IH Hnone]. rewrite Hp in Hnone. split; [|done]. by eapply put_outcome_tmp.
    + rewrite decide_True by (by apply not_eq_sym). apply (put_aborted cw id d s); auto with dfs.
  - simpl. apply (put_aborted cw id d s); auto with dfs.
Qed.
(** A stream whose first frame names no valid chunk is refused. *)
Lemma put_invalid s id targets acc out e :
  store_ok s → TempDir s id = Err e → turned_away out → put_outcome s id targets acc out s.
Proof.
  intros Hok Ht Hr. split; [done|]. destruct acc as [[last d]|]; [|done]. exists (Err e). split; [|done].
  unfold spec_put. unfold TempDir in Ht. destruct (validateChunkId (splitLevel s) id); simpl in Ht; congruence.
Qed.

Lemma put_receive_ok f rest s :
  store_ok s →
  let '(out, s') := put_loop io (RecvMsg f :: rest) None "" [] None s in
  put_outcome s (pc_ChunkId f) (replica_targets (pc_ReplicateTo f))
    (accept_rest rest (pc_ChunkId f) (pc_Data f) f) out s' ∧
  ∀ tmp, TempDir s (pc_ChunkId f) = Ok tmp → files s' !! tmp = None.
Proof.
  intros Hok. simpl. destruct (TempDir s (pc_ChunkId f)) as [tmp|e] eqn:Ht.
  - destruct (NewChunkWriter_run io Hio (pc_ChunkId f) s tmp Ht) as (cw & s1 & -> & Hw1 & Hp & Ho1).
    unfold put_frame. rewrite decide_False by (intros []; done).
    destruct (cw_Write_run io Hio cw _ [] (pc_Data f) s1 Hw1) as (cw2 & s2 & -> & Hw2 & Hp2 & Ho2).
    rewrite Hp in Ho2. pose proof (transitivity Ho1 Ho2) as Ho.
    pose proof (TempDir_not_a_chunk s _ _ Hok Ht) as Hn.
    pose proof (put_loop_ok rest cw2 (pc_ChunkId f) _ s2 (replica_targets (pc_ReplicateTo f)) f
      (only_tmp_ok _ _ _ Ho Hn Hok) Hw2) as IH.
    destruct (put_loop _ _ _ _ _ _ s2) as [out s']. destruct IH as [IH Hnone].
    rewrite Hp2, Hp in Hnone. split; [by eapply put_outcome_tmp|]. by intros ? [= <-].
  - destruct (NewChunkWriter_bad io (pc_ChunkId f) s e Ht) as [e' ->].
    split; [|done]. eapply put_invalid; eauto with dfs.
Qed.

(** The whole handler: receiving, then the replication and the commit. *)
Lemma PutChunk_ok h f rest s :
  store_ok s →
  let '(out, s') := PutChunk io h (RecvMsg f :: rest) s in
  (store_ok s' ∧
   match accept_rest rest (pc_ChunkId f) (pc_Data f) f with
   | Some (last, d) => ∃ r, spec_put (splitLevel s) (totalSpace s) (pc_ChunkId f) d (contents s) = (r, contents s') ∧
       match r with
       | Ok _ => out = put_commit h last (replica_targets (pc_ReplicateTo f))
       | Err _ => refused out
       end
   | None => contents s' = contents s ∧ refused out
   end) ∧
  ∀ tmp, TempDir s (pc_ChunkId f) = Ok tmp → files s' !! tmp = None.
Proof.
  intros Hok. pose proof (put_receive_ok f rest s Hok) as Hr. unfold PutChunk.
  destruct (put_loop io (RecvMsg f :: rest) None "" [] None s) as [rcv s'] eqn:Hp. destruct Hr as [[Hok' Hr] Ht].
  destruct (accept_rest rest (pc_ChunkId f) (pc_Data f) f) as [[last d]|].
  - destruct Hr as (r & Hspec & Hr). destruct r.
    + subst rcv. split; [split; [done|]|done]. by eexists.
    + destruct Hr as (o & -> & Hre). split; [split; [done|]|done]. by eexists.
  - destruct Hr as [Hc (o & -> & Hre)]. eauto.
Qed.
End put.

(** ** The reader *)

Section reader.
Context (io : nat → io_outcome) (Hio : no_faults io).

(** Frames that carry [d]: each with its own checksum, none empty, only the last one
    marked as the last, the others full. *)
Record frames_carry (size : Z) (d : bytes) (frames : list Frame) : Prop := {
  fc_data : mjoin (fr_Data <$> frames) = d;
  fc_sums : Forall (λ fr, fr_Checksum fr = sha256 (fr_Data fr)) frames;
  fc_last : d ≠ [] → ∃ init fin, frames = init ++ [fin] ∧ fr_IsLast fin = true ∧
    Forall (λ fr, fr_IsLast fr = false ∧ Z.of_nat (length (fr_Data fr)) = size) init;
  fc_size : Forall (λ fr, fr_Data fr ≠ [] ∧ (Z.of_nat (length (fr_Data fr)) ≤ size)%Z) frames;
}.

Lemma Next_run cr f s :
  cr_file cr = Some f → (0 < cr_frameSize cr)%Z → drop (cr_pos cr) f ≠ [] →
  let n := Z.to_nat (cr_frameSize cr) in
  let data := take n (drop (cr_pos cr) f) in
  let isLast := bool_decide (length (drop (cr_pos cr) f) ≤ n) in
  ∃ k pos, Next io cr s = (Ok (mkFrame data (sha256 data) isLast), cr_seek cr pos, set_calls k s) ∧
    (isLast = false → pos = cr_pos cr + n).
Proof.
  intros Hf Hsz Hne n data isLast. unfold Next. rewrite Hf. unfold os_plain at 1.
  rewrite os_call_ok by done. cbv beta iota zeta.
  set (rest := drop (cr_pos cr) f) in *.
  replace (Z.to_nat (cr_frameSize cr + 1)) with (S n) by lia.
  assert (Hlen : length (take (S n) rest) = S n `min` length rest) by apply length_take.
  assert (0 < length rest) by (destruct rest; simpl; [done|lia]).
  rewrite decide_False by lia.
  rewrite (bool_decide_ext _ (length rest ≤ n)) by (rewrite Hlen; lia). fold isLast.
  assert (Htake : take (length (take (S n) rest) `min` n) (take (S n) rest) = data).
  { rewrite take_take, Hlen. unfold data. destruct (decide (length rest ≤ n)).
    - rewrite !take_ge by lia. done.
    - f_equal. lia. }
  fold n. rewrite Htake. destruct isLast eqn:Hlast.
  - by exists (S (io_calls s)), (cr_pos cr + length (take (S n) rest)).
  - unfold os_plain. rewrite os_call_ok by done. apply bool_decide_eq_false in Hlast.
    exists (S (S (io_calls s))), (cr_pos cr + n). split; [|done].
    unfold cr_seek. simpl cr_pos. simpl cr_chunkId. simpl cr_file. simpl cr_frameSize.
    replace (cr_pos cr + length (take (S n) rest) - 1) with (cr_pos cr + n) by lia. done.
Qed.

Lemma Next_eof cr f s :
  cr_file cr = Some f → drop (cr_pos cr) f = [] → Next io cr s = (Err EOF, cr, next_io s).
Proof.
  intros Hf Hd. unfold Next. rewrite Hf. unfold os_plain. rewrite os_call_ok by done. cbv beta iota zeta.
  by rewrite Hd, take_nil.
Qed.
End reader.

(** The frames of [d], as a function. *)
Fixpoint split_frames (fuel : nat) (n : nat) (d : bytes) : list Frame :=
  match fuel with
  | O => []
  | S fuel' =>
      if decide (d = []) then []
      else
        let data := take n d in
        if decide (length d ≤ n) then [mkFrame data (sha256 data) true]
        else mkFrame data (sha256 data) false :: split_frames fuel' n (drop n d)
  end.

Lemma take_nonempty {A} n (l : list A) : 0 < n → l ≠ [] → take n l ≠ [].
Proof. destruct n, l; simpl; naive_solver lia. Qed.

Lemma split_frames_carry size fuel n d :
  size = Z.of_nat n → 0 < n → length d ≤ fuel → frames_carry size d (split_frames fuel n d).
Proof.
  intros -> Hn. revert d. induction fuel as [|fuel IH]; intros d Hd; simpl.
  - destruct d; [|simpl in Hd; lia]. by split.
  - case_decide as Hne; [subst; by split|]. pose proof (take_nonempty n d Hn Hne).
    case_decide as Hle.
    + split; simpl.
      * rewrite app_nil_r. by apply take_ge.
      * by repeat constructor.
      * intros _. eexists [], _. done.
      * repeat constructor; simpl; [done|]. rewrite length_take. lia.
    + destruct (IH (drop n d)) as [Hdata Hsums Hlast Hsize]; [rewrite length_drop; lia|].
      assert (Hrest : drop n d ≠ []) by (intros Heq%(f_equal length); rewrite length_drop in Heq; simpl in Heq; lia).
      destruct (Hlast Hrest) as (init & fin & Heq & Hfin & Hinit). split; simpl.
      * change (take n d ++ mjoin (fr_Data <$> split_frames fuel n (drop n d)) = d).
        rewrite Hdata. apply take_drop.
      * by constructor.
      * intros _. exists (mkFrame (take n d) (sha256 (take n d)) false :: init), fin.
        rewrite Heq. split_and!; [done..|]. constructor; [|done]. simpl. rewrite length_take. split; [done|lia].
      * constructor; [|done]. simpl. rewrite length_take. split; [done|lia].
Qed.

Definition sends_ok : nat → option error := λ _, None.

Section get.
Context (io : nat → io_outcome) (Hio : no_faults io).

Lemma get_loop_run fuel cr f sent s :
  cr_file cr = Some f → (0 < cr_frameSize cr)%Z → length (drop (cr_pos cr) f) < fuel →
  ∃ k, get_loop io sends_ok fuel cr sent s =
    Some (Ok tt, sent ++ split_frames fuel (Z.to_nat (cr_frameSize cr)) (drop (cr_pos cr) f), set_calls k s).
Proof.
  revert cr sent s. induction fuel as [|fuel IH]; intros cr sent s Hf Hsz Hfuel; [lia|]. simpl.
  case_decide as Hd.
  - rewrite (Next_eof io Hio cr f) by done. rewrite decide_True by done. rewrite app_nil_r.
    by exists (S (io_calls s)).
  - destruct (Next_run io Hio cr f s Hf Hsz Hd) as (k & pos & -> & Hpos). simpl.
    case_decide as Hle; [rewrite bool_decide_true by done; by exists k|].
    rewrite bool_decide_false in * by done. rewrite (Hpos eq_refl).
    destruct (IH (cr_seek cr (cr_pos cr + Z.to_nat (cr_frameSize cr))) (sent ++
      [mkFrame (take (Z.to_nat (cr_frameSize cr)) (drop (cr_pos cr) f))
         (sha256 (take (Z.to_nat (cr_frameSize cr)) (drop (cr_pos cr) f))) false]) (set_calls k s)) as [k' Hk']; [done..| |].
    { simpl. rewrite <-drop_drop, length_drop. destruct (drop (cr_pos cr) f); simpl in *; [done|lia]. }
    exists k'. rewrite Hk', <-app_assoc. simpl. by rewrite drop_drop.
Qed.

Lemma NewChunkReader_run id d s :
  store_ok s → contents s !! id = Some d →
  ∃ k, NewChunkReader io id 0 s = (Ok (mkChunkReader id (Some d) 0 DefaultFrameSize), set_calls k s).
Proof.
  intros Hok Hc. pose proof (contents_validate s id d Hok Hc) as Hv.
  destruct (contents_Some s id d Hok Hc) as (p & Hp & Hd & _).
  unfold NewChunkReader. rewrite decide_False by (by intros ->).
  erewrite bind_run; [|by apply Exists_ok]. rewrite bool_decide_true by (rewrite Hc; eauto). cbn [negb].
  erewrite bind_run; [|reflexivity]. erewrite bind_run; [|by unfold lift; rewrite Hp].
  erewrite bind_run; [|by apply os_ReadFile_run]. by exists (S (io_calls s)).
Qed.

Lemma GetChunk_run id d s :
  store_ok s → contents s !! id = Some d →
  ∃ k, GetChunk io sends_ok id s =
    Some (Ok tt, split_frames (S (length d)) (Z.to_nat DefaultFrameSize) d, set_calls k s).
Proof.
  intros Hok Hc. pose proof (contents_validate s id d Hok Hc) as Hv.
  unfold GetChunk. rewrite decide_False by (by intros ->). rewrite Exists_ok by done.
  rewrite bool_decide_true by (rewrite Hc; eauto).
  destruct (NewChunkReader_run id d s Hok Hc) as [k ->].
  destruct (get_loop_run (S (length d)) (mkChunkReader id (Some d) 0 DefaultFrameSize) d [] (set_calls k s))
    as [k' Hk']; [done..|simpl; rewrite drop_0; lia|].
  exists k'. unfold reader_fuel. exact Hk'.
Qed.
End get.

(** ** Transfers *)

Section transfer.
Context (io io' : nat → io_outcome) (Hio : no_faults io) (Hio' : no_faults io').

(** One frame for an open writer. *)
Lemma repl_frame_run writer registered frame dst w id d0 s1 :
  repl_open io' writer registered frame dst = (Ok (Some w, id), s1) →
  rq_ChunkId frame = id → writing w id d0 s1 →
  ∃ w2 s2, writing w2 id (d0 ++ rq_Data frame) s2 ∧ cw_filepath w2 = cw_filepath w ∧
    only_tmp (cw_filepath w) s1 s2 ∧
    repl_frame io' writer registered None frame dst =
      if rq_IsLast frame then
        match Finalize io' w2 (sha256 (d0 ++ rq_Data frame)) s2 with
        | (Err _, _, s3) => (ReplReturn (Err (ErrStatus Internal "failed to finalise chunk")), s3)
        | (Ok _, _, s3) =>
            (ReplReturn (Ok (Some (mkReplicateChunkResponse true true id (sha256 (d0 ++ rq_Data frame))))), s3)
        end
      else (ReplAck w2 id, s2).
Proof.
  intros Hopen Hid Hw. unfold repl_frame. rewrite Hopen, decide_False by naive_solver. unfold repl_write.
  assert (∃ w2 s2, (if decide (rq_Data frame = []) then (Ok tt, w, s1) else cw_Write io' w (rq_Data frame) s1) =
    (Ok tt, w2, s2) ∧ writing w2 id (d0 ++ rq_Data frame) s2 ∧ cw_filepath w2 = cw_filepath w ∧
    only_tmp (cw_filepath w) s1 s2) as (w2 & s2 & -> & Hw2 & Hp & Ho).
  { case_decide as Hd; [|by apply cw_Write_run]. exists w, s1. rewrite Hd, app_nil_r. done. }
  exists w2, s2. split_and!; [done..|]. unfold ComputedChecksum. rewrite (wr_hash _ _ _ _ Hw2).
  by destruct (rq_IsLast frame).
Qed.

(** The receiver's store after a complete transfer of [d]: the put of the abstract store. *)
Definition received (id : string) (d : bytes) (dst : DiskStore) (r : res unit) (dst' : DiskStore) : Prop :=
  store_ok dst' ∧ ∃ v, spec_put (splitLevel dst) (totalSpace dst) id d (contents dst) = (v, contents dst') ∧
    match r, v with Ok _, Ok _ | Err _, Err _ => True | _, _ => False end.

Lemma received_tmp tmp id d dst1 dst2 r dst' :
  only_tmp tmp dst1 dst2 → not_chunk dst1 tmp → received id d dst2 r dst' → received id d dst1 r dst'.
Proof.
  intros Ho Hn. unfold received.
  by rewrite (only_tmp_contents _ _ _ Ho Hn), (ot_level _ _ _ Ho), (ot_total _ _ _ Ho).
Qed.

(** A transfer that the network broke off: an error, and no chunk has changed. *)
Definition interrupted (net : nat → option error) (dst : DiskStore) (r : res unit) (dst' : DiskStore) : Prop :=
  (∃ m e, net m = Some e) ∧ (∃ e, r = Err e) ∧ store_ok dst' ∧ contents dst' = contents dst.

Lemma interrupted_tmp tmp net dst1 dst2 r dst' :
  only_tmp tmp dst1 dst2 → not_chunk dst1 tmp → interrupted net dst2 r dst' → interrupted net dst1 r dst'.
Proof. intros Ho Hn. unfold interrupted. by rewrite (only_tmp_contents _ _ _ Ho Hn). Qed.

Lemma transfer_loop_run net fuel id cr f n writer registered w s1 d0 src dst :
  (∀ data last, repl_open io' writer registered (mkReplicateChunkRequest id data (bool_decide (n = 0)) last) dst =
     (Ok (Some w, id), s1)) → (writer = None ∨ writer = Some w) →
  store_ok dst → writing w id d0 s1 → only_tmp (cw_filepath w) dst s1 →
  cr_file cr = Some f → (0 < cr_frameSize cr)%Z → drop (cr_pos cr) f ≠ [] → length (drop (cr_pos cr) f) ≤ fuel →
  ∃ r k dst', transfer_loop io io' net fuel id cr n writer registered src dst = Some (r, set_calls k src, dst') ∧
    (received id (d0 ++ drop (cr_pos cr) f) dst r dst' ∨ interrupted net dst r dst').
Proof.
  revert cr n writer registered w s1 d0 src dst.
  induction fuel as [|fuel IH]; intros cr n writer registered w s1 d0 src dst Hopen Hwr Hok Hw Ho Hf Hsz Hne Hfuel.
  { destruct (drop (cr_pos cr) f); [done|simpl in Hfuel; lia]. }
  assert (Hn : not_chunk dst (cw_filepath w)).
  { apply (TempDir_not_a_chunk dst id); [done|]. rewrite <-(only_tmp_TempDir _ _ _ id Ho). apply Hw. }
  simpl. destruct (Next_run io Hio cr f src Hf Hsz Hne) as (k & pos & -> & Hpos). cbn [fr_Data fr_IsLast].
  set (rest := drop (cr_pos cr) f) in *. set (m := Z.to_nat (cr_frameSize cr)) in *.
  set (last := bool_decide (length rest ≤ m)) in *. destruct (net n) as [e|] eqn:Hnet.
  { do 3 eexists. split; [reflexivity|]. right. split; [eauto|]. split; [eauto|].
    destruct Hwr as [-> | ->]; simpl; [done|]. by destruct (Abort_ok io' Hio' w dst Hok Hn) as (? & ? & _). }
  destruct (repl_frame_run _ _ _ _ _ _ d0 _ (Hopen (take m rest) last) eq_refl Hw) as (w2 & s2 & Hw2 & Hp2 & Ho2 & ->).
  pose proof (transitivity Ho Ho2) as Ho'. cbn [rq_IsLast rq_Data] in *. destruct last eqn:Hlast.
  - apply bool_decide_eq_true in Hlast. rewrite (take_ge rest m) in * by done.
    destruct (Finalize_commit io' Hio' w2 id (d0 ++ rest) s2 (only_tmp_ok _ _ _ Ho' Hn Hok) Hw2)
      as (r & cw' & s3 & -> & Hok3 & _ & Hspec).
    destruct r; simpl; do 3 eexists; (split; [reflexivity|]); left;
      (eapply received_tmp; [done..|]); (split; [done|]); eexists; (split; [exact Hspec|done]).
  - apply bool_decide_eq_false in Hlast. rewrite (Hpos eq_refl).
    destruct (IH (cr_seek cr (cr_pos cr + m)) (S n) (Some w2) id w2 s2 (d0 ++ take m rest) (set_calls k src) s2)
      as (r & k' & dst' & Heq & Hrec); try done.
    + by right.
    + by eapply only_tmp_ok.
    + simpl. rewrite <-drop_drop. fold rest. intros Hd%(f_equal length). rewrite length_drop in Hd. simpl in Hd. lia.
    + simpl. rewrite <-drop_drop, length_drop. fold rest. lia.
    + exists r, k', dst'. split; [exact Heq|]. destruct Hrec as [Hrec|Hint].
      * left. eapply received_tmp; [exact Ho'|done|].
        simpl in Hrec. rewrite <-drop_drop, <-app_assoc in Hrec. fold rest in Hrec. by rewrite take_drop in Hrec.
      * right. by eapply interrupted_tmp.
Qed.

Lemma transfer_net_run net id d src dst tmp :
  store_ok src → store_ok dst → contents src !! id = Some d → TempDir dst id = Ok tmp → d ≠ [] →
  ∃ r k dst', replicateToSingleNode io io' net None id src dst = Some (r, set_calls k src, dst') ∧
    (received id d dst r dst' ∨ interrupted net dst r dst').
Proof.
  intros Hsrc Hdst Hc Ht Hd. unfold replicateToSingleNode.
  destruct (NewChunkReader_run io Hio id d src Hsrc Hc) as [k ->]. unfold reader_fuel. cbn [cr_file].
  destruct (NewChunkWriter_run io' Hio' id dst tmp Ht) as (w & s1 & Hnew & Hw & <- & Ho).
  pose proof (TempDir_valid _ _ _ Ht) as Hv.
  apply (transfer_loop_run net (S (length d)) id (mkChunkReader id (Some d) 0 DefaultFrameSize) d 0 None "" w s1 []
    (set_calls k src) dst); try done.
  - intros data last. unfold repl_open. simpl. rewrite decide_False by (by intros ->). by rewrite Hnew.
  - by left.
  - simpl. rewrite drop_0. lia.
Qed.

Lemma transfer_run id d src dst tmp :
  store_ok src → store_ok dst → contents src !! id = Some d → TempDir dst id = Ok tmp → d ≠ [] →
  ∃ r k dst', replicateToSingleNode io io' sends_ok None id src dst = Some (r, set_calls k src, dst') ∧
    received id d dst r dst'.
Proof.
  intros Hsrc Hdst Hc Ht Hd.
  destruct (transfer_net_run sends_ok id d src dst tmp Hsrc Hdst Hc Ht Hd) as (r & k & dst' & Hrun & [Hr|Hi]); [eauto|].
  destruct Hi as [(m & e & Hm) _]. done.
Qed.

(** With room for the chunk, an undisturbed transfer stores it. *)
Lemma transfer_stored id d src dst :
  store_ok src → store_ok dst → contents src !! id = Some d → d ≠ [] → validateChunkId (splitLevel dst) id = Ok tt →
  (used_bytes (contents dst) + blen d - size_of (contents dst) id ≤ totalSpace dst)%Z →
  ∃ k dst', replicateToSingleNode io io' sends_ok None id src dst = Some (Ok tt, set_calls k src, dst') ∧
    contents dst' = <[id := d]> (contents dst) ∧ store_ok dst'.
Proof.
  intros Hsrc Hdst Hc Hd Hv Hfits.
  assert (∃ tmp, TempDir dst id = Ok tmp) as [tmp Ht] by (unfold TempDir; rewrite Hv; simpl; eauto).
  destruct (transfer_run id d src dst tmp Hsrc Hdst Hc Ht Hd) as (r & k & dst' & Hrun & Hok' & v & Hspec & Hr).
  unfold spec_put in Hspec. rewrite Hv, decide_False in Hspec by lia. injection Hspec as <- Hcd.
  destruct r as [[]|]; [|done]. do 2 eexists. by split_and!; [exact Hrun|..].
Qed.

(** Whatever the dialler and the network do and whatever the sender has: the receiver's
    store stays well formed and changes at most by the sender's chunk, which it holds
    when the transfer reports success. *)
Lemma transfer_any net dial id src dst :
  store_ok src → store_ok dst →
  ∃ r k dst', replicateToSingleNode io io' net dial id src dst = Some (r, set_calls k src, dst') ∧ store_ok dst' ∧
    match r with
    | Ok _ => ∃ d, contents src !! id = Some d ∧ contents dst' = <[id := d]> (contents dst)
    | Err _ => contents dst' = contents dst
    end.
Proof.
  intros Hsrc Hdst. assert (Hk : src = set_calls (io_calls src) src) by by destruct src.
  destruct dial as [e|]; [by exists (Err (ErrWrap "dial" e)), (io_calls src), dst; rewrite <-Hk|].
  destruct (contents src !! id) as [d|] eqn:Hc.
  - destruct (TempDir dst id) as [tmp|e] eqn:Ht, (decide (d = [])) as [->|Hd].
    + unfold replicateToSingleNode. destruct (NewChunkReader_run io Hio id [] src Hsrc Hc) as [k ->].
      unfold reader_fuel. cbn [cr_file length transfer_loop].
      rewrite (Next_eof io Hio _ []) by done. rewrite decide_True by done. simpl. do 3 eexists. by split.
    + destruct (transfer_net_run net id d src dst tmp Hsrc Hdst Hc Ht Hd) as (r & k & dst' & Hrun & Hres).
      exists r, k, dst'. split; [exact Hrun|]. destruct Hres as [(Hok' & v & Hspec & Hv)|(_ & [e ->] & Hok' & Heq)]; [|done].
      split; [done|]. unfold spec_put in Hspec. destruct r, v; try done; repeat case_match; simplify_eq; eauto.
    + unfold replicateToSingleNode. destruct (NewChunkReader_run io Hio id [] src Hsrc Hc) as [k ->].
      unfold reader_fuel. cbn [cr_file length transfer_loop].
      rewrite (Next_eof io Hio _ []) by done. rewrite decide_True by done. simpl. do 3 eexists. by split.
    + unfold replicateToSingleNode. destruct (NewChunkReader_run io Hio id d src Hsrc Hc) as [k ->].
      unfold reader_fuel. cbn [cr_file transfer_loop].
      assert (Hne : drop 0 d ≠ []) by by rewrite drop_0.
      destruct (Next_run io Hio (mkChunkReader id (Some d) 0 DefaultFrameSize) d (set_calls k src) eq_refl ltac:(done) Hne)
        as (k' & pos & -> & _). cbn [fr_Data fr_IsLast]. destruct (net 0) as [e'|].
      { do 3 eexists. split; [reflexivity|]. done. }
      unfold repl_frame, repl_open. cbn [rq_IsFirst rq_ChunkId bool_decide]. rewrite bool_decide_true by done.
      pose proof (contents_validate src id d Hsrc Hc) as Hv. rewrite decide_False by (by intros ->).
      destruct (NewChunkWriter_bad io' id dst e Ht) as [e' ->]. do 3 eexists. by split.
  - unfold replicateToSingleNode, NewChunkReader. case_decide as Hid.
    + do 3 eexists. split; [rewrite Hk at 1; reflexivity|]. done.
    + erewrite bind_run; [|by apply Exists_ok]. rewrite bool_decide_false by (rewrite Hc; by intros []).
      cbn [negb]. do 3 eexists. split; [rewrite Hk at 1; reflexivity|]. done.
Qed.
End transfer.

(** ** Properties *)

Lemma Write_keeps io id d s : no_faults io → store_ok s → store_ok (Write io id d s).2.
Proof.
  intros Hio Hok. destruct (op_matches io Hio (OpWrite id d) s Hok I) as (Hok' & _). simpl in Hok'.
  unfold ret_as, mbind, SE_bind in Hok'. by destruct (Write io id d s) as [[]].
Qed.

Lemma accept_rest_frames fs id d l :
  Forall (λ f, pc_ChunkId f = id) fs →
  accept_rest (RecvMsg <$> fs) id d l =
    let l' := default l (last fs) in
    let d' := d ++ mjoin (pc_Data <$> fs) in
    if decide (pc_IsLast l' = true ∧ sha256 d' = pc_Checksum l') then Some (l', d') else None.
Proof.
  revert d l. induction fs as [|f fs IH]; intros d l Hids; [by rewrite app_nil_r|].
  inversion Hids as [|?? Hf Hfs]; subst.
  change (accept_rest (RecvMsg <$> f :: fs) (pc_ChunkId f) d l) with
    (if decide (pc_ChunkId f = pc_ChunkId f) then
       accept_rest (RecvMsg <$> fs) (pc_ChunkId f) (d ++ pc_Data f) f else None).
  rewrite decide_True, IH by done. rewrite last_cons.
  change (mjoin (pc_Data <$> f :: fs)) with (pc_Data f ++ mjoin (pc_Data <$> fs)).
  rewrite app_assoc. by destruct (last fs).
Qed.

Definition demo_handler : StorageServerHandler := mkStorageServerHandler None (Some (λ _, None)) "node-1".

Definition demo_frame (data : string) (last : bool) (sum : bytes) : PutChunkRequest :=
  mkPutChunkRequest "abcdef" (to_bytes data) sum last [].



(** C19. Round trip over the storage service: the frames of a well-formed upload that
    fits are stored, and [GetChunk] then streams the same bytes back, in frames of at
    most 32 KiB that each carry their own checksum, with exactly the last one marked;
    every other chunk is as it was. *)
Theorem put_then_get io h id first rest s :
  let frames := first :: rest in
  let final := default first (last rest) in
  let d := mjoin (pc_Data <$> frames) in
  no_faults io → store_ok s → Forall (λ f, pc_ChunkId f = id) frames →
  pc_IsLast final = true → pc_Checksum final = sha256 d → validateChunkId (splitLevel s) id = Ok tt →
  (used_bytes (contents s) + blen d - size_of (contents s) id ≤ totalSpace s)%Z →
  let '(out, s') := PutChunk io h (RecvMsg <$> frames) s in
  out = put_commit h final (replica_targets (pc_ReplicateTo first)) ∧
  (∀ id', id' ≠ id → contents s' !! id' = contents s !! id') ∧
  ∃ sent s'', GetChunk io sends_ok id s' = Some (Ok tt, sent, s'') ∧ frames_carry DefaultFrameSize d sent ∧
    contents s'' = contents s'.
Proof.
  intros frames final d Hio Hok Hids Hlast Hsum Hv Hfits.
  inversion Hids as [|?? Hid Hrest]; subst.
  pose proof (PutChunk_ok io Hio h first (RecvMsg <$> rest) s Hok) as H.
  change (RecvMsg <$> frames) with (RecvMsg first :: (RecvMsg <$> rest)).
  destruct (PutChunk io h _ s) as [out s']. destruct H as [[Hok' H] _].
  rewrite accept_rest_frames in H by done. cbv zeta in H. fold final in H.
  change (pc_Data first ++ mjoin (pc_Data <$> rest)) with d in H.
  rewrite decide_True in H by done. destruct H as (r & Hspec & Hr).
  unfold spec_put in Hspec. rewrite Hv, decide_False in Hspec by lia. injection Hspec as <- Hc.
  split_and!; [done|intros id' Hne; by rewrite <-Hc, lookup_insert_ne|].
  destruct (GetChunk_run io Hio (pc_ChunkId first) d s' Hok') as [k Hget]; [by rewrite <-Hc, lookup_insert_eq|].
  do 2 eexists. split_and!; [exact Hget| |done]. apply split_frames_carry; [by vm_compute|by apply Nat.ltb_lt; vm_compute|lia].
Qed.

Lemma put_then_get_witness :
  let frames := [demo_frame "hel" false []; demo_frame "lo" true (sha256 (to_bytes "hello"))] in
  ∃ sent s'', GetChunk all_ok sends_ok "abcdef" (PutChunk all_ok demo_handler (RecvMsg <$> frames) demo_store).2 =
    Some (Ok tt, sent, s'') ∧ frames_carry DefaultFrameSize (to_bytes "hello") sent.
Proof.
  pose proof (put_then_get all_ok demo_handler "abcdef" (demo_frame "hel" false [])
    [demo_frame "lo" true (sha256 (to_bytes "hello"))] demo_store (λ n, eq_refl) demo_store_ok
    ltac:(repeat constructor) eq_refl eq_refl ltac:(vm_compute; reflexivity) ltac:(vm_compute; discriminate)) as H.
  cbv zeta in *.
  destruct (PutChunk all_ok demo_handler _ demo_store) as [out s'].
  destruct H as (_ & _ & sent & s'' & H & Hf & _). exists sent, s''. split; [exact H|exact Hf].
Defined.

(** Replication copies: when neither disk nor the network fails, transferring a
    stored, non-empty chunk to a node with room for it succeeds, gives the receiver the
    sender's bytes under the same identifier, leaves its other chunks as they were, and
    leaves the sender's store unchanged. *)
Theorem transfer_copies io io' id d src dst :
  no_faults io → no_faults io' → store_ok src → store_ok dst → contents src !! id = Some d → d ≠ [] →
  validateChunkId (splitLevel dst) id = Ok tt →
  (used_bytes (contents dst) + blen d - size_of (contents dst) id ≤ totalSpace dst)%Z →
  ∃ src' dst', replicateToSingleNode io io' sends_ok None id src dst = Some (Ok tt, src', dst') ∧
    contents dst' = <[id := d]> (contents dst) ∧ store_ok dst' ∧ contents src' = contents src ∧ store_ok src'.
Proof.
  intros Hio Hio' Hsrc Hdst Hc Hd Hv Hfits.
  destruct (transfer_stored io io' Hio Hio' id d src dst) as (k & dst' & Hrun & Hcd & Hok); [done..|].
  do 2 eexists. split_and!; [exact Hrun|done|done|done|by apply store_ok_calls].
Qed.

Definition demo_peer : DiskStore := mkDiskStore "/peer" "/peer/tmp" 2 50 0 ∅ true ∅ 0.

Lemma demo_store2_ok : store_ok demo_store2.
Proof. by apply Write_keeps, demo_store_ok. Qed.

Lemma transfer_copies_witness :
  ∃ src' dst', replicateToSingleNode all_ok all_ok sends_ok None "abcdef" demo_store2 demo_peer = Some (Ok tt, src', dst') ∧
    contents dst' = <["abcdef" := to_bytes "hello"]> (contents demo_peer).
Proof.
  destruct (transfer_copies all_ok all_ok "abcdef" (to_bytes "hello") demo_store2 demo_peer (λ n, eq_refl)
    (λ n, eq_refl) demo_store2_ok ltac:(by apply empty_store_ok) ltac:(vm_compute; reflexivity) ltac:(discriminate)
    ltac:(vm_compute; reflexivity) ltac:(vm_compute; discriminate)) as (src' & dst' & H & Hc & _).
  exists src', dst'. split; [exact H|exact Hc].
Defined.

(** An empty chunk is never replicated: its reader has no frame, so the receiver
    gets an empty stream, answers with an error and stores nothing. *)
Theorem empty_chunk_not_replicated io io' id src dst :
  no_faults io → store_ok src → contents src !! id = Some [] →
  ∃ e src', replicateToSingleNode io io' sends_ok None id src dst = Some (Err e, src', dst).
Proof.
  intros Hio Hsrc Hc. unfold replicateToSingleNode.
  destruct (NewChunkReader_run io Hio id [] src Hsrc Hc) as [k ->]. simpl.
  rewrite (Next_eof io Hio _ []) by done. rewrite decide_True by done. eauto.
Qed.

Definition demo_store3 : DiskStore := (Write all_ok "abcdef" [] demo_store).2.

Lemma demo_store3_ok : store_ok demo_store3.
Proof. by apply Write_keeps, demo_store_ok. Qed.

Lemma empty_chunk_not_replicated_witness :
  ∃ e src', replicateToSingleNode all_ok all_ok sends_ok None "abcdef" demo_store3 demo_peer = Some (Err e, src', demo_peer).
Proof.
  apply (empty_chunk_not_replicated all_ok all_ok "abcdef" demo_store3 demo_peer (λ n, eq_refl) demo_store3_ok).
  vm_compute. reflexivity.
Defined.
