(* ===== verification/Writers.v ===== *)
(** * Concurrent chunk writers: storage/chunk/writer.go over shared temporary files

    A storage node serves every upload and every incoming replica in a goroutine of its
    own, each with a [ChunkWriter], while other goroutines read and delete chunks.  The
    temporary file of a chunk depends on the chunk only, so two writers of one chunk
    share it.  Here the disk also has its directory, from paths to the files ([inode]s)
    they name: [os.Create] of an existing path truncates the file it names, a descriptor
    keeps its file when the file is renamed or its name removed, and each descriptor has
    its own offset.  A step is one method of one writer, or a [Read] or [Delete] of the
    store; [Rename] and [Delete] hold the store's lock for their whole body. *)

From S2P Require Import Prelude GoLib Sha256 DiskStore DiskStoreSpec DiskStoreTheorems Chunk StorageServer StorageTheorems.

(** ** The node: the store, the directory and the writers *)

Definition inode := nat.

Record OpenWriter := mkOpenWriter {
  ow_cw : ChunkWriter;
  ow_file : inode; (* [cw.file] *)
}.

Record WNode := mkWNode {
  wn_store : DiskStore;
  wn_dir : gmap string inode;
  wn_next : inode;             (* the next file to be created *)
  wn_writers : list OpenWriter; (* in the order in which they were created *)
}.

(** Where a file is found now. *)
Definition name_of (dir : gmap string inode) (i : inode) : option string :=
  fst <$> head (filter (λ e, e.2 = i) (map_to_list dir)).

(** The names whose files are gone from the disk are gone from the directory. *)
Definition prune (s : DiskStore) (dir : gmap string inode) : gmap string inode :=
  filter (λ e, is_Some (files s !! e.1)) dir.

(** The directory after a [Rename] of the store from [s] to [s']: [dest] names what
    [source] named if the file was moved, which is when [source] is gone. *)
Definition moved (s s' : DiskStore) (source dest : string) (dir : gmap string inode) : gmap string inode :=
  match files s !! source, files s' !! source, dir !! source with
  | Some _, None, Some i => <[dest := i]> (delete source dir)
  | _, _, _ => dir
  end.

(** ** Steps *)

Inductive writer_op :=
| WOpen (chunkId : string)
| WWrite (k : nat) (data : bytes)
| WFinalize (k : nat) (expectedChecksum : bytes)
| WAbort (k : nat)
| WDelete (chunkId : string)
| WRead (chunkId : string).

Section node.
Context (io : nat → io_outcome).

Definition n_open (chunkId : string) (n : WNode) : res store_val * WNode :=
  match NewChunkWriter io chunkId (wn_store n) with
  | (Err e, s) => (Err e, mkWNode s (wn_dir n) (wn_next n) (wn_writers n))
  | (Ok cw, s) =>
      match wn_dir n !! cw_filepath cw with
      | Some i => (Ok VUnit, mkWNode s (wn_dir n) (wn_next n) (wn_writers n ++ [mkOpenWriter cw i]))
      | None =>
          (Ok VUnit, mkWNode s (<[cw_filepath cw := wn_next n]> (wn_dir n)) (S (wn_next n))
                       (wn_writers n ++ [mkOpenWriter cw (wn_next n)]))
      end
  end.

Definition n_write (k : nat) (w : OpenWriter) (data : bytes) (n : WNode) : res store_val * WNode :=
  let '(r, cw, s) := fd_Write io (name_of (wn_dir n) (ow_file w)) (ow_cw w) data (wn_store n) in
  (match r with Ok _ => Ok VUnit | Err e => Err e end,
   mkWNode s (wn_dir n) (wn_next n) (<[k := mkOpenWriter cw (ow_file w)]> (wn_writers n))).

Definition n_abort (k : nat) (w : OpenWriter) (n : WNode) : res store_val * WNode :=
  let '(cw, s) := Abort_writer io (ow_cw w) (wn_store n) in
  (Ok VUnit, mkWNode s (prune s (wn_dir n)) (wn_next n) (<[k := mkOpenWriter cw (ow_file w)]> (wn_writers n))).

(** The directory when [Finalize] has called [Rename], before it aborts if it does. *)
Definition finalize_dir (cw : ChunkWriter) (expectedChecksum : bytes) (s : DiskStore) (dir : gmap string inode)
    : gmap string inode :=
  if cw_isDone cw || bool_decide (sha256 (cw_hasher cw) ≠ expectedChecksum) then dir
  else
    match PathForChunk s (cw_chunkId cw) with
    | Ok dest =>
        let s2 := (os_plain io (os_plain io s).2).2 in
        moved s2 (Rename io (cw_filepath cw) (cw_chunkId cw) s2).2 (cw_filepath cw) dest dir
    | Err _ => dir
    end.

Definition n_finalize (k : nat) (w : OpenWriter) (expectedChecksum : bytes) (n : WNode) : res store_val * WNode :=
  let '(r, cw, s) := Finalize io (ow_cw w) expectedChecksum (wn_store n) in
  let dir := finalize_dir (ow_cw w) expectedChecksum (wn_store n) (wn_dir n) in
  (match r with Ok _ => Ok VUnit | Err e => Err e end,
   mkWNode s (prune s dir) (wn_next n) (<[k := mkOpenWriter cw (ow_file w)]> (wn_writers n))).

Definition n_store_op (op : store_op) (n : WNode) : res store_val * WNode :=
  let '(r, s) := run_op io op (wn_store n) in
  (r, mkWNode s (prune s (wn_dir n)) (wn_next n) (wn_writers n)).

(** [None] when there is no writer [k]. *)
Definition node_step (op : writer_op) (n : WNode) : option (res store_val * WNode) :=
  match op with
  | WOpen c => Some (n_open c n)
  | WWrite k data => w ← wn_writers n !! k; Some (n_write k w data n)
  | WFinalize k sum => w ← wn_writers n !! k; Some (n_finalize k w sum n)
  | WAbort k => w ← wn_writers n !! k; Some (n_abort k w n)
  | WDelete c => Some (n_store_op (OpDelete c) n)
  | WRead c => Some (n_store_op (OpRead c) n)
  end.

Fixpoint node_run (ops : list writer_op) (n : WNode) : option (list (res store_val) * WNode) :=
  match ops with
  | [] => Some ([], n)
  | op :: ops =>
      '(r, n') ← node_step op n;
      '(rs, n'') ← node_run ops n';
      Some (r :: rs, n'')
  end.
End node.

(** ** What the node promises: chunks appear at once *)

(** A writer in the specification: its chunk and what it has received, until it ends. *)
Notation slot := (string * option bytes)%type.

Record SpecNode := mkSpecNode {
  sn_map : gmap string bytes;
  sn_slots : list slot;
}.

Definition close_slot (k : nat) (c : string) (m : gmap string bytes) (sp : SpecNode) : SpecNode :=
  mkSpecNode m (<[k := (c, None)]> (sn_slots sp)).

Definition spec_step (level total : Z) (op : writer_op) (sp : SpecNode) : option (res store_val * SpecNode) :=
  match op with
  | WOpen c =>
      Some match validateChunkId level c with
           | Ok _ => (Ok VUnit, mkSpecNode (sn_map sp) (sn_slots sp ++ [(c, Some [])]))
           | Err e => (Err e, sp)
           end
  | WWrite k data =>
      sl ← sn_slots sp !! k;
      Some match sl with
           | (c, Some d) => (Ok VUnit, mkSpecNode (sn_map sp) (<[k := (c, Some (d ++ data))]> (sn_slots sp)))
           | (_, None) => (Err ErrWriterClosed, sp)
           end
  | WFinalize k sum =>
      sl ← sn_slots sp !! k;
      Some match sl with
           | (c, Some d) =>
               if decide (sha256 d = sum) then
                 let '(r, m) := spec_put level total c d (sn_map sp) in (r, close_slot k c m sp)
               else (Err ErrChecksumMismatch, close_slot k c (sn_map sp) sp)
           | (_, None) => (Err ErrOperationAborted, sp)
           end
  | WAbort k => sl ← sn_slots sp !! k; Some (Ok VUnit, close_slot k sl.1 (sn_map sp) sp)
  | WDelete c => Some (let '(r, m) := spec_op level total (OpDelete c) (sn_map sp) in (r, mkSpecNode m (sn_slots sp)))
  | WRead c => Some (let '(r, m) := spec_op level total (OpRead c) (sn_map sp) in (r, mkSpecNode m (sn_slots sp)))
  end.

(** No writer other than [k] is open for [c]. *)
Definition alone (k : nat) (c : string) (sp : SpecNode) : Prop :=
  Forall (λ e : nat * slot, e.1 ≠ k → e.2.1 = c → e.2.2 = None) (imap pair (sn_slots sp)).

#[global] Instance alone_dec k c sp : Decision (alone k c sp).
Proof. unfold alone. apply _. Defined.

(** The discipline under which writers do not disturb each other: a writer is created, and
    a writer is aborted, while no other one is open for its chunk. *)
Definition exclusive (op : writer_op) (sp : SpecNode) : Prop :=
  match op with
  | WOpen c => alone (length (sn_slots sp)) c sp
  | WAbort k => match sn_slots sp !! k with Some sl => alone k sl.1 sp | None => True end
  | _ => True
  end.

#[global] Instance exclusive_dec op sp : Decision (exclusive op sp).
Proof. destruct op; simpl; try apply _. case_match; apply _. Defined.

(** The results and the final state, [None] if there is no such writer or the discipline
    is broken. *)
Fixpoint spec_run (level total : Z) (ops : list writer_op) (sp : SpecNode) : option (list (res store_val) * SpecNode) :=
  match ops with
  | [] => Some ([], sp)
  | op :: ops =>
      if decide (exclusive op sp) then
        '(r, sp') ← spec_step level total op sp;
        '(rs, sp'') ← spec_run level total ops sp';
        Some (r :: rs, sp'')
      else None
  end.

(** ** Files of other writers *)

(** [s'] has the directories of [s], and the files of [s] but for those of chunks and of [P]. *)
Record keeps (P : string → Prop) (s s' : DiskStore) : Prop := {
  kp_root : rootDir s' = rootDir s;
  kp_temp : tempDir s' = tempDir s;
  kp_level : splitLevel s' = splitLevel s;
  kp_total : totalSpace s' = totalSpace s;
  kp_files : ∀ q, ¬ P q → not_chunk s q → files s' !! q = files s !! q;
}.

Lemma only_tmp_keeps tmp s s' : only_tmp tmp s s' → keeps (eq tmp) s s'.
Proof. intros []. split; auto. Qed.

Lemma keeps_TempDir P s s' c : keeps P s s' → TempDir s' c = TempDir s c.
Proof. intros Hk. unfold TempDir. by rewrite (kp_temp _ _ _ Hk), (kp_level _ _ _ Hk). Qed.

Lemma keeps_trans P s1 s2 s3 : keeps P s1 s2 → keeps P s2 s3 → keeps P s1 s3.
Proof.
  intros [] [Hr ? Hl ? Hf]. split; try congruence. intros q Hq Hn. rewrite Hf; auto.
  intros c p. unfold PathForChunk. rewrite kp_root0, kp_level0. apply Hn.
Qed.

Lemma keeps_calls P s n : keeps P s (set_calls n s).
Proof. by split. Qed.

Lemma TempDir_inj s c c' p : store_ok s → TempDir s c = Ok p → TempDir s c' = Ok p → c = c'.
Proof.
  intros Hok H1%TempDir_last H2%TempDir_last; try apply Hok. rewrite H1 in H2. by apply string_app_inv_tail in H2.
Qed.

Section steps.
Context (io : nat → io_outcome) (Hio : no_faults io).

Lemma Rename_keeps cw c d s :
  store_ok s → writing cw c d s → keeps (eq (cw_filepath cw)) s (Rename io (cw_filepath cw) c s).2.
Proof.
  intros Hok [Ht _ _ _ _ Hf]. destruct (PathForChunk_valid s c (TempDir_valid _ _ _ Ht)) as [p Hp].
  destruct (Rename_run io Hio (cw_filepath cw) c d s p) as [n ->]; try done.
  case_decide; [apply keeps_calls|]. split; try done. intros q Hq Hn. simpl.
  rewrite lookup_insert_ne, lookup_delete_ne; auto. by eapply Hn.
Qed.

Lemma writing_calls cw c d s n : writing cw c d s → writing cw c d (set_calls n s).
Proof. by intros []. Qed.

(** [Finalize] touches the files of its chunk and its own temporary file, and ends the
    writer. *)
Lemma Finalize_keeps cw c d e s :
  store_ok s → writing cw c d s →
  let '(_, cw', s') := Finalize io cw e s in keeps (eq (cw_filepath cw)) s s' ∧ cw' = cw_done cw.
Proof.
  intros Hok Hw. pose proof Hw as [Ht Hid Hdone Hh _ Hf]. unfold Finalize. rewrite Hdone.
  case_decide.
  - pose proof (only_tmp_keeps _ _ _ (proj1 (Abort_run io Hio cw s))) as Ho.
    assert ((Abort_writer io cw s).1 = cw_done cw) as Hcw by (unfold Abort_writer; by repeat case_match).
    destruct (Abort_writer io cw s) as [cw' s']. by simplify_eq/=.
  - unfold os_plain. rewrite !os_call_ok by done. cbn [cw_done cw_chunkId cw_filepath]. rewrite Hid.
    pose proof (Rename_keeps cw c d (next_io (next_io s)) (store_ok_calls _ _ Hok) (writing_calls _ _ _ _ _ Hw)) as Hk.
    apply (keeps_trans _ s) in Hk; [|by split].
    destruct (Rename io (cw_filepath cw) c (next_io (next_io s))) as [[[]|e'] s3]; [done|]. simpl in Hk.
    pose proof (only_tmp_keeps _ _ _ (proj1 (Abort_run io Hio (cw_done cw) s3))) as Ho.
    assert ((Abort_writer io (cw_done cw) s3).1 = cw_done cw) as Hcw by (unfold Abort_writer; by repeat case_match).
    destruct (Abort_writer io (cw_done cw) s3) as [cw' s']. simplify_eq/=. split; [|done]. by eapply keeps_trans.
Qed.

Lemma Delete_keeps c s : store_ok s → keeps (λ _, False) s (Delete io c s).2.
Proof.
  intros Hok. destruct (validateChunkId (splitLevel s) c) as [[]|e] eqn:Hv.
  - destruct (PathForChunk_valid s c Hv) as [p Hp]. destruct (index s !! c) as [sum|] eqn:Hi.
    + destruct (Delete_run io Hio c sum s p Hok Hp Hi) as [n ->]. split; try done. intros q _ Hn. simpl.
      apply lookup_delete_ne. by eapply Hn.
    + unfold Delete. erewrite bind_run; [|reflexivity]. erewrite bind_run; [|by unfold lift; rewrite Hv].
      erewrite bind_run; [|apply Exists_run; [done|apply Hok]].
      rewrite bool_decide_false by (rewrite Hi; by intros []). by split.
  - unfold Delete, get_st, lift, mbind, SE_bind. rewrite Hv. by split.
Qed.
End steps.

(** ** The directory *)

Lemma name_of_Some (dir : gmap string inode) p i :
  (∀ p q i, dir !! p = Some i → dir !! q = Some i → p = q) → dir !! p = Some i → name_of dir i = Some p.
Proof.
  intros Hinj Hp. unfold name_of.
  assert (Hin : (p, i) ∈ filter (λ e, e.2 = i) (map_to_list dir)).
  { apply list_elem_of_filter. split; [done|]. by apply elem_of_map_to_list. }
  destruct (filter _ _) as [|[q j] l] eqn:Hf; [by apply elem_of_nil in Hin|]. simpl. f_equal.
  assert (Hq : (q, j) ∈ filter (λ e, e.2 = i) (map_to_list dir)) by (rewrite Hf; left).
  apply list_elem_of_filter in Hq as [Hj Hq]. simpl in Hj. subst j. apply elem_of_map_to_list in Hq. by eapply Hinj.
Qed.

Lemma prune_lookup s dir q i : prune s dir !! q = Some i ↔ dir !! q = Some i ∧ is_Some (files s !! q).
Proof. unfold prune. by rewrite map_lookup_filter_Some. Qed.

(** Each file has one name, and new files are new. *)
Record dir_ok (dir : gmap string inode) (next : inode) : Prop := {
  do_inj : ∀ p q i, dir !! p = Some i → dir !! q = Some i → p = q;
  do_next : ∀ p i, dir !! p = Some i → i < next;
}.

Lemma prune_ok s dir next : dir_ok dir next → dir_ok (prune s dir) next.
Proof.
  intros [Hi Hn]. split; [|intros p i [Hp _]%prune_lookup; eauto].
  intros p q i [Hp _]%prune_lookup [Hq _]%prune_lookup. eauto.
Qed.

Lemma moved_ok s s' p q dir next : dir_ok dir next → dir_ok (moved s s' p q dir) next.
Proof.
  intros [Hi Hn]. unfold moved. repeat case_match; try by split.
  split.
  - intros a b j [[<- ->]|[Ha [Hap Hda]%lookup_delete_Some]]%lookup_insert_Some
      [[<- Hj]|[Hb [Hbp Hdb]%lookup_delete_Some]]%lookup_insert_Some; simplify_eq; eauto; exfalso; eauto.
  - intros a j [[<- ->]|[_ [_ Ha]%lookup_delete_Some]]%lookup_insert_Some; eauto.
Qed.

Lemma create_ok p dir next : dir_ok dir next → dir !! p = None → dir_ok (<[p := next]> dir) (S next).
Proof.
  intros [Hi Hn] Hp. split.
  - intros a b j [[<- ->]|[Ha Hda]]%lookup_insert_Some [[<- Hj]|[Hb Hdb]]%lookup_insert_Some; simplify_eq; eauto;
      exfalso; by eapply Nat.lt_irrefl, Hn.
  - intros a j [[<- ->]|[_ Ha]]%lookup_insert_Some; [lia|]. apply Hn in Ha. lia.
Qed.

(** ** The invariant *)

(** A writer and what the specification knows of it. *)
Record slot_ok (s : DiskStore) (dir : gmap string inode) (w : OpenWriter) (sl : slot) : Prop := {
  so_path : TempDir s sl.1 = Ok (cw_filepath (ow_cw w));
  so_state :
    match sl.2 with
    | Some d => writing (ow_cw w) sl.1 d s ∧ dir !! cw_filepath (ow_cw w) = Some (ow_file w)
    | None => cw_isDone (ow_cw w) = true
    end;
}.

Record node_inv (n : WNode) (sp : SpecNode) : Prop := {
  ni_store : store_ok (wn_store n);
  ni_map : contents (wn_store n) = sn_map sp;
  ni_len : length (wn_writers n) = length (sn_slots sp);
  ni_slots : ∀ k w sl, wn_writers n !! k = Some w → sn_slots sp !! k = Some sl → slot_ok (wn_store n) (wn_dir n) w sl;
  ni_alone : ∀ i j c d d', sn_slots sp !! i = Some (c, Some d) → sn_slots sp !! j = Some (c, Some d') → i = j;
  ni_dir : dir_ok (wn_dir n) (wn_next n);
  ni_tmp : ∀ c tmp, TempDir (wn_store n) c = Ok tmp →
    (∀ k d, sn_slots sp !! k ≠ Some (c, Some d)) → files (wn_store n) !! tmp = None;
}.

Lemma alone_spec k c sp : alone k c sp ↔ ∀ j d, j ≠ k → sn_slots sp !! j ≠ Some (c, Some d).
Proof.
  unfold alone. rewrite Forall_lookup. split.
  - intros Ha j d Hj Hs. refine (_ (Ha j (j, (c, Some d)) _ Hj eq_refl)); [done|].
    by apply list_lookup_imap_Some; eauto.
  - intros Ha j e (sl & Hs & ->)%list_lookup_imap_Some. destruct sl as [c' [d|]]; [|done].
    simpl. intros Hj ->. by destruct (Ha j d Hj).
Qed.

(** A writer whose temporary file is not touched. *)
Lemma slot_keep P s s' dir dir' w sl :
  store_ok s → keeps P s s' → slot_ok s dir w sl →
  (∀ q, ¬ P q → not_chunk s q → is_Some (files s !! q) → dir' !! q = dir !! q) →
  (∀ d, sl.2 = Some d → ¬ P (cw_filepath (ow_cw w))) →
  slot_ok s' dir' w sl.
Proof.
  intros Hok Hk [Hp Hs] Hdir Hne. pose proof (TempDir_not_a_chunk s _ _ Hok Hp) as Hn.
  split; [by rewrite (keeps_TempDir P s s')|]. destruct (sl.2) as [d|]; [|done].
  destruct Hs as [[] Hd]. specialize (Hne d eq_refl). split.
  - split; try done; [by rewrite (keeps_TempDir P s s')|]. by rewrite (kp_files _ _ _ Hk).
  - rewrite Hdir; eauto.
Qed.

(** The store's own operations: no writer is touched. *)
Lemma inv_store n sp s' dir' :
  node_inv n sp → store_ok s' → keeps (λ _, False) (wn_store n) s' → dir_ok dir' (wn_next n) →
  (∀ q, not_chunk (wn_store n) q → is_Some (files (wn_store n) !! q) → dir' !! q = wn_dir n !! q) →
  node_inv (mkWNode s' dir' (wn_next n) (wn_writers n)) (mkSpecNode (contents s') (sn_slots sp)).
Proof.
  intros [] Hok' Hk Hd' Hdir. split; simpl; try done.
  - intros k w sl Hw Hs. apply (slot_keep (λ _, False) (wn_store n) s' (wn_dir n)); eauto.
  - intros c tmp Ht Ho. rewrite (keeps_TempDir _ _ _ _ Hk) in Ht. rewrite (kp_files _ _ _ Hk); [eauto|tauto|].
    by eapply TempDir_not_a_chunk.
Qed.

(** A step of writer [k]: its temporary file may change, the others may not. *)
Lemma inv_writer n sp k c o tmp s' dir' next' ws' sls' w' :
  node_inv n sp → alone k c sp → TempDir (wn_store n) c = Ok tmp →
  store_ok s' → keeps (eq tmp) (wn_store n) s' → dir_ok dir' next' →
  (∀ q, tmp ≠ q → not_chunk (wn_store n) q → is_Some (files (wn_store n) !! q) → dir' !! q = wn_dir n !! q) →
  ws' !! k = Some w' → sls' !! k = Some (c, o) → slot_ok s' dir' w' (c, o) →
  (o = None → files s' !! tmp = None) →
  length ws' = length sls' →
  (∀ j, j ≠ k → ws' !! j = wn_writers n !! j ∧ sls' !! j = sn_slots sp !! j) →
  (∀ d, sn_slots sp !! k = Some d → d.1 = c) →
  node_inv (mkWNode s' dir' next' ws') (mkSpecNode (contents s') sls').
Proof.
  intros [] Ha Ht Hok' Hk Hd' Hdir Hw' Hs' Hslot Hnone Hlen Hj Hold. rewrite alone_spec in Ha.
  assert (Hopen : ∀ j d, j ≠ k → sls' !! j ≠ Some (c, Some d)).
  { intros j d Hne. destruct (Hj j Hne) as [_ ->]. by apply Ha. }
  split; simpl; try done.
  - intros j w sl Hw Hs. destruct (decide (j = k)) as [->|Hne]; [by simplify_eq|].
    destruct (Hj j Hne) as [Hjw Hjs]. rewrite Hjw in Hw. rewrite Hjs in Hs.
    pose proof (ni_slots0 j w sl Hw Hs) as Hsl. apply (slot_keep (eq tmp) (wn_store n) s' (wn_dir n)); [done..|].
    intros d Hd Htmp. destruct sl as [c' o']. simpl in Hd. subst o'. apply (Ha j d Hne). rewrite Hs. do 2 f_equal.
    apply (TempDir_inj (wn_store n) _ _ tmp); [done| |done]. rewrite Htmp. apply Hsl.
  - intros i j c' d d' Hi Hjs. destruct (decide (i = k)) as [->|Hik], (decide (j = k)) as [->|Hjk]; try done.
    + simplify_eq. by destruct (Hopen j d' Hjk).
    + simplify_eq. by destruct (Hopen i d Hik).
    + destruct (Hj i Hik) as [_ Hi']. destruct (Hj j Hjk) as [_ Hj']. rewrite Hi' in Hi. rewrite Hj' in Hjs. eauto.
  - intros c' tmp' Ht' Ho. rewrite (keeps_TempDir _ _ _ _ Hk) in Ht'. destruct (decide (c' = c)) as [->|Hne].
    + assert (tmp' = tmp) as -> by congruence. apply Hnone. destruct o as [d|]; [|done]. by destruct (Ho k d).
    + rewrite (kp_files _ _ _ Hk).
      * eapply ni_tmp0; [done|]. intros j d Hs. destruct (decide (j = k)) as [->|Hjk].
        -- by apply Hne, (Hold _ Hs).
        -- destruct (Hj j Hjk) as [_ Hjs]. rewrite <-Hjs in Hs. by destruct (Ho j d).
      * intros <-. apply Hne. by apply (TempDir_inj (wn_store n) _ _ tmp).
      * by eapply TempDir_not_a_chunk.
Qed.

(** Names of files that are still there are kept. *)
Lemma prune_keep P s s' (dir dir' : gmap string inode) q :
  keeps P s s' → ¬ P q → not_chunk s q → is_Some (files s !! q) → dir' !! q = dir !! q →
  prune s' dir' !! q = dir !! q.
Proof.
  intros Hk HP Hn Hf Hq. apply option_eq. intros i. rewrite prune_lookup, Hq, (kp_files _ _ _ Hk) by done. tauto.
Qed.

(** ** Simulation *)

Section simulation.
Context (io : nat → io_outcome) (Hio : no_faults io).

(** [n'] follows [n], with the specification in state [sp']. *)
Definition simulates (n : WNode) (out : res store_val * WNode) (spec : res store_val * SpecNode) : Prop :=
  out.1 = spec.1 ∧ node_inv out.2 spec.2 ∧
  splitLevel (wn_store out.2) = splitLevel (wn_store n) ∧ totalSpace (wn_store out.2) = totalSpace (wn_store n).

Lemma slot_writer n sp k sl :
  node_inv n sp → sn_slots sp !! k = Some sl →
  ∃ w, wn_writers n !! k = Some w ∧ slot_ok (wn_store n) (wn_dir n) w sl.
Proof.
  intros Hinv Hs. pose proof (lookup_lt_Some _ _ _ Hs) as Hlt. rewrite <-(ni_len _ _ Hinv) in Hlt.
  apply lookup_lt_is_Some in Hlt as [w Hw]. exists w. split; [done|]. by eapply (ni_slots _ _ Hinv).
Qed.

(** An open writer is the only open one of its chunk. *)
Lemma open_alone n sp k c d : node_inv n sp → sn_slots sp !! k = Some (c, Some d) → alone k c sp.
Proof. intros Hinv Hs. apply alone_spec. intros j d' Hj Hs'. apply Hj. by eapply (ni_alone _ _ Hinv). Qed.

(** [inv_writer] for a writer that exists. *)
Lemma inv_update n sp k c o o' tmp s' dir' w w' :
  node_inv n sp → sn_slots sp !! k = Some (c, o) → wn_writers n !! k = Some w → alone k c sp →
  TempDir (wn_store n) c = Ok tmp → store_ok s' → keeps (eq tmp) (wn_store n) s' → dir_ok dir' (wn_next n) →
  (∀ q, tmp ≠ q → not_chunk (wn_store n) q → is_Some (files (wn_store n) !! q) → dir' !! q = wn_dir n !! q) →
  slot_ok s' dir' w' (c, o') → (o' = None → files s' !! tmp = None) →
  node_inv (mkWNode s' dir' (wn_next n) (<[k := w']> (wn_writers n)))
    (mkSpecNode (contents s') (<[k := (c, o')]> (sn_slots sp))).
Proof.
  intros Hinv Hs Hw Ha Ht Hok' Hk Hd' Hdir Hslot Hnone.
  apply (inv_writer n sp k c o' tmp s' dir' (wn_next n) _ _ w'); auto.
  - apply list_lookup_insert_eq. by eapply lookup_lt_Some.
  - apply list_lookup_insert_eq. by eapply lookup_lt_Some.
  - rewrite !length_insert. apply Hinv.
  - intros j Hj. by rewrite !list_lookup_insert_ne.
  - intros sl Hsl. by simplify_eq.
Qed.

Lemma NewChunkWriter_invalid c s e : validateChunkId (splitLevel s) c = Err e → NewChunkWriter io c s = (Err e, s).
Proof.
  intros Hv. unfold NewChunkWriter. case_decide as Hc.
  - subst c. by injection Hv as <-.
  - erewrite bind_run; [|reflexivity]. unfold TempDir. by rewrite Hv.
Qed.

Lemma sim_open c n sp :
  node_inv n sp → alone (length (sn_slots sp)) c sp →
  simulates n (n_open io c n)
    (match validateChunkId (splitLevel (wn_store n)) c with
     | Ok _ => (Ok VUnit, mkSpecNode (sn_map sp) (sn_slots sp ++ [(c, Some [])]))
     | Err e => (Err e, sp)
     end).
Proof.
  intros Hinv Ha. unfold n_open. destruct (validateChunkId (splitLevel (wn_store n)) c) as [[]|e] eqn:Hv.
  2:{ rewrite (NewChunkWriter_invalid _ _ _ Hv). split_and!; try done. by destruct n, sp. }
  assert (∃ tmp, TempDir (wn_store n) c = Ok tmp) as [tmp Ht] by (unfold TempDir; rewrite Hv; simpl; eauto).
  destruct (NewChunkWriter_run io Hio c _ tmp Ht) as (cw & s' & -> & Hw & Hp & Ho).
  pose proof (TempDir_not_a_chunk _ _ _ (ni_store _ _ Hinv) Ht) as Hn.
  pose proof (only_tmp_keeps _ _ _ Ho) as Hk. pose proof (only_tmp_ok _ _ _ Ho Hn (ni_store _ _ Hinv)) as Hok'.
  rewrite <-(ni_map _ _ Hinv), <-(only_tmp_contents _ _ _ Ho Hn). rewrite Hp.
  assert (Hfin : ∀ i dir' next', dir_ok dir' next' → dir' !! tmp = Some i →
    (∀ q, tmp ≠ q → dir' !! q = wn_dir n !! q) →
    simulates n (Ok VUnit, mkWNode s' dir' next' (wn_writers n ++ [mkOpenWriter cw i]))
      (Ok VUnit, mkSpecNode (contents s') (sn_slots sp ++ [(c, Some [])]))).
  { intros i dir' next' Hd' Hi Hdir. split_and!; [done| |apply Hk|apply Hk]. simpl.
    apply (inv_writer n sp (length (sn_slots sp)) c (Some []) tmp s' dir' next' _ _ (mkOpenWriter cw i)); auto.
    - rewrite <-(ni_len _ _ Hinv). by rewrite lookup_app_r, Nat.sub_diag by lia.
    - by rewrite lookup_app_r, Nat.sub_diag by lia.
    - split; simpl; [by rewrite Hp; rewrite (keeps_TempDir _ _ _ _ Hk)|]. by rewrite Hp.
    - done.
    - rewrite !length_app, (ni_len _ _ Hinv). done.
    - intros j Hj. pose proof (ni_len _ _ Hinv) as Hlen. destruct (decide (j < length (sn_slots sp))) as [Hlt|Hge].
      + by rewrite !lookup_app_l by lia.
      + rewrite !(lookup_ge_None_2 (_ ++ _)) by (rewrite ?length_app; simpl; lia).
        by rewrite !lookup_ge_None_2 by lia.
    - intros d Hd. apply lookup_lt_Some in Hd. lia. }
  destruct (wn_dir n !! tmp) as [i|] eqn:Hi.
  - by apply Hfin; [apply Hinv|..].
  - apply Hfin; [by apply create_ok; [apply Hinv|]|apply lookup_insert_eq|].
    intros q Hq. by apply lookup_insert_ne.
Qed.

Lemma sim_write k data c d w n sp :
  node_inv n sp → sn_slots sp !! k = Some (c, Some d) → wn_writers n !! k = Some w →
  slot_ok (wn_store n) (wn_dir n) w (c, Some d) →
  simulates n (n_write io k w data n)
    (Ok VUnit, mkSpecNode (sn_map sp) (<[k := (c, Some (d ++ data))]> (sn_slots sp))).
Proof.
  intros Hinv Hs Hw [Hp [Hwr Hdir]]. simpl in *. unfold n_write.
  rewrite (name_of_Some _ _ _ (do_inj _ _ (ni_dir _ _ Hinv)) Hdir).
  destruct (cw_Write_run io Hio _ _ _ data _ Hwr) as (cw' & s' & Hrun & Hwr' & Hp' & Ho).
  unfold cw_Write in Hrun. rewrite Hrun.
  pose proof (TempDir_not_a_chunk _ _ _ (ni_store _ _ Hinv) Hp) as Hn. pose proof (only_tmp_keeps _ _ _ Ho) as Hk.
  rewrite <-(ni_map _ _ Hinv), <-(only_tmp_contents _ _ _ Ho Hn).
  split_and!; [done| |apply Hk|apply Hk].
  apply (inv_update n sp k c (Some d) _ (cw_filepath (ow_cw w)) s' (wn_dir n) w); auto.
  - by eapply open_alone.
  - by eapply only_tmp_ok; [| |apply Hinv].
  - apply Hinv.
  - split; simpl; rewrite Hp'; [|by rewrite Hdir]. by rewrite (keeps_TempDir _ _ _ _ Hk).
  - done.
Qed.

(** The directory keeps the names of the other writers. *)
Lemma finalize_dir_keep cw e s dir q : not_chunk s q → cw_filepath cw ≠ q → finalize_dir io cw e s dir !! q = dir !! q.
Proof.
  intros Hn Hq. unfold finalize_dir. case_match; [done|]. destruct (PathForChunk s (cw_chunkId cw)) as [p|] eqn:Hp; [|done].
  unfold moved. repeat case_match; try done. rewrite lookup_insert_ne, lookup_delete_ne; [done|done|]. by eapply Hn.
Qed.

Lemma finalize_dir_ok cw e s dir next : dir_ok dir next → dir_ok (finalize_dir io cw e s dir) next.
Proof. intros Hd. unfold finalize_dir. repeat case_match; try done. by apply moved_ok. Qed.

Lemma sim_abort k c o w n sp :
  node_inv n sp → sn_slots sp !! k = Some (c, o) → alone k c sp → wn_writers n !! k = Some w →
  slot_ok (wn_store n) (wn_dir n) w (c, o) →
  simulates n (n_abort io k w n) (Ok VUnit, close_slot k c (sn_map sp) sp).
Proof.
  intros Hinv Hs Ha Hw [Hp _]. simpl in Hp. unfold n_abort.
  pose proof (TempDir_not_a_chunk _ _ _ (ni_store _ _ Hinv) Hp) as Hn.
  destruct (Abort_run io Hio (ow_cw w) (wn_store n)) as [Ho Hnone]. pose proof (only_tmp_keeps _ _ _ Ho) as Hk.
  assert ((Abort_writer io (ow_cw w) (wn_store n)).1 = cw_done (ow_cw w)) as Hcw
    by (unfold Abort_writer; by repeat case_match).
  destruct (Abort_writer io (ow_cw w) (wn_store n)) as [cw' s']. simpl in *. subst cw'. unfold close_slot.
  rewrite <-(ni_map _ _ Hinv), <-(only_tmp_contents _ _ _ Ho Hn).
  split_and!; [done| |apply Hk|apply Hk].
  apply (inv_update n sp k c o None (cw_filepath (ow_cw w)) s' (prune s' (wn_dir n)) w); auto.
  - by eapply only_tmp_ok; [| |apply Hinv].
  - apply prune_ok, Hinv.
  - intros q Hq Hnq Hf. by eapply prune_keep.
  - split; [|done]. simpl. by rewrite (keeps_TempDir _ _ _ _ Hk).
Qed.

Lemma sim_finalize k e c d w n sp :
  node_inv n sp → sn_slots sp !! k = Some (c, Some d) → wn_writers n !! k = Some w →
  slot_ok (wn_store n) (wn_dir n) w (c, Some d) →
  simulates n (n_finalize io k w e n)
    (if decide (sha256 d = e) then
       let '(r, m) := spec_put (splitLevel (wn_store n)) (totalSpace (wn_store n)) c d (sn_map sp) in
       (r, close_slot k c m sp)
     else (Err ErrChecksumMismatch, close_slot k c (sn_map sp) sp)).
Proof.
  intros Hinv Hs Hw [Hp [Hwr _]]. simpl in *. unfold n_finalize.
  pose proof (Finalize_keeps io Hio _ _ _ e _ (ni_store _ _ Hinv) Hwr) as Hkeep.
  assert (Hfin : ∀ s', store_ok s' → files s' !! cw_filepath (ow_cw w) = None →
    keeps (eq (cw_filepath (ow_cw w))) (wn_store n) s' →
    node_inv (mkWNode s' (prune s' (finalize_dir io (ow_cw w) e (wn_store n) (wn_dir n))) (wn_next n)
        (<[k := mkOpenWriter (cw_done (ow_cw w)) (ow_file w)]> (wn_writers n)))
      (close_slot k c (contents s') sp)).
  { intros s' Hok' Hnone Hk.
    apply (inv_update n sp k c (Some d) None (cw_filepath (ow_cw w)) s' _ w); auto.
    - by eapply open_alone.
    - by apply prune_ok, finalize_dir_ok, Hinv.
    - intros q Hq Hnq Hf. eapply prune_keep; eauto. by apply finalize_dir_keep.
    - split; [|done]. simpl. by rewrite (keeps_TempDir _ _ _ _ Hk). }
  rewrite <-(ni_map _ _ Hinv). case_decide as He.
  - subst e. destruct (Finalize_commit io Hio _ _ _ _ (ni_store _ _ Hinv) Hwr) as (r & cw' & s' & Hrun & Hok' & Hnone & ->).
    rewrite Hrun in *. destruct Hkeep as [Hk ->]. split_and!; [done|by apply Hfin|apply Hk|apply Hk].
  - destruct (Finalize_mismatch io Hio _ _ _ e _ (ni_store _ _ Hinv) Hwr He) as (cw' & s' & Hrun & Hok' & <- & Hnone).
    rewrite Hrun in *. destruct Hkeep as [Hk ->]. split_and!; [done|by apply Hfin|apply Hk|apply Hk].
Qed.

Lemma sim_store op n sp :
  node_inv n sp → op_ready (wn_store n) op → keeps (λ _, False) (wn_store n) (run_op io op (wn_store n)).2 →
  simulates n (n_store_op io op n)
    (let '(r, m) := spec_op (splitLevel (wn_store n)) (totalSpace (wn_store n)) op (sn_map sp) in
     (r, mkSpecNode m (sn_slots sp))).
Proof.
  intros Hinv Hready Hk. unfold n_store_op.
  destruct (op_matches io Hio op (wn_store n) (ni_store _ _ Hinv) Hready) as (Hok' & Hspec & _).
  rewrite <-(ni_map _ _ Hinv), Hspec. destruct (run_op io op (wn_store n)) as [r s']. simpl in *.
  split_and!; [done| |apply Hk|apply Hk].
  apply inv_store; auto; [apply prune_ok, Hinv|]. intros q Hn Hf. eapply prune_keep; eauto.
Qed.

(** An ended writer refuses to go on. *)
Lemma closed_refuses k w c n :
  wn_writers n !! k = Some w → slot_ok (wn_store n) (wn_dir n) w (c, None) →
  (∀ data, n_write io k w data n = (Err ErrWriterClosed, n)) ∧
  (∀ e, n_finalize io k w e n =
     (Err ErrOperationAborted, mkWNode (wn_store n) (prune (wn_store n) (wn_dir n)) (wn_next n) (wn_writers n))).
Proof.
  intros Hw [_ Hd]. simpl in Hd. destruct w as [cw i]. simpl in *. unfold n_write, n_finalize, fd_Write, Finalize, finalize_dir.
  simpl. rewrite Hd. simpl. rewrite list_insert_id by done. split; [by destruct n|done].
Qed.

Lemma step_simulates op n sp r sp' :
  node_inv n sp → exclusive op sp →
  spec_step (splitLevel (wn_store n)) (totalSpace (wn_store n)) op sp = Some (r, sp') →
  ∃ out, node_step io op n = Some out ∧ simulates n out (r, sp').
Proof.
  intros Hinv Hex Hspec. destruct op as [c|k data|k e|k|c|c]; simpl in *.
  - injection Hspec as Hspec. eexists. split; [done|]. rewrite <-Hspec. by apply sim_open.
  - destruct (sn_slots sp !! k) as [[c o]|] eqn:Hs; [|done]. simpl in Hspec.
    destruct (slot_writer n sp k _ Hinv Hs) as (w & Hw & Hok). rewrite Hw. simpl.
    eexists. split; [done|]. destruct o as [d|]; simplify_eq; [by apply sim_write|].
    by rewrite (proj1 (closed_refuses k w c n Hw Hok)).
  - destruct (sn_slots sp !! k) as [[c o]|] eqn:Hs; [|done]. simpl in Hspec.
    destruct (slot_writer n sp k _ Hinv Hs) as (w & Hw & Hok). rewrite Hw. simpl.
    eexists. split; [done|]. destruct o as [d|].
    { injection Hspec as Hspec. rewrite <-Hspec. by apply sim_finalize. }
    injection Hspec as <- <-. rewrite (proj2 (closed_refuses k w c n Hw Hok)). split_and!; try done.
    pose proof (inv_store n sp (wn_store n) (prune (wn_store n) (wn_dir n)) Hinv (ni_store _ _ Hinv)) as H.
    rewrite (ni_map _ _ Hinv) in H. simpl. destruct sp as [m sls]. apply H; [by split|apply prune_ok, Hinv|].
    intros q Hn Hf. apply (prune_keep (λ _, False) (wn_store n)); [by split|tauto|done..].
  - destruct (sn_slots sp !! k) as [[c o]|] eqn:Hs; [|done]. simpl in *. injection Hspec as <- <-.
    destruct (slot_writer n sp k _ Hinv Hs) as (w & Hw & Hok). rewrite Hw. simpl.
    eexists. split; [done|]. by eapply sim_abort.
  - injection Hspec as Hspec. eexists. split; [done|]. rewrite <-Hspec. apply (sim_store (OpDelete c)); [done..|].
    pose proof (Delete_keeps io Hio c (wn_store n) (ni_store _ _ Hinv)) as Hk. simpl. unfold ret_as, mbind, SE_bind.
    by destruct (Delete io c (wn_store n)) as [[]].
  - injection Hspec as <- <-. eexists. split; [done|]. apply (sim_store (OpRead c) n sp Hinv I).
    destruct (Read_ok io Hio c (wn_store n) (ni_store _ _ Hinv)) as [m Hr]. simpl. unfold ret_as, mbind, SE_bind.
    rewrite Hr. destruct (contents (wn_store n) !! c); by split.
Qed.

Lemma run_simulates ops n sp rs sp' :
  node_inv n sp → spec_run (splitLevel (wn_store n)) (totalSpace (wn_store n)) ops sp = Some (rs, sp') →
  ∃ n', node_run io ops n = Some (rs, n') ∧ node_inv n' sp'.
Proof.
  revert n sp rs. induction ops as [|op ops IH]; intros n sp rs Hinv Hspec; simpl in *; [by simplify_eq; eauto|].
  case_decide as Hex; [|done].
  destruct (spec_step _ _ op sp) as [[r sp1]|] eqn:Hstep; [|done]. simpl in Hspec.
  destruct (spec_run _ _ ops sp1) as [[rs1 sp2]|] eqn:Hrun; [|done]. simplify_eq/=.
  destruct (step_simulates op n sp r sp1 Hinv Hex Hstep) as ([r' n1] & -> & Hr & Hinv1 & Hl & Ht). simpl in *. subst r'.
  rewrite <-Hl, <-Ht in Hrun. destruct (IH n1 sp1 rs1 Hinv1 Hrun) as (n' & -> & Hinv'). by eauto.
Qed.
End simulation.

(** ** Properties *)

(** A node on which no upload is going on. *)
Definition quiet_node (s : DiskStore) : WNode := mkWNode s ∅ 0 [].

Definition no_temps (s : DiskStore) : Prop := ∀ c tmp, TempDir s c = Ok tmp → files s !! tmp = None.

Lemma quiet_inv s : store_ok s → no_temps s → node_inv (quiet_node s) (mkSpecNode (contents s) []).
Proof. intros Hok Hno. split; simpl; try done; eauto. Qed.

(** C9. Uploads that go on at the same time are atomic: as long as no two writers of one
    chunk are open together, any interleaving of the frames, commits and aborts of any
    number of writers with reads and deletes returns what the specification returns, in
    which a chunk changes only when its writer's [Finalize] succeeds, and then to exactly
    the bytes that writer was given; no temporary file of a chunk remains once its writer
    has ended. *)
Theorem writers_linearize io ops s rs sp :
  no_faults io → store_ok s → no_temps s →
  spec_run (splitLevel s) (totalSpace s) ops (mkSpecNode (contents s) []) = Some (rs, sp) →
  ∃ n, node_run io ops (quiet_node s) = Some (rs, n) ∧
    store_ok (wn_store n) ∧ contents (wn_store n) = sn_map sp ∧
    ∀ c tmp, TempDir (wn_store n) c = Ok tmp → (∀ k d, sn_slots sp !! k ≠ Some (c, Some d)) →
      files (wn_store n) !! tmp = None.
Proof.
  intros Hio Hok Hno Hspec.
  destruct (run_simulates io Hio ops (quiet_node s) _ rs sp (quiet_inv s Hok Hno) Hspec) as (n & Hrun & Hinv).
  exists n. split_and!; [done|apply Hinv|apply Hinv|]. by eapply ni_tmp.
Qed.

(** Two uploads whose frames alternate, a third that is given up, and a read between. *)
Definition demo_ops : list writer_op :=
  [WOpen "abcdef"; WOpen "ghijkl"; WWrite 0 (to_bytes "hel"); WWrite 1 (to_bytes "wor"); WWrite 0 (to_bytes "lo");
   WOpen "mnopqr"; WWrite 1 (to_bytes "ld"); WFinalize 0 (sha256 (to_bytes "hello")); WRead "abcdef";
   WAbort 2; WFinalize 1 (sha256 (to_bytes "world"))].

Lemma demo_no_temps : no_temps demo_store.
Proof. by intros c tmp _. Qed.

Lemma demo_spec :
  ∃ sp, spec_run 2 100 demo_ops (mkSpecNode (contents demo_store) []) =
      Some (replicate 8 (Ok VUnit) ++ [Ok (VBytes (to_bytes "hello")); Ok VUnit; Ok VUnit], sp) ∧
    sn_map sp !! "abcdef" = Some (to_bytes "hello") ∧ sn_map sp !! "ghijkl" = Some (to_bytes "world") ∧
    sn_map sp !! "mnopqr" = None.
Proof. eexists. split; [vm_compute; reflexivity|]. split_and!; vm_compute; reflexivity. Qed.

Lemma writers_linearize_witness :
  ∃ rs n, node_run all_ok demo_ops (quiet_node demo_store) = Some (rs, n) ∧
    contents (wn_store n) !! "abcdef" = Some (to_bytes "hello") ∧
    contents (wn_store n) !! "ghijkl" = Some (to_bytes "world") ∧ contents (wn_store n) !! "mnopqr" = None.
Proof.
  destruct demo_spec as (sp & Hspec & Ha & Hg & Hm).
  destruct (writers_linearize all_ok demo_ops demo_store _ sp (λ n, eq_refl) demo_store_ok demo_no_temps Hspec)
    as (n & Hrun & _ & Hc & _).
  eexists _, n. rewrite Hc. split_and!; [exact Hrun|exact Ha|exact Hg|exact Hm].
Defined.

(** Two clients upload the same five bytes under one chunk.  The second creates its writer
    after the first has sent a frame, which empties the file both descriptors refer to;
    the first goes on at its own offset and commits; the second client goes away. *)
Definition racing_ops : list writer_op :=
  [WOpen "abcdef"; WWrite 0 (to_bytes "he"); WOpen "abcdef"; WWrite 0 (to_bytes "llo");
   WFinalize 0 (sha256 (to_bytes "hello")); WAbort 1].

Definition torn : bytes := replicate 2 (Ascii.ascii_of_N 0) ++ to_bytes "llo".

(** Two writers of one chunk corrupt it without anybody noticing.  Both clients send
    the same data and the first upload is acknowledged, since its checksum is that of the
    frames received; but the file that is committed has zero bytes where the second
    writer's creation had emptied it, and [Rename] records the checksum of that file, so
    [Verify] accepts it from then on. *)
Theorem racing_writers_corrupt :
  ∃ n, node_run all_ok racing_ops (quiet_node demo_store) = Some (replicate 6 (Ok VUnit), n) ∧
    contents (wn_store n) !! "abcdef" = Some torn ∧ (Verify all_ok "abcdef" (wn_store n)).1 = Ok (sha256 torn).
Proof. eexists. split; [vm_compute; reflexivity|]. split; vm_compute; reflexivity. Qed.

(** The descriptor of a writer whose file another writer has committed refers to the stored
    chunk: the next frame of the slower of two uploads changes it in place. *)
Lemma late_frame_changes_chunk :
  ∃ n, node_run all_ok
      [WOpen "abcdef"; WOpen "abcdef"; WWrite 0 (to_bytes "hello"); WFinalize 0 (sha256 (to_bytes "hello"));
       WRead "abcdef"; WWrite 1 (to_bytes "HE"); WRead "abcdef"] (quiet_node demo_store) =
    Some (replicate 4 (Ok VUnit) ++ [Ok (VBytes (to_bytes "hello")); Ok VUnit; Ok (VBytes (to_bytes "HEllo"))], n).
Proof. eexists. vm_compute. reflexivity. Qed.
