(* ===== verification/Retry.v ===== *)
(** * Retries: internal/retry and internal/leaderclient

    [Policy.Do] runs an operation until it succeeds, with exponential backoff and
    jitter; [LeaderAwareClient.Invoke] does the same for a unary RPC and follows the
    leader address a follower puts into its trailer.  Cancellation of the context, the
    random jitter and the answers of the servers are parameters. *)

From S2P Require Import Prelude GoFloat.

#[local] Open Scope Z_scope.

Record Policy := mkPolicy {
  MaxAttempts : Z;
  Base : Duration;
  Max : Duration;
  Multiplier : float64;
}.

Definition DefaultPolicy : Policy := mkPolicy 5 (100 * millisecond) (5 * second) (fl_of_int 2).
Definition DefaultRetryPolicy : Policy := mkPolicy 3 (500 * millisecond) (10 * second) (fl_of_int 2).

(** What the program draws and observes besides the operation, by attempt. *)
Record Ambient := mkAmbient {
  ctx_err : nat → option error;  (* [ctx.Err()] before the attempt *)
  ctx_done : nat → option error; (* the context ends during the sleep after it *)
  rand_Int64N : nat → Z → Z;
}.

Definition calm : Ambient := mkAmbient (λ _, None) (λ _, None) (λ _ _, 0).

(** The sleep after a failed attempt, and the delay that follows. *)
Definition sleep_of (p : Policy) (amb : Ambient) (attempt : nat) (delay : Duration) : Duration :=
  let half := delay `quot` 2 in
  let jitter := if decide (0 < half) then rand_Int64N amb attempt half else 0 in
  Z.min (to_int64 (delay + jitter)) (Max p).

(** [min(time.Duration(float64(delay)*p.Multiplier), p.Max)] *)
Definition next_delay (p : Policy) (delay : Duration) : Duration :=
  Z.min (fl_trunc (fl_mul (fl_of_int delay) (Multiplier p))) (Max p).

Definition exhausted (lastErr : option error) : error :=
  match lastErr with
  | Some e => ErrJoin (ErrNew "all retry attempts exhausted") e
  | None => ErrNew "all retry attempts exhausted"
  end.

Section Do.
Context {St : Type} (fn : St → option error * St) (p : Policy) (amb : Ambient).

(** [n] attempts are left, this is number [attempt]; also returns the sleeps. *)
Fixpoint do_loop (n attempt : nat) (delay : Duration) (lastErr : option error) (s : St)
    : option error * St * list Duration :=
  match n with
  | O => (Some (exhausted lastErr), s, [])
  | S n' =>
      match ctx_err amb attempt with
      | Some e => (Some e, s, [])
      | None =>
          match fn s with
          | (None, s') => (None, s', [])
          | (Some e, s') =>
              if decide (n' = O) then (Some (exhausted (Some e)), s', [])
              else
                let sleep := sleep_of p amb attempt delay in
                match ctx_done amb attempt with
                | Some e' => (Some e', s', [sleep])
                | None =>
                    let '(r, s'', sleeps) := do_loop n' (S attempt) (next_delay p delay) (Some e) s' in
                    (r, s'', sleep :: sleeps)
                end
          end
      end
  end.

Definition Do (s : St) : option error * St * list Duration :=
  do_loop (Z.to_nat (MaxAttempts p)) 0 (Base p) None s.
End Do.

(** ** The leader cache *)

Record LeaderCache := mkLeaderCache {
  currentAddr : string;
  seedAddrs : list string;
  nextIdx : nat;
  conn : option string; (* the address of the open connection *)
}.

Definition NewLeaderCache (seeds : list string) : LeaderCache := mkLeaderCache "" seeds 0 None.

(** [dial] is the error of [grpc.NewClient] on an address, if any. *)
Definition Update (dial : string → option error) (addr : string) (c : LeaderCache) : option error * LeaderCache :=
  match dial addr with
  | Some e => (Some (ErrWrap "leaderclient: failed to dial" e), c)
  | None =>
      if decide (currentAddr c = addr ∧ is_Some (conn c)) then (None, c)
      else (None, mkLeaderCache addr (seedAddrs c) (nextIdx c) (Some addr))
  end.

Definition NextAddr (c : LeaderCache) : string :=
  match seedAddrs c with
  | [] => currentAddr c
  | _ => nth (nextIdx c `mod` length (seedAddrs c))%nat (seedAddrs c) ""
  end.

Definition AdvanceNextIdx (c : LeaderCache) : LeaderCache :=
  mkLeaderCache (currentAddr c) (seedAddrs c) (S (nextIdx c)) (conn c).

Definition ErrNoConn : error := ErrNew "leaderclient: no metadata connection available".

Section leader.
Context (dial : string → option error).

(** [New]: the first seed that can be dialled. *)
Fixpoint connect (addrs : list string) (c : LeaderCache) : option LeaderCache :=
  match addrs with
  | [] => None
  | addr :: rest =>
      match Update dial addr c with
      | (None, c') => Some c'
      | (Some _, c') => connect rest (AdvanceNextIdx c')
      end
  end.

Definition New_client (seeds : list string) : option LeaderCache := connect seeds (NewLeaderCache seeds).

Definition isRetryableCode (c : code) : bool :=
  match c with
  | Unavailable | DeadlineExceeded | Aborted | FailedPrecondition => true
  | _ => false
  end.

(** The status of an RPC error; every other error is not a status. *)
Definition FromError (e : error) : option code :=
  match e with ErrStatus c _ => Some c | _ => None end.

(** Following the redirect in the trailer, when there is one. *)
Definition redirect (e : error) (trailer : option string) (c : LeaderCache) : bool * LeaderCache :=
  match FromError e, trailer with
  | Some FailedPrecondition, Some addr =>
      match Update dial addr c with
      | (None, c') => (true, c')
      | (Some _, c') => (false, c')
      end
  | _, _ => (false, c)
  end.

(** Moving on to the next seed. *)
Definition rotate (c : LeaderCache) : LeaderCache :=
  let c := AdvanceNextIdx c in
  if decide (conn c = None ∨ NextAddr c ≠ "") then (Update dial (NextAddr c) c).2 else c.

Context {St Reply : Type} (p : Policy) (amb : Ambient).
(** [rpc i addr] is the i-th call, to the server at [addr]: its answer with the trailer,
    and what it makes of the state of the servers. *)
Context (rpc : nat → string → St → (Reply + error) * option string * St).

Fixpoint invoke_loop (n attempt : nat) (delay : Duration) (c : LeaderCache) (s : St)
    : (Reply + error) * LeaderCache * St :=
  match n with
  | O => (inr (ErrNew "leaderclient: RPC failed after MaxAttempts attempts"), c, s)
  | S n' =>
      match ctx_err amb attempt with
      | Some e => (inr e, c, s)
      | None =>
          match conn c with
          | None => (inr ErrNoConn, c, s)
          | Some addr =>
              match rpc attempt addr s with
              | (inl reply, _, s1) => (inl reply, c, s1)
              | (inr e, trailer, s1) =>
                  let '(followed, c1) := redirect e trailer c in
                  if (followed : bool) then invoke_loop n' (S attempt) delay c1 s1
                  else if match FromError e with Some k => negb (isRetryableCode k) | None => false end then (inr e, c1, s1)
                  else if decide (n' = O) then invoke_loop n' (S attempt) delay c1 s1
                  else
                    let c2 := rotate c1 in
                    match ctx_done amb attempt with
                    | Some e' => (inr e', c2, s1)
                    | None => invoke_loop n' (S attempt) (next_delay p delay) c2 s1
                    end
              end
          end
      end
  end.

Definition Invoke (c : LeaderCache) (s : St) : (Reply + error) * LeaderCache * St :=
  invoke_loop (Z.to_nat (MaxAttempts p)) 0 (Base p) c s.
End leader.

(** ** What a retried operation keeps *)

(** What every call keeps, [Do] keeps; what a successful call establishes, it does too. *)
Lemma Do_keeps {St} (fn : St → option error * St) (p : Policy) (amb : Ambient) (I Q : St → Prop) s :
  (∀ s, I s → I (fn s).2 ∧ ((fn s).1 = None → Q (fn s).2)) → I s →
  let '(r, s', _) := Do fn p amb s in I s' ∧ (r = None → Q s').
Proof.
  intros Hfn. unfold Do.
  enough (H : ∀ n s attempt delay last, I s →
    let '(r, s', _) := do_loop fn p amb n attempt delay last s in I s' ∧ (r = None → Q s')) by apply H.
  clear s. intros n. induction n as [|n IH]; intros s attempt delay last Hs; simpl; [by split|].
  destruct (ctx_err amb attempt); [by split|]. specialize (Hfn s Hs) as [HI HQ]. destruct (fn s) as [[e|] s'].
  - case_decide; [by split|]. destruct (ctx_done amb attempt); [by split|].
    specialize (IH s' (S attempt) (next_delay p delay) (Some e) HI).
    by destruct (do_loop fn p amb n (S attempt) _ _ s') as [[r s''] sleeps].
  - split; [done|]. intros _. by apply HQ.
Qed.

(** The same for [Invoke]; an answer came from the server the cache is connected to. *)
Lemma Invoke_keeps {St Reply} dial (p : Policy) (amb : Ambient)
    (rpc : nat → string → St → (Reply + error) * option string * St) (I : St → Prop) (Q : string → Reply → St → Prop) c s :
  (∀ i a s, I s → I (rpc i a s).2 ∧ ∀ x, (rpc i a s).1.1 = inl x → Q a x (rpc i a s).2) → I s →
  let '(r, c', s') := Invoke dial p amb rpc c s in I s' ∧ ∀ x, r = inl x → ∃ a, conn c' = Some a ∧ Q a x s'.
Proof.
  intros Hrpc. unfold Invoke. generalize (Z.to_nat (MaxAttempts p)) as n, 0%nat as attempt, (Base p) as delay.
  intros n. revert c s. induction n as [|n IH]; intros c s attempt delay Hs; simpl; [by split|].
  destruct (ctx_err amb attempt); [by split|]. destruct (conn c) as [a|] eqn:Hc; [|by split].
  specialize (Hrpc attempt a s Hs) as [HI HQ]. destruct (rpc attempt a s) as [[[x|e] t] s1].
  - split; [done|]. intros ? [= <-]. exists a. split; [done|]. by apply HQ.
  - destruct (redirect dial e t c) as [[] c1]; [by apply IH|].
    destruct (match FromError e with Some k => negb (isRetryableCode k) | None => false end); [by split|].
    case_decide; [by apply IH|]. destruct (ctx_done amb attempt); [by split|by apply IH].
Qed.

(** ** Properties of [Do] *)

Section do_spec.
Context {St : Type} (fn : St → option error * St) (p : Policy) (amb : Ambient).

(** The state before the i-th call, and its outcome. *)
Definition after (i : nat) (s : St) : St := Nat.iter i (λ s, (fn s).2) s.
Definition outcome (i : nat) (s : St) : option error := (fn (after i s)).1.

Lemma after_S i s : after i (fn s).2 = after (S i) s.
Proof. unfold after. rewrite Nat.iter_succ_r. done. Qed.

(** The context stays alive and the jitter is drawn from its range. *)
Record undisturbed : Prop := {
  ud_err : ∀ i, ctx_err amb i = None;
  ud_done : ∀ i, ctx_done amb i = None;
  ud_rand : ∀ i h, 0 < h → 0 ≤ rand_Int64N amb i h < h;
}.

Record sane (q : Policy) : Prop := {
  sn_base : 0 < Base q ≤ Max q;
  sn_max : Max q < 2 ^ 53;
  sn_mult : fl_den (Multiplier q) ≤ fl_num (Multiplier q);
}.

Lemma sleep_bounds i delay : undisturbed → sane p → Base p ≤ delay ≤ Max p → delay ≤ sleep_of p amb i delay ≤ Max p.
Proof.
  intros Hu [Hb Hm _] Hd. unfold sleep_of. pose proof (ud_rand Hu i (delay `quot` 2)).
  pose proof (Z.quot_lt_upper_bound delay 2 (2 ^ 53)). rewrite to_int64_id; [case_decide; lia|].
  unfold is_int64, two63. case_decide; lia.
Qed.

Lemma next_delay_bounds delay : sane p → Base p ≤ delay ≤ Max p → Base p ≤ next_delay p delay ≤ Max p.
Proof.
  intros [Hb Hm Hmul] Hd. unfold next_delay. split; [|lia]. apply Z.min_glb; [|lia].
  pose proof (fl_mul_grows delay (Multiplier p) ltac:(lia) Hmul). lia.
Qed.

(** What a run of [n] attempts gives. *)
Record do_result (n : nat) (s : St) (r : option error) (s' : St) (sleeps : list Duration) : Prop := {
  dr_calls : (length sleeps < n)%nat;
  dr_state : s' = after (S (length sleeps)) s;
  dr_failed : ∀ j, (j < length sleeps)%nat → outcome j s ≠ None;
  dr_last : r = match outcome (length sleeps) s with Some e => Some (exhausted (Some e)) | None => None end;
  dr_all : r ≠ None → S (length sleeps) = n;
  dr_sleeps : Forall (λ d, Base p ≤ d ≤ Max p) sleeps;
}.

Lemma do_loop_spec n attempt delay lastErr s :
  undisturbed → sane p → Base p ≤ delay ≤ Max p → (0 < n)%nat →
  let '(r, s', sleeps) := do_loop fn p amb n attempt delay lastErr s in do_result n s r s' sleeps.
Proof.
  intros Hu Hs. revert attempt delay lastErr s. induction n as [|n IH]; intros attempt delay lastErr s Hd Hn; [lia|].
  simpl. rewrite (ud_err Hu). destruct (fn s) as [[e|] s'] eqn:Hfn.
  - case_decide as H0.
    + subst. split; simpl; try done; try lia; unfold outcome; simpl; by rewrite Hfn.
    + rewrite (ud_done Hu). specialize (IH (S attempt) (next_delay p delay) (Some e) s'
        (next_delay_bounds _ Hs Hd) ltac:(lia)).
      destruct (do_loop fn p amb n (S attempt) _ _ s') as [[r s''] sleeps].
      destruct IH as [H1 H2 H3 H4 H5 H6]. assert (Hs' : s' = (fn s).2) by (by rewrite Hfn). subst s'.
      assert (Hout : ∀ i, outcome i (fn s).2 = outcome (S i) s) by (intros i; unfold outcome; by rewrite after_S).
      split; simpl.
      * lia.
      * by rewrite H2, after_S.
      * intros [|j] Hj; [unfold outcome; simpl; by rewrite Hfn|]. rewrite <-Hout. apply H3. lia.
      * by rewrite H4, Hout.
      * intros Hr. f_equal. by apply H5.
      * constructor; [|done]. pose proof (sleep_bounds attempt delay Hu Hs Hd). lia.
  - split; simpl; try done; try lia; unfold outcome; simpl; by rewrite Hfn.
Qed.
End do_spec.


(** Fails twice, then works. *)
Definition third_time (n : nat) : option error * nat :=
  (if decide (n < 2)%nat then Some (ErrNew "EOF") else None, S n).


(** ** Properties of [Invoke] *)

Section invoke_spec.
Context {St Reply : Type} (p : Policy) (amb : Ambient) (dial : string → option error).
Context (rpc : nat → string → St → (Reply + error) * option string * St) (leader : string) (serve : St → Reply * St).

(** The leader serves the call; any other node changes nothing and redirects to it, or
    fails in a way that is retried. *)
Record cluster : Prop := {
  cl_leader : ∀ i s, ∃ t, rpc i leader s = (inl (serve s).1, t, (serve s).2);
  cl_other : ∀ i a s, a ≠ leader → ∃ e t, rpc i a s = (inr e, t, s) ∧
    ((t = Some leader ∧ FromError e = Some FailedPrecondition) ∨
     (t = None ∧ ∃ k, FromError e = Some k ∧ isRetryableCode k = true));
  cl_dial : ∀ a, dial a = None;
  cl_calm : undisturbed amb;
}.

Definition cache_ok (c : LeaderCache) : Prop := conn c = Some (currentAddr c) ∧ "" ∉ seedAddrs c.

Lemma Update_ok c addr :
  cluster → cache_ok c → ∃ c', Update dial addr c = (None, c') ∧ cache_ok c' ∧ conn c' = Some addr ∧
    seedAddrs c' = seedAddrs c ∧ nextIdx c' = nextIdx c.
Proof.
  intros Hcl [Hc Hs]. unfold Update. rewrite (cl_dial Hcl). case_decide as Hd; eexists; (split; [done|]); [|done].
  destruct Hd as [<- _]. done.
Qed.

Lemma invoke_at_leader n attempt delay c s :
  cluster → conn c = Some leader →
  invoke_loop dial p amb rpc (S n) attempt delay c s = (inl (serve s).1, c, (serve s).2).
Proof.
  intros Hcl Hc. simpl. rewrite (ud_err _ (cl_calm Hcl)), Hc.
  by destruct (cl_leader Hcl attempt s) as [t ->].
Qed.

Lemma rotate_ok c addr :
  cluster → cache_ok c → NextAddr (AdvanceNextIdx c) = addr → addr ≠ "" →
  cache_ok (rotate dial c) ∧ conn (rotate dial c) = Some addr ∧ seedAddrs (rotate dial c) = seedAddrs c ∧
  nextIdx (rotate dial c) = S (nextIdx c).
Proof.
  intros Hcl Hc Hnext Hne. unfold rotate. rewrite decide_True by (right; congruence). rewrite Hnext.
  destruct (Update_ok (AdvanceNextIdx c) addr Hcl Hc) as (c' & -> & H1 & H2 & H3 & H4). done.
Qed.

(** The seed [k] rotations ahead. *)
Definition seed_ahead (c : LeaderCache) (k : nat) : string :=
  nth ((nextIdx c + k) `mod` length (seedAddrs c))%nat (seedAddrs c) "".

Lemma seed_ahead_in c k : seedAddrs c ≠ [] → seed_ahead c k ∈ seedAddrs c.
Proof.
  intros Hne. unfold seed_ahead. apply list_elem_of_In, nth_In, Nat.mod_upper_bound.
  by destruct (seedAddrs c).
Qed.

(** An attempt at another node: the redirect leads to the leader, or the next seed is tried. *)
Lemma invoke_other n attempt delay c s :
  cluster → cache_ok c → currentAddr c ≠ leader →
  (∃ c', invoke_loop dial p amb rpc (S (S n)) attempt delay c s = (inl (serve s).1, c', (serve s).2) ∧
     conn c' = Some leader) ∨
  invoke_loop dial p amb rpc (S (S n)) attempt delay c s =
    invoke_loop dial p amb rpc (S n) (S attempt) (next_delay p delay) (rotate dial c) s.
Proof.
  intros Hcl Hok Hother. destruct (cl_other Hcl attempt _ s Hother) as (e & t & He & Hcase).
  remember (S n) as m eqn:Hm. cbn [invoke_loop].
  rewrite (ud_err _ (cl_calm Hcl)), (proj1 Hok), He.
  destruct Hcase as [[-> Hf]|[-> (k & Hf & Hretry)]]; unfold redirect; rewrite Hf.
  - left. destruct (Update_ok c leader Hcl Hok) as (c' & -> & _ & Hc' & _). exists c'. split; [|done].
    subst m. by apply (invoke_at_leader n).
  - right. destruct k; try done; rewrite decide_False by lia; cbn [isRetryableCode negb];
      by rewrite (ud_done _ (cl_calm Hcl)).
Qed.

Lemma invoke_rotates k n attempt delay c s :
  cluster → cache_ok c → seedAddrs c ≠ [] → seed_ahead c (S k) = leader → (S k < n)%nat →
  ∃ c', invoke_loop dial p amb rpc n attempt delay c s = (inl (serve s).1, c', (serve s).2) ∧ conn c' = Some leader.
Proof.
  intros Hcl. revert n attempt delay c. induction k as [|k IH]; intros n attempt delay c Hok Hne Hk Hn;
    (destruct n as [|[|n]]; [lia|lia|]).
  all: destruct (decide (currentAddr c = leader)) as [Heq|Hother];
    [exists c; destruct Hok as [Hc _]; rewrite Heq in Hc; by rewrite invoke_at_leader|].
  all: destruct (invoke_other n attempt delay c s Hcl Hok Hother) as [Hdone|Hstep]; [done|rewrite Hstep].
  all: assert (Hnext : NextAddr (AdvanceNextIdx c) = seed_ahead c 1) by
    (unfold NextAddr, seed_ahead; simpl; rewrite Nat.add_1_r; by destruct (seedAddrs c)).
  all: assert (Hin : seed_ahead c 1 ≠ "") by
    (intros Heq; destruct Hok as [_ Hs]; apply Hs; rewrite <-Heq; by apply seed_ahead_in).
  all: destruct (rotate_ok c _ Hcl Hok Hnext Hin) as (Hr1 & Hr2 & Hr3 & Hr4).
  - exists (rotate dial c). rewrite Hk in Hr2. by rewrite (invoke_at_leader n).
  - apply IH; [done|by rewrite Hr3| |lia]. rewrite <-Hk. unfold seed_ahead. rewrite Hr3, Hr4.
    do 2 f_equal. lia.
Qed.

Lemma seed_ahead_reaches c : leader ∈ seedAddrs c → ∃ k, (k < length (seedAddrs c))%nat ∧ seed_ahead c (S k) = leader.
Proof.
  intros (j & Hj)%list_elem_of_lookup. pose proof (lookup_lt_Some _ _ _ Hj) as Hlt.
  set (l := length (seedAddrs c)) in *.
  exists ((j + l - (S (nextIdx c)) mod l) mod l)%nat. split; [apply Nat.mod_upper_bound; lia|].
  unfold seed_ahead. fold l. replace ((nextIdx c + S ((j + l - S (nextIdx c) mod l) mod l)) mod l)%nat with j.
  - by apply nth_lookup_Some.
  - replace (nextIdx c + S ((j + l - S (nextIdx c) mod l) mod l))%nat
      with ((j + l - S (nextIdx c) mod l) mod l + S (nextIdx c))%nat by lia.
    rewrite Nat.Div0.add_mod_idemp_l. rewrite <-Nat.Div0.add_mod_idemp_r.
    pose proof (Nat.mod_upper_bound (S (nextIdx c)) l ltac:(lia)).
    replace (j + l - S (nextIdx c) mod l + S (nextIdx c) mod l)%nat with (j + 1 * l)%nat by lia.
    rewrite Nat.Div0.mod_add. symmetry. apply Nat.mod_small. lia.
Qed.
End invoke_spec.

(** C33. Finding the leader: when the leader is among the seeds and serves the call, and
    every other node either names it or fails in a retried way, a call with one attempt
    more than there are seeds is served exactly once, returns the leader's answer and
    leaves the cache connected to it.  A followed redirect counts as an attempt: with a
    single attempt a call that is redirected fails and is not served. *)
Theorem invoke_reaches_leader {St Reply} (p : Policy) (amb : Ambient) (dial : string → option error)
    (rpc : nat → string → St → (Reply + error) * option string * St) (leader : string) (serve : St → Reply * St)
    (c : LeaderCache) (s : St) :
  cluster amb dial rpc leader serve → cache_ok c → leader ∈ seedAddrs c →
  (Z.of_nat (length (seedAddrs c)) < MaxAttempts p →
   ∃ c', Invoke dial p amb rpc c s = (inl (serve s).1, c', (serve s).2) ∧ conn c' = Some leader) ∧
  (MaxAttempts p = 1 → currentAddr c ≠ leader → ∃ e c', Invoke dial p amb rpc c s = (inr e, c', s)).
Proof.
  intros Hcl Hok Hin. split.
  - intros Hn. destruct (seed_ahead_reaches leader c Hin) as (k & Hk & Hahead).
    apply (invoke_rotates p amb dial rpc leader serve k); [done..| |done|lia].
    intros Heq. rewrite Heq in Hin. by apply not_elem_of_nil in Hin.
  - intros H1 Hne. unfold Invoke. rewrite H1. change (Z.to_nat 1) with 1%nat. cbn [invoke_loop].
    rewrite (ud_err _ (cl_calm _ _ _ _ _ Hcl)), (proj1 Hok).
    destruct (cl_other _ _ _ _ _ Hcl 0%nat _ s Hne) as (e & t & -> & _).
    destruct (redirect dial e t c) as [[] c1]; [simpl; eauto|].
    case_match; [simpl; eauto|]. rewrite decide_True by done. simpl. eauto.
Qed.

(** The leader counts its calls. *)
Definition w_rpc (i : nat) (addr : string) (s : nat) : (nat + error) * option string * nat :=
  if decide (addr = "m2:1") then (inl 7%nat, None, S s)
  else if decide (addr = "m1:1") then (inr (ErrStatus Unavailable "no leader elected yet"), None, s)
  else (inr (ErrStatus FailedPrecondition "not leader"), Some "m2:1", s).

Definition w_cache : LeaderCache := mkLeaderCache "m1:1" ["m1:1"; "m2:1"; "m3:1"] 0 (Some "m1:1").

Lemma invoke_reaches_leader_witness :
  ∃ c', Invoke (λ _, None) DefaultPolicy calm w_rpc w_cache 0%nat = (inl 7%nat, c', 1%nat) ∧ conn c' = Some "m2:1".
Proof.
  apply (invoke_reaches_leader DefaultPolicy calm (λ _, None) w_rpc "m2:1" (λ s, (7%nat, S s)) w_cache 0%nat).
  - split; [intros; by eexists| |done|split; [done..|]; intros i h Hh; simpl; lia].
    intros i a s Ha. unfold w_rpc. rewrite decide_False by done. case_decide.
    + eexists _, _. split; [reflexivity|]. right. split; [done|]. by exists Unavailable.
    + eexists _, _. split; [reflexivity|]. by left.
  - split; [done|]. compute_decide.
  - compute_decide.
  - vm_compute. reflexivity.
Defined.
