(* ===== verification/Connections.v ===== *)
(** * The connections of the leader cache: internal/leaderclient/leader_cache.go

    Retry.v has the cache of one caller, where a connection is its address.  Here the
    connections are objects that are opened and closed, and several callers share the
    cache: each fetches the current connection, calls on it, and may replace it; dialling
    happens outside the lock, the exchange inside. *)

From S2P Require Import Prelude GoLib DiskStore StorageServer Retry.

(** ** Connections *)

(** Connections are numbered in the order they are made. *)
Record ConnCache := mkConnCache {
  cc_next : nat;
  cc_open : gset nat;             (* made and not closed *)
  cc_conn : option nat;
  cc_currentAddr : string;
}.

Definition NewConnCache : ConnCache := mkConnCache 0 ∅ None "".

(** [grpc.NewClient] *)
Definition NewClient (c : ConnCache) : nat * ConnCache :=
  (cc_next c, mkConnCache (S (cc_next c)) ({[ cc_next c ]} ∪ cc_open c) (cc_conn c) (cc_currentAddr c)).

Definition conn_Close (k : nat) (c : ConnCache) : ConnCache :=
  mkConnCache (cc_next c) (cc_open c ∖ {[ k ]}) (cc_conn c) (cc_currentAddr c).

(** [Update] once it holds the lock and has dialled. *)
Definition exchange (newConn : nat) (addr : string) (c : ConnCache) : ConnCache :=
  if decide (cc_currentAddr c = addr ∧ is_Some (cc_conn c)) then conn_Close newConn c
  else
    let c1 := mkConnCache (cc_next c) (cc_open c) (Some newConn) addr in
    match cc_conn c with Some oldConn => conn_Close oldConn c1 | None => c1 end.

(** [LeaderCache.Close]; the field keeps the closed connection. *)
Definition cache_Close (c : ConnCache) : ConnCache :=
  match cc_conn c with Some k => conn_Close k c | None => c end.

(** [NewStream]: the connection a stream is opened on. *)
Definition NewStream (c : ConnCache) : res nat :=
  match cc_conn c with None => Err ErrNoConn | Some k => Ok k end.

(** ** Callers *)

(** A caller is between calls, has fetched a connection, or has dialled one in [Update]. *)
Inductive caller := Idle | Fetched (k : nat) | Dialled (k : nat) (addr : string).

(** The number of callers is fixed; they may dial any address. *)
Inductive cache_step : ConnCache * list caller → ConnCache * list caller → Prop :=
| cs_fetch c cs i k : cs !! i = Some Idle → cc_conn c = Some k → cache_step (c, cs) (c, <[i := Fetched k]> cs)
| cs_done c cs i k : cs !! i = Some (Fetched k) → cache_step (c, cs) (c, <[i := Idle]> cs)
| cs_dial c cs i x addr : cs !! i = Some x → (∀ k a, x ≠ Dialled k a) →
    cache_step (c, cs) ((NewClient c).2, <[i := Dialled (NewClient c).1 addr]> cs)
| cs_exchange c cs i k addr : cs !! i = Some (Dialled k addr) → cache_step (c, cs) (exchange k addr c, <[i := Idle]> cs).

Definition dialled (x : caller) : option nat := match x with Dialled k _ => Some k | _ => None end.

(** What should be open: the current connection and those just dialled. *)
Definition live (c : ConnCache) (cs : list caller) : list nat := option_list (cc_conn c) ++ omap dialled cs.

Record conns_ok (c : ConnCache) (cs : list caller) : Prop := {
  co_distinct : NoDup (live c cs);
  co_made : Forall (λ k, k < cc_next c) (live c cs);
  co_open : cc_open c = list_to_set (live c cs);
}.

(** ** Lemmas *)

Lemma omap_insert_perm {A B} (f : A → option B) (l : list A) i x y :
  l !! i = Some x → ∃ rest, omap f l ≡ₚ option_list (f x) ++ rest ∧ omap f (<[i := y]> l) ≡ₚ option_list (f y) ++ rest.
Proof.
  intros Hi. exists (omap f (take i l) ++ omap f (drop (S i) l)).
  rewrite <-(take_drop_middle l i x Hi) at 1. rewrite insert_take_drop by (by eapply lookup_lt_Some).
  rewrite !omap_app. simpl. split; destruct (f _); simpl; by rewrite <-?Permutation_middle.
Qed.

(** The invariant only looks at the live connections as a multiset. *)
Lemma conns_ok_perm c cs l :
  live c cs ≡ₚ l → conns_ok c cs ↔ NoDup l ∧ Forall (λ k, k < cc_next c) l ∧ cc_open c = list_to_set l.
Proof.
  intros Hp. assert (Hs : (list_to_set (live c cs) : gset nat) = list_to_set l) by (apply leibniz_equiv; by rewrite Hp).
  split; [intros [H1 H2 H3]|intros (H1 & H2 & H3); split]; rewrite ?Hs, ?Hp in *; done.
Qed.

Lemma step_conns_ok x y : cache_step x y → conns_ok x.1 x.2 → conns_ok y.1 y.2.
Proof.
  intros Hstep. destruct Hstep as [c cs i k Hi Hk|c cs i k Hi|c cs i x addr Hi Hx|c cs i k addr Hi]; cbn [fst snd].
  - destruct (omap_insert_perm dialled cs i Idle (Fetched k) Hi) as (rest & H1 & H2).
    rewrite !(conns_ok_perm c _ (option_list (cc_conn c) ++ rest)); [done|unfold live; by f_equiv..].
  - destruct (omap_insert_perm dialled cs i (Fetched k) Idle Hi) as (rest & H1 & H2).
    rewrite !(conns_ok_perm c _ (option_list (cc_conn c) ++ rest)); [done|unfold live; by f_equiv..].
  - destruct (omap_insert_perm dialled cs i x (Dialled (cc_next c) addr) Hi) as (rest & H1 & H2).
    assert (Hd : dialled x = None) by (destruct x; naive_solver). rewrite Hd in H1. simpl in H1, H2.
    rewrite (conns_ok_perm c cs (option_list (cc_conn c) ++ rest)) by (unfold live; by f_equiv).
    intros (Hnd & Hlt & Ho). apply (conns_ok_perm _ _ (cc_next c :: option_list (cc_conn c) ++ rest)).
    { unfold live. simpl. rewrite H2. by rewrite Permutation_middle. }
    simpl. split_and!.
    + constructor; [|done]. intros Hin. rewrite Forall_forall in Hlt. specialize (Hlt _ Hin). lia.
    + constructor; [lia|]. eapply Forall_impl; [done|]. simpl. lia.
    + by rewrite Ho.
  - destruct (omap_insert_perm dialled cs i (Dialled k addr) Idle Hi) as (rest & H1 & H2). simpl in H1, H2.
    rewrite (conns_ok_perm c cs (k :: option_list (cc_conn c) ++ rest)) by (unfold live; rewrite H1; by rewrite Permutation_middle).
    intros ([Hnk Hnd]%NoDup_cons & [Hk Hlt]%Forall_cons & Ho). unfold exchange. case_decide as Hsame.
    + apply (conns_ok_perm _ _ (option_list (cc_conn c) ++ rest)); [unfold live; simpl; by f_equiv|].
      simpl. split_and!; [done|done|]. rewrite Ho. simpl. set_solver.
    + destruct (cc_conn c) as [old|] eqn:Hold; simpl in *.
      * apply NoDup_cons in Hnd as [Hno Hnd]. apply Forall_cons in Hlt as [_ Hlt].
        apply (conns_ok_perm _ _ (k :: rest)); [unfold live; simpl; by f_equiv|]. simpl. split_and!.
        -- constructor; [|done]. intros Hin. apply Hnk. by right.
        -- by constructor.
        -- assert (k ≠ old) by (intros ->; apply Hnk; by left). assert (Hno' : old ∉ (list_to_set rest : gset nat)) by (by rewrite elem_of_list_to_set).
           rewrite Ho. clear -Hno' H. set_solver.
      * apply (conns_ok_perm _ _ (k :: rest)); [unfold live; simpl; by f_equiv|]. simpl. split_and!; [by constructor|by constructor|done].
Qed.

Lemma reachable_conns_ok n c cs :
  rtc cache_step (NewConnCache, replicate n Idle) (c, cs) → conns_ok c cs.
Proof.
  intros Hr. assert (H0 : conns_ok NewConnCache (replicate n Idle)).
  { apply (conns_ok_perm _ _ []); [|split_and!; [constructor|constructor|done]].
    clear Hr. unfold live. simpl. by induction n. }
  change (conns_ok (c, cs).1 (c, cs).2). revert H0. change NewConnCache with (NewConnCache, replicate n Idle).1.
  change (replicate n Idle) with (NewConnCache, replicate n Idle).2 at 2.
  induction Hr as [|x y z Hs _ IH]; [done|]. intros Hx. by apply IH, (step_conns_ok x).
Qed.

(** The cache of Retry.v: a connection is known by the address it was made for. *)
Definition as_leader_cache (seeds : list string) (idx : nat) (c : ConnCache) : LeaderCache :=
  mkLeaderCache (cc_currentAddr c) seeds idx ((λ _, cc_currentAddr c) <$> cc_conn c).

Lemma Update_conns dial addr seeds idx c :
  dial addr = None →
  Update dial addr (as_leader_cache seeds idx c) = (None, as_leader_cache seeds idx (exchange (NewClient c).1 addr (NewClient c).2)).
Proof.
  intros Hd. unfold Update, exchange. rewrite Hd. simpl.
  assert (Hiff : is_Some ((λ _, cc_currentAddr c) <$> cc_conn c) ↔ is_Some (cc_conn c)) by apply fmap_is_Some.
  do 2 case_decide; try tauto. by destruct (cc_conn c).
Qed.

(** ** Properties *)

(** C34. The leader cache leaks no connection: whatever callers share it and however their
    fetching, dialling and exchanging interleave, the open connections are exactly the
    current one and those a caller has dialled and not yet brought in; so when no caller is
    in the middle of an update at most one is open, and closing the cache leaves none.
    Seen by one caller, an update is that of the cache of addresses. *)
Theorem no_connection_leaks (n : nat) (c : ConnCache) (cs : list caller) :
  rtc cache_step (NewConnCache, replicate n Idle) (c, cs) →
  (∀ k, k ∈ cc_open c ↔ cc_conn c = Some k ∨ ∃ addr, Dialled k addr ∈ cs) ∧
  ((∀ k addr, Dialled k addr ∉ cs) → size (cc_open c) ≤ 1 ∧ cc_open (cache_Close c) = ∅) ∧
  ∀ dial seeds idx addr, dial addr = None →
    Update dial addr (as_leader_cache seeds idx c) = (None, as_leader_cache seeds idx (exchange (NewClient c).1 addr (NewClient c).2)).
Proof.
  intros Hr%reachable_conns_ok. split_and!; [|intros Hnone|intros; by apply Update_conns].
  - intros k. rewrite (co_open _ _ Hr), elem_of_list_to_set. unfold live. rewrite elem_of_app, list_elem_of_omap.
    assert (Hc : k ∈ option_list (cc_conn c) ↔ cc_conn c = Some k) by (destruct (cc_conn c); simpl; set_solver). rewrite Hc.
    split; [intros [?|([| |k' addr] & Hin & [= ->])]|intros [?|[addr ?]]]; eauto.
  - assert (Hl : omap dialled cs = []).
    { clear Hr. induction cs as [|x cs IH]; simpl; [done|]. destruct x as [| |k addr]; simpl.
      1-2: apply IH; intros k' a Hin; apply (Hnone k' a); by right.
      destruct (Hnone k addr). by left. }
    pose proof (co_open _ _ Hr) as Ho. unfold live in Ho. rewrite Hl, app_nil_r in Ho. unfold cache_Close.
    destruct (cc_conn c) as [k|]; simpl in *; rewrite Ho.
    + split; [|set_solver]. by rewrite union_empty_r_L, size_singleton.
    + by rewrite size_empty; split; [lia|].
Qed.

(** Two callers; the second follows a redirect while the first has fetched the connection. *)
Definition w_race : ConnCache * list caller :=
  (mkConnCache 2 {[ 1 ]} (Some 1) "m2:1", [Fetched 0; Idle]).

Lemma w_race_reachable : rtc cache_step (NewConnCache, replicate 2 Idle) w_race.
Proof.
  eapply rtc_l. { apply (cs_dial _ _ 0 Idle "m1:1"); done. }
  eapply rtc_l. { by apply (cs_exchange _ _ 0 0 "m1:1"). }
  eapply rtc_l. { by apply (cs_fetch _ _ 0 0). }
  eapply rtc_l. { by apply (cs_fetch _ _ 1 0). }
  eapply rtc_l. { by apply (cs_dial _ _ 1 (Fetched 0) "m2:1"). }
  eapply rtc_l. { by apply (cs_exchange _ _ 1 1 "m2:1"). }
  simpl. unfold w_race. replace (exchange _ _ _) with (mkConnCache 2 {[ 1 ]} (Some 1) "m2:1") by (vm_compute; reflexivity).
  apply rtc_refl.
Qed.

Lemma no_connection_leaks_witness : cc_open (cache_Close w_race.1) = ∅ ∧ size (cc_open w_race.1) ≤ 1.
Proof.
  destruct (no_connection_leaks 2 w_race.1 w_race.2 w_race_reachable) as (_ & H & _).
  destruct H as [H1 H2]; [intros k addr Hin; repeat (apply elem_of_cons in Hin as [Hin|Hin]; [discriminate Hin|]); by apply elem_of_nil in Hin|].
  split; [exact H2|exact H1].
Defined.

(** A redirect that one caller follows can fail another's call: the connection that a caller
    has fetched may be closed before it calls, and a call on a closed connection ends with
    [Canceled], which is not retried, however many attempts the policy has left. *)
Theorem redirect_cancels_call :
  ∃ c cs, rtc cache_step (NewConnCache, replicate 2 Idle) (c, cs) ∧ cs !! 0 = Some (Fetched 0) ∧ 0 ∉ cc_open c ∧
    ∀ {St Reply : Type} (dial : string → option error) (p : Policy) (amb : Ambient)
      (rpc : nat → string → St → (Reply + error) * option string * St) (msg addr : string) (s : St) (cache : LeaderCache),
      (1 ≤ MaxAttempts p)%Z → ctx_err amb 0 = None → conn cache = Some addr →
      rpc 0 addr s = (inr (ErrStatus Canceled msg), None, s) →
      Invoke dial p amb rpc cache s = (inr (ErrStatus Canceled msg), cache, s).
Proof.
  exists w_race.1, w_race.2. split; [exact w_race_reachable|]. split; [done|]. split; [by vm_compute|].
  intros St Reply dial p amb rpc msg addr s cache Hp Hctx Hconn Hrpc. unfold Invoke.
  destruct (Z.to_nat (MaxAttempts p)) as [|n] eqn:Hn; [lia|]. simpl. by rewrite Hctx, Hconn, Hrpc.
Qed.
