(* ===== verification/Replication.v ===== *)
(** * The replication manager of a storage node: storage/replication

    manager.go: the repair queue with its deduplication and its workers, and the fan-out
    of a chunk to its replicas with the quorum rule; peer_dialer.go: the pool of
    connections.  The two critical sections of [EnqueueRepair] and the stages of a worker
    are separate steps, so that callers and workers interleave freely.  The transfer
    itself is [StorageServer.replicateToSingleNode]; here its outcome is arbitrary. *)

From S2P Require Import Prelude GoLib Retry.

(** ** The repair queue *)

Record RepairJob := mkJob {
  JobID : string;
  ChunkID : string;
  Source : string;
  Target : string;
}.

#[global] Instance RepairJob_eq_dec : EqDecision RepairJob.
Proof. solve_decision. Defined.

Definition repairQueueCap : nat := 256.
Definition numRepairWorkers : nat := 4.
Definition fanoutTimeout : Duration := (30 * second)%Z.

Record ReplicationManager := mkManager {
  repairQ : list RepairJob;   (* the buffered channel, oldest job first *)
  inflight : gset string;     (* keys of the jobs that are being handled *)
}.

Definition NewReplicationManager : ReplicationManager := mkManager [] ∅.

(** [job.ChunkID + ":" + job.Target] *)
Definition repair_key (job : RepairJob) : string := ChunkID job +:+ ":" +:+ Target job.

(** The first critical section: [true] when the key was not there yet. *)
Definition reserve (job : RepairJob) (m : ReplicationManager) : bool * ReplicationManager :=
  if decide (repair_key job ∈ inflight m) then (false, m)
  else (true, mkManager (repairQ m) ({[repair_key job]} ∪ inflight m)).

(** The [select]: send without blocking. *)
Definition try_send (job : RepairJob) (m : ReplicationManager) : bool * ReplicationManager :=
  if decide (length (repairQ m) < repairQueueCap)%nat then (true, mkManager (repairQ m ++ [job]) (inflight m))
  else (false, m).

(** [delete(m.inflight, key)] in a critical section of its own *)
Definition release (job : RepairJob) (m : ReplicationManager) : ReplicationManager :=
  mkManager (repairQ m) (inflight m ∖ {[repair_key job]}).

(** The [select] with its default case, which gives the key back. *)
Definition offer (job : RepairJob) (m : ReplicationManager) : bool * ReplicationManager :=
  match try_send job m with
  | (true, m') => (true, m')
  | (false, m') => (false, release job m')
  end.

Definition EnqueueRepair (job : RepairJob) (m : ReplicationManager) : bool * ReplicationManager :=
  match reserve job m with
  | (false, m') => (true, m')
  | (true, m') => offer job m'
  end.

(** ** The workers *)

Record ReportRepairResultRequest := mkReport {
  rr_JobId : string;
  rr_JobSucceed : bool;
  rr_Error : string;
  rr_NodeId : string;
}.

(** What a worker tells the metadata node; [Error_text] is [err.Error()]. *)
Definition repair_report (Error_text : error → string) (nodeID : string) (job : RepairJob) (err : option error)
    : ReportRepairResultRequest :=
  match err with
  | Some e => mkReport (JobID job) false (Error_text e) nodeID
  | None => mkReport (JobID job) true "" nodeID
  end.

(** [job, ok := <-m.repairQ] *)
Definition take_job (m : ReplicationManager) : option (RepairJob * ReplicationManager) :=
  match repairQ m with
  | [] => None
  | job :: q => Some (job, mkManager q (inflight m))
  end.

Inductive worker := Idle | Busy (job : RepairJob) | Exited.

(** A caller of [EnqueueRepair] that has its key: before the [select], or after it when the
    queue was full. *)
Inductive call := Reserved (job : RepairJob) | Refused (job : RepairJob).
Definition call_job (c : call) : RepairJob := match c with Reserved job | Refused job => job end.

(** The manager with the goroutines around it: callers of [EnqueueRepair] that have a key,
    the workers, and the reports sent so far. *)
Record pool := mkPool {
  pl_manager : ReplicationManager;
  pl_calls : list call;
  pl_workers : list worker;
  pl_cancelled : bool;
  pl_reports : list (RepairJob * option error);
}.

Definition Start (m : ReplicationManager) : pool :=
  mkPool m [] (replicate numRepairWorkers Idle) false [].

(** One iteration of a worker's loop is two steps: the job is taken, and then reported
    and released with whatever [policy.Do] returned. *)
Inductive worker_step : pool → pool → Prop :=
| ws_take m m' cs ws i c rs job :
    ws !! i = Some Idle → take_job m = Some (job, m') →
    worker_step (mkPool m cs ws c rs) (mkPool m' cs (<[i := Busy job]> ws) c rs)
| ws_finish m cs ws i c rs job err :
    ws !! i = Some (Busy job) →
    worker_step (mkPool m cs ws c rs) (mkPool (release job m) cs (<[i := Idle]> ws) c (rs ++ [(job, err)]))
| ws_exit m cs ws i rs :
    ws !! i = Some Idle →
    worker_step (mkPool m cs ws true rs) (mkPool m cs (<[i := Exited]> ws) true rs).

Inductive pool_step : pool → pool → Prop :=
| ps_worker p p' : worker_step p p' → pool_step p p'
| ps_dup m cs ws c rs job m' :
    reserve job m = (false, m') → pool_step (mkPool m cs ws c rs) (mkPool m' cs ws c rs)
| ps_reserve m cs ws c rs job m' :
    reserve job m = (true, m') → pool_step (mkPool m cs ws c rs) (mkPool m' (cs ++ [Reserved job]) ws c rs)
| ps_send m cs1 job cs2 ws c rs m' :
    try_send job m = (true, m') → pool_step (mkPool m (cs1 ++ Reserved job :: cs2) ws c rs) (mkPool m' (cs1 ++ cs2) ws c rs)
| ps_full m cs1 job cs2 ws c rs m' :
    try_send job m = (false, m') → pool_step (mkPool m (cs1 ++ Reserved job :: cs2) ws c rs) (mkPool m' (cs1 ++ Refused job :: cs2) ws c rs)
| ps_drop m cs1 job cs2 ws c rs :
    pool_step (mkPool m (cs1 ++ Refused job :: cs2) ws c rs) (mkPool (release job m) (cs1 ++ cs2) ws c rs)
| ps_stop m cs ws c rs : pool_step (mkPool m cs ws c rs) (mkPool m cs ws true rs).

(** ** The fan-out *)

(** What the collecting loop receives: the outcome of one goroutine, the timer, or the
    end of the context. *)
Inductive fan_event :=
| FanResult (addr : string) (err : option error)
| FanTimeout
| FanDone (e : error).

Definition errors_Join (errs : list error) : option error :=
  match errs with
  | [] => None
  | e :: rest => Some (foldl ErrJoin e rest)
  end.

Definition ErrFanout : error := ErrNew "replication fan-out timed out".

Definition quorum (total : nat) : nat := total / 2 + 1.

Definition fan_result (total : nat) (successfulNodes : list string) (errs : list error)
    : list string * option error :=
  if decide (length successfulNodes < quorum total)%nat then
    (successfulNodes, Some (match errors_Join errs with
                            | Some e => ErrWrap "replication quorum not met" e
                            | None => ErrNew "replication quorum not met"
                            end))
  else (successfulNodes, None).

(** [n] receives are left.  [None]: the loop still waits. *)
Fixpoint fan_collect (total n : nat) (events : list fan_event) (successfulNodes : list string) (errs : list error)
    : option (list string * option error) :=
  match n with
  | O => Some (fan_result total successfulNodes errs)
  | S n' =>
      match events with
      | [] => None
      | FanResult addr (Some e) :: rest => fan_collect total n' rest successfulNodes (errs ++ [ErrWrap addr e])
      | FanResult addr None :: rest => fan_collect total n' rest (successfulNodes ++ [addr]) errs
      | FanTimeout :: _ => Some (successfulNodes, Some ErrFanout)
      | FanDone e :: _ => Some (successfulNodes, Some e)
      end
  end.

Definition ReplicateToNodesWithResult (targets : list string) (async : bool) (events : list fan_event)
    : option (list string * option error) :=
  if decide (targets = []) then Some ([], None)
  else if async then Some ([], None)
  else fan_collect (length targets) (length targets) events [] [].

Definition ReplicateToNodes (targets : list string) (async : bool) (events : list fan_event) : option (option error) :=
  snd <$> ReplicateToNodesWithResult targets async events.

Definition ReplicatorToNodes := ReplicateToNodesWithResult.

(** ** The connection pool *)

Inductive connectivity := ConnIdle | Connecting | Ready | TransientFailure | Shutdown.

#[global] Instance connectivity_eq_dec : EqDecision connectivity.
Proof. solve_decision. Defined.

(** Connections are numbered in the order [grpc.NewClient] made them. *)
Record PeerDialer := mkPeerDialer {
  conns : gmap string nat;
  closed : list nat;
  opened : nat;
}.

Definition NewPeerDialer : PeerDialer := mkPeerDialer ∅ [] 0.

Definition isHealthy (GetState : nat → connectivity) (c : nat) : bool :=
  bool_decide (GetState c ≠ TransientFailure ∧ GetState c ≠ Shutdown).

Definition cached (GetState : nat → connectivity) (address : string) (d : PeerDialer) : option nat :=
  match conns d !! address with
  | Some c => if isHealthy GetState c then Some c else None
  | None => None
  end.

(** [_ = conn.Close(); delete(d.conns, address)] when there is one. *)
Definition Remove (address : string) (d : PeerDialer) : PeerDialer :=
  match conns d !! address with
  | Some c => mkPeerDialer (delete address (conns d)) (closed d ++ [c]) (opened d)
  | None => d
  end.

(** Under the write lock: the second check, then a fresh connection.  [dial] is the error
    of [grpc.NewClient]. *)
Definition Get_locked (GetState : nat → connectivity) (dial : option error) (address : string) (d : PeerDialer)
    : res nat * PeerDialer :=
  match cached GetState address d with
  | Some c => (Ok c, d)
  | None =>
      let d := Remove address d in
      match dial with
      | Some e => (Err (ErrWrap "PeerDialer.Get: dial failed" e), d)
      | None => (Ok (opened d), mkPeerDialer (<[address := opened d]> (conns d)) (closed d) (S (opened d)))
      end
  end.

(** [before] and [after] are the connection states at the two checks. *)
Definition Get (before after : nat → connectivity) (dial : option error) (address : string) (d : PeerDialer)
    : res nat * PeerDialer :=
  match cached before address d with
  | Some c => (Ok c, d)
  | None => Get_locked after dial address d
  end.

Definition CloseAll `{!MapRange} (d : PeerDialer) : PeerDialer :=
  mkPeerDialer ∅ (closed d ++ range_values (conns d)) (opened d).

(** ** The jobs a pool holds *)

Definition busy_job (w : worker) : list RepairJob := match w with Busy job => [job] | _ => [] end.
Definition running (ws : list worker) : list RepairJob := ws ≫= busy_job.
Definition held (p : pool) : list RepairJob := (call_job <$> pl_calls p) ++ repairQ (pl_manager p) ++ running (pl_workers p).

Lemma running_insert ws i w w' :
  ws !! i = Some w → busy_job w ++ running (<[i := w']> ws) ≡ₚ busy_job w' ++ running ws.
Proof.
  intros Hi. assert (Hlen := lookup_lt_Some _ _ _ Hi).
  rewrite <-(take_drop_middle ws i w Hi) at 2. rewrite insert_take_drop by done.
  unfold running. rewrite !bind_app, !bind_cons. solve_Permutation.
Qed.

Lemma length_running ws : length (running ws) ≤ length ws.
Proof.
  unfold running. induction ws as [|w ws IH]; [done|]. rewrite bind_cons, length_app.
  destruct w; simpl; lia.
Qed.

(** The in-flight set is the set of keys of the jobs held, each held once. *)
Definition keys_ok (keys : gset string) (l : list RepairJob) : Prop :=
  NoDup (repair_key <$> l) ∧ keys = list_to_set (repair_key <$> l).

#[global] Instance keys_ok_proper : Proper ((=) ==> (≡ₚ) ==> iff) keys_ok.
Proof.
  intros ks ? <- l l' Hl. unfold keys_ok. by rewrite Hl.
Qed.

Lemma keys_ok_add ks l job : repair_key job ∉ ks → keys_ok ks l → keys_ok ({[repair_key job]} ∪ ks) (job :: l).
Proof.
  intros Hk [Hnd ->]. split; [|done]. rewrite fmap_cons. constructor; [set_solver|done].
Qed.

Lemma keys_ok_remove ks l job : keys_ok ks (job :: l) → keys_ok (ks ∖ {[repair_key job]}) l.
Proof.
  intros [Hnd ->]. rewrite fmap_cons in Hnd. apply NoDup_cons in Hnd as [Hk Hnd]. split; [done|].
  rewrite fmap_cons. cbn [list_to_set]. set_solver.
Qed.

Lemma keys_ok_size ks l : keys_ok ks l → size ks = length l.
Proof. intros [Hnd ->]. by rewrite size_list_to_set, length_fmap. Qed.

Record pool_inv (p : pool) : Prop := {
  pi_queue : length (repairQ (pl_manager p)) ≤ repairQueueCap;
  pi_keys : keys_ok (inflight (pl_manager p)) (held p);
  pi_workers : length (pl_workers p) = numRepairWorkers;
  pi_exit : pl_cancelled p = false → Exited ∉ pl_workers p;
}.

Lemma Start_inv : pool_inv (Start NewReplicationManager).
Proof.
  split; simpl; [unfold repairQueueCap; lia|split; [constructor|done]|done|set_solver].
Qed.

Lemma not_exited_insert (ws : list worker) i w : w ≠ Exited → Exited ∉ ws → Exited ∉ <[i := w]> ws.
Proof.
  intros Hw Hws Hin. apply list_elem_of_lookup in Hin as [j Hj].
  apply list_lookup_insert_Some in Hj as [(_ & -> & _)|[_ Hj]]; [done|].
  apply Hws. by eapply list_elem_of_lookup_2.
Qed.

Lemma take_job_Some m job m' :
  take_job m = Some (job, m') → m = mkManager (job :: repairQ m') (inflight m').
Proof. destruct m as [[|j q] ks]; unfold take_job; simpl; [done|]. by intros [= -> <-]. Qed.

(** How each step changes the jobs held. *)
Lemma held_take m m' cs ws i c rs job :
  ws !! i = Some Idle → take_job m = Some (job, m') →
  held (mkPool m' cs (<[i := Busy job]> ws) c rs) ≡ₚ held (mkPool m cs ws c rs) ∧ inflight m' = inflight m.
Proof.
  intros Hi Ht. pose proof (running_insert ws i _ (Busy job) Hi) as Hr. simpl in Hr.
  apply take_job_Some in Ht as ->. split; [|done]. unfold held; simpl. rewrite Hr. solve_Permutation.
Qed.

Lemma held_finish m cs ws i c rs rs' job :
  ws !! i = Some (Busy job) →
  job :: held (mkPool (release job m) cs (<[i := Idle]> ws) c rs') ≡ₚ held (mkPool m cs ws c rs).
Proof.
  intros Hi. pose proof (running_insert ws i _ Idle Hi) as Hr. simpl in Hr.
  unfold held; simpl. rewrite <-Hr. solve_Permutation.
Qed.

Lemma worker_step_inv p p' : worker_step p p' → pool_inv p → pool_inv p'.
Proof.
  intros Hstep [Hq Hk Hw He].
  destruct Hstep as [m m' cs ws i c rs job Hi Ht|m cs ws i c rs job err Hi|m cs ws i rs Hi]; simpl in *.
  - destruct (held_take m m' cs ws i c rs job Hi Ht) as [Hh Hin].
    split; simpl; [| |by rewrite length_insert|intros; by apply not_exited_insert; auto].
    + apply take_job_Some in Ht as ->. simpl in Hq. lia.
    + by rewrite Hh, Hin.
  - split; simpl; [done| |by rewrite length_insert|intros; by apply not_exited_insert; auto].
    apply keys_ok_remove. by rewrite held_finish.
  - pose proof (running_insert ws i _ Exited Hi) as Hr. simpl in Hr.
    split; simpl; [done| |by rewrite length_insert|done].
    unfold held in *; simpl in *. by rewrite Hr.
Qed.

Lemma pool_step_inv p p' : pool_step p p' → pool_inv p → pool_inv p'.
Proof.
  destruct 1 as [p p' Hw|m cs ws c rs job m' Hr|m cs ws c rs job m' Hr|m cs1 job cs2 ws c rs m' Ho|m cs1 job cs2 ws c rs m' Ho|m cs1 job cs2 ws c rs|m cs ws c rs];
    [by eapply worker_step_inv|intros [Hq Hk Hw He]; unfold held in *; simpl in *..].
  - unfold reserve in Hr. case_decide; simplify_eq. by split.
  - unfold reserve in Hr. case_decide as Hnk; simplify_eq. split; [done| |done..]; unfold held; simpl.
    apply keys_ok_add with (job := job) in Hk; [|done]. revert Hk. apply keys_ok_proper; [done|]. rewrite fmap_app. simpl. solve_Permutation.
  - unfold try_send in Ho. case_decide; simplify_eq/=. split; [| |done..]; unfold held; simpl.
    + rewrite length_app; simpl. lia.
    + revert Hk. apply keys_ok_proper; [done|]. rewrite !fmap_app. simpl. solve_Permutation.
  - unfold try_send in Ho. case_decide; simplify_eq/=. split; [done| |done..]; unfold held; simpl.
    revert Hk. apply keys_ok_proper; [done|]. rewrite !fmap_app. simpl. solve_Permutation.
  - split; [done| |done..]; unfold held; simpl. apply keys_ok_remove. revert Hk. apply keys_ok_proper; [done|].
    rewrite !fmap_app. simpl. solve_Permutation.
  - by split.
Qed.

Lemma pool_run_inv p p' : rtc pool_step p p' → pool_inv p → pool_inv p'.
Proof. induction 1; eauto using pool_step_inv. Qed.

(** ** Draining the queue *)

(** Two steps for each queued job, one for each running one. *)
Definition work_left (p : pool) : nat :=
  2 * length (repairQ (pl_manager p)) + length (running (pl_workers p)).

(** The jobs that have been reported, are running, or wait. *)
Definition accounted (p : pool) : list RepairJob :=
  (pl_reports p).*1 ++ running (pl_workers p) ++ repairQ (pl_manager p).

Lemma worker_step_progress p p' :
  worker_step p p' → pl_cancelled p = false →
  work_left p = S (work_left p') ∧ accounted p' ≡ₚ accounted p ∧
  pl_cancelled p' = false ∧ pl_calls p' = pl_calls p.
Proof.
  intros Hstep Hc. unfold work_left, accounted.
  destruct Hstep as [m m' cs ws i c rs job Hi Ht|m cs ws i c rs job err Hi|m cs ws i rs Hi]; simpl in *; [| |done].
  - pose proof (running_insert ws i _ (Busy job) Hi) as Hr. simpl in Hr. apply take_job_Some in Ht as ->. simpl.
    rewrite Hr. simpl. split; [lia|]. split; [solve_Permutation|done].
  - pose proof (running_insert ws i _ Idle Hi) as Hr. simpl in Hr. rewrite <-Hr. simpl.
    rewrite fmap_app. simpl. split; [lia|]. split; [solve_Permutation|done].
Qed.

Lemma worker_run_progress n p p' :
  nsteps worker_step n p p' → pl_cancelled p = false →
  work_left p = n + work_left p' ∧ accounted p' ≡ₚ accounted p ∧
  pl_cancelled p' = false ∧ pl_calls p' = pl_calls p.
Proof.
  induction 1 as [p|n p p1 p2 Hs _ IH]; intros Hc; [done|].
  destruct (worker_step_progress _ _ Hs Hc) as (-> & Ha & Hc1 & Hcs).
  destruct (IH Hc1) as (-> & Ha' & ? & Hcs'). split; [lia|]. split; [by rewrite Ha'|]. by rewrite Hcs'.
Qed.

Lemma worker_run_inv n p p' : nsteps worker_step n p p' → pool_inv p → pool_inv p'.
Proof. induction 1; eauto using worker_step_inv. Qed.

(** A worker that has not exited can always move while there is work. *)
Lemma pool_can_work p :
  pool_inv p → pl_cancelled p = false → work_left p ≠ 0 → ∃ p', worker_step p p'.
Proof.
  intros [_ _ Hw He] Hc Hl. destruct p as [m cs [|w ws] c rs]; simpl in *; [done|]. specialize (He Hc).
  destruct w as [|job|]; [|eexists; by apply ws_finish with (i := 0) (err := None)|set_solver].
  destruct (repairQ m) as [|job q] eqn:Hq.
  - unfold work_left in Hl. simpl in Hl. rewrite Hq in Hl. simpl in Hl.
    destruct (running ws) as [|job js] eqn:Hr; [done|].
    assert (Hin : job ∈ running ws) by (rewrite Hr; set_solver).
    apply list_elem_of_bind in Hin as (w & Hj & Hw'). destruct w as [|job'|]; simpl in Hj; try set_solver.
    apply list_elem_of_lookup in Hw' as [i Hi]. eexists. by apply ws_finish with (i := S i) (err := None).
  - eexists. apply ws_take with (i := 0); [done|]. unfold take_job. by rewrite Hq.
Qed.

Lemma work_done p : work_left p = 0 → repairQ (pl_manager p) = [] ∧ running (pl_workers p) = [].
Proof. unfold work_left. intros. split; apply nil_length_inv; lia. Qed.

(** ** Collecting the results of a fan-out *)

Definition succeeded (rs : list (string * option error)) : list string :=
  (filter (λ r, r.2 = None) rs).*1.

Definition fan_events (rs : list (string * option error)) : list fan_event :=
  (λ r, FanResult r.1 r.2) <$> rs.

Lemma fan_collect_results total rs n tail succ errs :
  fan_collect total (length rs + n) (fan_events rs ++ tail) succ errs =
  fan_collect total n tail (succ ++ succeeded rs) (errs ++ omap (λ r, ErrWrap r.1 <$> r.2) rs).
Proof.
  revert succ errs. induction rs as [|[addr [e|]] rs IH]; intros succ errs; simpl.
  - by rewrite !app_nil_r.
  - rewrite IH. unfold succeeded. rewrite filter_cons_False by done. by rewrite <-(app_assoc errs).
  - rewrite IH. unfold succeeded. rewrite filter_cons_True by done. simpl. by rewrite <-(app_assoc succ).
Qed.

Lemma fan_result_spec total succ errs :
  (fan_result total succ errs).1 = succ ∧
  ((fan_result total succ errs).2 = None ↔ (total < 2 * length succ)%nat).
Proof.
  pose proof (Nat.div_mod_eq total 2). pose proof (Nat.mod_upper_bound total 2).
  unfold fan_result, quorum. case_decide; simpl; (split; [done|]); split; try done; lia.
Qed.

(** The outcome of every target's goroutine, in the order of the targets. *)
Definition target_results (out : string → option error) (targets : list string) : list (string * option error) :=
  (λ a, (a, out a)) <$> targets.

Lemma succeeded_targets out targets :
  succeeded (target_results out targets) = filter (λ a, out a = None) targets.
Proof.
  unfold succeeded, target_results. induction targets as [|a ts IH]; [done|].
  rewrite fmap_cons. destruct (decide (out a = None)).
  - rewrite !filter_cons_True by done. rewrite fmap_cons. by f_equal.
  - by rewrite !filter_cons_False by done.
Qed.

Lemma succeeded_perm rs rs' : rs ≡ₚ rs' → succeeded rs ≡ₚ succeeded rs'.
Proof. unfold succeeded. by intros ->. Qed.

Lemma succeeded_take rs k : succeeded (take k rs) ⊆+ succeeded rs.
Proof.
  rewrite <-(take_drop k rs) at 2. unfold succeeded. rewrite filter_app, fmap_app. apply submseteq_inserts_r. done.
Qed.

(** ** The connection pool's accounting *)

(** Every connection ever opened is in the pool or closed, and only once. *)
Definition dialer_inv (d : PeerDialer) : Prop :=
  closed d ++ (map_to_list (conns d)).*2 ≡ₚ seq 0 (opened d).

Lemma NewPeerDialer_inv : dialer_inv NewPeerDialer.
Proof. unfold dialer_inv. simpl. by rewrite map_to_list_empty. Qed.

Lemma pooled_delete (m : gmap string nat) a c :
  m !! a = Some c → (map_to_list m).*2 ≡ₚ c :: (map_to_list (delete a m)).*2.
Proof. intros Ha. by rewrite <-(map_to_list_delete m a c Ha). Qed.

Lemma Remove_inv a d : dialer_inv d → dialer_inv (Remove a d).
Proof.
  unfold dialer_inv, Remove. destruct (conns d !! a) as [c|] eqn:Ha; [|done]. simpl.
  rewrite (pooled_delete _ _ _ Ha). intros <-. solve_Permutation.
Qed.

Lemma Remove_lookup a d : conns (Remove a d) !! a = None.
Proof. unfold Remove. destruct (conns d !! a) eqn:Ha; simpl; [apply lookup_delete_eq|done]. Qed.

Lemma Get_locked_inv st dial a d : dialer_inv d → dialer_inv (Get_locked st dial a d).2.
Proof.
  intros Hd. unfold Get_locked. case_match; [done|]. apply (Remove_inv a) in Hd.
  destruct dial; [done|]. unfold dialer_inv in *. cbn [snd closed conns opened].
  rewrite seq_S, <-Hd, map_to_list_insert by apply Remove_lookup. simpl. solve_Permutation.
Qed.

Lemma Get_inv st st' dial a d : dialer_inv d → dialer_inv (Get st st' dial a d).2.
Proof. unfold Get. intros. case_match; [done|]. by apply Get_locked_inv. Qed.

Lemma CloseAll_inv `{!MapRange} d : dialer_inv d → dialer_inv (CloseAll d) ∧ closed (CloseAll d) ≡ₚ seq 0 (opened d).
Proof.
  unfold dialer_inv, CloseAll. simpl. rewrite map_to_list_empty. simpl. rewrite app_nil_r.
  unfold range_values. rewrite map_range_perm. done.
Qed.

(** What one call does to the pool; calls that hold the write lock never overlap. *)
Inductive dialer_step `{!MapRange} : PeerDialer → PeerDialer → Prop :=
| ds_get st st' dial a d : dialer_step d (Get st st' dial a d).2
| ds_get_locked st dial a d : dialer_step d (Get_locked st dial a d).2
| ds_remove a d : dialer_step d (Remove a d)
| ds_close d : dialer_step d (CloseAll d).

Lemma dialer_run_inv `{!MapRange} d d' : rtc dialer_step d d' → dialer_inv d → dialer_inv d'.
Proof.
  induction 1 as [|d d1 d2 Hs _ IH]; [done|]. intros Hd. apply IH.
  destruct Hs; [by apply Get_inv|by apply Get_locked_inv|by apply Remove_inv|by apply CloseAll_inv].
Qed.

Lemma Get_pooled st st' dial a d c :
  (Get st st' dial a d).1 = Ok c → conns (Get st st' dial a d).2 !! a = Some c.
Proof.
  unfold Get, Get_locked, cached.
  destruct (conns d !! a) as [c'|] eqn:Ha; [destruct (isHealthy st c')|]; simpl; try (by intros; simplify_eq).
  - destruct (isHealthy st' c'); simpl; [by intros; simplify_eq|].
    destruct dial; simpl; [done|]. intros [= <-]. apply lookup_insert_eq.
  - destruct dial; simpl; [done|]. intros [= <-]. apply lookup_insert_eq.
Qed.

Lemma EnqueueRepair_spec job m :
  EnqueueRepair job m =
    if decide (repair_key job ∈ inflight m) then (true, m)
    else if decide (length (repairQ m) < repairQueueCap)%nat
    then (true, mkManager (repairQ m ++ [job]) ({[repair_key job]} ∪ inflight m))
    else (false, m).
Proof.
  unfold EnqueueRepair, reserve. destruct (decide (repair_key job ∈ inflight m)) as [|Hk]; [done|].
  unfold offer, try_send. cbn [repairQ]. destruct (decide (length (repairQ m) < repairQueueCap)); [done|].
  destruct m as [q ks]. unfold release. simpl in *. do 2 f_equal. set_solver.
Qed.

(** ** Properties *)

(** C24. However callers of [EnqueueRepair] and the workers interleave, with whatever
    outcomes of the transfers and whether or not the manager is stopped: the queue never
    exceeds its capacity, no two jobs being enqueued, queued or running repair the same
    chunk on the same target, the in-flight set is exactly the keys of those jobs, and so
    it never holds more than the queue, the workers and the pending calls do. *)
Theorem repair_pool_invariant (p : pool) :
  rtc pool_step (Start NewReplicationManager) p →
  length (repairQ (pl_manager p)) ≤ repairQueueCap ∧
  NoDup ((λ j, (ChunkID j, Target j)) <$> held p) ∧
  inflight (pl_manager p) = list_to_set (repair_key <$> held p) ∧
  size (inflight (pl_manager p)) ≤ repairQueueCap + numRepairWorkers + length (pl_calls p).
Proof.
  intros Hr. destruct (pool_run_inv _ _ Hr Start_inv) as [Hq Hk Hw _]. pose proof (keys_ok_size _ _ Hk) as Hs.
  destruct Hk as [Hnd Hin]. split; [done|]. split; [|split; [done|]].
  - apply (NoDup_fmap_1 (λ ct, ct.1 +:+ ":" +:+ ct.2)). by rewrite <-list_fmap_compose.
  - rewrite Hs. unfold held. rewrite !length_app, length_fmap. enough (length (running (pl_workers p)) ≤ numRepairWorkers) by lia.
    rewrite <-Hw. apply length_running.
Qed.

Definition EOF_err : error := ErrSentinel "EOF".

Definition w_job : RepairJob := mkJob "job1" "c1" "h1:9000" "h2:9000".
Definition w_pool : pool := mkPool (mkManager [w_job] {["c1:h2:9000"]}) [] (replicate 4 Idle) false [].

Lemma w_pool_reachable : rtc pool_step (Start NewReplicationManager) w_pool.
Proof.
  eapply rtc_l; [apply (ps_reserve _ _ _ _ _ w_job); vm_compute; reflexivity|].
  eapply rtc_l; [apply (ps_send _ [] w_job []); vm_compute; reflexivity|]. apply rtc_refl.
Qed.

Lemma repair_pool_invariant_witness :
  NoDup ((λ j, (ChunkID j, Target j)) <$> held w_pool) ∧ size (inflight (pl_manager w_pool)) ≤ 260.
Proof.
  pose proof (repair_pool_invariant w_pool w_pool_reachable) as (_ & H1 & _ & H2). split; [exact H1|exact H2].
Defined.

(** C25. While the manager is not stopped and nobody enqueues, the workers finish: every
    run of them from a reachable state has at most two steps per queued job and one per
    running job, and where no worker can move any more the queue and the in-flight set
    are empty and exactly the jobs that were queued or running have been reported, each
    once. *)
Theorem repair_pool_drains (p p' : pool) (n : nat) :
  rtc pool_step (Start NewReplicationManager) p → pl_cancelled p = false → pl_calls p = [] →
  nsteps worker_step n p p' →
  n ≤ 2 * length (repairQ (pl_manager p)) + length (running (pl_workers p)) ∧
  ((∀ p'', ¬ worker_step p' p'') →
     repairQ (pl_manager p') = [] ∧ inflight (pl_manager p') = ∅ ∧
     (pl_reports p').*1 ≡ₚ (pl_reports p).*1 ++ running (pl_workers p) ++ repairQ (pl_manager p)).
Proof.
  intros Hr Hc Hcs Hn. pose proof (pool_run_inv _ _ Hr Start_inv) as Hi.
  destruct (worker_run_progress _ _ _ Hn Hc) as (Hl & Ha & Hc' & Hcs').
  pose proof (worker_run_inv _ _ _ Hn Hi) as Hi'. split; [unfold work_left in Hl; lia|]. intros Hstuck.
  assert (Hw : work_left p' = 0).
  { destruct (decide (work_left p' = 0)) as [|Hne]; [done|].
    destruct (pool_can_work p' Hi' Hc' Hne) as [p'' Hs]. by destruct (Hstuck p''). }
  destruct (work_done _ Hw) as [Hq Hb]. split; [done|]. split.
  - destruct (pi_keys _ Hi') as [_ ->]. unfold held. by rewrite Hcs', Hcs, Hq, Hb.
  - unfold accounted in Ha. rewrite Hq, Hb, !app_nil_r in Ha. done.
Qed.

Lemma repair_pool_drains_witness :
  inflight (pl_manager (mkPool (mkManager [] ∅) [] (replicate 4 Idle) false [(w_job, None)])) = ∅ ∧ 2 ≤ 2.
Proof.
  assert (Hn : nsteps worker_step 2 w_pool (mkPool (mkManager [] ∅) [] (replicate 4 Idle) false [(w_job, None)])).
  { eapply nsteps_l; [apply (ws_take _ (mkManager [] {["c1:h2:9000"]}) _ _ 0 _ _ w_job); reflexivity|].
    eapply nsteps_l; [apply (ws_finish _ _ _ 0 _ _ w_job None); reflexivity|].
    match goal with |- nsteps _ _ ?a ?b => assert (Heq : a = b) by (vm_compute; reflexivity) end.
    rewrite Heq. apply nsteps_O. }
  pose proof (repair_pool_drains _ _ _ w_pool_reachable eq_refl eq_refl Hn) as [H1 H2].
  assert (Hstuck : ∀ p'', ¬ worker_step (mkPool (mkManager [] ∅) [] (replicate 4 Idle) false [(w_job, None)]) p'').
  { intros p'' Hs. inversion Hs as [? ? ? ? i ? ? ? Hi Ht|? ? ? i ? ? ? ? Hi|]; subst; [discriminate Ht|].
    do 4 (destruct i as [|i]; [discriminate Hi|]). discriminate Hi. }
  split; [exact (proj1 (proj2 (H2 Hstuck)))|exact H1].
Defined.

(** C39. When all goroutines of a fan-out answer, in whatever order, the result lists
    exactly the targets whose transfer succeeded, and there is no error exactly when they
    are a strict majority of the targets; when the timer or the context ends the wait
    after [k] answers, the nodes returned did succeed and the error says so. *)
Theorem fanout_quorum (targets : list string) (out : string → option error) (rs : list (string * option error)) :
  targets ≠ [] → rs ≡ₚ target_results out targets →
  (∃ nodes err, ReplicateToNodesWithResult targets false (fan_events rs) = Some (nodes, err) ∧
     nodes ≡ₚ filter (λ a, out a = None) targets ∧ (err = None ↔ (length targets < 2 * length nodes)%nat)) ∧
  (∀ k rest stop e, k < length targets → (stop = FanTimeout ∧ e = ErrFanout ∨ stop = FanDone e) →
     ∃ nodes, ReplicateToNodesWithResult targets false (fan_events (take k rs) ++ stop :: rest) = Some (nodes, Some e) ∧
       nodes ⊆+ filter (λ a, out a = None) targets).
Proof.
  intros Hne Hrs. assert (Hlen : length rs = length targets) by (rewrite Hrs; apply length_fmap).
  pose proof (succeeded_perm _ _ Hrs) as Hsu. rewrite succeeded_targets in Hsu.
  unfold ReplicateToNodesWithResult. rewrite decide_False by done. split.
  - pose proof (fan_collect_results (length targets) rs 0 [] [] []) as Hf.
    rewrite Nat.add_0_r, app_nil_r, Hlen in Hf. rewrite Hf. simpl.
    destruct (fan_result_spec (length targets) (succeeded rs) (omap (λ r, ErrWrap r.1 <$> r.2) rs)) as [H1 H2].
    destruct (fan_result _ _ _) as [nodes err]. simpl in *. subst nodes. eauto.
  - intros k rest stop e Hk Hstop. exists (succeeded (take k rs)). split; [|rewrite <-Hsu; apply succeeded_take].
    pose proof (fan_collect_results (length targets) (take k rs) (length targets - k) (stop :: rest) [] []) as Hf.
    rewrite length_take, Nat.min_l in Hf by lia. rewrite Nat.add_sub_assoc, Nat.add_comm, Nat.add_sub in Hf by lia.
    rewrite Hf. destruct (length targets - k) as [|n'] eqn:Hn; [lia|].
    simpl. rewrite decide_False by done. by destruct Hstop as [[-> ->] | ->].
Qed.

Lemma fanout_quorum_witness : ∃ nodes err,
  ReplicateToNodesWithResult ["a"; "b"; "c"] false
    (fan_events [("c", None); ("a", None); ("b", Some EOF_err)]) = Some (nodes, err) ∧ nodes ≡ₚ ["a"; "c"] ∧ err = None.
Proof.
  pose proof (fanout_quorum ["a"; "b"; "c"] (λ a, if decide (a = "b") then Some EOF_err else None)
    [("c", None); ("a", None); ("b", Some EOF_err)] ltac:(discriminate)
    ltac:(vm_compute; apply (Permutation_app_comm [_] [_; _]))) as [(nodes & err & H1 & H2 & H3) _].
  exists nodes, err. split; [exact H1|]. split; [exact H2|]. apply H3. rewrite H2. vm_compute. lia.
Defined.

(** The pool of peer connections leaks none: whatever calls it has served, every
    connection it ever opened is either in the pool or has been closed, never both and
    never twice; [Get] answers with the pooled connection of its address, and after
    [CloseAll] every connection opened is closed. *)
Theorem dialer_no_leak `{!MapRange} (d : PeerDialer) :
  rtc dialer_step NewPeerDialer d →
  closed d ++ (map_to_list (conns d)).*2 ≡ₚ seq 0 (opened d) ∧
  closed (CloseAll d) ≡ₚ seq 0 (opened d) ∧
  ∀ st st' dial a c, (Get st st' dial a d).1 = Ok c → conns (Get st st' dial a d).2 !! a = Some c.
Proof.
  intros Hr. pose proof (dialer_run_inv _ _ Hr NewPeerDialer_inv) as Hd.
  split; [exact Hd|]. split; [by apply CloseAll_inv|]. intros. by apply Get_pooled.
Qed.

Lemma dialer_no_leak_witness :
  closed (CloseAll (Get (λ _, Ready) (λ _, Ready) None "h1:9000" NewPeerDialer).2) ≡ₚ [0].
Proof.
  apply (dialer_no_leak (Get (λ _, Ready) (λ _, Ready) None "h1:9000" NewPeerDialer).2).
  apply rtc_once. apply ds_get.
Defined.
