(* ===== verification/StorageConfig.v ===== *)
(** * The configuration of a storage node: storage/config.go

    Defaults, then the JSON file that [STORAGE_CONFIG] names, then the environment, then
    [Validate].  The environment is a function ([os.Getenv] gives the empty string for an
    unset variable) and a file is what [os.ReadFile] returned, as a JSON document.  A
    configuration that failed to load is dropped by every caller, so the error is all that
    is kept of it. *)

From Stdlib Require Import Ascii.
From S2P Require Import Prelude GoFloat GoText Json Retry.

#[local] Open Scope Z_scope.

Definition DefaultStorageGRPCAddr : string := ":4000".
Definition DefaultStorageMetadataAddr : string := ":3000".
Definition DefaultStorageDataDir : string := "./data".
Definition DefaultStorageTimeout : Duration := 120 * second.
Definition DefaultStorageHeartbeatInterval : Duration := 3 * second.
Definition DefaultStorageReplicationFactor : Z := 3.
Definition DefaultStorageRPCTimeout : Duration := 10 * second.
Definition DefaultStorageRetryMaxAttempts : Z := 5.
Definition DefaultStorageRetryBaseBackoff : Duration := 100 * millisecond.
Definition DefaultStorageRetryMaxBackoff : Duration := 5 * second.

Record StorageNodeConfig := mkStorageNodeConfig {
  sc_NodeID : string;
  sc_GRPCAddr : string;
  sc_AdvertiseAddr : string;
  sc_MetadataAddrs : list string;
  sc_Timeout : Duration;
  sc_HeartbeatInterval : Duration;
  sc_DataDir : string;
  sc_ReplicationFactor : Z;
  sc_RPCTimeout : Duration;
  sc_RetryMaxAttempts : Z;
  sc_RetryBaseBackoff : Duration;
  sc_RetryMaxBackoff : Duration;
}.

(** ** Defaults and validation *)

Definition or_default (s d : string) : string := if decide (s = "") then d else s.
Definition or_positive (z d : Z) : Z := if decide (z ≤ 0) then d else z.

Definition Default (c : StorageNodeConfig) : StorageNodeConfig :=
  mkStorageNodeConfig (sc_NodeID c) (or_default (sc_GRPCAddr c) DefaultStorageGRPCAddr) (sc_AdvertiseAddr c)
    (if decide (sc_MetadataAddrs c = []) then [DefaultStorageMetadataAddr] else sc_MetadataAddrs c)
    (or_positive (sc_Timeout c) DefaultStorageTimeout)
    (or_positive (sc_HeartbeatInterval c) DefaultStorageHeartbeatInterval)
    (or_default (sc_DataDir c) DefaultStorageDataDir)
    (or_positive (sc_ReplicationFactor c) DefaultStorageReplicationFactor)
    (or_positive (sc_RPCTimeout c) DefaultStorageRPCTimeout)
    (or_positive (sc_RetryMaxAttempts c) DefaultStorageRetryMaxAttempts)
    (or_positive (sc_RetryBaseBackoff c) DefaultStorageRetryBaseBackoff)
    (or_positive (sc_RetryMaxBackoff c) DefaultStorageRetryMaxBackoff).

Definition DefaultStorageNodeConfig : StorageNodeConfig :=
  Default (mkStorageNodeConfig "" "" "" [] 0 0 "" 0 0 0 0 0).

Definition config_error (msg : string) : option error := Some (ErrNew ("StorageNodeConfig: " +:+ msg)).

Definition Validate (c : StorageNodeConfig) : option error :=
  if decide (sc_GRPCAddr c = "") then config_error "GRPCAddr must not be empty"
  else if decide (sc_MetadataAddrs c = []) then config_error "MetadataAddrs must not be empty"
  else if decide (sc_DataDir c = "") then config_error "DataDir must not be empty"
  else if decide (sc_ReplicationFactor c < 1) then config_error "ReplicationFactor must be at least 1"
  else if decide (sc_RetryMaxAttempts c < 1) then config_error "RetryMaxAttempts must be >= 1"
  else if decide (sc_RetryBaseBackoff c ≤ 0) then config_error "RetryBaseBackoff must be > 0"
  else if decide (sc_RetryMaxBackoff c < sc_RetryBaseBackoff c) then
    config_error "RetryMaxBackoff must be >= RetryBaseBackoff"
  else if decide (sc_RPCTimeout c ≤ 0) then config_error "RPCTimeout must be > 0"
  else None.

(** ** The JSON file *)

Record raw_config := mkRaw {
  raw_NodeID : option string;
  raw_GRPCAddr : option string;
  raw_AdvertiseAddr : option string;
  raw_MetadataAddrs : option (list string);
  raw_Timeout : option string;
  raw_HeartbeatInterval : option string;
  raw_DataDir : option string;
  raw_ReplicationFactor : option Z;
  raw_RPCTimeout : option string;
  raw_RetryMaxAttempts : option Z;
  raw_RetryBaseBackoff : option string;
  raw_RetryMaxBackoff : option string;
}.

Definition dec_raw_config : json → res raw_config :=
  dec_struct (mkRaw None None None None None None None None None None None None) (λ o,
    let? nid := dec_field_ptr "node_id" dec_string o in
    let? grpc := dec_field_ptr "grpc_addr" dec_string o in
    let? adv := dec_field_ptr "advertise_addr" dec_string o in
    let? addrs := dec_field_ptr "metadata_addrs" dec_strings o in
    let? timeout := dec_field_ptr "timeout" dec_string o in
    let? hb := dec_field_ptr "heartbeat_interval" dec_string o in
    let? dir := dec_field_ptr "data_dir" dec_string o in
    let? rf := dec_field_ptr "replication_factor" dec_int64 o in
    let? rpc := dec_field_ptr "rpc_timeout" dec_string o in
    let? att := dec_field_ptr "retry_max_attempts" dec_int64 o in
    let? base := dec_field_ptr "retry_base_backoff" dec_string o in
    let? max := dec_field_ptr "retry_max_backoff" dec_string o in
    Ok (mkRaw nid grpc adv addrs timeout hb dir rf rpc att base max)).

(** A duration that is only parsed when present. *)
Definition json_duration (name : string) (raw : option string) (old : Duration) : res Duration :=
  match raw with
  | None => Ok old
  | Some s => match ParseDuration s with Ok d => Ok d | Err e => Err (ErrWrap ("config: " +:+ name) e) end
  end.

Definition ApplyJSON (file : res doc) (c : StorageNodeConfig) : res StorageNodeConfig :=
  let? data := file in
  let? raw := Unmarshal dec_raw_config data in
  let? timeout := json_duration "timeout" (raw_Timeout raw) (sc_Timeout c) in
  let? hb := json_duration "heartbeat_interval" (raw_HeartbeatInterval raw) (sc_HeartbeatInterval c) in
  let? rpc := json_duration "rpc_timeout" (raw_RPCTimeout raw) (sc_RPCTimeout c) in
  let? base := json_duration "retry_base_backoff" (raw_RetryBaseBackoff raw) (sc_RetryBaseBackoff c) in
  let? max := json_duration "retry_max_backoff" (raw_RetryMaxBackoff raw) (sc_RetryMaxBackoff c) in
  Ok (mkStorageNodeConfig (default (sc_NodeID c) (raw_NodeID raw)) (default (sc_GRPCAddr c) (raw_GRPCAddr raw))
    (default (sc_AdvertiseAddr c) (raw_AdvertiseAddr raw)) (default (sc_MetadataAddrs c) (raw_MetadataAddrs raw))
    timeout hb (default (sc_DataDir c) (raw_DataDir raw))
    (default (sc_ReplicationFactor c) (raw_ReplicationFactor raw)) rpc
    (default (sc_RetryMaxAttempts c) (raw_RetryMaxAttempts raw)) base max).

Definition LoadFromJSON (file : res doc) : res StorageNodeConfig := ApplyJSON file DefaultStorageNodeConfig.

(** ** The environment *)

Section environment.
Context (env : string → string).

Definition env_string (key old : string) : string := if decide (env key = "") then old else env key.

Definition env_parse {A} (parse : string → res A) (key : string) (old : A) : res A :=
  if decide (env key = "") then Ok old
  else match parse (env key) with
       | Ok v => Ok v
       | Err e => Err (ErrWrap ("invalid env var " +:+ key) e)
       end.

Definition applyDurationEnv : string → Duration → res Duration := env_parse ParseDuration.

Definition ApplyEnv (c : StorageNodeConfig) : res StorageNodeConfig :=
  let addrs := if decide (env "STORAGE_METADATA_ADDRS" = "") then sc_MetadataAddrs c
               else split ","%char (env "STORAGE_METADATA_ADDRS") in
  let? rf := env_parse Atoi "STORAGE_REPLICATION_FACTOR" (sc_ReplicationFactor c) in
  let? att := env_parse Atoi "STORAGE_RETRY_MAX_ATTEMPTS" (sc_RetryMaxAttempts c) in
  let? timeout := applyDurationEnv "STORAGE_TIMEOUT" (sc_Timeout c) in
  let? hb := applyDurationEnv "STORAGE_HEARTBEAT_INTERVAL" (sc_HeartbeatInterval c) in
  let? rpc := applyDurationEnv "STORAGE_RPC_TIMEOUT" (sc_RPCTimeout c) in
  let? base := applyDurationEnv "STORAGE_RETRY_BASE_BACKOFF" (sc_RetryBaseBackoff c) in
  let? max := applyDurationEnv "STORAGE_RETRY_MAX_BACKOFF" (sc_RetryMaxBackoff c) in
  Ok (mkStorageNodeConfig (env_string "STORAGE_NODE_ID" (sc_NodeID c))
    (env_string "STORAGE_GRPC_ADDR" (sc_GRPCAddr c)) (env_string "STORAGE_ADVERTISE_ADDR" (sc_AdvertiseAddr c))
    addrs timeout hb (env_string "STORAGE_DATA_DIR" (sc_DataDir c)) rf rpc att base max).

(** [readfile] is [os.ReadFile]. *)
Definition LoadConfigDefaultFlow (readfile : string → res doc) : res StorageNodeConfig :=
  let path := env "STORAGE_CONFIG" in
  let? cfg := (if decide (path = "") then Ok DefaultStorageNodeConfig
               else match ApplyJSON (readfile path) DefaultStorageNodeConfig with
                    | Ok c => Ok c
                    | Err e => Err (ErrWrap "failed to load config from" e)
                    end) in
  match ApplyEnv cfg with
  | Err e => Err (ErrWrap "failed to load config" e)
  | Ok cfg =>
      match Validate cfg with
      | Some e => Err (ErrWrap "failed to load config" e)
      | None => Ok cfg
      end
  end.
End environment.

(** ** The node's identity *)

(** A new identity is written to the file [node_id]; [FatalError] ends the process. *)
Definition generate_node_id (uuid : string) (mkdir write : option error) : option (string * res string) :=
  match mkdir, write with
  | None, None => Some (uuid, Ok uuid)
  | _, _ => None
  end.

(** What [LoadOrGenerateNodeID] returns, and the contents of the file [node_id] of the data
    directory afterwards; [file] is what [os.ReadFile] found there. *)
Definition LoadOrGenerateNodeID (file : res string) (uuid : string) (mkdir write : option error)
    : option (string * res string) :=
  match file with
  | Ok data => if decide (0 < Z.of_nat (String.length data)) then Some (data, file)
               else generate_node_id uuid mkdir write
  | Err _ => generate_node_id uuid mkdir write
  end.

(** The retry policy storage/cmd builds for the metadata client. *)
Definition RetryPolicy (c : StorageNodeConfig) : Policy :=
  mkPolicy (sc_RetryMaxAttempts c) (sc_RetryBaseBackoff c) (sc_RetryMaxBackoff c) (fl_of_int 2).

(** ** Lemmas *)

(** What a configuration that passes [Validate] has. *)
Record config_ok (c : StorageNodeConfig) : Prop := {
  ok_grpc : sc_GRPCAddr c ≠ "";
  ok_addrs : sc_MetadataAddrs c ≠ [];
  ok_dir : sc_DataDir c ≠ "";
  ok_factor : 1 ≤ sc_ReplicationFactor c;
  ok_attempts : 1 ≤ sc_RetryMaxAttempts c;
  ok_backoff : 0 < sc_RetryBaseBackoff c ≤ sc_RetryMaxBackoff c;
  ok_rpc : 0 < sc_RPCTimeout c;
}.

Lemma Validate_spec c : Validate c = None ↔ config_ok c.
Proof.
  unfold Validate, config_error. split.
  - intros Hv. repeat (case_decide; [done|]). split; [done..| | | |]; lia.
  - intros [? ? ? ? ? ? ?]. repeat (rewrite decide_False by (done || lia)). done.
Qed.

(** The numbers of a configuration fit their Go types. *)
Record config_typed (c : StorageNodeConfig) : Prop := {
  ty_timeout : is_int64 (sc_Timeout c);
  ty_heartbeat : is_int64 (sc_HeartbeatInterval c);
  ty_factor : is_int64 (sc_ReplicationFactor c);
  ty_rpc : is_int64 (sc_RPCTimeout c);
  ty_attempts : is_int64 (sc_RetryMaxAttempts c);
  ty_base : is_int64 (sc_RetryBaseBackoff c);
  ty_max : is_int64 (sc_RetryMaxBackoff c);
}.

Lemma default_typed : config_typed DefaultStorageNodeConfig.
Proof. split; compute_decide. Qed.

Lemma json_duration_typed name raw old d :
  json_duration name raw old = Ok d → is_int64 old → is_int64 d.
Proof.
  destruct raw as [s|]; simpl; [|by intros [= <-]].
  destruct (ParseDuration s) eqn:Hp; [|done]. intros [= <-] _. by eapply ParseDuration_range.
Qed.

Lemma env_parse_ok {A} (P : A → Prop) env parse key old (v : A) :
  (∀ s a, parse s = Ok a → P a) → env_parse env parse key old = Ok v → P old → P v.
Proof.
  unfold env_parse. intros Hparse. case_decide; [by intros [= <-]|].
  destruct (parse (env key)) eqn:Hp; [|done]. intros [= <-] _. by eapply Hparse.
Qed.

Lemma default_ptr_ok {A} (P : A → Prop) (r : option A) old : (∀ x, r = Some x → P x) → P old → P (default old r).
Proof. destruct r; simpl; auto. Qed.

(** Takes a successful chain of [let?] apart. *)
Ltac res_inv :=
  repeat match goal with
  | H : res_bind _ _ = Ok _ |- _ =>
      let a := fresh "a" in let Ha := fresh "Ha" in apply res_bind_Ok in H as (a & Ha & H)
  end.

Lemma dec_int64_range j z : dec_int64 j = Ok z → is_int64 z.
Proof. destruct j; simpl; try done; [by intros [= <-]|]. case_decide; [|done]. by intros [= <-]. Qed.

Lemma ApplyJSON_typed file c c' : ApplyJSON file c = Ok c' → config_typed c → config_typed c'.
Proof.
  unfold ApplyJSON. intros H [T1 T2 T3 T4 T5 T6 T7]. res_inv. simplify_eq.
  assert (Hraw : (∀ z, raw_ReplicationFactor a0 = Some z → is_int64 z) ∧
                 (∀ z, raw_RetryMaxAttempts a0 = Some z → is_int64 z)).
  { unfold Unmarshal, dec_raw_config, dec_struct in Ha0. destruct a as [[]|]; simplify_eq; [done|].
    res_inv. simplify_eq/=. split; intros z ->; eapply (dec_field_ptr_ok is_int64);
      [apply dec_int64_range| |apply dec_int64_range|]; done. }
  destruct Hraw as [R1 R2].
  split; simpl; try (by eapply json_duration_typed); by apply default_ptr_ok.
Qed.

Lemma ApplyEnv_typed env c c' : ApplyEnv env c = Ok c' → config_typed c → config_typed c'.
Proof.
  unfold ApplyEnv, applyDurationEnv. intros H [T1 T2 T3 T4 T5 T6 T7]. res_inv. simplify_eq.
  split; simpl; (eapply env_parse_ok; [|done|done]);
    intros s z; first [apply ParseDuration_range|apply ParseInt_range].
Qed.

Lemma load_ok env readfile c :
  LoadConfigDefaultFlow env readfile = Ok c → config_typed c ∧ config_ok c.
Proof.
  unfold LoadConfigDefaultFlow. intros (c0 & Hc0 & H1)%res_bind_Ok.
  assert (T0 : config_typed c0).
  { case_decide; [simplify_eq; apply default_typed|].
    destruct (ApplyJSON _ _) eqn:Hj; simplify_eq. eapply ApplyJSON_typed; [done|apply default_typed]. }
  destruct (ApplyEnv env c0) as [c1|] eqn:He; [|done]. destruct (Validate c1) eqn:Hv; simplify_eq.
  split; [by eapply ApplyEnv_typed|by apply Validate_spec].
Qed.

(** The environment that spells out a configuration. *)
Definition env_of (c : StorageNodeConfig) (key : string) : string :=
  if decide (key = "STORAGE_NODE_ID") then sc_NodeID c
  else if decide (key = "STORAGE_GRPC_ADDR") then sc_GRPCAddr c
  else if decide (key = "STORAGE_ADVERTISE_ADDR") then sc_AdvertiseAddr c
  else if decide (key = "STORAGE_METADATA_ADDRS") then join ","%char (sc_MetadataAddrs c)
  else if decide (key = "STORAGE_DATA_DIR") then sc_DataDir c
  else if decide (key = "STORAGE_REPLICATION_FACTOR") then pretty (sc_ReplicationFactor c : Z)
  else if decide (key = "STORAGE_RETRY_MAX_ATTEMPTS") then pretty (sc_RetryMaxAttempts c : Z)
  else if decide (key = "STORAGE_TIMEOUT") then print_ns (sc_Timeout c)
  else if decide (key = "STORAGE_HEARTBEAT_INTERVAL") then print_ns (sc_HeartbeatInterval c)
  else if decide (key = "STORAGE_RPC_TIMEOUT") then print_ns (sc_RPCTimeout c)
  else if decide (key = "STORAGE_RETRY_BASE_BACKOFF") then print_ns (sc_RetryBaseBackoff c)
  else if decide (key = "STORAGE_RETRY_MAX_BACKOFF") then print_ns (sc_RetryMaxBackoff c)
  else "".

Lemma env_string_set env key old v : env key = v → (v = "" → old = "") → env_string env key old = v.
Proof. intros Hv Ho. unfold env_string. rewrite Hv. case_decide as Hd; [|done]. rewrite Hd. auto. Qed.

Lemma env_parse_set {A} env (parse : string → res A) key old s v :
  env key = s → s ≠ "" → parse s = Ok v → env_parse env parse key old = Ok v.
Proof. intros Hk Hs Hp. unfold env_parse. by rewrite Hk, decide_False, Hp. Qed.

Lemma pretty_Z_nonempty (z : Z) : pretty z ≠ "".
Proof.
  destruct (pretty_Z_cases z) as [[_ ->]|[_ ->]]; [apply pretty_N_nonempty|done].
Qed.

Lemma print_ns_nonempty (d : Z) : print_ns d ≠ "".
Proof.
  unfold print_ns. intros Heq. apply (f_equal String.length) in Heq. rewrite length_app_string in Heq. simpl in Heq. lia.
Qed.

Lemma env_int_set env key old (z : Z) :
  env key = pretty z → is_int64 z → env_parse env Atoi key old = Ok z.
Proof.
  intros Hk Hz. eapply env_parse_set; [exact Hk|apply pretty_Z_nonempty|]. by apply ParseInt_pretty.
Qed.

Lemma env_duration_set env key old (d : Z) :
  env key = print_ns d → is_int64 d → applyDurationEnv env key old = Ok d.
Proof.
  intros Hk Hd. eapply env_parse_set; [exact Hk|apply print_ns_nonempty|]. by apply ParseDuration_ns.
Qed.

Lemma join_nonempty sep l : l ≠ [] → l ≠ [""] → join sep l ≠ "".
Proof. destruct l as [|[|c w] [|w' l]]; try done; destruct w'; done. Qed.

(** ** Properties *)

(** The environment determines the configuration: for every configuration that
    [Validate] accepts, whose numbers fit their types and whose metadata addresses contain
    no comma, the variables that spell it out load exactly that configuration. *)
Theorem storage_env_roundtrip (readfile : string → res doc) (c : StorageNodeConfig) :
  Validate c = None → config_typed c →
  Forall (λ a, contains_char ","%char a = false) (sc_MetadataAddrs c) → sc_MetadataAddrs c ≠ [""] →
  LoadConfigDefaultFlow (env_of c) readfile = Ok c.
Proof.
  intros Hv [T1 T2 T3 T4 T5 T6 T7] Hcomma Hne. pose proof (proj1 (Validate_spec c) Hv) as Hok.
  unfold LoadConfigDefaultFlow. change (env_of c "STORAGE_CONFIG") with "". rewrite decide_True by done.
  cbn [res_bind]. unfold ApplyEnv.
  change (env_of c "STORAGE_METADATA_ADDRS") with (join ","%char (sc_MetadataAddrs c)).
  rewrite decide_False by (apply join_nonempty; [apply Hok|done]).
  rewrite split_join by (done || apply Hok).
  rewrite (env_int_set _ "STORAGE_REPLICATION_FACTOR" _ (sc_ReplicationFactor c)) by done. cbn [res_bind].
  rewrite (env_int_set _ "STORAGE_RETRY_MAX_ATTEMPTS" _ (sc_RetryMaxAttempts c)) by done. cbn [res_bind].
  rewrite (env_duration_set _ "STORAGE_TIMEOUT" _ (sc_Timeout c)) by done. cbn [res_bind].
  rewrite (env_duration_set _ "STORAGE_HEARTBEAT_INTERVAL" _ (sc_HeartbeatInterval c)) by done. cbn [res_bind].
  rewrite (env_duration_set _ "STORAGE_RPC_TIMEOUT" _ (sc_RPCTimeout c)) by done. cbn [res_bind].
  rewrite (env_duration_set _ "STORAGE_RETRY_BASE_BACKOFF" _ (sc_RetryBaseBackoff c)) by done. cbn [res_bind].
  rewrite (env_duration_set _ "STORAGE_RETRY_MAX_BACKOFF" _ (sc_RetryMaxBackoff c)) by done. cbn [res_bind].
  rewrite (env_string_set _ "STORAGE_NODE_ID" _ (sc_NodeID c)) by done.
  rewrite (env_string_set _ "STORAGE_GRPC_ADDR" _ (sc_GRPCAddr c)); [|done|intros Hc; by destruct (ok_grpc _ Hok)].
  rewrite (env_string_set _ "STORAGE_ADVERTISE_ADDR" _ (sc_AdvertiseAddr c)) by done.
  rewrite (env_string_set _ "STORAGE_DATA_DIR" _ (sc_DataDir c)); [|done|intros Hc; by destruct (ok_dir _ Hok)].
  destruct c; simpl in *. by rewrite Hv.
Qed.

Definition w_config : StorageNodeConfig :=
  mkStorageNodeConfig "n7" ":4100" "h7:4100" ["m1:4001"; "m2:4001"] (90 * second) second "/var/dfs" 2
    (3 * second) 4 (50 * millisecond) (2 * second).

Lemma storage_env_roundtrip_witness :
  LoadConfigDefaultFlow (env_of w_config) (λ _, Err ErrSyntax) = Ok w_config.
Proof.
  apply (storage_env_roundtrip (λ _, Err ErrSyntax) w_config).
  - reflexivity.
  - split; compute_decide.
  - compute_decide.
  - discriminate.
Defined.

(** C36. Whatever the environment and the file say, a configuration that loads has its
    numbers in the range of their Go types and what the components rely on: addresses and
    a data directory, at least one attempt, positive backoffs in order, a positive RPC
    timeout; the retry policy built from it is one the retry theorems apply to, as long
    as the largest backoff stays below 2^53 nanoseconds (a hundred days). *)
Theorem loaded_storage_config_sound (env : string → string) (readfile : string → res doc) (c : StorageNodeConfig) :
  LoadConfigDefaultFlow env readfile = Ok c →
  config_typed c ∧ config_ok c ∧ 1 ≤ MaxAttempts (RetryPolicy c) ∧
  (sc_RetryMaxBackoff c < 2 ^ 53 → sane (RetryPolicy c)).
Proof.
  intros Hl. destruct (load_ok _ _ _ Hl) as [Ht Hok]. split; [done|]. split; [done|]. destruct Hok.
  split; [done|]. intros Hm. split; simpl; [done|done|by vm_compute].
Qed.

Lemma loaded_storage_config_sound_witness : sane (RetryPolicy w_config).
Proof.
  apply (loaded_storage_config_sound (env_of w_config) (λ _, Err ErrSyntax) w_config);
    [vm_compute; reflexivity|compute_decide].
Defined.
