(* ===== verification/MetaConfig.v ===== *)
(** * The configuration of a metadata node: metadata/config.go

    The same layers as for a storage node: defaults, the JSON file [METADATA_CONFIG]
    names, the environment, [Validate].  A nil map of peers is the empty map.  The outcome
    of [os.MkdirAll] in [Validate] is a parameter. *)

From Stdlib Require Import Ascii.
From S2P Require Import Prelude GoText Json Retry StorageConfig.

#[local] Open Scope Z_scope.

Definition DefaultNodeID : string := "node-1".
Definition DefaultGRPCAddr : string := ":4001".
Definition DefaultRaftAddr : string := "127.0.0.1:5001".
Definition DefaultRaftDir : string := "./data/metadata/raft".
Definition DefaultReplicationFactor : Z := 3.
Definition DefaultSuspectTimeout : Duration := 10 * second.
Definition DefaultDeadTimeout : Duration := 30 * second.
Definition DefaultWatcherInterval : Duration := 5 * second.
Definition DefaultReconcileDelay : Duration := 30 * second.
Definition DefaultHeartbeatTimeout : Duration := 1 * second.
Definition DefaultElectionTimeout : Duration := 5 * second.
Definition DefaultSnapshotInterval : Duration := 30 * second.
Definition DefaultSnapshotThreshold : Z := 8192.
Definition DefaultSnapshotRetain : Z := 2.

Record NodeConfig := mkNodeConfig {
  mc_NodeID : string;
  mc_GRPCAddr : string;
  mc_RaftAddr : string;
  mc_RaftAdvertise : string;
  mc_RaftDir : string;
  mc_PeerAddrs : gmap string string; (* nodeID to raft address *)
  mc_Bootstrap : bool;
  mc_ReplicationFactor : Z;
  mc_SuspectTimeout : Duration;
  mc_DeadTimeout : Duration;
  mc_WatcherInterval : Duration;
  mc_ReconcileDelay : Duration;
  mc_HeartbeatTimeout : Duration;
  mc_ElectionTimeout : Duration;
  mc_SnapshotInterval : Duration;
  mc_SnapshotThreshold : Z; (* uint64 *)
  mc_SnapshotRetain : Z;
}.

Definition DefaultNodeConfig : NodeConfig :=
  mkNodeConfig DefaultNodeID DefaultGRPCAddr DefaultRaftAddr "" DefaultRaftDir ∅ false
    DefaultReplicationFactor DefaultSuspectTimeout DefaultDeadTimeout DefaultWatcherInterval
    DefaultReconcileDelay DefaultHeartbeatTimeout DefaultElectionTimeout DefaultSnapshotInterval
    DefaultSnapshotThreshold DefaultSnapshotRetain.

(** [mkdir] is the error of [os.MkdirAll(c.RaftDir, 0755)]. *)
Definition Validate (mkdir : string → option error) (c : NodeConfig) : option error :=
  if decide (mc_NodeID c = "") then Some (ErrNew "config: NodeID is required")
  else if decide (mc_GRPCAddr c = "") then Some (ErrNew "config: GRPCAddr is required")
  else if decide (mc_RaftAddr c = "") then Some (ErrNew "config: RaftAddr is required")
  else if decide (mc_RaftDir c = "") then Some (ErrNew "config: RaftDir is required")
  else match mkdir (mc_RaftDir c) with
       | Some e => Some (ErrWrap "failed to create raft dir" e)
       | None => None
       end.

Definition Default (c : NodeConfig) : NodeConfig :=
  mkNodeConfig (or_default (mc_NodeID c) DefaultNodeID) (or_default (mc_GRPCAddr c) DefaultGRPCAddr)
    (or_default (mc_RaftAddr c) DefaultRaftAddr) (mc_RaftAdvertise c) (or_default (mc_RaftDir c) DefaultRaftDir)
    (mc_PeerAddrs c) (mc_Bootstrap c)
    (or_positive (mc_ReplicationFactor c) DefaultReplicationFactor)
    (or_positive (mc_SuspectTimeout c) DefaultSuspectTimeout)
    (or_positive (mc_DeadTimeout c) DefaultDeadTimeout)
    (or_positive (mc_WatcherInterval c) DefaultWatcherInterval)
    (or_positive (mc_ReconcileDelay c) DefaultReconcileDelay)
    (or_positive (mc_HeartbeatTimeout c) DefaultHeartbeatTimeout)
    (or_positive (mc_ElectionTimeout c) DefaultElectionTimeout)
    (or_positive (mc_SnapshotInterval c) DefaultSnapshotInterval)
    (if decide (mc_SnapshotThreshold c = 0) then DefaultSnapshotThreshold else mc_SnapshotThreshold c)
    (or_positive (mc_SnapshotRetain c) DefaultSnapshotRetain).

Definition ReplicationCount (c : NodeConfig) : Z :=
  if decide (mc_ReplicationFactor c ≤ 0) then DefaultReplicationFactor else mc_ReplicationFactor c.

(** ** The JSON file *)

Definition applyDurationJSON (name : string) (raw : option json) (target : Duration) : res Duration :=
  match raw with
  | None | Some JNull => Ok target
  | Some j =>
      match dec_string j with
      | Err e => Err (ErrWrap ("config: " +:+ name) (ErrWrap "invalid duration format" e))
      | Ok s =>
          match ParseDuration s with
          | Err e => Err (ErrWrap ("config: " +:+ name) (ErrWrap "invalid duration value" e))
          | Ok d => Ok d
          end
      end
  end.

(** The anonymous struct of [ApplyJSON]: it has no field for [raft_advertise]. *)
Record raw_node_config := mkRawNode {
  rn_NodeID : option string;
  rn_GRPCAddr : option string;
  rn_RaftAddr : option string;
  rn_RaftDir : option string;
  rn_PeerAddrs : option (gmap string string);
  rn_Bootstrap : option bool;
  rn_ReplicationFactor : option Z;
  rn_SnapshotThreshold : option Z;
  rn_SnapshotRetain : option Z;
  rn_durations : string → option json; (* the raw messages, by tag *)
}.

Definition dec_raw_node_config : json → res raw_node_config :=
  dec_struct (mkRawNode None None None None None None None None None (λ _, None)) (λ o,
    let? nid := dec_field_ptr "node_id" dec_string o in
    let? grpc := dec_field_ptr "grpc_addr" dec_string o in
    let? raft := dec_field_ptr "raft_addr" dec_string o in
    let? dir := dec_field_ptr "raft_dir" dec_string o in
    let? peers := dec_field_ptr "peer_addrs" (dec_map dec_string) o in
    let? boot := dec_field_ptr "bootstrap" dec_bool o in
    let? rf := dec_field_ptr "replication_factor" dec_int64 o in
    let? thr := dec_field_ptr "snapshot_threshold" dec_uint64 o in
    let? ret := dec_field_ptr "snapshot_retain" dec_int64 o in
    Ok (mkRawNode nid grpc raft dir peers boot rf thr ret (λ tag, dec_field_raw tag o))).

Definition ApplyJSON (file : res doc) (c : NodeConfig) : res NodeConfig :=
  let? data := file in
  let? raw := Unmarshal dec_raw_node_config data in
  let dur tag old := applyDurationJSON tag (rn_durations raw tag) old in
  let? suspect := dur "suspect_timeout" (mc_SuspectTimeout c) in
  let? dead := dur "dead_timeout" (mc_DeadTimeout c) in
  let? watch := dur "watcher_interval" (mc_WatcherInterval c) in
  let? recon := dur "reconcile_delay" (mc_ReconcileDelay c) in
  let? hb := dur "heartbeat_timeout" (mc_HeartbeatTimeout c) in
  let? elect := dur "election_timeout" (mc_ElectionTimeout c) in
  let? snap := dur "snapshot_interval" (mc_SnapshotInterval c) in
  Ok (mkNodeConfig (default (mc_NodeID c) (rn_NodeID raw)) (default (mc_GRPCAddr c) (rn_GRPCAddr raw))
    (default (mc_RaftAddr c) (rn_RaftAddr raw)) (mc_RaftAdvertise c) (default (mc_RaftDir c) (rn_RaftDir raw))
    (default (mc_PeerAddrs c) (rn_PeerAddrs raw)) (default (mc_Bootstrap c) (rn_Bootstrap raw))
    (default (mc_ReplicationFactor c) (rn_ReplicationFactor raw)) suspect dead watch recon hb elect snap
    (default (mc_SnapshotThreshold c) (rn_SnapshotThreshold raw))
    (default (mc_SnapshotRetain c) (rn_SnapshotRetain raw))).

Definition LoadFromJSON (file : res doc) : res NodeConfig :=
  let? c := ApplyJSON file DefaultNodeConfig in Ok (Default c).

(** ** The environment *)

(** One element of the comma-separated list; [None] when it is skipped. *)
Definition parse_peer (pair : string) : option (string * string) :=
  let pair := TrimSpace pair in
  if decide (pair = "") then None
  else
    match split2 ":"%char pair with
    | [id; addr] =>
        let nodeID := TrimSpace id in
        let addr := TrimSpace addr in
        if decide (nodeID = "" ∨ addr = "") then None else Some (nodeID, addr)
    | _ => None
    end.

Definition parsePeerAddrs (s : string) : gmap string string :=
  if decide (s = "") then ∅
  else foldl (λ m pair, match parse_peer pair with Some (id, addr) => <[id := addr]> m | None => m end)
         ∅ (split ","%char s).

Section environment.
Context (env : string → string).

Definition ApplyEnv (c : NodeConfig) : res NodeConfig :=
  let peers := if decide (env "METADATA_PEER_ADDRS" = "") then mc_PeerAddrs c
               else parsePeerAddrs (env "METADATA_PEER_ADDRS") in
  let? boot := env_parse env ParseBool "METADATA_BOOTSTRAP" (mc_Bootstrap c) in
  let? rf := env_parse env Atoi "METADATA_REPLICATION_FACTOR" (mc_ReplicationFactor c) in
  let? suspect := applyDurationEnv env "METADATA_SUSPECT_TIMEOUT" (mc_SuspectTimeout c) in
  let? dead := applyDurationEnv env "METADATA_DEAD_TIMEOUT" (mc_DeadTimeout c) in
  let? watch := applyDurationEnv env "METADATA_WATCHER_INTERVAL" (mc_WatcherInterval c) in
  let? recon := applyDurationEnv env "METADATA_RECONCILE_DELAY" (mc_ReconcileDelay c) in
  let? hb := applyDurationEnv env "METADATA_HEARTBEAT_TIMEOUT" (mc_HeartbeatTimeout c) in
  let? elect := applyDurationEnv env "METADATA_ELECTION_TIMEOUT" (mc_ElectionTimeout c) in
  let? snap := applyDurationEnv env "METADATA_SNAPSHOT_INTERVAL" (mc_SnapshotInterval c) in
  let? thr := env_parse env ParseUint "METADATA_SNAPSHOT_THRESHOLD" (mc_SnapshotThreshold c) in
  let? ret := env_parse env Atoi "METADATA_SNAPSHOT_RETAIN" (mc_SnapshotRetain c) in
  Ok (mkNodeConfig (env_string env "METADATA_NODE_ID" (mc_NodeID c))
    (env_string env "METADATA_GRPC_ADDR" (mc_GRPCAddr c)) (env_string env "METADATA_RAFT_ADDR" (mc_RaftAddr c))
    (env_string env "METADATA_RAFT_ADVERTISE" (mc_RaftAdvertise c)) (env_string env "METADATA_RAFT_DIR" (mc_RaftDir c))
    peers boot rf suspect dead watch recon hb elect snap thr ret).

Definition LoadConfigDefaultFlow (readfile : string → res doc) (mkdir : string → option error) : res NodeConfig :=
  let path := env "METADATA_CONFIG" in
  let? cfg := (if decide (path = "") then Ok DefaultNodeConfig
               else match ApplyJSON (readfile path) DefaultNodeConfig with
                    | Ok c => Ok c
                    | Err e => Err (ErrWrap "failed to load config" e)
                    end) in
  match ApplyEnv cfg with
  | Err e => Err (ErrWrap "failed to apply env config" e)
  | Ok cfg =>
      match Validate mkdir cfg with
      | Some e => Err (ErrWrap "failed to validate config" e)
      | None => Ok cfg
      end
  end.
End environment.

(** ** Lemmas *)

Fixpoint no_space (s : string) : bool :=
  match s with
  | EmptyString => true
  | String c s' => negb (is_space c) && no_space s'
  end.

Lemma no_space_app a b : no_space (a +:+ b) = no_space a && no_space b.
Proof. induction a as [|c a IH]; simpl; [done|]. by rewrite IH, andb_assoc. Qed.

Lemma trim_right_id s : no_space s = true → trim_right s = s.
Proof.
  induction s as [|c s IH]; [done|]. simpl. intros [Hc Hs]%andb_true_iff. rewrite IH by done.
  apply negb_true_iff in Hc. rewrite Hc. by destruct s.
Qed.

Lemma TrimSpace_id s : no_space s = true → TrimSpace s = s.
Proof.
  intros Hs. unfold TrimSpace. assert (Hl : trim_left s = s).
  { destruct s as [|c s]; [done|]. simpl in *. apply andb_true_iff in Hs as [Hc _].
    apply negb_true_iff in Hc. by rewrite Hc. }
  rewrite Hl. by apply trim_right_id.
Qed.

Lemma cut_app sep a b : contains_char sep a = false → cut sep (a +:+ String sep b) = (a, Some b).
Proof.
  induction a as [|c a IH]; simpl; [by rewrite decide_True by done|].
  intros [Hc Ha]%orb_false_iff. apply bool_decide_eq_false in Hc. rewrite decide_False by done. by rewrite IH.
Qed.

(** A peer that can be written into the list. *)
Record peer_ok (kv : string * string) : Prop := {
  po_id : kv.1 ≠ "" ∧ no_space kv.1 = true ∧ contains_char ","%char kv.1 = false ∧ contains_char ":"%char kv.1 = false;
  po_addr : kv.2 ≠ "" ∧ no_space kv.2 = true ∧ contains_char ","%char kv.2 = false;
}.

#[global] Instance peer_ok_dec kv : Decision (peer_ok kv).
Proof.
  refine (cast_if_and
    (decide (kv.1 ≠ "" ∧ no_space kv.1 = true ∧ contains_char ","%char kv.1 = false ∧ contains_char ":"%char kv.1 = false))
    (decide (kv.2 ≠ "" ∧ no_space kv.2 = true ∧ contains_char ","%char kv.2 = false)));
    abstract (first [by split|intros []; naive_solver]).
Defined.

Definition print_peer (kv : string * string) : string := kv.1 +:+ ":" +:+ kv.2.
Definition print_peers (m : gmap string string) : string := join ","%char (print_peer <$> map_to_list m).

Lemma parse_print_peer kv : peer_ok kv → parse_peer (print_peer kv) = Some kv.
Proof.
  destruct kv as [id addr]. intros [(Hi0 & His & _ & Hic) (Ha0 & Has & _)]. simpl in *.
  unfold parse_peer. change (print_peer (id, addr)) with (id +:+ String ":"%char addr).
  rewrite TrimSpace_id; [|by rewrite no_space_app, His]. rewrite decide_False by (by destruct id). unfold split2. rewrite cut_app by done.
  rewrite !TrimSpace_id by done. by rewrite decide_False by (intros [|]; done).
Qed.

Lemma print_peer_clean kv : peer_ok kv → contains_char ","%char (print_peer kv) = false.
Proof.
  destruct kv as [id addr]. intros [(_ & _ & Hi & _) (_ & _ & Ha)]. simpl in *.
  change (print_peer (id, addr)) with (id +:+ String ":"%char addr).
  rewrite contains_char_app, Hi. exact Ha.
Qed.

Lemma parse_peers_fold l (acc : gmap string string) :
  Forall peer_ok l →
  foldl (λ m pair, match parse_peer pair with Some (id, addr) => <[id := addr]> m | None => m end) acc
    (print_peer <$> l) = foldl (λ m kv, <[kv.1 := id kv.2]> m) acc l.
Proof.
  intros Hl. revert acc. induction Hl as [|kv l Hkv _ IH]; intros acc; [done|]; simpl.
  rewrite parse_print_peer by done. destruct kv. apply IH.
Qed.

(** Reading back the printed peers, an empty list included. *)
Lemma parsePeerAddrs_print m : map_Forall (λ k v, peer_ok (k, v)) m → parsePeerAddrs (print_peers m) = m.
Proof.
  intros Hm. assert (Hl : Forall peer_ok (map_to_list m)).
  { apply Forall_forall. intros [k v] Hkv. apply Hm. by apply elem_of_map_to_list. }
  unfold parsePeerAddrs, print_peers. case_decide as Hs.
  - destruct (map_to_list m) as [|kv l] eqn:Heq; [symmetry; by apply map_to_list_empty_iff|].
    apply join_nonempty in Hs as []; [done|]. destruct kv as [[|c id] addr]; [|done].
    apply Forall_cons in Hl as [[[] _] _]. done.
  - destruct (map_to_list m) as [|kv l] eqn:Heq; [done|]. rewrite <-Heq in *.
    rewrite split_join.
    + rewrite parse_peers_fold by done.
      rewrite foldl_insert_fmap by apply NoDup_fst_map_to_list. rewrite list_to_map_to_list.
      by rewrite map_fmap_id, (right_id_L ∅ (∪)).
    + by rewrite Heq.
    + apply Forall_fmap. eapply Forall_impl; [exact Hl|]. apply print_peer_clean.
Qed.

Definition print_bool (b : bool) : string := if b then "true" else "false".

(** The environment that spells out a configuration. *)
Definition env_of_node (c : NodeConfig) (key : string) : string :=
  if decide (key = "METADATA_NODE_ID") then mc_NodeID c
  else if decide (key = "METADATA_GRPC_ADDR") then mc_GRPCAddr c
  else if decide (key = "METADATA_RAFT_ADDR") then mc_RaftAddr c
  else if decide (key = "METADATA_RAFT_ADVERTISE") then mc_RaftAdvertise c
  else if decide (key = "METADATA_RAFT_DIR") then mc_RaftDir c
  else if decide (key = "METADATA_PEER_ADDRS") then print_peers (mc_PeerAddrs c)
  else if decide (key = "METADATA_BOOTSTRAP") then print_bool (mc_Bootstrap c)
  else if decide (key = "METADATA_REPLICATION_FACTOR") then pretty (mc_ReplicationFactor c : Z)
  else if decide (key = "METADATA_SUSPECT_TIMEOUT") then print_ns (mc_SuspectTimeout c)
  else if decide (key = "METADATA_DEAD_TIMEOUT") then print_ns (mc_DeadTimeout c)
  else if decide (key = "METADATA_WATCHER_INTERVAL") then print_ns (mc_WatcherInterval c)
  else if decide (key = "METADATA_RECONCILE_DELAY") then print_ns (mc_ReconcileDelay c)
  else if decide (key = "METADATA_HEARTBEAT_TIMEOUT") then print_ns (mc_HeartbeatTimeout c)
  else if decide (key = "METADATA_ELECTION_TIMEOUT") then print_ns (mc_ElectionTimeout c)
  else if decide (key = "METADATA_SNAPSHOT_INTERVAL") then print_ns (mc_SnapshotInterval c)
  else if decide (key = "METADATA_SNAPSHOT_THRESHOLD") then pretty (Z.to_N (mc_SnapshotThreshold c))
  else if decide (key = "METADATA_SNAPSHOT_RETAIN") then pretty (mc_SnapshotRetain c : Z)
  else "".

Record node_config_typed (c : NodeConfig) : Prop := {
  nt_factor : is_int64 (mc_ReplicationFactor c);
  nt_durations : Forall is_int64 [mc_SuspectTimeout c; mc_DeadTimeout c; mc_WatcherInterval c; mc_ReconcileDelay c;
    mc_HeartbeatTimeout c; mc_ElectionTimeout c; mc_SnapshotInterval c];
  nt_threshold : is_uint64 (mc_SnapshotThreshold c);
  nt_retain : is_int64 (mc_SnapshotRetain c);
}.

Lemma Validate_node_spec mkdir c :
  Validate mkdir c = None ↔
    mc_NodeID c ≠ "" ∧ mc_GRPCAddr c ≠ "" ∧ mc_RaftAddr c ≠ "" ∧ mc_RaftDir c ≠ "" ∧ mkdir (mc_RaftDir c) = None.
Proof. unfold Validate. repeat case_decide; try naive_solver. destruct (mkdir _); naive_solver. Qed.

Lemma env_uint_set env key old (z : Z) :
  env key = pretty (Z.to_N z) → is_uint64 z → env_parse env ParseUint key old = Ok z.
Proof.
  intros Hk Hz. eapply env_parse_set; [exact Hk|apply pretty_N_nonempty|].
  unfold is_uint64 in Hz. rewrite ParseUint_pretty by lia. f_equal. lia.
Qed.

Lemma env_bool_set env key old b : env key = print_bool b → env_parse env ParseBool key old = Ok b.
Proof. intros Hk. eapply env_parse_set; [exact Hk|by destruct b|by destruct b]. Qed.

(** ** Properties *)

(** The environment determines the configuration of a metadata node too: for every
    configuration [Validate] accepts, whose numbers fit their types and whose peers can be
    written into a list, the variables that spell it out load exactly that configuration,
    the peer map included. *)
Theorem metadata_env_roundtrip (readfile : string → res doc) (mkdir : string → option error) (c : NodeConfig) :
  Validate mkdir c = None → node_config_typed c → map_Forall (λ k v, peer_ok (k, v)) (mc_PeerAddrs c) →
  LoadConfigDefaultFlow (env_of_node c) readfile mkdir = Ok c.
Proof.
  intros Hv [T1 T2 T3 T4] Hp. pose proof (proj1 (Validate_node_spec mkdir c) Hv) as (V1 & V2 & V3 & V4 & V5).
  rewrite !Forall_cons in T2. destruct T2 as (D1 & D2 & D3 & D4 & D5 & D6 & D7 & _).
  unfold LoadConfigDefaultFlow. change (env_of_node c "METADATA_CONFIG") with "". rewrite decide_True by done.
  cbn [res_bind]. unfold ApplyEnv.
  change (env_of_node c "METADATA_PEER_ADDRS") with (print_peers (mc_PeerAddrs c)).
  assert (Hpeers : (if decide (print_peers (mc_PeerAddrs c) = "") then mc_PeerAddrs DefaultNodeConfig
    else parsePeerAddrs (print_peers (mc_PeerAddrs c))) = mc_PeerAddrs c).
  { pose proof (parsePeerAddrs_print _ Hp) as Hpp. case_decide as He; [|done].
    rewrite He in Hpp. rewrite <-Hpp. done. }
  rewrite Hpeers.
  rewrite (env_bool_set _ "METADATA_BOOTSTRAP" _ (mc_Bootstrap c)) by done. cbn [res_bind].
  rewrite (env_int_set _ "METADATA_REPLICATION_FACTOR" _ (mc_ReplicationFactor c)) by done. cbn [res_bind].
  rewrite (env_duration_set _ "METADATA_SUSPECT_TIMEOUT" _ (mc_SuspectTimeout c)) by done. cbn [res_bind].
  rewrite (env_duration_set _ "METADATA_DEAD_TIMEOUT" _ (mc_DeadTimeout c)) by done. cbn [res_bind].
  rewrite (env_duration_set _ "METADATA_WATCHER_INTERVAL" _ (mc_WatcherInterval c)) by done. cbn [res_bind].
  rewrite (env_duration_set _ "METADATA_RECONCILE_DELAY" _ (mc_ReconcileDelay c)) by done. cbn [res_bind].
  rewrite (env_duration_set _ "METADATA_HEARTBEAT_TIMEOUT" _ (mc_HeartbeatTimeout c)) by done. cbn [res_bind].
  rewrite (env_duration_set _ "METADATA_ELECTION_TIMEOUT" _ (mc_ElectionTimeout c)) by done. cbn [res_bind].
  rewrite (env_duration_set _ "METADATA_SNAPSHOT_INTERVAL" _ (mc_SnapshotInterval c)) by done. cbn [res_bind].
  rewrite (env_uint_set _ "METADATA_SNAPSHOT_THRESHOLD" _ (mc_SnapshotThreshold c)) by done. cbn [res_bind].
  rewrite (env_int_set _ "METADATA_SNAPSHOT_RETAIN" _ (mc_SnapshotRetain c)) by done. cbn [res_bind].
  rewrite (env_string_set _ "METADATA_NODE_ID" _ (mc_NodeID c)) by done.
  rewrite (env_string_set _ "METADATA_GRPC_ADDR" _ (mc_GRPCAddr c)) by done.
  rewrite (env_string_set _ "METADATA_RAFT_ADDR" _ (mc_RaftAddr c)) by done.
  rewrite (env_string_set _ "METADATA_RAFT_ADVERTISE" _ (mc_RaftAdvertise c)) by done.
  rewrite (env_string_set _ "METADATA_RAFT_DIR" _ (mc_RaftDir c)) by done.
  destruct c; simpl in *. by rewrite Hv.
Qed.

Definition w_node_config : NodeConfig :=
  mkNodeConfig "m1" ":4001" "0.0.0.0:5001" "m1:5001" "/raft" {["m2" := "m2:5001"; "m3" := "m3:5001"]} true 3
    (8 * second) (20 * second) (2 * second) (15 * second) second (3 * second) minute 4096 3.

Lemma metadata_env_roundtrip_witness :
  LoadConfigDefaultFlow (env_of_node w_node_config) (λ _, Err ErrSyntax) (λ _, None) = Ok w_node_config.
Proof.
  apply (metadata_env_roundtrip (λ _, Err ErrSyntax) (λ _, None) w_node_config).
  - reflexivity.
  - split; compute_decide.
  - compute_decide.
Defined.

Lemma or_positive_pos z d : 0 < d → 0 < or_positive z d.
Proof. unfold or_positive. case_decide; lia. Qed.

Lemma or_default_ne s d : d ≠ "" → or_default s d ≠ "".
Proof. unfold or_default. by case_decide. Qed.

(** A configuration loaded with [LoadFromJSON] is complete and positive whatever the file
    says: it passes [Validate] if the directory can be made, and every interval, the
    replication factor and the snapshot settings are positive. *)
Theorem json_config_positive (file : res doc) (mkdir : string → option error) (c : NodeConfig) :
  LoadFromJSON file = Ok c → mkdir (mc_RaftDir c) = None →
  Validate mkdir c = None ∧ 0 < mc_ReplicationFactor c ∧ 0 < mc_SnapshotRetain c ∧ mc_SnapshotThreshold c ≠ 0 ∧
  Forall (Z.lt 0) [mc_SuspectTimeout c; mc_DeadTimeout c; mc_WatcherInterval c; mc_ReconcileDelay c;
    mc_HeartbeatTimeout c; mc_ElectionTimeout c; mc_SnapshotInterval c].
Proof.
  unfold LoadFromJSON. intros (c0 & _ & [= <-])%res_bind_Ok Hm. split_and!.
  - apply Validate_node_spec. split_and!; try exact Hm; by apply or_default_ne.
  - by apply or_positive_pos.
  - by apply or_positive_pos.
  - simpl. by case_decide.
  - repeat (apply Forall_cons; split; [by apply or_positive_pos|]). constructor.
Qed.

(** The environment that sets one variable. *)
Definition only (key v : string) (k : string) : string := if decide (k = key) then v else "".

(** The flow the program starts with never calls [Default]: an interval that is zero or
    negative is loaded as it is, and [time.NewTicker] panics on it. *)
Theorem flow_keeps_nonpositive_interval (readfile : string → res doc) (d : Z) :
  is_int64 d →
  ∃ c, LoadConfigDefaultFlow (only "METADATA_WATCHER_INTERVAL" (print_ns d)) readfile (λ _, None) = Ok c ∧
    mc_WatcherInterval c = d.
Proof.
  intros Hd. set (env := only _ _). unfold LoadConfigDefaultFlow. change (env "METADATA_CONFIG") with "".
  rewrite decide_True by done. cbn [res_bind]. unfold ApplyEnv.
  rewrite (env_duration_set env "METADATA_WATCHER_INTERVAL" _ d) by done.
  eexists. split; [reflexivity|done].
Qed.

(** [raft_advertise] in the file has no effect. *)
Theorem json_ignores_raft_advertise (file : res doc) (c c' : NodeConfig) :
  ApplyJSON file c = Ok c' → mc_RaftAdvertise c' = mc_RaftAdvertise c.
Proof. unfold ApplyJSON. intros Hc. res_inv. by simplify_eq. Qed.
