(* ===== verification/ClientConfig.v ===== *)
(** * The configuration of the client: client/internal/dfsclientconfig and dfsclient/options.go

    Defaults, the environment, the functional options of [dfsclient.New], [Validate] and
    the retry policy.  Unlike the servers' loaders, [LoadFromEnv] skips a variable it
    cannot parse.  The semaphore that bounds the parallel transfers of an upload or a
    download is modelled here too, as it is sized by the configuration alone. *)

From Stdlib Require Import Ascii.
From S2P Require Import Prelude GoFloat GoText Json Retry StorageConfig.

#[local] Open Scope Z_scope.

Definition MinChunkSize : Z := 64 * 1024.
Definition MaxChunkSize : Z := 64 * 1024 * 1024.
Definition MinFrameSize : Z := 4 * 1024.
Definition MaxFrameSize : Z := 4 * 1024 * 1024.

Record Config := mkConfig {
  cfg_MetadataAddrs : list string;
  cfg_ChunkSize : Z;
  cfg_MaxParallelUploads : Z;
  cfg_MaxParallelDownloads : Z;
  cfg_ManifestDir : string;
  cfg_OutputDir : string;
  cfg_RetryAttempts : Z;
  cfg_FrameSize : Z;
  cfg_RetryBaseBackoff : Duration;
  cfg_RetryMaxBackoff : Duration;
  cfg_RPCTimeout : Duration;
}.

Definition DefaultConfig : Config :=
  mkConfig ["localhost:50050"] (4 * 1024 * 1024) 4 4 "./manifests_logs" "./downloads_logs" 5 (32 * 1024)
    (100 * millisecond) (5 * second) (10 * second).

Definition cfg_RetryPolicy (c : Config) : Policy :=
  mkPolicy (cfg_RetryAttempts c) (cfg_RetryBaseBackoff c) (cfg_RetryMaxBackoff c) (fl_of_int 2).

Definition Validate (c : Config) : option error :=
  if decide (cfg_ChunkSize c < MinChunkSize ∨ MaxChunkSize < cfg_ChunkSize c) then
    Some (ErrNew "dfsclientconfig: chunk_size out of range")
  else if decide (cfg_FrameSize c < MinFrameSize ∨ MaxFrameSize < cfg_FrameSize c) then
    Some (ErrNew "dfsclientconfig: frame_size out of range")
  else if decide (cfg_RetryAttempts c < 1) then Some (ErrNew "dfsclientconfig: RetryAttempts must be >= 1")
  else if decide (cfg_RetryBaseBackoff c ≤ 0) then Some (ErrNew "dfsclientconfig: RetryBaseBackoff must be > 0")
  else if decide (cfg_RetryMaxBackoff c < cfg_RetryBaseBackoff c) then
    Some (ErrNew "dfsclientconfig: RetryMaxBackoff must be >= RetryBaseBackoff")
  else if decide (cfg_RPCTimeout c ≤ 0) then Some (ErrNew "dfsclientconfig: RPCTimeout must be > 0")
  else None.

(** A variable that does not parse is skipped. *)
Definition env_or {A} (env : string → string) (parse : string → res A) (key : string) (old : A) : A :=
  match env_parse env parse key old with Ok v => v | Err _ => old end.

Definition LoadFromEnv (env : string → string) : Config :=
  let d := DefaultConfig in
  mkConfig
    (if decide (env "METADATA_ADDRS" = "") then cfg_MetadataAddrs d else split ","%char (env "METADATA_ADDRS"))
    (env_or env ParseInt "CHUNK_SIZE" (cfg_ChunkSize d))
    (env_or env Atoi "MAX_PARALLEL_UPLOADS" (cfg_MaxParallelUploads d))
    (env_or env Atoi "MAX_PARALLEL_DOWNLOADS" (cfg_MaxParallelDownloads d))
    (env_string env "MANIFEST_DIR" (cfg_ManifestDir d))
    (env_string env "OUTPUT_DIR" (cfg_OutputDir d))
    (env_or env Atoi "RETRY_ATTEMPTS" (cfg_RetryAttempts d))
    (env_or env Atoi "FRAME_SIZE" (cfg_FrameSize d))
    (env_or env ParseDuration "RETRY_BASE_BACKOFF" (cfg_RetryBaseBackoff d))
    (env_or env ParseDuration "RETRY_MAX_BACKOFF" (cfg_RetryMaxBackoff d))
    (env_or env ParseDuration "RPC_TIMEOUT" (cfg_RPCTimeout d)).

(** ** Options *)

Inductive Option :=
| WithMetadataAddrs (addrs : list string)
| WithChunkSize (size : Z)
| WithMaxParallelUploads (n : Z)
| WithMaxParallelDownloads (n : Z)
| WithManifestDir (dir : string)
| WithOutputDir (dir : string)
| WithRetryAttempts (n : Z)
| WithFrameSize (size : Z)
| WithConfig (base : Config).

Definition apply_option (cfg : Config) (o : Option) : Config :=
  let '(mkConfig ma cs up down md od ra fs rb rm rt) := cfg in
  match o with
  | WithMetadataAddrs addrs => mkConfig addrs cs up down md od ra fs rb rm rt
  | WithChunkSize size => mkConfig ma size up down md od ra fs rb rm rt
  | WithMaxParallelUploads n => mkConfig ma cs n down md od ra fs rb rm rt
  | WithMaxParallelDownloads n => mkConfig ma cs up n md od ra fs rb rm rt
  | WithManifestDir dir => mkConfig ma cs up down dir od ra fs rb rm rt
  | WithOutputDir dir => mkConfig ma cs up down md dir ra fs rb rm rt
  | WithRetryAttempts n => mkConfig ma cs up down md od n fs rb rm rt
  | WithFrameSize size => mkConfig ma cs up down md od ra size rb rm rt
  | WithConfig base => base
  end.

(** The configuration [New] builds the client with; [connect] is the error of reaching the
    metadata service. *)
Definition New (opts : list Option) (connect : Config → option error) : res Config :=
  let cfg := foldl apply_option DefaultConfig opts in
  if decide (cfg_MetadataAddrs cfg = []) then Err (ErrNew "dfsclient: at least one metadata address is required")
  else
    match Validate cfg with
    | Some e => Err (ErrWrap "dfsclient" e)
    | None =>
        match connect cfg with
        | Some e => Err (ErrWrap "dfsclient: failed to connect to metadata service" e)
        | None => Ok cfg
        end
    end.

(** ** The semaphore of the transfer loops

    [semaphore <- struct{}{}] before each goroutine, [<-semaphore] at its end.  A send on a
    channel of capacity [cap] waits until fewer than [cap] values are buffered; with
    capacity zero it waits for a receiver, and the only receivers are goroutines that have
    already sent.  A negative capacity makes [make] panic. *)

Record launch := mkLaunch { la_todo : nat; la_running : nat; la_finished : nat }.

Inductive launch_step (cap : Z) : launch → launch → Prop :=
| ls_start t r f : Z.of_nat r < cap → launch_step cap (mkLaunch (S t) r f) (mkLaunch t (S r) f)
| ls_finish t r f : launch_step cap (mkLaunch t (S r) f) (mkLaunch t r (S f)).

(** ** Lemmas *)

Definition launch_measure (l : launch) : nat := 2 * la_todo l + la_running l.

Lemma launch_decreases cap l l' : launch_step cap l l' → launch_measure l = S (launch_measure l').
Proof. destruct 1; unfold launch_measure; simpl; lia. Qed.

Definition launch_inv (cap : Z) (n : nat) (l : launch) : Prop :=
  (la_todo l + la_running l + la_finished l = n)%nat ∧ (Z.of_nat (la_running l) ≤ Z.max cap 0).

Lemma launch_step_inv cap n l l' : launch_step cap l l' → launch_inv cap n l → launch_inv cap n l'.
Proof. unfold launch_inv. destruct 1; simpl; lia. Qed.

Lemma launch_run cap n k l l' :
  nsteps (launch_step cap) k l l' → launch_inv cap n l →
  launch_inv cap n l' ∧ launch_measure l = (k + launch_measure l')%nat.
Proof.
  induction 1 as [l|k l l1 l2 Hs _ IH]; intros Hi; [done|].
  destruct (IH (launch_step_inv _ _ _ _ Hs Hi)) as [Hi' Hm]. split; [done|].
  rewrite (launch_decreases _ _ _ Hs). lia.
Qed.

Lemma launch_progress cap l : 0 < cap → (la_todo l + la_running l ≠ 0)%nat → ∃ l', launch_step cap l l'.
Proof.
  intros Hc Hne. destruct l as [t [|r] f]; simpl in *; [|eexists; apply ls_finish].
  destruct t as [|t]; [lia|]. eexists. by apply ls_start.
Qed.

(** ** Properties *)

(** With a positive limit the transfer loop always ends: never more goroutines run than
    the limit allows, every schedule of starts and ends takes at most two steps per chunk,
    and where no step is possible all chunks have been handled. *)
Theorem launch_terminates (cap : Z) (n k : nat) (l : launch) :
  0 < cap → nsteps (launch_step cap) k (mkLaunch n 0 0) l →
  (k ≤ 2 * n)%nat ∧ Z.of_nat (la_running l) ≤ cap ∧
  ((∀ l', ¬ launch_step cap l l') → l = mkLaunch 0 0 n).
Proof.
  intros Hc Hr. destruct (launch_run cap n k _ l Hr) as [[Hsum Hb] Hm].
  { split; simpl; lia. }
  unfold launch_measure in Hm. simpl in Hm. split_and!; [lia..|]. intros Hstuck.
  destruct (decide (la_todo l + la_running l = 0)%nat) as [H0|Hne].
  - destruct l as [t r f]; simpl in *. f_equal; lia.
  - destruct (launch_progress cap l Hc Hne) as [l' Hl']. by destruct (Hstuck l').
Qed.

Lemma launch_terminates_witness : (4 ≤ 2 * 2)%nat ∧ Z.of_nat (la_running (mkLaunch 0 0 2)) ≤ 1.
Proof.
  assert (Hr : nsteps (launch_step 1) 4 (mkLaunch 2 0 0) (mkLaunch 0 0 2)).
  { eapply nsteps_l; [by apply ls_start|]. eapply nsteps_l; [by apply ls_finish|].
    eapply nsteps_l; [by apply ls_start|]. eapply nsteps_l; [by apply ls_finish|]. apply nsteps_O. }
  pose proof (launch_terminates 1 2 4 (mkLaunch 0 0 2) ltac:(lia) Hr) as (H1 & H2 & _).
  split; [exact H1|exact H2].
Defined.

(** [Validate] does not look at the limits: a configuration with a limit of zero is
    accepted by [New], and then the transfer loop of a non-empty file cannot take its first
    step and waits forever. *)
Theorem zero_parallel_deadlocks :
  ∃ cfg, New [WithMaxParallelUploads 0] (λ _, None) = Ok cfg ∧ cfg_MaxParallelUploads cfg = 0 ∧
    ∀ n l', ¬ launch_step (cfg_MaxParallelUploads cfg) (mkLaunch n 0 0) l'.
Proof.
  eexists. split; [reflexivity|]. split; [done|]. intros n l' Hs. inversion Hs. subst. simpl in *. lia.
Qed.

(** A client that [New] accepts sends chunks and frames of sizes the servers accept, and
    retries with a policy that backs off. *)
Theorem new_client_config_sound (opts : list Option) (connect : Config → option error) (cfg : Config) :
  New opts connect = Ok cfg →
  MinChunkSize ≤ cfg_ChunkSize cfg ≤ MaxChunkSize ∧ MinFrameSize ≤ cfg_FrameSize cfg ≤ MaxFrameSize ∧
  cfg_MetadataAddrs cfg ≠ [] ∧ 1 ≤ MaxAttempts (cfg_RetryPolicy cfg) ∧
  (cfg_RetryMaxBackoff cfg < 2 ^ 53 → sane (cfg_RetryPolicy cfg)).
Proof.
  unfold New, Validate. cbv zeta. set (c := foldl _ _ _). repeat (case_decide; [done|]).
  destruct (connect c); [done|]. intros [= <-]. split_and!; try lia; [done|simpl; lia|].
  intros Hm. split; simpl; [lia|lia|by vm_compute].
Qed.
