(* ===== verification/MetaApp.v ===== *)
(** * The metadata process: metadata/app.go and metadata/raft.go

    How a metadata node is put together and started, and how it makes its gRPC address
    known for redirects.  Raft itself, its stores and the operating system are the
    parameters [RaftOS]: resolving an address, making a transport, a snapshot store, the
    Raft node, bootstrapping.  Raft reports as the leader's address the resolved address
    the leader's transport advertises. *)

From S2P Require Import Prelude GoLib Util Json FsmTypes Fsm FsmCommands FsmInv FsmEquiv FsmSnapshot Placement World Scheduler Reconcile.
From S2P Require Import MetaServer Retry StorageConfig MetaConfig.

(** ** raft.go *)

Record RaftOS := mkRaftOS {
  resolve_tcp : string → res string;               (* [net.ResolveTCPAddr], printed *)
  new_transport : string → string → option error;  (* bind and advertised address *)
  new_snapshots : string → Z → option error;
  new_raft : option error;
  bootstrap : list (string * string) → option error;
}.

Record RaftNode := mkRaftNode {
  rf_LocalID : string;
  rf_LocalAddr : string;                           (* what the transport advertises *)
  rf_Bootstrapped : option (list (string * string));
}.

Definition advertiseAddr (c : NodeConfig) : string :=
  if decide (mc_RaftAdvertise c = "") then mc_RaftAddr c else mc_RaftAdvertise c.

(** This node first, then the peers. *)
Definition bootstrap_servers `{!MapRange} (c : NodeConfig) : list (string * string) :=
  (mc_NodeID c, advertiseAddr c) :: map_range (mc_PeerAddrs c).

Definition NewRaftNode `{!MapRange} (os : RaftOS) (c : NodeConfig) : res RaftNode :=
  match resolve_tcp os (advertiseAddr c) with
  | Err e => Err (ErrWrap "resolve raft addr" e)
  | Ok addr =>
      match new_transport os (mc_RaftAddr c) addr with
      | Some e => Err (ErrWrap "create transport" e)
      | None =>
          match new_snapshots os (mc_RaftDir c) (mc_SnapshotRetain c) with
          | Some e => Err (ErrWrap "create snapshot store" e)
          | None =>
              match new_raft os with
              | Some e => Err (ErrWrap "create raft" e)
              | None =>
                  if mc_Bootstrap c then
                    match bootstrap os (bootstrap_servers c) with
                    | Some e => Err (ErrWrap "bootstrap cluster" e)
                    | None => Ok (mkRaftNode (mc_NodeID c) addr (Some (bootstrap_servers c)))
                    end
                  else Ok (mkRaftNode (mc_NodeID c) addr None)
              end
          end
      end
  end.

(** ** app.go *)

(** [reconcile.StorageClient]: the error of [DeleteChunk] at an address. *)
Definition StorageClient : Type := string → string → option error.

Record MetadataApp := mkMetadataApp {
  ma_Config : NodeConfig;
  ma_logger : Logger;
  ma_sourcePlacement : PlacementStrategy;
  ma_targetPlacement : PlacementStrategy;
  ma_storageClient : option StorageClient;
  ma_FSM : MetadataFSM;
  ma_raft : option RaftNode;
  ma_store : bool;                                 (* the Bolt store is open *)
  ma_Scheduler : option Sched;
  ma_watcher : option (Duration * Duration);       (* suspect timeout and interval *)
  ma_reconciler : option (Duration * Z);           (* delay and replication factor *)
  ma_grpcLis : option string;
  ma_serving : bool;                               (* the gRPC server serves *)
  ma_running : bool;                               (* scheduler and watcher are started *)
}.

Definition AppOption : Type := MetadataApp → MetadataApp.

Definition WithLogger (logger : Logger) : AppOption := λ a,
  mkMetadataApp (ma_Config a) logger (ma_sourcePlacement a) (ma_targetPlacement a) (ma_storageClient a) (ma_FSM a) (ma_raft a)
    (ma_store a) (ma_Scheduler a) (ma_watcher a) (ma_reconciler a) (ma_grpcLis a) (ma_serving a) (ma_running a).
Definition WithSourcePlacement (strategy : PlacementStrategy) : AppOption := λ a,
  mkMetadataApp (ma_Config a) (ma_logger a) strategy (ma_targetPlacement a) (ma_storageClient a) (ma_FSM a) (ma_raft a)
    (ma_store a) (ma_Scheduler a) (ma_watcher a) (ma_reconciler a) (ma_grpcLis a) (ma_serving a) (ma_running a).
Definition WithTargetPlacement (strategy : PlacementStrategy) : AppOption := λ a,
  mkMetadataApp (ma_Config a) (ma_logger a) (ma_sourcePlacement a) strategy (ma_storageClient a) (ma_FSM a) (ma_raft a)
    (ma_store a) (ma_Scheduler a) (ma_watcher a) (ma_reconciler a) (ma_grpcLis a) (ma_serving a) (ma_running a).
Definition WithStorageClient (client : StorageClient) : AppOption := λ a,
  mkMetadataApp (ma_Config a) (ma_logger a) (ma_sourcePlacement a) (ma_targetPlacement a) (Some client) (ma_FSM a) (ma_raft a)
    (ma_store a) (ma_Scheduler a) (ma_watcher a) (ma_reconciler a) (ma_grpcLis a) (ma_serving a) (ma_running a).

(** The options [NewMetadataApp] knows. *)
Inductive app_option : AppOption → Prop :=
| ao_logger l : app_option (WithLogger l)
| ao_source s : app_option (WithSourcePlacement s)
| ao_target s : app_option (WithTargetPlacement s)
| ao_client c : app_option (WithStorageClient c).

Definition initFSM (a : MetadataApp) : MetadataApp :=
  mkMetadataApp (ma_Config a) (ma_logger a) (ma_sourcePlacement a) (ma_targetPlacement a) (ma_storageClient a) NewEmptyMetadataFsm
    (ma_raft a) (ma_store a) (ma_Scheduler a) (ma_watcher a) (ma_reconciler a) (ma_grpcLis a) (ma_serving a) (ma_running a).

(** metadata/store/boltstore.go; [open] is what [raftboltdb.NewBoltStore] returns. *)
Definition NewBoltStore {Db} (open : string → res Db) (path : string) : res Db :=
  match open path with Err e => Err (ErrWrap ("open bolt store at " +:+ path) e) | Ok db => Ok db end.

(** [stat] tells whether the Raft directory is there and is one; [bolt] is the error of
    opening the store. *)
Definition initStore (stat : res bool) (bolt : option error) (a : MetadataApp) : res MetadataApp :=
  match stat with
  | Err e => Err e
  | Ok false => Err (ErrNew "raftDir does not exist")
  | Ok true =>
      match bolt with
      | Some e => Err e
      | None =>
          Ok (mkMetadataApp (ma_Config a) (ma_logger a) (ma_sourcePlacement a) (ma_targetPlacement a) (ma_storageClient a) (ma_FSM a)
            (ma_raft a) true (ma_Scheduler a) (ma_watcher a) (ma_reconciler a) (ma_grpcLis a) (ma_serving a) (ma_running a))
      end
  end.

Definition initRaft `{!MapRange} (os : RaftOS) (a : MetadataApp) : res MetadataApp :=
  let? raft := NewRaftNode os (ma_Config a) in
  Ok (mkMetadataApp (ma_Config a) (ma_logger a) (ma_sourcePlacement a) (ma_targetPlacement a) (ma_storageClient a) (ma_FSM a)
    (Some raft) (ma_store a) (ma_Scheduler a) (ma_watcher a) (ma_reconciler a) (ma_grpcLis a) (ma_serving a) (ma_running a)).

(** [thin] is [NewThinStorageClient].  [None]: the process ends in [FatalError]. *)
Definition initWorkers (thin : StorageClient) (a : MetadataApp) : option MetadataApp :=
  let rf := ReplicationCount (ma_Config a) in
  let client := default thin (ma_storageClient a) in
  match NewReconciler rf with
  | Err _ => None
  | Ok r =>
      Some (mkMetadataApp (ma_Config a) (ma_logger a) (ma_sourcePlacement a) (ma_targetPlacement a) (Some client) (ma_FSM a)
        (ma_raft a) (ma_store a) (Some (NewRepairScheduler rf))
        (Some (mc_SuspectTimeout (ma_Config a), mc_WatcherInterval (ma_Config a)))
        (Some (mc_ReconcileDelay (ma_Config a), r))
        (ma_grpcLis a) (ma_serving a) (ma_running a))
  end.

(** The logger of an application without options, with [LOG_LEVEL] unset. *)
Definition app_logger : Logger := With [("component", TextV "MetadataApp")] (NewCLogger (λ _, "")).

Definition NewMetadataApp `{!Env, !MapRange, !GoSort} (mkdir : string → option error) (stat : res bool) (bolt : option error)
    (os : RaftOS) (config : NodeConfig) (opts : list AppOption) : option (res MetadataApp) :=
  match MetaConfig.Validate mkdir config with
  | Some e => Some (Err e)
  | None =>
      let app := mkMetadataApp config app_logger LeastLoadedStrategy MostFreeSpaceStrategy None NewEmptyMetadataFsm None false None None
        None None false false in
      let app := foldl (λ a opt, opt a) app opts in
      match initStore stat bolt (initFSM app) with
      | Err e => Some (Err e)
      | Ok app =>
          match initRaft os app with
          | Err e => Some (Err e)
          | Ok app => Ok <$> initWorkers delete_rpc app
          end
      end
  end.

Definition BoundGRPCAddr (a : MetadataApp) : string := default "" (ma_grpcLis a).

Section run.
Context `{!Env, !MapRange, !GoSort}.

(** [LeaderRaftAddr], through [raftutil.LeaderAddress] *)
Definition LeaderRaftAddr (a : MetadataApp) : string := leader_addr.

(** [raftProposer] *)
Definition raftProposer_IsLeader : M bool := mret is_leader.
Definition raftProposer_Propose (cmd : MetadataCommand) : M (option error) := Propose cmd.

Definition registration (a : MetadataApp) : CommandRegisterMetadataNode :=
  mkCommandRegisterMetadataNode (mc_NodeID (ma_Config a)) (mc_RaftAddr (ma_Config a)) (BoundGRPCAddr a).

(** [registerInFSM]; errors are only logged. *)
Definition registerInFSM (a : MetadataApp) : M unit :=
  if negb is_leader then mret tt
  else _ ← Propose (encode (RegisterMetadataNodeC (registration a))); mret tt.

(** What the goroutine that watches the leadership finds ready: the context is done, or
    [LeaderCh] has a value or is closed. *)
Inductive lead_event := CtxDone | LeaderCh (isLeader : option bool).

(** One round of its loop; [false] ends it. *)
Definition leader_change (ev : lead_event) (a : MetadataApp) : M bool :=
  match ev with
  | CtxDone => mret false
  | LeaderCh None => mret false
  | LeaderCh (Some isLeader) => (if isLeader then registerInFSM a else mret tt);; mret true
  end.

Definition started (a : MetadataApp) : MetadataApp :=
  mkMetadataApp (ma_Config a) (ma_logger a) (ma_sourcePlacement a) (ma_targetPlacement a) (ma_storageClient a) (ma_FSM a)
    (ma_raft a) (ma_store a) (ma_Scheduler a) (ma_watcher a) (ma_reconciler a) (ma_grpcLis a) (ma_serving a) true.

Definition serving (lis : string) (a : MetadataApp) : MetadataApp :=
  mkMetadataApp (ma_Config a) (ma_logger a) (ma_sourcePlacement a) (ma_targetPlacement a) (ma_storageClient a) (ma_FSM a)
    (ma_raft a) (ma_store a) (ma_Scheduler a) (ma_watcher a) (ma_reconciler a) (Some lis) true (ma_running a).

(** metadata/server/server.go: the keepalive parameters of the server. *)
Record KeepaliveParams := mkKeepalive {
  ka_MaxConnectionIdle : Duration;
  ka_MaxConnectionAge : Duration;
  ka_MaxConnectionAgeGrace : Duration;
  ka_Time : Duration;
  ka_Timeout : Duration;
  ka_MinTime : Duration;
  ka_PermitWithoutStream : bool;
}.

(** The server that [NewGRPCServer] returns has one service: the handler. *)
Definition NewGRPCServer (src tgt : PlacementStrategy) (rf : Z) : KeepaliveParams * (request → M reply) :=
  (mkKeepalive (5 * 60 * second)%Z (30 * 60 * second)%Z (5 * 60 * second)%Z (30 * second)%Z (10 * second)%Z (10 * second)%Z true,
   handle src tgt rf).

(** [serve] is what [Serve] returns once it ends. *)
Definition StartGRPCServer (listen : string → res string) (serve : string → option error) (addr : string) : option error :=
  match listen addr with
  | Err e => Some (ErrWrap ("listen on " +:+ addr) e)
  | Ok lis => serve lis
  end.

(** [wait] is the outcome of [WaitForLeader], [listen] of [net.Listen]. *)
Definition Run (wait : option error) (listen : string → res string) (a : MetadataApp) : M (option error * MetadataApp) :=
  match wait with
  | Some e => mret (Some e, a)
  | None =>
      let a1 := started a in
      match listen (mc_GRPCAddr (ma_Config a)) with
      | Err e => mret (Some e, a1)
      | Ok lis =>
          let a2 := serving lis a1 in
          registerInFSM a2;; mret (None, a2)
      end
  end.

(** [raftErr] and [storeErr] are the errors of shutting Raft and the store down; they are
    logged, and the records are returned.  [Shutdown] itself returns no error. *)
Definition Shutdown (raftErr storeErr : option error) (a : MetadataApp) : list log_record * MetadataApp :=
  let logged msg err := match err with Some e => CLogger_Error (ma_logger a) msg (Some e) [] | None => [] end in
  let recs := log_at LevelInfo "stopping metadata app" [] (ma_logger a) ++
    (if decide (is_Some (ma_raft a)) then logged "raft shutdown error" raftErr else []) ++
    (if ma_store a then logged "bolt store close error" storeErr else []) ++
    log_at LevelInfo "metadata app stopped" [] (ma_logger a) in
  (recs, mkMetadataApp (ma_Config a) (ma_logger a) (ma_sourcePlacement a) (ma_targetPlacement a) (ma_storageClient a) (ma_FSM a)
    (ma_raft a) false (ma_Scheduler a) (ma_watcher a) (ma_reconciler a) (ma_grpcLis a) false false).
End run.

(** ** Lemmas *)

Lemma ReplicationCount_pos c : (0 < ReplicationCount c)%Z.
Proof. unfold ReplicationCount, DefaultReplicationFactor. case_decide; lia. Qed.

Lemma options_keep_config opts a : Forall app_option opts → ma_Config (foldl (λ a opt, opt a) a opts) = ma_Config a.
Proof. intros Ho. revert a. induction Ho as [|opt opts H _ IH]; intros a; simpl; [done|]. rewrite IH. by destruct H. Qed.

Lemma new_app_config `{!Env, !MapRange, !GoSort} mkdir stat bolt os config opts a :
  Forall app_option opts → NewMetadataApp mkdir stat bolt os config opts = Some (Ok a) → ma_Config a = config.
Proof.
  intros Hopts. unfold NewMetadataApp. destruct (MetaConfig.Validate mkdir config); [done|]. cbv zeta.
  match goal with |- context [initFSM ?x] => set (app := x) end.
  assert (Hcfg : ma_Config app = config) by (by apply options_keep_config).
  unfold initStore. destruct stat as [[]|]; try done. destruct bolt; [done|]. unfold initRaft. cbn [ma_Config initFSM].
  destruct (NewRaftNode _ _); [|done]. cbn [res_bind]. unfold initWorkers. destruct (NewReconciler _); [|done].
  by intros [= <-].
Qed.

Lemma Run_config `{!Env, !MapRange} wait listen a w err a' w' :
  Run wait listen a w = ((err, a'), w') → ma_Config a' = ma_Config a.
Proof.
  unfold Run. destruct wait; [by intros [= _ <- _]|]. simpl. destruct (listen _); [|by intros [= _ <- _]].
  unfold mbind, M_bind, mret, M_ret. destruct (registerInFSM _ w). by intros [= _ <- _].
Qed.

Lemma registerInFSM_run `{!Env, !MapRange, !Committing _} a w :
  is_leader = true →
  mdNodeRegistry (wd_fsm (registerInFSM a w).2) =
    <[mc_RaftAddr (ma_Config a) := mkMetadataNodeEntry (mc_NodeID (ma_Config a)) (mc_RaftAddr (ma_Config a)) (BoundGRPCAddr a)]>
      (mdNodeRegistry (wd_fsm w)).
Proof.
  intros Hl. unfold registerInFSM. rewrite Hl. simpl. unfold mbind, M_bind. by rewrite Propose_committed by done.
Qed.

(** Whatever Raft makes of it, a registration touches no other address. *)
Lemma registerInFSM_other `{!Env, !MapRange} a w addr :
  addr ≠ mc_RaftAddr (ma_Config a) →
  mdNodeRegistry (wd_fsm (registerInFSM a w).2) !! addr = mdNodeRegistry (wd_fsm w) !! addr.
Proof.
  intros Hne. unfold registerInFSM. destruct is_leader; [|done]. simpl. unfold mbind, M_bind.
  destruct (Propose_effect (RegisterMetadataNodeC (registration a)) w) as [He _]; [done|].
  destruct (Propose _ w) as [e w1]. simpl in *. destruct He as [-> | ->]; [done|]. simpl. by rewrite lookup_insert_ne.
Qed.

(** ** Redirects *)

(** The metadata nodes as a client sees them: the leader's gRPC address is [g], every other
    node is a follower with a state [wF] of its own; [w] is the leader's. *)
Definition redirecting_rpc `{!MapRange, !GoSort} (EL EF : Env) (src tgt : PlacementStrategy) (rf : Z) (req : request) (g : string)
    (wF : World) (attempt : nat) (addr : string) (w : World) : (response + error) * option string * World :=
  let '(rp, w') :=
    if decide (addr = g) then @handle EL _ _ src tgt rf req w else ((@handle EF _ _ src tgt rf req wF).1, w) in
  (match rp_result rp with Ok r => inl r | Err e => inr e end, rp_trailer rp, w').

(** ** Properties *)

(** C35. A metadata node that starts as the leader makes redirects work: when Raft reports
    it under its configured address and its proposal commits, a client connected to any
    follower that has applied the leader's registration, whatever else it has applied, is
    sent, by one redirect, to the gRPC address the leader's listener bound, and its call is
    answered by the leader's handler, run once. *)
Theorem started_leader_redirects {Range0 : MapRange} {Sort0 : GoSort} (EL EF : Env) {Commit0 : Committing EL}
    (src tgt : PlacementStrategy) (rf : Z) (dial : string → option error) (p : Policy) (amb : Ambient)
    (listen : string → res string) (a : MetadataApp) (n : RaftNode) (g : string) (w0 w2 wF : World) (req : request) (r : response)
    (c : LeaderCache) :
  @is_leader EL = true → @is_leader EF = false → ma_raft a = Some n → @leader_addr EF = rf_LocalAddr n →
  rf_LocalAddr n = mc_RaftAddr (ma_Config a) → mc_RaftAddr (ma_Config a) ≠ "" → listen (mc_GRPCAddr (ma_Config a)) = Ok g →
  currentAddr c ≠ g → cache_ok c → dial g = None → (2 ≤ MaxAttempts p)%Z → ctx_err amb 0 = None → ctx_err amb 1 = None →
  let '((err, a'), w1) := @Run EL _ None listen a w0 in
  mdNodeRegistry (wd_fsm wF) !! mc_RaftAddr (ma_Config a) = mdNodeRegistry (wd_fsm w1) !! mc_RaftAddr (ma_Config a) →
  @run_handler EL _ _ src tgt rf req w1 = (Ok r, w2) →
  err = None ∧ BoundGRPCAddr a' = g ∧
  ∃ c', Invoke dial p amb (redirecting_rpc EL EF src tgt rf req g wF) c w1 = (inl r, c', w2) ∧ conn c' = Some g.
Proof.
  intros HL HF Hn Hlead Haddr Hne Hlis Hfg [Hc _] Hd Hp Ha0 Ha1. unfold Run. rewrite Hlis.
  unfold mbind at 1, M_bind at 1. set (a2 := serving g (started a)).
  pose proof (@registerInFSM_run EL _ _ a2 w0 HL) as Hreg.
  destruct (@registerInFSM EL _ a2 w0) as [[] w1]. cbn [snd] in Hreg. intros HwF Hrun. split; [done|]. split; [done|].
  destruct (Z.to_nat (MaxAttempts p)) as [|[|k]] eqn:Hk; [lia..|]. unfold Invoke. rewrite Hk. cbn [invoke_loop]. rewrite Ha0, Hc.
  unfold redirecting_rpc at 1. rewrite decide_False by done. unfold handle at 1 2. rewrite HF. cbn [negb].
  unfold leaderRedirect. rewrite Hlead, Haddr, decide_False by done. unfold GetMetadataNodeByRaftAddr. rewrite HwF.
  change (mc_RaftAddr (ma_Config a)) with (mc_RaftAddr (ma_Config a2)). rewrite Hreg, lookup_insert_eq.
  cbn [fst mn_GrpcAddr rp_result rp_trailer]. unfold redirect. cbn [FromError status]. unfold Update.
  change (BoundGRPCAddr a2) with g. rewrite Hd.
  rewrite decide_False by naive_solver. cbn [conn]. rewrite Ha1. unfold redirecting_rpc. rewrite decide_True by done.
  unfold handle. rewrite HL. cbn [negb]. rewrite Hrun. simpl. eexists. by split.
Qed.

Definition w_app_config : NodeConfig := mkNodeConfig "m1" ":9090" "m1:7000" "" "/raft" ∅ true 3 1%Z 1%Z 1%Z 1%Z 1%Z 1%Z 1%Z 1%Z 1%Z.
Definition w_raft_os : RaftOS := mkRaftOS Ok (λ _ _, None) (λ _ _, None) None (λ _, None).
Definition w_app : MetadataApp :=
  mkMetadataApp w_app_config app_logger LeastLoadedStrategy MostFreeSpaceStrategy None NewEmptyMetadataFsm
    (Some (mkRaftNode "m1" "m1:7000" None)) true None None None None false false.
Definition w_bind (_ : string) : res string := Ok "m1:9090".

Lemma started_leader_redirects_witness : ∃ c',
  Invoke (λ _, None) DefaultPolicy calm
    (redirecting_rpc demo_Env w_follower_Env LeastLoadedStrategy MostFreeSpaceStrategy 3 (ListFilesReq "") "m1:9090"
      (@Run demo_Env _ None w_bind w_app (initial_world 3)).2)
    (mkLeaderCache "m2:9090" ["m2:9090"] 0 (Some "m2:9090")) (@Run demo_Env _ None w_bind w_app (initial_world 3)).2
    = (inl (ListFilesResp []), c', (@Run demo_Env _ None w_bind w_app (initial_world 3)).2) ∧ conn c' = Some "m1:9090".
Proof.
  pose proof (@started_leader_redirects _ _ demo_Env w_follower_Env _ LeastLoadedStrategy MostFreeSpaceStrategy 3
    (λ _, None) DefaultPolicy calm w_bind w_app (mkRaftNode "m1" "m1:7000" None) "m1:9090" (initial_world 3)
    (@Run demo_Env _ None w_bind w_app (initial_world 3)).2 (@Run demo_Env _ None w_bind w_app (initial_world 3)).2 (ListFilesReq "") (ListFilesResp [])
    (mkLeaderCache "m2:9090" ["m2:9090"] 0 (Some "m2:9090")) eq_refl eq_refl eq_refl eq_refl eq_refl
    ltac:(discriminate) eq_refl ltac:(discriminate) ltac:(split; [reflexivity|compute_decide]) eq_refl
    ltac:(vm_compute; discriminate) eq_refl eq_refl) as H.
  destruct (@Run demo_Env _ None w_bind w_app (initial_world 3)) as [[err a'] w1] eqn:Hw.
  assert (Hrun : @run_handler demo_Env _ _ LeastLoadedStrategy MostFreeSpaceStrategy 3 (ListFilesReq "") w1 = (Ok (ListFilesResp []), w1)).
  { assert (Hw1 : w1 = (@Run demo_Env _ None w_bind w_app (initial_world 3)).2) by (rewrite Hw; reflexivity).
    rewrite Hw1. vm_compute. reflexivity. }
  destruct (H eq_refl Hrun) as (_ & _ & c' & H1 & H2). exists c'. split; [exact H1|exact H2].
Defined.

(** A leader that Raft reports under another address than the configured one is never
    found: whatever nodes register, as often as they like and with whatever Raft outcomes,
    as long as none of them has that address configured, a follower's refusal carries no
    redirect. *)
Theorem advertised_leader_not_found {Range0 : MapRange} {Sort0 : GoSort} (EF : Env) (src tgt : PlacementStrategy) (rf : Z)
    (runs : list (Env * MetadataApp)) (w : World) (req : request) :
  @is_leader EF = false → mdNodeRegistry (wd_fsm w) !! @leader_addr EF = None →
  Forall (λ ea, mc_RaftAddr (ma_Config ea.2) ≠ @leader_addr EF) runs →
  let w' := foldl (λ w ea, (@registerInFSM ea.1 _ ea.2 w).2) w runs in
  rp_trailer (@handle EF _ _ src tgt rf req w').1 = None.
Proof.
  intros HF Hno Hruns w'. assert (Hw' : mdNodeRegistry (wd_fsm w') !! @leader_addr EF = None).
  { unfold w'. clear w'. revert w Hno. induction Hruns as [|[E a] runs Hne _ IH]; intros w Hno; simpl; [done|].
    apply IH. by rewrite registerInFSM_other. }
  unfold handle. rewrite HF. cbn [negb fst]. unfold leaderRedirect, GetMetadataNodeByRaftAddr. case_decide; [done|]. by rewrite Hw'.
Qed.

(** The configuration of docs/configuration.md: all nodes bind 0.0.0.0 and advertise a name. *)
Definition w_docker_config : NodeConfig :=
  mkNodeConfig "m1" ":4001" "0.0.0.0:5001" "m1:7000" "/raft" ∅ true 3 1%Z 1%Z 1%Z 1%Z 1%Z 1%Z 1%Z 1%Z 1%Z.
Definition w_docker_app : MetadataApp :=
  mkMetadataApp w_docker_config app_logger LeastLoadedStrategy MostFreeSpaceStrategy None NewEmptyMetadataFsm
    (Some (mkRaftNode "m1" "m1:7000" None)) true None None None (Some "[::]:4001") true true.

Lemma advertised_leader_not_found_witness :
  rp_trailer (@handle w_follower_Env _ _ LeastLoadedStrategy MostFreeSpaceStrategy 3 (GetFileReq "f1")
    (@registerInFSM demo_Env _ w_docker_app (initial_world 3)).2).1 = None.
Proof.
  apply (@advertised_leader_not_found _ _ w_follower_Env LeastLoadedStrategy MostFreeSpaceStrategy 3
    [(demo_Env, w_docker_app)] (initial_world 3) (GetFileReq "f1") eq_refl eq_refl).
  constructor; [discriminate|constructor].
Defined.

(** Building the application never ends the process: it returns an application or an
    error; the application holds the configured Raft node over an open store, a scheduler
    whose factor lies between 1 and 10, a reconciler with a positive factor and a storage
    client, the last one given or the thin one. *)
Theorem new_app_total {Env0 : Env} {Range0 : MapRange} {Sort0 : GoSort} (mkdir : string → option error) (stat : res bool)
    (bolt : option error) (os : RaftOS) (config : NodeConfig) (opts : list AppOption) :
  Forall app_option opts →
  match NewMetadataApp mkdir stat bolt os config opts with
  | None => False
  | Some (Err _) => True
  | Some (Ok a) =>
      ma_Config a = config ∧ (∃ n, ma_raft a = Some n ∧ NewRaftNode os config = Ok n) ∧ ma_store a = true ∧
      (∃ sched, ma_Scheduler a = Some sched ∧ sched_ok sched) ∧ is_Some (ma_storageClient a) ∧
      ∃ delay rf, ma_reconciler a = Some (delay, rf) ∧ (0 < rf)%Z
  end.
Proof.
  intros Hopts. unfold NewMetadataApp. destruct (MetaConfig.Validate mkdir config); [done|].
  cbv zeta. match goal with |- context [initFSM ?x] => set (app := x) end.
  assert (Hcfg : ma_Config app = config) by (by apply options_keep_config).
  unfold initStore. destruct stat as [[]|]; try done. destruct bolt; [done|]. unfold initRaft. cbn [ma_Config initFSM]. rewrite Hcfg.
  destruct (NewRaftNode os config) as [n|e] eqn:Hraft; [|done]. cbn [res_bind].
  unfold initWorkers, NewReconciler. cbn [ma_Config]. pose proof (ReplicationCount_pos config).
  rewrite decide_False by lia. simpl. split_and!; eauto. eexists. split; [done|]. apply NewRepairScheduler_ok.
Qed.

Lemma new_app_total_witness : ∃ a, @NewMetadataApp demo_Env _ _ (λ _, None) (Ok true) None w_raft_os w_app_config
  [WithTargetPlacement LeastLoadedStrategy] = Some (Ok a) ∧ ma_Config a = w_app_config.
Proof.
  pose proof (@new_app_total demo_Env _ _ (λ _, None) (Ok true) None w_raft_os w_app_config [WithTargetPlacement LeastLoadedStrategy]
    ltac:(constructor; [constructor|constructor])) as H.
  assert (Hok : ∃ a, @NewMetadataApp demo_Env _ _ (λ _, None) (Ok true) None w_raft_os w_app_config
    [WithTargetPlacement LeastLoadedStrategy] = Some (Ok a)) by (eexists; reflexivity).
  destruct Hok as [a Ha]. exists a. split; [exact Ha|]. rewrite Ha in H. exact (proj1 H).
Defined.
