(* ===== verification/Manifest.v ===== *)
(** * The upload manifest: client/internal/manifest/manifest.go

    One JSON file per upload records which chunks are done.  The directory is a map from
    paths to the documents the files hold ([None] for text that is not JSON, which is what
    an interrupted write leaves); the n-th call to the operating system fails as an
    arbitrary oracle says, which also says whether a failed write had already truncated
    the file.  The directory name is kept as [filepath.Clean] leaves it, and
    a file ID is a UUID, so [filepath.Join] only puts a separator between them. *)

From S2P Require Import Prelude GoLib Json.

Record UploadManifest := mkUploadManifest {
  um_FileID : string;
  um_Filename : string;
  um_TotalSize : Z;
  um_ChunkSize : Z;
  um_ChunkStatus : option (gmap string bool); (* [None] for a nil map *)
}.

Definition enc_UploadManifest (m : UploadManifest) : json :=
  JObj [("file_id", JStr (um_FileID m)); ("filename", JStr (um_Filename m)); ("total_size", JNum (um_TotalSize m));
        ("chunk_size", JNum (um_ChunkSize m));
        ("chunk_status", match um_ChunkStatus m with Some cs => enc_map JBool cs | None => JNull end)].

Definition dec_UploadManifest : json → res UploadManifest :=
  dec_struct (mkUploadManifest "" "" 0 0 None) (λ o,
    let? fid := dec_field "file_id" dec_string "" o in
    let? name := dec_field "filename" dec_string "" o in
    let? total := dec_field "total_size" dec_int64 0%Z o in
    let? chunk := dec_field "chunk_size" dec_int64 0%Z o in
    let? status := dec_field_ptr "chunk_status" (dec_map dec_bool) o in
    Ok (mkUploadManifest fid name total chunk status)).

#[global] Arguments dec_UploadManifest _ : simpl never.
#[global] Arguments enc_UploadManifest _ : simpl never.

Record Manifests := mkManifests { mf_files : gmap string doc; mf_calls : nat }.

Section manager.
Context `{!MapRange} (os_fault : nat → option (error * bool)) (manifestDir : string).

Definition manifestPath (fileID : string) : string := manifestDir +:+ "/" +:+ fileID +:+ ".json".

(** One call: its error, if the oracle has one. *)
Definition os_step (s : Manifests) : option (error * bool) * Manifests :=
  (os_fault (mf_calls s), mkManifests (mf_files s) (S (mf_calls s))).

Definition read_doc (path : string) (s : Manifests) : res doc * Manifests :=
  match os_step s with
  | (Some (e, _), s') => (Err e, s')
  | (None, s') => (match mf_files s !! path with Some d => Ok d | None => Err (ErrSentinel "file does not exist") end, s')
  end.

Definition writeLocked (m : UploadManifest) (s : Manifests) : res unit * Manifests :=
  let path := manifestPath (um_FileID m) in
  match os_step s with
  | (Some (e, truncated), s') =>
      (Err (ErrWrap "manifest: failed to write" e),
       if (truncated : bool) then mkManifests (<[path := None]> (mf_files s')) (mf_calls s') else s')
  | (None, s') => (Ok tt, mkManifests (<[path := Some (enc_UploadManifest m)]> (mf_files s')) (mf_calls s'))
  end.

Definition manifest_Create (m : UploadManifest) (s : Manifests) : res unit * Manifests :=
  match os_step s with (* MkdirAll *)
  | (Some (e, _), s') => (Err (ErrWrap "manifest: failed to create directory" e), s')
  | (None, s') => writeLocked m s'
  end.

Definition manifest_Load (fileID : string) (s : Manifests) : res UploadManifest * Manifests :=
  match read_doc (manifestPath fileID) s with
  | (Err e, s') => (Err (ErrWrap "manifest: failed to read" e), s')
  | (Ok data, s') =>
      (match Unmarshal dec_UploadManifest data with
       | Err e => Err (ErrWrap "manifest: failed to parse" e)
       | Ok m => Ok m
       end, s')
  end.

Definition manifest_Exists (fileID : string) (s : Manifests) : bool * Manifests :=
  match os_step s with (* Stat *)
  | (Some _, s') => (false, s')
  | (None, s') => (bool_decide (is_Some (mf_files s !! manifestPath fileID)), s')
  end.

Definition set_status (m : UploadManifest) (cs : gmap string bool) : UploadManifest :=
  mkUploadManifest (um_FileID m) (um_Filename m) (um_TotalSize m) (um_ChunkSize m) (Some cs).

(** An assignment to an entry of a nil map panics. *)
Definition MarkChunkDone (fileID chunkID : string) (s : Manifests) : maybe_panic (res unit) * Manifests :=
  match read_doc (manifestPath fileID) s with
  | (Err e, s') => (Returns (Err (ErrWrap "manifest: failed to read for update" e)), s')
  | (Ok data, s') =>
      match Unmarshal dec_UploadManifest data with
      | Err e => (Returns (Err (ErrWrap "manifest: failed to parse for update" e)), s')
      | Ok m =>
          match um_ChunkStatus m with
          | None => (Panics, s')
          | Some cs => let '(r, s'') := writeLocked (set_status m (<[chunkID := true]> cs)) s' in (Returns r, s'')
          end
      end
  end.

(** Removing a file that is not there is no error. *)
Definition manifest_Delete (fileID : string) (s : Manifests) : res unit * Manifests :=
  match os_step s with
  | (Some (e, _), s') => (Err (ErrWrap "manifest: failed to delete" e), s')
  | (None, s') => (Ok tt, mkManifests (delete (manifestPath fileID) (mf_files s')) (mf_calls s'))
  end.

Definition GetPendingChunks (fileID : string) (s : Manifests) : res (list string) * Manifests :=
  match manifest_Load fileID s with
  | (Err e, s') => (Err e, s')
  | (Ok m, s') =>
      (Ok (omap (λ kv, if (kv.2 : bool) then None else Some kv.1) (map_range (default ∅ (um_ChunkStatus m)))), s')
  end.
End manager.

(** ** Lemmas *)

Definition manifest_typed (m : UploadManifest) : Prop := is_int64 (um_TotalSize m) ∧ is_int64 (um_ChunkSize m).

Lemma dec_map_bools (cs : gmap string bool) : dec_map dec_bool (enc_map JBool cs) = Ok cs.
Proof. rewrite (dec_map_enc _ _ id) by done. by rewrite map_fmap_id. Qed.

Lemma dec_enc_shape fid name total chunk status :
  dec_UploadManifest (enc_UploadManifest (mkUploadManifest fid name total chunk status)) =
  (let? total' := dec_int64 (JNum total) in let? chunk' := dec_int64 (JNum chunk) in
   Ok (mkUploadManifest fid name total' chunk' status)).
Proof.
  transitivity (let? total := dec_int64 (JNum total) in let? chunk := dec_int64 (JNum chunk) in
    let? status := dec_ptr_entry "k" (dec_map dec_bool) (Ok None)
      ("k", match status with Some cs => enc_map JBool cs | None => JNull end) in
    Ok (mkUploadManifest fid name total chunk status)).
  { lazy -[dec_int64 dec_map enc_map]. reflexivity. }
  enough (dec_ptr_entry "k" (dec_map dec_bool) (Ok None)
    ("k", match status with Some cs => enc_map JBool cs | None => JNull end) = Ok status) as -> by done.
  destruct status as [cs|]; [|done].
  change ((let? a := dec_map dec_bool (enc_map JBool cs) in Ok (Some a)) = Ok (Some cs)).
  by rewrite dec_map_bools.
Qed.

Lemma dec_enc_manifest m : manifest_typed m → dec_UploadManifest (enc_UploadManifest m) = Ok m.
Proof. destruct m. intros [??]. by rewrite dec_enc_shape, !dec_int64_num. Qed.

(** Whatever the sizes, a written manifest is read back with its statuses. *)
Lemma dec_enc_status m m' :
  dec_UploadManifest (enc_UploadManifest m) = Ok m' → um_FileID m' = um_FileID m ∧ um_ChunkStatus m' = um_ChunkStatus m.
Proof.
  destruct m. rewrite dec_enc_shape. intros (? & _ & (? & _ & [= <-])%res_bind_Ok)%res_bind_Ok. done.
Qed.

(** ** No panic *)

(** The manifest of [fileID], if it can be read, is its own and has statuses. *)
Definition has_statuses (dir fileID : string) (s : Manifests) : Prop :=
  ∀ d m, mf_files s !! manifestPath dir fileID = Some d → Unmarshal dec_UploadManifest d = Ok m →
    um_FileID m = fileID ∧ um_ChunkStatus m ≠ None.

Section no_panic.
Context (os_fault : nat → option (error * bool)) (dir fileID : string).

Lemma write_has_statuses m s :
  um_FileID m = fileID → um_ChunkStatus m ≠ None → has_statuses dir fileID s →
  has_statuses dir fileID (writeLocked os_fault dir m s).2.
Proof.
  intros <- Hm Hs. unfold writeLocked. simpl. destruct (os_fault _) as [[e []]|]; [..|done|];
    intros d m'; simpl; rewrite lookup_insert_eq; intros [= <-]; [done|]. simpl.
  by intros [-> ->]%dec_enc_status.
Qed.

Lemma create_has_statuses m s s' :
  um_FileID m = fileID → um_ChunkStatus m ≠ None → manifest_Create os_fault dir m s = (Ok tt, s') →
  has_statuses dir fileID s'.
Proof.
  intros <- Hm. unfold manifest_Create, writeLocked; simpl. destruct (os_fault _) as [[]|]; [done|].
  destruct (os_fault _) as [[]|]; [done|]. intros [= <-] d m'; simpl. rewrite lookup_insert_eq. intros [= <-]. simpl.
  by intros [-> ->]%dec_enc_status.
Qed.

Lemma mark_returns chunkID s :
  has_statuses dir fileID s →
  (∃ r, (MarkChunkDone os_fault dir fileID chunkID s).1 = Returns r) ∧
  has_statuses dir fileID (MarkChunkDone os_fault dir fileID chunkID s).2.
Proof.
  intros Hs. unfold MarkChunkDone, read_doc, os_step. destruct (os_fault _) as [[]|]; [by eauto|].
  destruct (mf_files s !! _) as [d|] eqn:Hd; [|by eauto]. destruct (Unmarshal _ d) as [m|] eqn:Hm; [|by eauto].
  destruct (Hs d m Hd Hm) as [Hid Hne]. destruct (um_ChunkStatus m) as [cs|]; [|done].
  set (s1 := mkManifests _ _).
  pose proof (write_has_statuses (set_status m (<[chunkID := true]> cs)) s1 Hid ltac:(done) Hs) as Hw.
  destruct (writeLocked _ _ _ s1). by eauto.
Qed.
End no_panic.

(** ** A directory in which no call fails *)

(** The manifest that [Load] returns for a file ID. *)
Definition stored (dir : string) (s : Manifests) (fileID : string) : res UploadManifest :=
  (manifest_Load (λ _, None) dir fileID s).1.

Section fault_free.
Context (dir : string) (fileID : string).
Notation no_fault := (λ _ : nat, @None (error * bool)).

Lemma write_load m s :
  manifest_typed m →
  ∃ s', writeLocked no_fault dir m s = (Ok tt, s') ∧ stored dir s' (um_FileID m) = Ok m ∧
    (∀ p, p ≠ manifestPath dir (um_FileID m) → mf_files s' !! p = mf_files s !! p).
Proof.
  intros Hm. eexists. split; [reflexivity|]. unfold stored, manifest_Load, read_doc; simpl.
  rewrite lookup_insert_eq. simpl. rewrite dec_enc_manifest by done. split; [done|].
  intros p Hp. simpl. by rewrite lookup_insert_ne by done.
Qed.

Lemma create_load m s :
  manifest_typed m → ∃ s', manifest_Create no_fault dir m s = (Ok tt, s') ∧ stored dir s' (um_FileID m) = Ok m.
Proof.
  intros Hm. destruct (write_load m (mkManifests (mf_files s) (S (mf_calls s))) Hm) as (s' & Hw & Hl & _).
  exists s'. split; [exact Hw | exact Hl].
Qed.

(** A chunk marked done in a manifest that [Create] wrote is done in the next [Load]. *)
Lemma mark_load m cs chunkID s :
  manifest_typed m → um_FileID m = fileID → um_ChunkStatus m = Some cs → stored dir s fileID = Ok m →
  ∃ s', MarkChunkDone no_fault dir fileID chunkID s = (Returns (Ok tt), s') ∧
    stored dir s' fileID = Ok (set_status m (<[chunkID := true]> cs)).
Proof.
  intros Hm <- Hcs Hs. unfold stored, manifest_Load, read_doc in Hs. simpl in Hs.
  unfold MarkChunkDone, read_doc; simpl.
  destruct (mf_files s !! _) as [d|]; [|done]. destruct (Unmarshal _ d) as [m'|]; [|done].
  injection Hs as ->. rewrite Hcs.
  destruct (write_load (set_status m (<[chunkID := true]> cs)) (mkManifests (mf_files s) (S (mf_calls s))))
    as (s' & Hw & Hl & _); [exact Hm|].
  exists s'. injection Hw as <-. done.
Qed.

Lemma delete_load s :
  ∃ s', manifest_Delete no_fault dir fileID s = (Ok tt, s') ∧ (manifest_Exists no_fault dir fileID s').1 = false.
Proof. eexists. split; [reflexivity|]. simpl. rewrite lookup_delete_eq. by case_bool_decide as H; [destruct H|]. Qed.

(** [GetPendingChunks] lists the chunks whose status is [false], each once. *)
Lemma pending_stored `{!MapRange} m s :
  stored dir s fileID = Ok m →
  ∃ l s', GetPendingChunks no_fault dir fileID s = (Ok l, s') ∧ NoDup l ∧
    ∀ c, c ∈ l ↔ default ∅ (um_ChunkStatus m) !! c = Some false.
Proof.
  intros Hs. unfold GetPendingChunks. unfold stored in Hs.
  destruct (manifest_Load _ _ _ s) as [r s'] eqn:E. simpl in Hs. subst r.
  eexists _, s'. split; [reflexivity|].
  set (cs := default ∅ (um_ChunkStatus m)).
  split.
  - pose proof (NoDup_fst_map_range cs) as Hnd.
    induction (map_range cs) as [|[k b] l IH]; csimpl in *; [constructor|].
    apply NoDup_cons in Hnd as [Hk Hnd]. destruct b; [by apply IH|].
    constructor; [|by apply IH]. intros ([k' b'] & Hin & Heq)%list_elem_of_omap.
    simpl in Heq. destruct b'; simplify_eq. apply Hk, list_elem_of_fmap. by exists (k, false).
  - intros c. rewrite list_elem_of_omap. split.
    + intros ([k b] & Hin & Heq). apply elem_of_map_range in Hin.
      simpl in Heq. destruct b; simplify_eq. done.
    + intros Hc. exists (c, false). split; [by apply elem_of_map_range|done].
Qed.
End fault_free.
