(* ===== verification/Client.v ===== *)
(** * The client: client/internal/chunker, storageclient, service

    A file is cut into descriptors, each chunk is framed to its primary with the retry
    policy, and a download asks the replicas of each chunk in turn and writes what
    verifies at its offset.  A manifest on the local disk records the chunks that are
    done.  The metadata and storage clients are the interfaces the
    services are built on, as records of operations over a state; chunks are handled by
    goroutines, which the model runs one after the other in an arbitrary order; each call
    of the progress callback is recorded.  The local file does not change while it is
    uploaded. *)

From S2P Require Import Prelude GoLib GoFloat Json Sha256 DiskStore Chunk StorageServer Retry ClientConfig Manifest.

(** ** The chunker *)

Record ChunkDescriptor := mkChunkDescriptor {
  cd_ChunkID : string;
  cd_FileID : string;
  cd_ChunkIndex : nat;
  cd_Offset : Z;
  cd_Size : Z;
}.

(** [int(math.Ceil(float64(totalSize) / float64(chunkSize)))], for a positive chunk size, as
    every configuration that [Validate] accepts has one. *)
Definition num_chunks (totalSize chunkSize : Z) : Z :=
  to_int64 (fl_ceil (fl_div (fl_of_int totalSize) (fl_of_int chunkSize))).

Definition descriptor (fileID : string) (totalSize chunkSize : Z) (i : nat) : ChunkDescriptor :=
  let offset := to_int64 (Z.of_nat i * chunkSize) in
  let size := if decide (totalSize < to_int64 (offset + chunkSize))%Z then (totalSize - offset)%Z else chunkSize in
  mkChunkDescriptor (ComputeChunkID fileID i) fileID i offset size.

(** [stat] is what [os.Stat] says of the file, [fileID] the new UUID. *)
Definition GenerateDescriptors (stat : res Z) (fileID : string) (chunkSize : Z) : res (list ChunkDescriptor) :=
  let? totalSize := stat in
  Ok (descriptor fileID totalSize chunkSize <$> seq 0 (Z.to_nat (num_chunks totalSize chunkSize))).

(** ** The storage client *)

Definition default_frame_size : Z := 32 * 1024.

(** [NewGRPCClient] *)
Definition frame_size (frameSize : Z) : Z := if decide (frameSize ≤ 0)%Z then default_frame_size else frameSize.

(** The loop of [PutChunk]: the frames of [data[i:]]; [n] is the frame size. *)
Fixpoint put_frames (fuel n : nat) (chunkID : string) (replicateTo : list string) (checksum data : bytes)
    : list PutChunkRequest :=
  match fuel with
  | O => []
  | S fuel' =>
      if decide (data = []) then []
      else
        mkPutChunkRequest chunkID (take n data) checksum (bool_decide (length data ≤ n)) (Some <$> replicateTo)
        :: put_frames fuel' n chunkID replicateTo checksum (drop n data)
  end.

(** Every frame [PutChunk] sends; an empty chunk has one frame. *)
Definition client_frames (frameSize : Z) (chunkID : string) (replicateTo : list string) (checksum data : bytes)
    : list PutChunkRequest :=
  if decide (data = []) then [mkPutChunkRequest chunkID [] checksum true (Some <$> replicateTo)]
  else put_frames (length data) (Z.to_nat (frame_size frameSize)) chunkID replicateTo checksum data.

(** The loop of [GetChunk]: what the received messages add up to; a stream ends with
    [io.EOF] or a transport error. *)
Fixpoint get_data (stream : list (recv bytes)) (chunkData : bytes) : res bytes :=
  match stream with
  | [] => Ok chunkData
  | RecvErr e :: _ => Err (ErrWrap "storageclient: GetChunk recv failed" e)
  | RecvMsg d :: rest => get_data rest (chunkData ++ d)
  end.

(** ** Interfaces *)

Record Placement := mkPlacement {
  pl_ChunkID : string;
  pl_Primary : string;
  pl_Replicas : list string;
}.

Record ClientFileInfo := mkClientFileInfo {
  cfi_FileID : string;
  cfi_FileName : string;
  cfi_FileSize : Z;
  cfi_ChunkSize : Z;
  cfi_ChunkIDs : list string;
  cfi_Status : string;
  cfi_CreatedAt : Z;
}.

Record ClientChunkInfo := mkClientChunkInfo {
  cci_ChunkID : string;
  cci_FileID : string;
  cci_ChunkIndex : Z;
  cci_Size : Z;
  cci_Checksum : bytes;
  cci_Replicas : list string;
}.

(** [metadataclient.Client] *)
Record MetadataClient (St : Type) := mkMetadataClient {
  mc_CreateFile : string → string → Z → Z → list string → St → res (string * list Placement) * St;
  mc_CommitChunk : string → string → list string → bytes → St → option error * St;
  mc_GetFile : string → St → res (ClientFileInfo * list ClientChunkInfo) * St;
  mc_GetFileByName : string → St → res (ClientFileInfo * list ClientChunkInfo) * St;
  mc_ListFiles : string → St → res (list ClientFileInfo) * St;
  mc_DeleteFile : string → St → option error * St;
  mc_CommitFile : string → Z → bytes → St → option error * St;
  mc_GetChunkLocations : string → St → res (list string) * St;
}.
Arguments mc_CreateFile {_} _ _ _ _ _ _ _.
Arguments mc_CommitChunk {_} _ _ _ _ _ _.
Arguments mc_GetFile {_} _ _ _.
Arguments mc_GetFileByName {_} _ _ _.
Arguments mc_ListFiles {_} _ _ _.
Arguments mc_DeleteFile {_} _ _ _.
Arguments mc_CommitFile {_} _ _ _ _ _.
Arguments mc_GetChunkLocations {_} _ _ _.

(** [storageclient.Client]; the file ID and the index that [PutChunk] also takes are not
    read by the node. *)
Record StorageClient (St : Type) := mkStorageClient {
  sc_PutChunk : string → string → bytes → bytes → list string → St → option error * St;
  sc_GetChunk : string → string → St → res bytes * St;
}.
Arguments sc_PutChunk {_} _ _ _ _ _ _ _.
Arguments sc_GetChunk {_} _ _ _ _.

(** ** Uploads *)

(** The file to upload: the errors of [os.Stat] and [os.Open], if any, and its bytes. *)
Record LocalFile := mkLocalFile { lf_stat : option error; lf_open : option error; lf_data : bytes }.

Record UploadResult := mkUploadResult {
  ur_FileID : string;
  ur_FileName : string;
  ur_TotalSize : Z;
  ur_ChunksTotal : Z;
  ur_ChunksDone : Z;
  ur_ChunksFailed : Z;
}.

(** A call of the progress callback: the chunk and its error. *)
Notation progress_event := (Z * option error)%type.

(** [atomic.Int32] counters of the goroutines that ended without and with an error. *)
Definition count_done (events : list progress_event) : Z :=
  to_int32 (Z.of_nat (length (filter (λ e, e.2 = None) events))).
Definition count_failed (events : list progress_event) : Z :=
  to_int32 (Z.of_nat (length (filter (λ e, e.2 ≠ None) events))).

(** [semaphore = make(chan struct{}, cap)] and its first [semaphore <- struct{}{}]: a
    negative capacity panics, and with none the send waits for a receiver that is never
    started. *)
Definition semaphore (cap : Z) : maybe_panic unit :=
  if decide (cap < 0)%Z then Panics else if decide (cap = 0)%Z then Blocks else Returns tt.

Lemma semaphore_pos cap : (0 < cap)%Z → semaphore cap = Returns tt.
Proof. intros. unfold semaphore. rewrite !decide_False by lia. done. Qed.

Section services.
Context {St : Type} (MC : MetadataClient St) (SC : StorageClient St) (amb : Ambient).
Context (cfg : Config) (os_fault : nat → option (error * bool)).

(** [uploadChunkWithRetry]; [file] is the open file.  [ReadAt] reports [io.EOF] when the
    file has fewer bytes left than the buffer. *)
Definition uploadChunkWithRetry (file : bytes) (desc : ChunkDescriptor) (placement : Placement)
    (s : St) : option error * St :=
  let buffer := take (Z.to_nat (cd_Size desc)) (drop (Z.to_nat (cd_Offset desc)) file) in
  if decide (Z.of_nat (length buffer) < cd_Size desc)%Z then (Some (ErrWrap "failed to read chunk data" EOF), s)
  else
    let '(err, s', _) := Do (sc_PutChunk SC (pl_Primary placement) (cd_ChunkID desc) buffer
                               (Compute_checksum buffer) (pl_Replicas placement)) (cfg_RetryPolicy cfg) amb s in
    (match err with Some e => Some (ErrWrap "uploadChunkWithRetry" e) | None => None end, s').

Definition zero_Placement : Placement := mkPlacement "" "" [].

(** [placementMap[d.ChunkID]]: the last placement with that ID. *)
Definition placement_for (placements : list Placement) (chunkID : string) : Placement :=
  default zero_Placement (last (filter (λ p, pl_ChunkID p = chunkID) placements)).

(** One goroutine: the upload, then the entry in the manifest, whose error is only
    logged; a panic there ends the process. *)
Definition upload_chunk (file : bytes) (fileID : string) (placements : list Placement) (d : ChunkDescriptor)
    (s : St) (ms : Manifests) : maybe_panic (option error) * St * Manifests :=
  match uploadChunkWithRetry file d (placement_for placements (cd_ChunkID d)) s with
  | (Some e, s') => (Returns (Some e), s', ms)
  | (None, s') =>
      match MarkChunkDone os_fault (cfg_ManifestDir cfg) fileID (cd_ChunkID d) ms with
      | (Panics, ms') => (Panics, s', ms')
      | (Blocks, ms') => (Blocks, s', ms')
      | (Returns _, ms') => (Returns None, s', ms')
      end
  end.

(** The goroutines, in the order they run. *)
Fixpoint upload_chunks (file : bytes) (fileID : string) (placements : list Placement)
    (order : list ChunkDescriptor) (s : St) (ms : Manifests)
    : maybe_panic (list progress_event) * St * Manifests :=
  match order with
  | [] => (Returns [], s, ms)
  | d :: rest =>
      match upload_chunk file fileID placements d s ms with
      | (Panics, s1, ms1) => (Panics, s1, ms1)
      | (Blocks, s1, ms1) => (Blocks, s1, ms1)
      | (Returns err, s1, ms1) =>
          match upload_chunks file fileID placements rest s1 ms1 with
          | (Panics, s2, ms2) => (Panics, s2, ms2)
          | (Blocks, s2, ms2) => (Blocks, s2, ms2)
          | (Returns events, s2, ms2) => (Returns ((Z.of_nat (cd_ChunkIndex d), err) :: events), s2, ms2)
          end
      end
  end.

(** The manifest an upload starts with. *)
Definition new_manifest (fileID fileName : string) (size : Z) (descriptors : list ChunkDescriptor) : UploadManifest :=
  mkUploadManifest fileID fileName size (cfg_ChunkSize cfg)
    (Some (foldl (λ m d, <[cd_ChunkID d := false]> m) ∅ descriptors)).

(** What [Upload] returns, and the progress it reported. *)
Record upload_return := mkUploadReturn {
  up_result : option UploadResult;
  up_err : option error;
  up_events : list progress_event;
}.

Definition upload_fails (msg : string) (e : error) : maybe_panic upload_return :=
  Returns (mkUploadReturn None (Some (ErrWrap msg e)) []).

(** The end of an upload whose goroutines have all returned. *)
Definition finish_upload (fileID serverFileID fileName : string) (size : Z) (total : nat)
    (events : list progress_event) (s : St) (ms : Manifests) : upload_return * St * Manifests :=
  let result := mkUploadResult serverFileID fileName size (Z.of_nat total) (count_done events) (count_failed events) in
  if decide (0 < count_failed events)%Z then
    (mkUploadReturn (Some result) (Some (ErrNew "upload: chunks failed")) events, s, ms)
  else
    match mc_CommitFile MC serverFileID size [] s with
    | (Some e, s') =>
        (mkUploadReturn (Some result) (Some (ErrWrap "upload: CommitFile failed" e)) events, s', ms)
    | (None, s') =>
        (mkUploadReturn (Some result) None events, s', (manifest_Delete os_fault (cfg_ManifestDir cfg) fileID ms).2)
    end.

(** [Upload]; [fileID] is the new UUID and [order] the schedule of the goroutines. *)
Definition Upload (f : LocalFile) (fileName fileID : string)
    (order : list ChunkDescriptor → list ChunkDescriptor) (s : St) (ms : Manifests)
    : maybe_panic upload_return * St * Manifests :=
  let size := Z.of_nat (length (lf_data f)) in
  let stat := match lf_stat f with Some e => Err e | None => Ok size end in
  match stat with
  | Err e => (upload_fails "upload: failed to stat file" e, s, ms)
  | Ok size =>
  match GenerateDescriptors stat fileID (cfg_ChunkSize cfg) with
  | Err e => (upload_fails "upload: failed to chunk file" e, s, ms)
  | Ok [] => (Returns (mkUploadReturn None (Some (ErrNew "upload: file is empty")) []), s, ms)
  | Ok descriptors =>
  match manifest_Create os_fault (cfg_ManifestDir cfg) (new_manifest fileID fileName size descriptors) ms with
  | (Err e, ms1) => (upload_fails "upload: failed to create manifest" e, s, ms1)
  | (Ok _, ms1) =>
  match mc_CreateFile MC fileID fileName size (cfg_ChunkSize cfg) (cd_ChunkID <$> descriptors) s with
  | (Err e, s1) => (upload_fails "upload: CreateFile failed" e, s1, ms1)
  | (Ok (serverFileID, placements), s1) =>
  match lf_open f with
  | Some e => (upload_fails "upload: failed to open file" e, s1, ms1)
  | None =>
  match semaphore (cfg_MaxParallelUploads cfg) with
  | Panics => (Panics, s1, ms1)
  | Blocks => (Blocks, s1, ms1)
  | Returns _ =>
  match upload_chunks (lf_data f) fileID placements (order descriptors) s1 ms1 with
  | (Panics, s2, ms2) => (Panics, s2, ms2)
  | (Blocks, s2, ms2) => (Blocks, s2, ms2)
  | (Returns events, s2, ms2) =>
      let '(r, s3, ms3) := finish_upload fileID serverFileID fileName size (length descriptors) events s2 ms2 in
      (Returns r, s3, ms3)
  end end end end end end end.

(** ** Downloads *)

(** The local output file: the errors of creating it, sizing it and writing at an offset,
    and its contents so far. *)
Record OutputFile := mkOutputFile {
  of_create : option error;
  of_truncate : option error;
  of_write : Z → option error;
}.

Record DownloadResult := mkDownloadResult {
  dr_FileID : string;
  dr_FileName : string;
  dr_TotalSize : Z;
}.

Context (disk : OutputFile).

(** [outFile.WriteAt], which refuses a negative offset *)
Definition WriteAt (out : bytes) (data : bytes) (offset : Z) : res bytes :=
  if decide (offset < 0)%Z then Err (ErrNew "negative offset")
  else match of_write disk offset with
       | Some e => Err e
       | None => Ok (overlay out (Z.to_nat offset) data)
       end.

(** [downloadChunkWithFailover]: the replicas in order; [out] is the output file.  Before
    each replica the context is checked. *)
Fixpoint try_replicas (chunk : ClientChunkInfo) (chunkSize : Z) (replicas : list string) (lastErr : option error)
    (out : bytes) (s : St) : option error * bytes * St :=
  match replicas with
  | [] => (Some (match lastErr with
                 | Some e => ErrWrap "all replicas failed" e
                 | None => ErrNew "all replicas failed"
                 end), out, s)
  | addr :: rest =>
      match ctx_err amb (length replicas) with
      | Some e => (Some e, out, s)
      | None =>
          match sc_GetChunk SC addr (cci_ChunkID chunk) s with
          | (Err e, s1) => try_replicas chunk chunkSize rest (Some e) out s1
          | (Ok data, s1) =>
              if decide (cci_Checksum chunk ≠ [] ∧ Compute_checksum data ≠ cci_Checksum chunk) then
                try_replicas chunk chunkSize rest (Some (ErrNew "checksum mismatch")) out s1
              else
                match WriteAt out data (to_int64 (cci_ChunkIndex chunk * chunkSize)) with
                | Err e => (Some (ErrWrap "failed to write chunk" e), out, s1)
                | Ok out' => (None, out', s1)
                end
          end
      end
  end.

Definition downloadChunkWithFailover (chunk : ClientChunkInfo) (chunkSize : Z) (out : bytes) (s : St)
    : option error * bytes * St :=
  if decide (cci_Replicas chunk = []) then (Some (ErrNew "no replicas available"), out, s)
  else try_replicas chunk chunkSize (cci_Replicas chunk) None out s.

(** The goroutines, in the order they run. *)
Fixpoint download_chunks (chunkSize : Z) (order : list ClientChunkInfo) (out : bytes) (s : St)
    : list progress_event * bytes * St :=
  match order with
  | [] => ([], out, s)
  | c :: rest =>
      let '(err, out1, s1) := downloadChunkWithFailover c chunkSize out s in
      let '(events, out2, s2) := download_chunks chunkSize rest out1 s1 in
      ((cci_ChunkIndex c, err) :: events, out2, s2)
  end.

(** What [Download] returns, the progress it reported, and what the output path holds. *)
Record download_return := mkDownloadReturn {
  dl_result : option DownloadResult;
  dl_err : option error;
  dl_events : list progress_event;
  dl_output : option bytes;
}.

Definition download_fails (e : error) (output : option bytes) : download_return :=
  mkDownloadReturn None (Some e) [] output.

(** [errOnce]: the error of the first goroutine that failed. *)
Definition first_error (events : list progress_event) : option error := head (omap snd events).

(** [before] is what the output path holds; [os.Create] empties it, [Truncate] fills the
    file with zeros, and a failed download removes it. *)
Definition Download `{!GoSort} (fileName : string) (before : option bytes)
    (order : list ClientChunkInfo → list ClientChunkInfo) (s : St) : maybe_panic download_return * St :=
  match mc_GetFileByName MC fileName s with
  | (Err e, s1) => (Returns (download_fails (ErrWrap "download: failed to get file metadata" e) before), s1)
  | (Ok (fileInfo, chunks), s1) =>
  if decide (chunks = []) then (Returns (download_fails (ErrNew "download: file has no chunks") before), s1)
  else
  let chunks := go_sort (λ a b, bool_decide (cci_ChunkIndex a < cci_ChunkIndex b)%Z) chunks in
  match of_create disk with
  | Some e => (Returns (download_fails (ErrWrap "download: failed to create output file" e) before), s1)
  | None =>
  match (if decide (cfi_FileSize fileInfo < 0)%Z then Some (ErrNew "invalid argument") else of_truncate disk) with
  | Some e => (Returns (download_fails (ErrWrap "download: failed to pre-allocate file" e) (Some [])), s1)
  | None =>
  match semaphore (cfg_MaxParallelDownloads cfg) with
  | Panics => (Panics, s1)
  | Blocks => (Blocks, s1)
  | Returns _ =>
      let out := replicate (Z.to_nat (cfi_FileSize fileInfo)) (Ascii.ascii_of_N 0) in
      let '(events, out', s2) := download_chunks (cfi_ChunkSize fileInfo) (order chunks) out s1 in
      let result := mkDownloadResult (cfi_FileID fileInfo) (cfi_FileName fileInfo) (cfi_FileSize fileInfo) in
      if decide (0 < count_failed events)%Z then
        (Returns (mkDownloadReturn (Some result)
           (Some (match first_error events with
                  | Some e => ErrWrap "download: chunks failed" e
                  | None => ErrNew "download: chunks failed"
                  end)) events None), s2)
      else (Returns (mkDownloadReturn (Some result) None events (Some out')), s2)
  end end end end.

(** ** Listing and deleting: service/list.go *)

Definition service_ListFiles (pre : string) (s : St) : res (list ClientFileInfo) * St :=
  match mc_ListFiles MC pre s with
  | (Err e, s') => (Err (ErrWrap "list: failed to list files" e), s')
  | (Ok files, s') => (Ok files, s')
  end.

Definition service_DeleteFile (fileID : string) (s : St) : option error * St :=
  match mc_DeleteFile MC fileID s with
  | (Some e, s') => (Some (ErrWrap "delete: failed to delete file" e), s')
  | (None, s') => (None, s')
  end.
End services.
