(* ===== verification/ClientTheorems.v ===== *)
(** * Correctness of the client

    The chunker partitions the file, the frames of the storage client are what the
    storage service accepts, and a download reassembles the file from whatever replicas
    answer correctly, in any order of its goroutines. *)

From S2P Require Import Prelude GoLib GoFloat Sha256 DiskStore DiskStoreSpec DiskStoreTheorems Chunk StorageServer.
From S2P Require Import Json StorageTheorems Retry ClientConfig Manifest Client.

(** ** Pieces of a file *)

(** The bytes at [off], [n] of them. *)
Definition piece (file : bytes) (off n : nat) : bytes := take n (drop off file).

(** The bytes of chunk [i]. *)
Definition chunk_piece (cs : nat) (file : bytes) (i : nat) : bytes := piece file (i * cs) cs.

Lemma length_chunk_piece cs file i : length (chunk_piece cs file i) = cs `min` (length file - i * cs).
Proof. unfold chunk_piece, piece. by rewrite length_take, length_drop. Qed.

Lemma chunk_piece_lookup cs file i q :
  i * cs ≤ q < S i * cs → chunk_piece cs file i !! (q - i * cs) = file !! q.
Proof.
  intros Hq. unfold chunk_piece, piece. rewrite lookup_take_lt, lookup_drop by lia. f_equal. lia.
Qed.

Lemma pieces_join cs file n m :
  length file ≤ (n + m) * cs →
  mjoin ((λ i, chunk_piece cs file i) <$> seq n m) = drop (n * cs) file.
Proof.
  revert n. induction m as [|m IH]; intros n Hlen.
  - simpl. rewrite drop_ge by lia. done.
  - change (seq n (S m)) with (n :: seq (S n) m). rewrite fmap_cons.
    change (mjoin (?x :: ?l)) with (x ++ mjoin l). rewrite IH by lia.
    unfold chunk_piece, piece. replace (S n * cs) with (n * cs + cs) by lia. rewrite <-drop_drop. apply take_drop.
Qed.

(** ** The chunker *)

(** Sizes for which the arithmetic of the chunker is exact. *)
Definition chunkable (total cs : Z) : Prop := (0 ≤ total ∧ 0 < cs ∧ total + 2 * cs < 2 ^ 53)%Z.

(** The rounding of [float64] does not show in the number of chunks. *)
Lemma num_chunks_exact total cs : chunkable total cs → num_chunks total cs = ((total + cs - 1) / cs)%Z.
Proof.
  intros (Ht & Hc & Hs). unfold num_chunks. rewrite fl_div_ceil by lia. apply to_int64_id.
  pose proof (Z.div_pos (total + cs - 1) cs ltac:(lia) Hc).
  pose proof (Z.div_le_upper_bound (total + cs - 1) cs (total + cs - 1) Hc ltac:(nia)). unfold is_int64, two63. lia.
Qed.

#[global] Opaque num_chunks.

Lemma num_chunks_bounds total cs :
  chunkable total cs →
  (total ≤ num_chunks total cs * cs)%Z ∧ (num_chunks total cs * cs < total + cs)%Z ∧ (0 ≤ num_chunks total cs)%Z.
Proof.
  intros H. rewrite num_chunks_exact by done. destruct H as (Ht & Hc & _).
  pose proof (Z.div_mod (total + cs - 1) cs ltac:(lia)). pose proof (Z.mod_pos_bound (total + cs - 1) cs Hc).
  pose proof (Z.div_pos (total + cs - 1) cs ltac:(lia) Hc). lia.
Qed.

Lemma descriptor_exact fileID total cs i :
  chunkable total cs → (Z.of_nat i < num_chunks total cs)%Z →
  cd_Offset (descriptor fileID total cs i) = (Z.of_nat i * cs)%Z ∧
  cd_Size (descriptor fileID total cs i) = Z.min cs (total - Z.of_nat i * cs)%Z ∧
  (0 < cd_Size (descriptor fileID total cs i))%Z.
Proof.
  intros H Hi. destruct (num_chunks_bounds total cs H) as (H1 & H2 & _). destruct H as (Ht & Hc & Hs).
  assert (Hoff : (0 ≤ Z.of_nat i * cs < total)%Z) by nia.
  unfold descriptor. cbn [cd_Offset cd_Size].
  rewrite !(to_int64_id (Z.of_nat i * cs)%Z) by (unfold is_int64, two63; lia).
  rewrite to_int64_id by (unfold is_int64, two63; lia). case_decide; lia.
Qed.

(** The bytes a descriptor stands for. *)
Definition described (file : bytes) (d : ChunkDescriptor) : bytes :=
  piece file (Z.to_nat (cd_Offset d)) (Z.to_nat (cd_Size d)).

Lemma described_piece file fileID cs i :
  chunkable (Z.of_nat (length file)) (Z.of_nat cs) →
  (Z.of_nat i < num_chunks (Z.of_nat (length file)) (Z.of_nat cs))%Z →
  described file (descriptor fileID (Z.of_nat (length file)) (Z.of_nat cs) i) = chunk_piece cs file i.
Proof.
  intros Hc Hi. destruct (descriptor_exact fileID _ _ i Hc Hi) as (Ho & Hs & _).
  unfold described, chunk_piece, piece. rewrite Ho, Hs.
  replace (Z.to_nat (Z.of_nat i * Z.of_nat cs)) with (i * cs) by lia.
  destruct (decide (cs ≤ length file - i * cs)) as [Hle|Hgt].
  - f_equal. lia.
  - rewrite !take_ge; [done| |]; rewrite length_drop; lia.
Qed.

(** The chunker cuts a file without loss: the chunks, in order, are consecutive
    non-empty pieces of at most the chunk size whose concatenation is the file, and only
    the last one can be shorter. *)
Theorem chunks_partition (file : bytes) (fileID : string) (cs : nat) :
  chunkable (Z.of_nat (length file)) (Z.of_nat cs) →
  ∃ ds, GenerateDescriptors (Ok (Z.of_nat (length file))) fileID (Z.of_nat cs) = Ok ds ∧
    mjoin (described file <$> ds) = file ∧ cd_ChunkIndex <$> ds = seq 0 (length ds) ∧
    Forall (λ d, cd_ChunkID d = ComputeChunkID fileID (cd_ChunkIndex d) ∧ cd_FileID d = fileID ∧
      Z.of_nat (length (described file d)) = cd_Size d ∧ (0 < cd_Size d ≤ Z.of_nat cs)%Z ∧
      (S (cd_ChunkIndex d) < length ds → cd_Size d = Z.of_nat cs)) ds.
Proof.
  intros Hc. destruct (num_chunks_bounds _ _ Hc) as (H1 & H2 & H3). pose proof Hc as (Ht & Hcs & Hb).
  set (n := Z.to_nat (num_chunks (Z.of_nat (length file)) (Z.of_nat cs))).
  eexists. split; [reflexivity|]. fold n.
  assert (Hpiece : ∀ i, i ∈ seq 0 n → described file (descriptor fileID (Z.of_nat (length file)) (Z.of_nat cs) i) =
    chunk_piece cs file i).
  { intros i [_ Hi]%elem_of_seq. apply described_piece; [done|]. lia. }
  split_and!.
  - rewrite <-list_fmap_compose. etransitivity; [|apply (pieces_join cs file 0 n); lia].
    f_equal. apply list_fmap_ext. intros k i Hi. by apply Hpiece, (list_elem_of_lookup_2 _ k).
  - rewrite <-list_fmap_compose, length_fmap, length_seq. symmetry. etransitivity; [symmetry; apply list_fmap_id|].
    by apply list_fmap_ext.
  - rewrite Forall_fmap, Forall_forall. intros i Hi. cbv beta. rewrite length_fmap, length_seq.
    pose proof (Hpiece i Hi) as Hp. apply elem_of_seq in Hi as [_ Hi].
    destruct (descriptor_exact fileID (Z.of_nat (length file)) (Z.of_nat cs) i) as (Ho & Hs & Hpos); [done|lia|].
    set (d := descriptor fileID (Z.of_nat (length file)) (Z.of_nat cs) i) in *. simpl in Hp. fold d in Hp.
    assert (Hlen : length (described file d) = cs `min` (length file - i * cs))
      by (rewrite Hp; apply length_chunk_piece).
    unfold compose. fold d. change (cd_ChunkIndex d) with i. split_and!; [done|done|rewrite Hlen; nia|done|lia|intros Hlt; nia].
Qed.

Lemma chunks_partition_witness :
  ∃ ds, GenerateDescriptors (Ok 5%Z) "f" 2 = Ok ds ∧ mjoin (described (to_bytes "hello") <$> ds) = to_bytes "hello".
Proof.
  destruct (chunks_partition (to_bytes "hello") "f" 2) as (ds & H & Hj & _).
  - vm_compute. intuition congruence.
  - exists ds. split; [exact H|exact Hj].
Defined.

(** ** The frames of an upload *)

Section frames.
Context (n : nat) (Hn : 0 < n) (id : string) (replicas : list string) (sum : bytes).

Notation framed fuel data := (put_frames fuel n id replicas sum data).

Lemma put_frames_join fuel data : length data ≤ fuel → mjoin (pc_Data <$> framed fuel data) = data.
Proof.
  revert data. induction fuel as [|fuel IH]; intros data Hlen; [by destruct data; simpl in Hlen; [|lia]|].
  simpl. case_decide as Hd; [by subst|].
  change (take n data ++ mjoin (pc_Data <$> framed fuel (drop n data)) = data).
  rewrite IH; [apply take_drop|]. rewrite length_drop. destruct data; simpl in *; [done|lia].
Qed.

Lemma put_frames_all fuel data :
  Forall (λ f, pc_ChunkId f = id ∧ pc_Checksum f = sum ∧ pc_ReplicateTo f = Some <$> replicas) (framed fuel data).
Proof. revert data. induction fuel as [|fuel IH]; intros data; simpl; [done|]. case_decide; [done|]. by constructor. Qed.

Lemma put_frames_last fuel data f fs :
  length data ≤ fuel → framed fuel data = f :: fs → pc_IsLast (default f (last fs)) = true.
Proof.
  revert data f fs. induction fuel as [|fuel IH]; intros data f fs Hlen; simpl; [done|].
  case_decide as Hd; [done|]. intros [= <- <-].
  destruct (framed fuel (drop n data)) as [|g gs] eqn:Hrest.
  - simpl. apply bool_decide_eq_true. destruct fuel as [|fuel]; simpl in Hrest.
    + destruct data as [|? []]; simpl in *; lia.
    + case_decide as He; [|done]. apply (f_equal length) in He. rewrite length_drop in He. simpl in He. lia.
  - rewrite last_cons. assert (Hl : pc_IsLast (default g (last gs)) = true).
    { apply (IH (drop n data)); [|done]. rewrite length_drop. destruct data; simpl in *; [done|lia]. }
    by destruct (last gs).
Qed.
End frames.

(** What the client sends for a chunk: a non-empty list of frames for it, with its
    checksum on each and the last one marked. *)
Lemma client_frames_ok size id replicas sum data :
  ∃ f fs, client_frames size id replicas sum data = f :: fs ∧ mjoin (pc_Data <$> f :: fs) = data ∧
    Forall (λ f, pc_ChunkId f = id) (f :: fs) ∧ pc_IsLast (default f (last fs)) = true ∧
    pc_Checksum (default f (last fs)) = sum ∧ pc_ReplicateTo f = Some <$> replicas.
Proof.
  unfold client_frames. case_decide as Hd; [subst; eexists _, []; repeat split; by repeat constructor|].
  assert (Hn : 0 < Z.to_nat (frame_size size)).
  { unfold frame_size, default_frame_size. case_decide; lia. }
  set (n := Z.to_nat (frame_size size)) in *.
  pose proof (put_frames_join n Hn id replicas sum (length data) data ltac:(lia)) as Hj.
  pose proof (put_frames_all n id replicas sum (length data) data) as Hall.
  pose proof (put_frames_last n Hn id replicas sum (length data) data) as Hlast.
  destruct (put_frames (length data) n id replicas sum data) as [|f fs]; [by subst|].
  exists f, fs. split_and!; [done|done| |by apply Hlast| |].
  - eapply Forall_impl; [exact Hall|]. by intros ? [].
  - assert (Hin : default f (last fs) ∈ f :: fs).
    { destruct (last fs) as [g|] eqn:Hg; simpl; [|left]. right. by apply last_Some_elem_of. }
    by apply (proj1 (Forall_forall _ _) Hall) in Hin as (_ & -> & _).
  - by inversion Hall as [|?? (_ & _ & Hr)].
Qed.

Lemma replica_targets_fmap l : replica_targets (Some <$> l) = filter (.≠ "") l.
Proof.
  unfold replica_targets. induction l as [|a l IH]; [done|]. csimpl. rewrite IH.
  case_decide as Ha; [rewrite filter_cons_False; naive_solver|by rewrite filter_cons_True].
Qed.

(** Client and storage node agree on the upload protocol: the frames the client cuts
    a chunk into, whatever its frame size, make [PutChunk] store exactly the chunk when
    it fits, and commit it with the client's checksum, the node itself and the replicas
    that confirmed; every other chunk is as it was. *)
Theorem client_put_stored io h size id replicas data s :
  no_faults io → store_ok s → validateChunkId (splitLevel s) id = Ok tt →
  (used_bytes (contents s) + blen data - size_of (contents s) id ≤ totalSpace s)%Z →
  let '(out, s') := PutChunk io h (RecvMsg <$> client_frames size id replicas (Compute_checksum data) data) s in
  contents s' = <[id := data]> (contents s) ∧ store_ok s' ∧
  ∃ final, out = put_commit h final (filter (.≠ "") replicas) ∧ pc_ChunkId final = id ∧
    pc_Checksum final = sha256 data.
Proof.
  intros Hio Hok Hv Hfits.
  destruct (client_frames_ok size id replicas (Compute_checksum data) data) as (f & fs & -> & Hj & Hids & Hlast & Hsum & Hrep).
  inversion Hids as [|?? Hid Hrest]; subst.
  pose proof (PutChunk_ok io Hio h f (RecvMsg <$> fs) s Hok) as H.
  change (RecvMsg <$> f :: fs) with (RecvMsg f :: (RecvMsg <$> fs)).
  destruct (PutChunk io h _ s) as [out s']. destruct H as [[Hok' H] _].
  rewrite accept_rest_frames in H by done. cbv zeta in H.
  change (pc_Data f ++ mjoin (pc_Data <$> fs)) with (mjoin (pc_Data <$> f :: fs)) in H.
  rewrite decide_True in H by done. destruct H as (r & Hspec & Hr).
  unfold spec_put in Hspec. rewrite Hv, decide_False in Hspec by lia. injection Hspec as <- Hc.
  split_and!; [done|done|]. eexists. split; [|split; [|exact Hsum]].
  - rewrite <-replica_targets_fmap, <-Hrep. exact Hr.
  - destruct (last fs) as [g|] eqn:Hg; simpl; [|done].
    apply (proj1 (Forall_forall _ _) Hrest g). by apply last_Some_elem_of.
Qed.

Lemma client_put_stored_witness :
  contents (PutChunk all_ok demo_handler (RecvMsg <$> client_frames 2 "abcdef" ["h:1"]
    (Compute_checksum (to_bytes "hello")) (to_bytes "hello")) demo_store).2 = <["abcdef" := to_bytes "hello"]> (contents demo_store).
Proof.
  pose proof (client_put_stored all_ok demo_handler 2 "abcdef" ["h:1"] (to_bytes "hello") demo_store (λ n, eq_refl)
    demo_store_ok ltac:(vm_compute; reflexivity) ltac:(vm_compute; discriminate)) as H.
  destruct (PutChunk all_ok demo_handler _ demo_store) as [out s']. destruct H as (H & _). exact H.
Defined.

(** ** Downloads *)

Lemma overlay_lookup c off data q :
  off + length data ≤ length c →
  overlay c off data !! q = if decide (off ≤ q < off + length data) then data !! (q - off) else c !! q.
Proof.
  intros Hle. unfold overlay. replace (off - length c) with 0 by lia. simpl.
  assert (Ht : length (take off c) = off) by (rewrite length_take; lia).
  case_decide as Hq.
  - rewrite lookup_app_r by lia. rewrite Ht. by rewrite lookup_app_l by lia.
  - destruct (decide (q < off)).
    + rewrite lookup_app_l by lia. by apply lookup_take_lt.
    + rewrite lookup_app_r by lia. rewrite Ht, lookup_app_r by lia. rewrite lookup_drop. f_equal. lia.
Qed.

Lemma length_overlay c off data : off + length data ≤ length c → length (overlay c off data) = length c.
Proof.
  intros Hle. unfold overlay. replace (off - length c) with 0 by lia. simpl.
  rewrite !length_app, length_take, length_drop. lia.
Qed.

Section pieces.
Context (file : bytes) (cs : nat) (Hcs : 0 < cs).

Definition put_piece (out : bytes) (i : nat) : bytes := overlay out (i * cs) (chunk_piece cs file i).

(** After writing the pieces of [idx], those positions hold the file. *)
Lemma pieces_written idx out :
  length out = length file → Forall (λ i, i * cs < length file) idx →
  length (foldl put_piece out idx) = length file ∧
  ∀ q, foldl put_piece out idx !! q = (if decide (q / cs ∈ idx) then file !! q else out !! q).
Proof.
  revert out. induction idx as [|i idx IH] using rev_ind; intros out Hlen Hall; [done|].
  rewrite foldl_snoc. apply Forall_app in Hall as [Hall Hi]. inversion Hi as [|?? Hi' _]; subst.
  destruct (IH out Hlen Hall) as [Hl Hq]. set (o := foldl put_piece out idx) in *.
  assert (Hfit : i * cs + length (chunk_piece cs file i) ≤ length o) by (rewrite length_chunk_piece; lia).
  split; [unfold put_piece; rewrite length_overlay; lia|].
  intros q. unfold put_piece. rewrite overlay_lookup by done. rewrite Hq.
  assert (Hdiv : q / cs = i ↔ i * cs ≤ q < S i * cs).
  { pose proof (Nat.div_mod q cs ltac:(lia)). pose proof (Nat.mod_upper_bound q cs ltac:(lia)).
    split; [intros <-; lia|]. intros Hr. symmetry. apply (Nat.div_unique q cs i (q - i * cs)); lia. }
  rewrite length_chunk_piece. destruct (decide (q / cs = i)) as [Heq|Hne].
  - apply Hdiv in Heq as Hr. rewrite (decide_True (P := q / cs ∈ idx ++ [i])) by set_solver.
    case_decide as Hin; [by apply chunk_piece_lookup|].
    assert (Hge : length file ≤ q) by lia. case_decide; [done|].
    rewrite !lookup_ge_None_2 by lia. done.
  - rewrite decide_False by lia. repeat case_decide; set_solver.
Qed.
End pieces.

(** A local disk on which no call fails. *)
Definition output_works (disk : OutputFile) : Prop :=
  of_create disk = None ∧ of_truncate disk = None ∧ ∀ off, of_write disk off = None.
Definition good_output : OutputFile := mkOutputFile None None (λ _, None).

Lemma WriteAt_works disk out data off :
  output_works disk → (0 ≤ off)%Z → WriteAt disk out data off = Ok (overlay out (Z.to_nat off) data).
Proof. intros (_ & _ & Hw) Hoff. unfold WriteAt. by rewrite decide_False, Hw by lia. Qed.

(** Nothing failed, nothing is counted as failed. *)
Lemma count_failed_none events : Forall (λ e, e.2 = None) events → count_failed events = 0%Z.
Proof.
  unfold count_failed. induction 1 as [|e events He _ IH]; [done|]. by rewrite filter_cons_False by (by intros []).
Qed.

Section download.
Context {St : Type} (SC : StorageClient St) (amb : Ambient) (disk : OutputFile) (I : St → Prop) (file : bytes) (cs : nat).
Context (Hdisk : output_works disk).
Context (Hctx : ∀ i, ctx_err amb i = None).
Context (HI : ∀ addr id s, I s → I (sc_GetChunk SC addr id s).2) (Hcs : 0 < cs).

(** The metadata of chunk [i]: its checksum is that of its bytes, some replica serves
    them, and none of its replicas serves other bytes with the same checksum. *)
Record served (c : ClientChunkInfo) (i : nat) : Prop := {
  sv_index : cci_ChunkIndex c = Z.of_nat i;
  sv_range : i * cs < length file ∧ is_int64 (Z.of_nat i * Z.of_nat cs);
  sv_sum : cci_Checksum c = sha256 (chunk_piece cs file i);
  sv_some : ∃ addr, addr ∈ cci_Replicas c ∧ ∀ s, I s → (sc_GetChunk SC addr (cci_ChunkID c) s).1 = Ok (chunk_piece cs file i);
  sv_unique : ∀ addr s data, addr ∈ cci_Replicas c → I s → (sc_GetChunk SC addr (cci_ChunkID c) s).1 = Ok data →
    sha256 data = cci_Checksum c → data = chunk_piece cs file i;
}.

Lemma checksum_nonempty d : sha256 d ≠ [].
Proof. intros Heq%(f_equal length). by rewrite sha256_length in Heq. Qed.

(** Failover ends at a replica that serves the chunk. *)
Lemma try_replicas_ok c i replicas lastErr out s :
  served c i → replicas ⊆ cci_Replicas c → I s →
  (∃ addr, addr ∈ replicas ∧ ∀ s, I s → (sc_GetChunk SC addr (cci_ChunkID c) s).1 = Ok (chunk_piece cs file i)) →
  ∃ s', try_replicas SC amb disk c (Z.of_nat cs) replicas lastErr out s = (None, put_piece file cs out i, s') ∧ I s'.
Proof.
  intros Hsv. revert lastErr s. induction replicas as [|a replicas IH]; intros lastErr s Hsub Hs (addr & Hin & Hserve).
  { by apply not_elem_of_nil in Hin. }
  simpl. rewrite Hctx. pose proof (HI a (cci_ChunkID c) s Hs) as Hs'. pose proof (sv_unique _ _ Hsv a s) as Huniq.
  assert (Ha : a ∈ cci_Replicas c) by set_solver. assert (Hsub' : replicas ⊆ cci_Replicas c) by set_solver.
  pose proof (λ H : addr = a, Hserve s Hs) as Hgood.
  assert (Hnext : ∀ e s', I s' → addr ≠ a → ∃ s'', try_replicas SC amb disk c (Z.of_nat cs) replicas e out s' = (None, put_piece file cs out i, s'') ∧ I s'').
  { intros e s' Hs'' Hne. apply IH; [done..|]. exists addr. split; [|done]. by apply elem_of_cons in Hin as [|]. }
  destruct (decide (addr = a)) as [<-|Hne].
  - specialize (Hgood eq_refl). destruct (sc_GetChunk SC addr (cci_ChunkID c) s) as [r s1]. simpl in *. subst r.
    rewrite decide_False by (intros [_ H]; by rewrite (sv_sum _ _ Hsv) in H).
    rewrite (sv_index _ _ Hsv), to_int64_id by apply (sv_range _ _ Hsv). rewrite WriteAt_works by (done || lia).
    exists s1. split; [|done]. unfold put_piece. do 2 f_equal. f_equal. lia.
  - destruct (sc_GetChunk SC a (cci_ChunkID c) s) as [[data|e] s1]; simpl in *; [|by apply Hnext].
    case_decide as Hd; [by apply Hnext|].
    assert (Hsum : sha256 data = cci_Checksum c).
    { destruct (decide (sha256 data = cci_Checksum c)) as [|Hn]; [done|]. exfalso. apply Hd. split; [|done].
      rewrite (sv_sum _ _ Hsv). apply checksum_nonempty. }
    rewrite (Huniq data Ha Hs eq_refl Hsum).
    rewrite (sv_index _ _ Hsv), to_int64_id by apply (sv_range _ _ Hsv). rewrite WriteAt_works by (done || lia).
    exists s1. split; [|done]. unfold put_piece. do 2 f_equal. f_equal. lia.
Qed.

Lemma download_chunks_ok order idx out s :
  Forall2 served order idx → I s →
  ∃ events s', download_chunks SC amb disk (Z.of_nat cs) order out s = (events, foldl (put_piece file cs) out idx, s') ∧
    I s' ∧ events = (λ c, (cci_ChunkIndex c, None)) <$> order.
Proof.
  intros Hall. revert out s. induction Hall as [|c i order idx Hsv _ IH]; intros out s Hs; [by eexists [], s|].
  simpl. unfold downloadChunkWithFailover. pose proof (sv_some _ _ Hsv) as (addr & Hin & Hserve).
  rewrite decide_False by (intros Heq; rewrite Heq in Hin; by apply not_elem_of_nil in Hin).
  destruct (try_replicas_ok c i (cci_Replicas c) None out s Hsv (reflexivity _) Hs) as (s1 & -> & Hs1); [by exists addr|].
  destruct (IH (put_piece file cs out i) s1 Hs1) as (events & s2 & -> & Hs2 & ->). by eexists _, s2.
Qed.
End download.

Lemma Download_run `{!GoSort} {St} (MC : MetadataClient St) (SC : StorageClient St) (amb : Ambient) (cfg : Config) (disk : OutputFile)
    (I : St → Prop) (file : bytes) (cs n : nat) (name : string) (info : ClientFileInfo) (chunks : list ClientChunkInfo)
    (before : option bytes) (order : list ClientChunkInfo → list ClientChunkInfo) (s s1 : St) :
  (∀ addr id s, I s → I (sc_GetChunk SC addr id s).2) → (∀ l, order l ≡ₚ l) → (∀ i, ctx_err amb i = None) →
  output_works disk → 0 < cs → 0 < n → length file ≤ n * cs →
  mc_GetFileByName MC name s = (Ok (info, chunks), s1) → I s1 →
  cfi_FileSize info = Z.of_nat (length file) → cfi_ChunkSize info = Z.of_nat cs → (0 < cfg_MaxParallelDownloads cfg)%Z →
  Forall2 (served SC I file cs) chunks (seq 0 n) →
  ∃ r s2, Download MC SC amb cfg disk name before order s = (Returns r, s2) ∧ I s2 ∧ dl_err r = None ∧ dl_output r = Some file ∧
    dl_events r ≡ₚ (λ c, (cci_ChunkIndex c, None)) <$> chunks.
Proof.
  intros HI Hord Hctx Hdisk Hcs Hn Hlen Hget Hs1 Hsize Hchunk Hsem Hall. unfold Download. rewrite Hget, (semaphore_pos _ Hsem).
  assert (Hne : chunks ≠ []) by (intros ->; apply Forall2_length in Hall; rewrite length_seq in Hall; simpl in Hall; lia).
  rewrite decide_False by done. rewrite Hsize, Hchunk, (proj1 Hdisk), decide_False, (proj1 (proj2 Hdisk)) by lia.
  set (less := λ a b, bool_decide (cci_ChunkIndex a < cci_ChunkIndex b)%Z).
  assert (Hperm : order (go_sort less chunks) ≡ₚ chunks) by (rewrite Hord; apply go_sort_perm).
  destruct (Permutation_Forall2 (symmetry Hperm) Hall) as (idx & Hidx & Hall').
  destruct (download_chunks_ok SC amb disk I file cs Hdisk Hctx HI Hcs _ idx
    (replicate (Z.to_nat (Z.of_nat (length file))) (Ascii.ascii_of_N 0)) s1 Hall' Hs1) as (events & s2 & -> & HI2 & ->).
  rewrite count_failed_none, decide_False by (lia || (apply Forall_fmap, Forall_forall; done)).
  eexists _, s2. split; [reflexivity|]. split_and!; [done|done| |by apply fmap_Permutation]. cbn [dl_output]. f_equal.
  assert (Hrange : Forall (λ i, i * cs < length file) idx).
  { rewrite Forall_forall. intros i Hi. apply list_elem_of_lookup in Hi as [k Hk].
    destruct (Forall2_lookup_r _ _ _ _ _ Hall' Hk) as (c & _ & Hsv). apply (sv_range _ _ _ _ _ _ Hsv). }
  destruct (pieces_written file cs Hcs idx (replicate (Z.to_nat (Z.of_nat (length file))) (Ascii.ascii_of_N 0)))
    as [Hl Hq]; [rewrite length_replicate; lia|done|].
  apply list_eq. intros q. rewrite Hq. case_decide as Hin; [done|].
  rewrite !lookup_ge_None_2; [done|..|rewrite length_replicate].
  all: destruct (decide (q < length file)) as [Hlt|]; [|lia]; exfalso; apply Hin.
  all: rewrite <-Hidx; apply elem_of_seq; split; [lia|].
  all: apply Nat.Div0.div_lt_upper_bound; lia.
Qed.

(** C20. A download returns the file: when the metadata lists every chunk of a file once,
    each with the checksum of its bytes and at least one replica that serves them, then,
    whatever its other replicas answer short of a checksum collision and in whatever
    order the goroutines run, an uncancelled [Download] with a slot to a disk that works succeeds and
    writes exactly the file, whatever was at the output path before. *)
Theorem download_reassembles `{!GoSort} {St} (MC : MetadataClient St) (SC : StorageClient St) (amb : Ambient)
    (cfg : Config) (disk : OutputFile) (I : St → Prop) (file : bytes) (cs n : nat) (name : string) (info : ClientFileInfo)
    (chunks : list ClientChunkInfo) (before : option bytes) (order : list ClientChunkInfo → list ClientChunkInfo) (s s1 : St) :
  (∀ addr id s, I s → I (sc_GetChunk SC addr id s).2) → (∀ l, order l ≡ₚ l) → (∀ i, ctx_err amb i = None) →
  output_works disk → 0 < cs → 0 < n → length file ≤ n * cs →
  mc_GetFileByName MC name s = (Ok (info, chunks), s1) → I s1 →
  cfi_FileSize info = Z.of_nat (length file) → cfi_ChunkSize info = Z.of_nat cs → (0 < cfg_MaxParallelDownloads cfg)%Z →
  Forall2 (served SC I file cs) chunks (seq 0 n) →
  ∃ r s2, Download MC SC amb cfg disk name before order s = (Returns r, s2) ∧ dl_err r = None ∧ dl_output r = Some file.
Proof.
  intros. edestruct (Download_run MC SC amb cfg disk I file cs n name info chunks before order s s1)
    as (r & s2 & ? & _ & ? & ? & _); eauto 10.
Qed.

(** A small cluster: two addresses, the first of which lost the data. *)
Definition w_file : bytes := to_bytes "hello".
Definition w_SC : StorageClient unit := mkStorageClient unit (λ _ _ _ _ _ s, (None, s))
  (λ addr id s, (if decide (addr = "b:1") then Ok (if decide (id = "c0") then to_bytes "hel" else to_bytes "lo")
                 else Err (ErrStatus NotFound "chunk not found"), s)).
Definition w_chunks : list ClientChunkInfo :=
  [mkClientChunkInfo "c0" "f" 0 0 (sha256 (to_bytes "hel")) ["a:1"; "b:1"];
   mkClientChunkInfo "c1" "f" 1 0 (sha256 (to_bytes "lo")) ["a:1"; "b:1"]].
Definition w_info : ClientFileInfo := mkClientFileInfo "f" "name" 5 3 ["c0"; "c1"] "complete" 0.
Definition w_MC : MetadataClient unit := mkMetadataClient unit
  (λ f _ _ _ ids s, (Ok (f, (λ c, mkPlacement c "b:1" []) <$> ids), s)) (λ _ _ _ _ s, (None, s))
  (λ _ s, (Ok (w_info, w_chunks), s)) (λ _ s, (Ok (w_info, w_chunks), s)) (λ _ s, (Ok [w_info], s))
  (λ _ s, (None, s)) (λ _ _ _ s, (None, s)) (λ _ s, (Ok ["a:1"; "b:1"], s)).

Lemma download_reassembles_witness :
  ∃ r s2, Download w_MC w_SC calm DefaultConfig good_output "name" None reverse tt = (Returns r, s2) ∧ dl_err r = None ∧ dl_output r = Some w_file.
Proof.
  apply (download_reassembles w_MC w_SC calm DefaultConfig good_output (λ _, True) w_file 3 2 "name" w_info w_chunks None reverse tt tt).
  - done.
  - intros l. apply reverse_Permutation.
  - done.
  - by split_and!.
  - lia.
  - lia.
  - vm_compute. lia.
  - reflexivity.
  - exact I.
  - reflexivity.
  - reflexivity.
  - reflexivity.
  - change (seq 0 2) with [0; 1]. apply Forall2_cons. split; [|apply Forall2_cons; split; [|constructor]].
    all: split; [reflexivity|vm_compute; intuition (lia || congruence)|reflexivity|exists "b:1"; split; [compute_decide|done]|].
    all: intros addr s data _ _ Hd _; simpl in Hd; case_decide; [by injection Hd as <-|done].
Defined.
