(* ===== verification/Mocks.v ===== *)
(** * The clients that tests use: metadataclient/mock.go and storageclient/mock.go

    Both mocks implement the interfaces of the upload and download services, so everything
    proved of the services for every client holds with them.  A mock's state is a record
    that its methods change under their mutex; errors can be injected, per chunk and with a
    count, and calls are recorded.  The file ID and the index that [PutChunk] also takes are
    left out of the recorded call, as of the interface. *)

From S2P Require Import Prelude GoLib GoText Sha256 DiskStore Retry ClientConfig Manifest Client.

(** ** metadataclient.MockClient *)

Inductive meta_call :=
| CreateFileCall (fileName : string) (fileSize chunkSize : Z) (chunkIDs : list string)
| CommitChunkCall (chunkID fileID : string) (confirmedNodes : list string) (checksum : bytes)
| GetFileCall (fileID : string)
| DeleteFileCall (fileID : string)
| CommitFileCall (fileID : string) (fileSize : Z) (checksum : bytes).

(** The injected errors. *)
Record MetaErrs := mkMetaErrs {
  CreateFileErr : option error;
  CommitChunkErr : option error;
  GetFileErr : option error;
  ListFilesErr : option error;
  DeleteFileErr : option error;
  GetChunkLocationsErr : option error;
  CommitFileErr : option error;
}.

(** The lists of recorded calls are one list, in the order of the calls. *)
Record MetaMock := mkMetaMock {
  mm_Files : gmap string ClientFileInfo;
  mm_Chunks : gmap string ClientChunkInfo;
  mm_PlacementsByFile : gmap string (list Placement);
  mm_nextFileID : Z;
  mm_errs : MetaErrs;
  mm_calls : list meta_call;
}.

Definition no_errs : MetaErrs := mkMetaErrs None None None None None None None.
Definition NewMetaMock : MetaMock := mkMetaMock ∅ ∅ ∅ 0 no_errs [].

Definition record_call (c : meta_call) (m : MetaMock) : MetaMock :=
  mkMetaMock (mm_Files m) (mm_Chunks m) (mm_PlacementsByFile m) (mm_nextFileID m) (mm_errs m) (mm_calls m ++ [c]).
Definition set_mock_files (fs : gmap string ClientFileInfo) (m : MetaMock) : MetaMock :=
  mkMetaMock fs (mm_Chunks m) (mm_PlacementsByFile m) (mm_nextFileID m) (mm_errs m) (mm_calls m).

(** [fmt.Sprintf("file-%03d", n)] for a positive [n]. *)
Definition file_number (n : Z) : string :=
  let s := pretty n in
  "file-" +:+ (if decide (String.length s = 1) then "00" else if decide (String.length s = 2) then "0" else "") +:+ s.

Definition default_placement (cid : string) : Placement :=
  mkPlacement cid "storage-node-1:4000" ["storage-node-2:4000"; "storage-node-3:4000"].

Definition mock_CreateFile (fileID fileName : string) (fileSize chunkSize : Z) (chunkIDs : list string) (m : MetaMock)
    : res (string * list Placement) * MetaMock :=
  let m := record_call (CreateFileCall fileName fileSize chunkSize chunkIDs) m in
  match CreateFileErr (mm_errs m) with
  | Some e => (Err e, m)
  | None =>
      let next := to_int64 (mm_nextFileID m + 1) in
      let fileID := if decide (fileID = "") then file_number next else fileID in
      let m' := mkMetaMock (<[fileID := mkClientFileInfo fileID fileName fileSize chunkSize chunkIDs "creating" 0]> (mm_Files m))
                  (mm_Chunks m) (mm_PlacementsByFile m) next (mm_errs m) (mm_calls m) in
      let placements := default (default_placement <$> chunkIDs) (mm_PlacementsByFile m !! fileName) in
      (Ok (fileID, placements), m')
  end.

Definition mock_CommitChunk (chunkID fileID : string) (confirmedNodes : list string) (checksum : bytes) (m : MetaMock) : option error * MetaMock :=
  let m := record_call (CommitChunkCall chunkID fileID confirmedNodes checksum) m in (CommitChunkErr (mm_errs m), m).

(** The chunks of a file that the mock has. *)
Definition mock_chunks (m : MetaMock) (fi : ClientFileInfo) : list ClientChunkInfo := omap (mm_Chunks m !!.) (cfi_ChunkIDs fi).

Definition mock_GetFile (fileID : string) (m : MetaMock) : res (ClientFileInfo * list ClientChunkInfo) * MetaMock :=
  let m := record_call (GetFileCall fileID) m in
  match GetFileErr (mm_errs m) with
  | Some e => (Err e, m)
  | None =>
      match mm_Files m !! fileID with
      | None => (Err (ErrNew "mock: file not found"), m)
      | Some fi => (Ok (fi, mock_chunks m fi), m)
      end
  end.

(** The first match in the order of the map. *)
Definition mock_GetFileByName `{!MapRange} (fileName : string) (m : MetaMock) : res (ClientFileInfo * list ClientChunkInfo) * MetaMock :=
  match GetFileErr (mm_errs m) with
  | Some e => (Err e, m)
  | None =>
      match range_find (λ fi, bool_decide (cfi_FileName fi = fileName)) (mm_Files m) with
      | None => (Err (ErrNew "mock: file not found"), m)
      | Some fi => (Ok (fi, mock_chunks m fi), m)
      end
  end.

Definition mock_ListFiles `{!MapRange} (pre : string) (m : MetaMock) : res (list ClientFileInfo) * MetaMock :=
  match ListFilesErr (mm_errs m) with
  | Some e => (Err e, m)
  | None => (Ok (filter (λ fi, String.prefix pre (cfi_FileName fi) = true) (map_range (mm_Files m)).*2), m)
  end.

Definition mock_DeleteFile (fileID : string) (m : MetaMock) : option error * MetaMock :=
  let m := record_call (DeleteFileCall fileID) m in
  match DeleteFileErr (mm_errs m) with
  | Some e => (Some e, m)
  | None => (None, set_mock_files (delete fileID (mm_Files m)) m)
  end.

Definition mock_GetChunkLocations (chunkID : string) (m : MetaMock) : res (list string) * MetaMock :=
  match GetChunkLocationsErr (mm_errs m) with
  | Some e => (Err e, m)
  | None => (match mm_Chunks m !! chunkID with Some c => Ok (cci_Replicas c) | None => Err (ErrNew "mock: chunk not found") end, m)
  end.

Definition complete_file (fi : ClientFileInfo) : ClientFileInfo :=
  mkClientFileInfo (cfi_FileID fi) (cfi_FileName fi) (cfi_FileSize fi) (cfi_ChunkSize fi) (cfi_ChunkIDs fi) "complete" (cfi_CreatedAt fi).

Definition mock_CommitFile (fileID : string) (fileSize : Z) (checksum : bytes) (m : MetaMock) : option error * MetaMock :=
  let m := record_call (CommitFileCall fileID fileSize checksum) m in
  match CommitFileErr (mm_errs m) with
  | Some e => (Some e, m)
  | None => (None, set_mock_files (alter complete_file fileID (mm_Files m)) m)
  end.

(** ** storageclient.MockClient *)

Record PutCall := mkPutCall { pu_Addr : string; pu_ChunkID : string; pu_DataLen : Z; pu_Checksum : bytes; pu_ReplicateTo : list string }.

Record StorageMock := mkStorageMock {
  sm_Chunks : gmap string bytes;         (* "addr:chunkID" *)
  sm_PutCalls : list PutCall;
  sm_GetCalls : list (string * string);
  sm_PutFailChunks : gmap string Z;      (* failures that remain *)
  sm_GetFailChunks : gmap string Z;
  sm_FailAddrs : gset string;
}.

Definition NewStorageMock : StorageMock := mkStorageMock ∅ [] [] ∅ ∅ ∅.

Definition mock_key (addr chunkID : string) : string := addr +:+ ":" +:+ chunkID.

Definition mock_PutChunk (addr chunkID : string) (data checksum : bytes) (replicateTo : list string) (m : StorageMock) : option error * StorageMock :=
  let calls := sm_PutCalls m ++ [mkPutCall addr chunkID (Z.of_nat (length data)) checksum replicateTo] in
  if decide (addr ∈ sm_FailAddrs m) then
    (Some (ErrNew "mock: storage node is unreachable"),
     mkStorageMock (sm_Chunks m) calls (sm_GetCalls m) (sm_PutFailChunks m) (sm_GetFailChunks m) (sm_FailAddrs m))
  else if decide (0 < default 0 (sm_PutFailChunks m !! chunkID))%Z then
    (Some (ErrNew "mock: PutChunk failed for chunk (injected failure)"),
     mkStorageMock (sm_Chunks m) calls (sm_GetCalls m) (alter Z.pred chunkID (sm_PutFailChunks m)) (sm_GetFailChunks m) (sm_FailAddrs m))
  else
    (None, mkStorageMock (<[mock_key addr chunkID := data]> (sm_Chunks m)) calls (sm_GetCalls m) (sm_PutFailChunks m) (sm_GetFailChunks m)
             (sm_FailAddrs m)).

Definition mock_GetChunk (addr chunkID : string) (m : StorageMock) : res bytes * StorageMock :=
  let calls := sm_GetCalls m ++ [(addr, chunkID)] in
  if decide (addr ∈ sm_FailAddrs m) then
    (Err (ErrNew "mock: storage node is unreachable"),
     mkStorageMock (sm_Chunks m) (sm_PutCalls m) calls (sm_PutFailChunks m) (sm_GetFailChunks m) (sm_FailAddrs m))
  else if decide (0 < default 0 (sm_GetFailChunks m !! chunkID))%Z then
    (Err (ErrNew "mock: GetChunk failed for chunk (injected failure)"),
     mkStorageMock (sm_Chunks m) (sm_PutCalls m) calls (sm_PutFailChunks m) (alter Z.pred chunkID (sm_GetFailChunks m)) (sm_FailAddrs m))
  else
    (match sm_Chunks m !! mock_key addr chunkID with Some d => Ok d | None => Err (ErrNew "mock: chunk not found") end,
     mkStorageMock (sm_Chunks m) (sm_PutCalls m) calls (sm_PutFailChunks m) (sm_GetFailChunks m) (sm_FailAddrs m)).

(** ** The two as the services use them *)

Record Mocks := mkMocks { mk_meta : MetaMock; mk_storage : StorageMock }.

Definition on_meta {A} (f : MetaMock → A * MetaMock) (s : Mocks) : A * Mocks :=
  let '(a, m) := f (mk_meta s) in (a, mkMocks m (mk_storage s)).
Definition on_storage {A} (f : StorageMock → A * StorageMock) (s : Mocks) : A * Mocks :=
  let '(a, m) := f (mk_storage s) in (a, mkMocks (mk_meta s) m).

Definition MockMetadata `{!MapRange} : MetadataClient Mocks :=
  mkMetadataClient Mocks
    (λ fid name size cs ids, on_meta (mock_CreateFile fid name size cs ids)) (λ c f ns sum, on_meta (mock_CommitChunk c f ns sum))
    (λ f, on_meta (mock_GetFile f)) (λ n, on_meta (mock_GetFileByName n)) (λ p, on_meta (mock_ListFiles p))
    (λ f, on_meta (mock_DeleteFile f)) (λ f size sum, on_meta (mock_CommitFile f size sum)) (λ c, on_meta (mock_GetChunkLocations c)).

Definition MockStorage : StorageClient Mocks :=
  mkStorageClient Mocks (λ a c d sum reps, on_storage (mock_PutChunk a c d sum reps)) (λ a c, on_storage (mock_GetChunk a c)).

(** ** Lemmas *)

Definition colon : byte := Ascii.ascii_of_nat 58.

Lemma contains_colon_app a c : contains_char colon (a +:+ String colon c) = true.
Proof.
  induction a as [|x a IH]; [done|]. change (String x a +:+ String colon c) with (String x (a +:+ String colon c)).
  simpl. by rewrite IH, orb_true_r.
Qed.

(** Chunk IDs have no colon, so the key tells address and chunk apart. *)
Lemma mock_key_inj a a' c c' :
  contains_char colon c = false → contains_char colon c' = false → mock_key a c = mock_key a' c' → a = a' ∧ c = c'.
Proof.
  unfold mock_key. change (":" +:+ c) with (String colon c). change (":" +:+ c') with (String colon c').
  intros Hc Hc'. revert a'. induction a as [|x a IH]; intros [|y a'] Heq.
  - by injection Heq.
  - injection Heq as _ Heq. change (c = a' +:+ String colon c') in Heq. by rewrite Heq, contains_colon_app in Hc.
  - injection Heq as _ Heq. change (a +:+ String colon c = c') in Heq. by rewrite <-Heq, contains_colon_app in Hc'.
  - injection Heq as -> Heq. by destruct (IH a' Heq) as [-> ->].
Qed.

Section retries.
Context (p : Policy) (amb : Ambient) (Hamb : ∀ i, ctx_err amb i = None ∧ ctx_done amb i = None).
Context (addr id : string) (data sum : bytes) (replicas : list string).

Notation put := (λ s : Mocks, on_storage (mock_PutChunk addr id data sum replicas) s).

(** The loop of [Do] while failures are left. *)
Lemma do_mock n attempt delay last s :
  addr ∉ sm_FailAddrs (mk_storage s) →
  let k := Z.to_nat (default 0 (sm_PutFailChunks (mk_storage s) !! id))%Z in
  let '(err, s', _) := do_loop put p amb n attempt delay last s in
  mk_meta s' = mk_meta s ∧ sm_FailAddrs (mk_storage s') = sm_FailAddrs (mk_storage s) ∧
  length (sm_PutCalls (mk_storage s')) = length (sm_PutCalls (mk_storage s)) + Nat.min (S k) n ∧
  if decide (k < n) then
    err = None ∧ sm_Chunks (mk_storage s') = <[mock_key addr id := data]> (sm_Chunks (mk_storage s))
  else err ≠ None ∧ sm_Chunks (mk_storage s') = sm_Chunks (mk_storage s).
Proof.
  intros Ha. revert attempt delay last s Ha. induction n as [|n IH]; intros attempt delay last s Ha k.
  - cbn [do_loop]. rewrite decide_False by lia. split_and!; done || lia.
  - cbn [do_loop]. destruct (Hamb attempt) as [-> ->].
    assert (Hput : put s = if decide (k = 0) then
      (None, mkMocks (mk_meta s) (mkStorageMock (<[mock_key addr id := data]> (sm_Chunks (mk_storage s)))
        (sm_PutCalls (mk_storage s) ++ [mkPutCall addr id (Z.of_nat (length data)) sum replicas]) (sm_GetCalls (mk_storage s))
        (sm_PutFailChunks (mk_storage s)) (sm_GetFailChunks (mk_storage s)) (sm_FailAddrs (mk_storage s))))
      else (Some (ErrNew "mock: PutChunk failed for chunk (injected failure)"), mkMocks (mk_meta s) (mkStorageMock (sm_Chunks (mk_storage s))
        (sm_PutCalls (mk_storage s) ++ [mkPutCall addr id (Z.of_nat (length data)) sum replicas]) (sm_GetCalls (mk_storage s))
        (alter Z.pred id (sm_PutFailChunks (mk_storage s))) (sm_GetFailChunks (mk_storage s)) (sm_FailAddrs (mk_storage s))))).
    { unfold on_storage, mock_PutChunk. rewrite decide_False by done.
      destruct (decide (k = 0)) as [Hk|Hk]; [rewrite decide_False by lia|rewrite decide_True by lia]; done. }
    rewrite Hput. clear Hput. destruct (decide (k = 0)) as [Hk|Hk].
    + rewrite decide_True by lia. cbn [mk_meta mk_storage sm_FailAddrs sm_PutCalls sm_Chunks]. rewrite length_app. cbn [length].
      split_and!; done || lia.
    + set (s1 := mkMocks _ _).
      assert (Hk1 : Z.to_nat (default 0 (sm_PutFailChunks (mk_storage s1) !! id))%Z = pred k).
      { simpl. rewrite lookup_alter_eq. unfold k in *. destruct (sm_PutFailChunks (mk_storage s) !! id) as [r|]; simpl in *; [lia|done]. }
      destruct (decide (n = 0)) as [->|Hn].
      * rewrite decide_False by lia. cbn [s1 mk_meta mk_storage sm_FailAddrs sm_PutCalls sm_Chunks]. rewrite length_app. cbn [length].
        split_and!; done || lia.
      * specialize (IH (S attempt) (next_delay p delay) (Some (ErrNew "mock: PutChunk failed for chunk (injected failure)")) s1 Ha).
        rewrite Hk1 in IH. destruct (do_loop put p amb n _ _ _ s1) as [[err s'] sleeps]. destruct IH as (H1 & H2 & H3 & H4).
        split_and!; [done|done|rewrite H3; cbn [s1 mk_storage sm_PutCalls]; rewrite length_app; cbn [length]; lia|].
        destruct (decide (pred k < n)) as [Hlt|Hlt]; [rewrite decide_True by lia|rewrite decide_False by lia]; done.
Qed.
End retries.

(** ** Properties *)

(** The retries of an upload absorb exactly as many failures as the policy leaves room for:
    with a chunk that the storage mock fails a number of times, [uploadChunkWithRetry]
    succeeds if and only if the failures are fewer than the attempts; it then has stored the
    chunk's bytes at the primary and changed nothing else that is stored, and otherwise
    nothing; and it makes one call more than failures, at most as many as attempts. *)
Theorem mock_retries_absorb (cfg : Config) (amb : Ambient) (file : bytes) (desc : ChunkDescriptor) (placement : Placement) (s : Mocks) :
  let data := take (Z.to_nat (cd_Size desc)) (drop (Z.to_nat (cd_Offset desc)) file) in
  let k := Z.to_nat (default 0 (sm_PutFailChunks (mk_storage s) !! cd_ChunkID desc))%Z in
  let n := Z.to_nat (cfg_RetryAttempts cfg) in
  (∀ i, ctx_err amb i = None ∧ ctx_done amb i = None) → Z.of_nat (length data) = cd_Size desc →
  pl_Primary placement ∉ sm_FailAddrs (mk_storage s) →
  let '(err, s') := uploadChunkWithRetry MockStorage amb cfg file desc placement s in
  (err = None ↔ k < n) ∧
  sm_Chunks (mk_storage s') =
    (if decide (k < n) then <[mock_key (pl_Primary placement) (cd_ChunkID desc) := data]> (sm_Chunks (mk_storage s))
     else sm_Chunks (mk_storage s)) ∧
  length (sm_PutCalls (mk_storage s')) = length (sm_PutCalls (mk_storage s)) + Nat.min (S k) n.
Proof.
  intros data k n Hamb Hlen Ha. unfold uploadChunkWithRetry. fold data. rewrite decide_False by lia. unfold Do.
  pose proof (do_mock (cfg_RetryPolicy cfg) amb Hamb (pl_Primary placement) (cd_ChunkID desc) data (Compute_checksum data) (pl_Replicas placement)
    n 0 (Base (cfg_RetryPolicy cfg)) None s Ha) as H. fold k in H.
  change (Z.to_nat (MaxAttempts (cfg_RetryPolicy cfg))) with n. cbn [sc_PutChunk MockStorage].
  destruct (do_loop _ _ _ n 0 _ None s) as [[err s'] sleeps]. destruct H as (_ & _ & H3 & H4). case_decide as Hk.
  - destruct H4 as [-> H4]. split_and!; done.
  - destruct H4 as [He H4]. destruct err; [|done]. split_and!; done.
Qed.

Definition w_mocks : Mocks := mkMocks NewMetaMock (mkStorageMock ∅ [] [] {["c" := 2%Z]} ∅ ∅).

Lemma mock_retries_absorb_witness :
  let '(err, s') := uploadChunkWithRetry MockStorage calm (mkConfig [] 65536 4 4 "" "" 3 32768 1%Z 1%Z 1%Z) (to_bytes "hello")
    (mkChunkDescriptor "c" "f" 0 1 3) (mkPlacement "c" "h1" []) w_mocks in
  err = None ∧ sm_Chunks (mk_storage s') !! "h1:c" = Some (to_bytes "ell") ∧ length (sm_PutCalls (mk_storage s')) = 3.
Proof.
  pose proof (mock_retries_absorb (mkConfig [] 65536 4 4 "" "" 3 32768 1%Z 1%Z 1%Z) calm (to_bytes "hello")
    (mkChunkDescriptor "c" "f" 0 1 3) (mkPlacement "c" "h1" []) w_mocks ltac:(intros i; split; reflexivity) eq_refl
    ltac:(apply not_elem_of_empty)) as H.
  destruct (uploadChunkWithRetry _ _ _ _ _ _ _) as [err s']. destruct H as (H1 & H2 & H3).
  split; [apply H1; vm_compute; lia|]. split; [rewrite H2; vm_compute; reflexivity|rewrite H3; vm_compute; reflexivity].
Defined.

(** The storage mock is a map from address and chunk to bytes, for chunk IDs without a
    colon: what was put is read back at the same address, and everything else as before. *)
Theorem mock_put_get (addr id addr' id' : string) (data sum : bytes) (replicas : list string) (m m' : StorageMock) :
  contains_char colon id = false → contains_char colon id' = false →
  mock_PutChunk addr id data sum replicas m = (None, m') →
  (mock_GetChunk addr' id' m').1 =
    if decide (addr' = addr ∧ id' = id ∧ ¬ (0 < default 0 (sm_GetFailChunks m !! id'))%Z) then Ok data else (mock_GetChunk addr' id' m).1.
Proof.
  intros Hc Hc'. unfold mock_PutChunk. case_decide as Ha; [done|]. case_decide; [done|]. intros [= <-].
  unfold mock_GetChunk. simpl. case_decide as Ha'; [by rewrite decide_False by naive_solver|].
  case_decide as Hf; [by rewrite decide_False by naive_solver|]. simpl. case_decide as Hs.
  - destruct Hs as (-> & -> & _). by rewrite lookup_insert_eq.
  - rewrite lookup_insert_ne; [done|]. intros Heq. destruct (mock_key_inj _ _ _ _ Hc Hc' Heq). naive_solver.
Qed.
