(* ===== verification/UploadTheorems.v ===== *)
(** * Correctness of uploads: client/internal/service/upload.go and the manifest

    An upload with a slot for a chunk returns, whatever calls to the operating system
    fail; it handles every chunk once, counts what was done and what failed, and on a local
    disk that works it leaves a manifest whose pending chunks are exactly those that
    failed, or none when the upload succeeds. *)

From S2P Require Import Prelude GoLib Json Sha256 DiskStore Chunk StorageServer Retry ClientConfig Manifest Client.
From S2P Require Import ClientTheorems.

(** ** The goroutines *)

(** The statuses after the goroutines of [runs] with their events. *)
Definition mark (cs : gmap string bool) (runs : list (ChunkDescriptor * progress_event)) : gmap string bool :=
  foldl (λ cs r, if decide (r.2.2 = None) then <[cd_ChunkID r.1 := true]> cs else cs) cs runs.

Lemma mark_lookup runs cs c :
  NoDup ((λ r, cd_ChunkID r.1) <$> runs) →
  (∀ r, r ∈ runs → cd_ChunkID r.1 = c → mark cs runs !! c = if decide (r.2.2 = None) then Some true else cs !! c) ∧
  (c ∉ (λ r, cd_ChunkID r.1) <$> runs → mark cs runs !! c = cs !! c).
Proof.
  revert cs. induction runs as [|r runs IH]; intros cs Hnd; [set_solver|].
  csimpl in Hnd. apply NoDup_cons in Hnd as [Hr Hnd].
  set (cs1 := if decide (r.2.2 = None) then <[cd_ChunkID r.1 := true]> cs else cs).
  change (mark cs (r :: runs)) with (mark cs1 runs). destruct (IH cs1 Hnd) as [Hin Hout].
  assert (Hcs1 : cd_ChunkID r.1 ≠ c → cs1 !! c = cs !! c).
  { intros Hne. unfold cs1. case_decide; [by rewrite lookup_insert_ne|done]. }
  split.
  - intros r' [->|Hr']%elem_of_cons Hid.
    + subst c. rewrite Hout by done. unfold cs1. repeat case_decide; [by rewrite lookup_insert_eq|done..].
    + rewrite (Hin r') by done. case_decide; [done|]. apply Hcs1. intros Heq. apply Hr.
      rewrite Heq, <-Hid. apply list_elem_of_fmap. by exists r'.
  - csimpl. intros [Hne Hc]%not_elem_of_cons. rewrite Hout by done. by apply Hcs1, not_eq_sym.
Qed.

Section upload.
Context {St : Type} (MC : MetadataClient St) (SC : StorageClient St) (amb : Ambient) (cfg : Config).
Notation no_fault := (λ _ : nat, @None (error * bool)).

Lemma upload_chunks_return os_fault file fileID placements order s ms :
  has_statuses (cfg_ManifestDir cfg) fileID ms →
  ∃ events, (upload_chunks SC amb cfg os_fault file fileID placements order s ms).1.1 = Returns events.
Proof.
  revert s ms. induction order as [|d order IH]; intros s ms Hms; [by eexists|]. simpl. unfold upload_chunk.
  destruct (uploadChunkWithRetry _ _ _ _ _ _ s) as [[e|] s1].
  - destruct (IH s1 ms Hms) as [events He].
    destruct (upload_chunks _ _ _ _ _ _ _ order s1 ms) as [[? ?] ?]. simpl in He. subst. by eexists.
  - destruct (mark_returns os_fault (cfg_ManifestDir cfg) fileID (cd_ChunkID d) ms Hms) as [[r Hr] Hms'].
    destruct (MarkChunkDone _ _ _ _ ms) as [? ms1]. simpl in Hr. subst.
    destruct (IH s1 ms1 Hms') as [events He].
    destruct (upload_chunks _ _ _ _ _ _ _ order s1 ms1) as [[? ?] ?]. simpl in He. subst. by eexists.
Qed.

(** One goroutine on a disk that works. *)
Lemma upload_chunk_tracks file fileID placements d m cs s ms :
  manifest_typed m → um_FileID m = fileID → um_ChunkStatus m = Some cs → stored (cfg_ManifestDir cfg) ms fileID = Ok m →
  ∃ err s' ms', upload_chunk SC amb cfg no_fault file fileID placements d s ms = (Returns err, s', ms') ∧
    stored (cfg_ManifestDir cfg) ms' fileID =
      Ok (set_status m (if decide (err = None) then <[cd_ChunkID d := true]> cs else cs)).
Proof.
  intros Hm Hid Hcs Hst. unfold upload_chunk.
  destruct (uploadChunkWithRetry _ _ _ _ _ _ s) as [[e|] s1].
  - eexists _, s1, ms. split; [reflexivity|]. rewrite decide_False by done. rewrite Hst. f_equal.
    destruct m; simpl in *. by subst.
  - destruct (mark_load (cfg_ManifestDir cfg) fileID m cs (cd_ChunkID d) ms Hm Hid Hcs Hst) as (ms1 & -> & Hst1).
    by eexists _, s1, ms1.
Qed.

Lemma upload_chunks_tracks file fileID placements order m cs s ms :
  manifest_typed m → um_FileID m = fileID → um_ChunkStatus m = Some cs → stored (cfg_ManifestDir cfg) ms fileID = Ok m →
  ∃ events s' ms', upload_chunks SC amb cfg no_fault file fileID placements order s ms = (Returns events, s', ms') ∧
    events.*1 = (λ d, Z.of_nat (cd_ChunkIndex d)) <$> order ∧
    stored (cfg_ManifestDir cfg) ms' fileID = Ok (set_status m (mark cs (zip order events))).
Proof.
  intros Hm Hid. revert m cs Hm Hid s ms. induction order as [|d order IH]; intros m cs Hm Hid s ms Hcs Hst.
  - eexists [], s, ms. split_and!; [done|done|]. rewrite Hst. f_equal. destruct m; simpl in *. by subst.
  - simpl. destruct (upload_chunk_tracks file fileID placements d m cs s ms Hm Hid Hcs Hst) as (err & s1 & ms1 & -> & Hst1).
    destruct (IH (set_status m (if decide (err = None) then <[cd_ChunkID d := true]> cs else cs)) _ Hm Hid s1 ms1 eq_refl Hst1) as (events & s2 & ms2 & -> & Hidx & Hst2).
    eexists _, s2, ms2. split; [reflexivity|]. csimpl. by rewrite Hidx.
Qed.
End upload.

(** ** Counting *)

Lemma count_events (events : list progress_event) :
  length (filter (λ e, e.2 = None) events) + length (filter (λ e, e.2 ≠ None) events) = length events.
Proof.
  induction events as [|[i [e|]] events IH]; [done|..].
  - rewrite filter_cons_False, filter_cons_True by done. csimpl. lia.
  - rewrite filter_cons_True, filter_cons_False by (done || by intros []). csimpl. lia.
Qed.

(** Fewer chunks than an [int32] counter holds. *)
Definition countable_chunks {A} (l : list A) : Prop := (Z.of_nat (length l) < 2 ^ 31)%Z.

Lemma counts_exact events :
  countable_chunks events →
  (count_done events + count_failed events)%Z = Z.of_nat (length events) ∧
  ((0 < count_failed events)%Z ↔ ∃ e, e ∈ events ∧ e.2 ≠ None).
Proof.
  intros Hlen. unfold countable_chunks in Hlen. unfold count_done, count_failed. pose proof (count_events events) as Hsum.
  rewrite !to_int32_id by (unfold is_int32, two31; lia). split; [lia|].
  split.
  - intros Hpos. destruct (filter (λ e, e.2 ≠ None) events) as [|e l] eqn:Hf; [simpl in Hpos; lia|].
    exists e. apply and_comm, (list_elem_of_filter (λ e : progress_event, e.2 ≠ None)). rewrite Hf. left.
  - intros (e & He & Hne). assert (Hin : e ∈ filter (λ e : progress_event, e.2 ≠ None) events) by (by apply list_elem_of_filter).
    destruct (filter (λ e, e.2 ≠ None) events); [by apply not_elem_of_nil in Hin|simpl; lia].
Qed.

(** ** Properties *)

(** The descriptors of a file of [n] bytes. *)
Definition descriptors (fileID : string) (n : nat) (chunkSize : Z) : list ChunkDescriptor :=
  descriptor fileID (Z.of_nat n) chunkSize <$> seq 0 (Z.to_nat (num_chunks (Z.of_nat n) chunkSize)).

Lemma descriptors_index fileID n cs : cd_ChunkIndex <$> descriptors fileID n cs = seq 0 (length (descriptors fileID n cs)).
Proof.
  unfold descriptors. rewrite length_fmap, length_seq, <-list_fmap_compose. symmetry.
  etransitivity; [symmetry; apply list_fmap_id|]. by apply list_fmap_ext.
Qed.

(** The statuses of a new manifest. *)
Lemma new_statuses (ds : list ChunkDescriptor) (cs : gmap string bool) c :
  foldl (λ m d, <[cd_ChunkID d := false]> m) cs ds !! c =
    if decide (c ∈ cd_ChunkID <$> ds) then Some false else cs !! c.
Proof.
  revert cs. induction ds as [|d ds IH]; intros cs; [done|]. csimpl. rewrite IH.
  destruct (decide (c = cd_ChunkID d)) as [->|Hne].
  - rewrite (decide_True (P := cd_ChunkID d ∈ _ :: _)) by left. case_decide; [done|]. by rewrite lookup_insert_eq.
  - rewrite lookup_insert_ne by done. repeat case_decide; set_solver.
Qed.

(** Chunks are determined by their index. *)
Lemma event_of_run (runs : list (ChunkDescriptor * progress_event)) d e :
  NoDup (cd_ChunkIndex <$> runs.*1) → runs.*2.*1 = (λ d, Z.of_nat (cd_ChunkIndex d)) <$> runs.*1 →
  d ∈ runs.*1 → (Z.of_nat (cd_ChunkIndex d), e) ∈ runs.*2 → (d, (Z.of_nat (cd_ChunkIndex d), e)) ∈ runs.
Proof.
  intros Hnd Hidx Hd He. apply list_elem_of_fmap in He as ([d' e'] & He & Hin). simpl in He. subst e'.
  enough (d' = d) as -> by done.
  apply list_elem_of_lookup in Hin as [k Hk].
  assert (Hz : runs.*2.*1 !! k = Some (Z.of_nat (cd_ChunkIndex d))) by (by rewrite !list_lookup_fmap, Hk).
  rewrite Hidx, !list_lookup_fmap, Hk in Hz. simpl in Hz. injection Hz as Hz%Nat2Z.inj.
  apply list_elem_of_lookup in Hd as [j Hj].
  assert (j = k) as ->; [|by rewrite list_lookup_fmap, Hk in Hj; injection Hj].
  apply (NoDup_lookup _ _ _ (cd_ChunkIndex d) Hnd); rewrite list_lookup_fmap.
  - by rewrite Hj.
  - by rewrite list_lookup_fmap, Hk, <-Hz.
Qed.

(** An upload that fails before its goroutines. *)
#[local] Ltac prepared := by split_and!; intros _; [|right|right]; eexists.

(** C22. What an upload can hang or crash on of its own, given that every call to the
    metadata service, to a storage node and to the operating system comes back, with
    whatever answer.  With a positive [MaxParallelUploads], [Upload] returns in whatever
    order its goroutines run: it does not assign to a nil status map, because the manifest
    it updates after each chunk is one it wrote itself, whatever writes of it failed on the
    way, and its semaphore has a slot.  With none the launch loop waits for ever and with a
    negative one the semaphore cannot be made: then no upload gets beyond its preparation. *)
Theorem upload_returns {St} (MC : MetadataClient St) (SC : StorageClient St) (amb : Ambient) (cfg : Config)
    (os_fault : nat → option (error * bool)) (f : LocalFile) (fileName fileID : string)
    (order : list ChunkDescriptor → list ChunkDescriptor) (s : St) (ms : Manifests) :
  let out := (Upload MC SC amb cfg os_fault f fileName fileID order s ms).1.1 in
  ((0 < cfg_MaxParallelUploads cfg)%Z → ∃ r, out = Returns r) ∧
  (cfg_MaxParallelUploads cfg = 0%Z → out = Blocks ∨ ∃ r, out = Returns r ∧ up_result r = None) ∧
  ((cfg_MaxParallelUploads cfg < 0)%Z → out = Panics ∨ ∃ r, out = Returns r ∧ up_result r = None).
Proof.
  intros out. subst out. unfold Upload. destruct (lf_stat f); [prepared|]. unfold GenerateDescriptors; cbn [res_bind].
  destruct (_ <$> seq 0 _) as [|d ds]; [prepared|].
  destruct (manifest_Create _ _ _ ms) as [[[]|e] ms1] eqn:Hc; [|prepared].
  apply (create_has_statuses _ _ fileID) in Hc; [|done..].
  destruct (mc_CreateFile MC _ _ _ _ _ s) as [[[sid pls]|] s1]; [|prepared]. destruct (lf_open f); [prepared|].
  split_and!; intros Hsem; unfold semaphore; [rewrite !decide_False by lia|by rewrite Hsem; left|by rewrite decide_True; [left|]].
  destruct (upload_chunks_return SC amb cfg os_fault (lf_data f) fileID pls (order (d :: ds)) s1 ms1 Hc) as [events He].
  destruct (upload_chunks _ _ _ _ _ _ _ _ s1 ms1) as [[? s2] ms2]. simpl in He. subst.
  destruct (finish_upload _ _ _ _ _ _ _ _ _ s2 ms2) as [[??]?]. by eexists.
Qed.

Section manifest.
Context `{!MapRange} {St : Type} (MC : MetadataClient St) (SC : StorageClient St) (amb : Ambient) (cfg : Config).
Notation no_fault := (λ _ : nat, @None (error * bool)).

(** A chunk of [ds] whose goroutine reported an error. *)
Definition failed_chunk (ds : list ChunkDescriptor) (events : list progress_event) (c : string) : Prop :=
  ∃ d e, d ∈ ds ∧ cd_ChunkID d = c ∧ (Z.of_nat (cd_ChunkIndex d), Some e) ∈ events.

Lemma pending_failed order events ds c :
  order ≡ₚ ds → NoDup (cd_ChunkID <$> ds) → NoDup (cd_ChunkIndex <$> ds) →
  events.*1 = (λ d, Z.of_nat (cd_ChunkIndex d)) <$> order →
  mark (foldl (λ m d, <[cd_ChunkID d := false]> m) ∅ ds) (zip order events) !! c = Some false ↔ failed_chunk ds events c.
Proof.
  intros Hp Hids Hidx Hev.
  assert (Hlen : length order = length events) by (apply (f_equal length) in Hev; by rewrite !length_fmap in Hev).
  assert (Hfst : (zip order events).*1 = order) by (apply fst_zip; lia).
  assert (Hsnd : (zip order events).*2 = events) by (apply snd_zip; lia).
  set (runs := zip order events) in *. set (cs := foldl _ ∅ ds).
  assert (Hnd : NoDup ((λ r, cd_ChunkID r.1) <$> runs)).
  { change (λ r, cd_ChunkID r.1) with (cd_ChunkID ∘ @fst ChunkDescriptor progress_event).
    by rewrite list_fmap_compose, Hfst, Hp. }
  destruct (mark_lookup runs cs c Hnd) as [Hin Hout]. split.
  - intros Hc. destruct (decide (c ∈ (λ r, cd_ChunkID r.1) <$> runs)) as [Hr|Hr].
    + apply list_elem_of_fmap in Hr as ([d [i e]] & -> & Hr). rewrite (Hin _ Hr eq_refl) in Hc. simpl in *.
      case_decide as He; [done|]. destruct e as [e|]; [|done].
      assert (i = Z.of_nat (cd_ChunkIndex d)) as ->.
      { apply list_elem_of_lookup in Hr as [k Hk].
        assert (Hi : events.*1 !! k = Some i) by (by rewrite <-Hsnd, !list_lookup_fmap, Hk).
        rewrite Hev, <-Hfst, !list_lookup_fmap, Hk in Hi. by injection Hi. }
      exists d, e. split_and!; [|done|].
      * rewrite <-Hp, <-Hfst. apply list_elem_of_fmap. by exists (d, (Z.of_nat (cd_ChunkIndex d), Some e)).
      * rewrite <-Hsnd. apply list_elem_of_fmap. by exists (d, (Z.of_nat (cd_ChunkIndex d), Some e)).
    + rewrite Hout in Hc by done. unfold cs in Hc. rewrite new_statuses in Hc. case_decide as Hd; [|done].
      exfalso. apply Hr. change (λ r, cd_ChunkID r.1) with (cd_ChunkID ∘ @fst ChunkDescriptor progress_event).
      by rewrite list_fmap_compose, Hfst, Hp.
  - intros (d & e & Hd & <- & He).
    assert (Hr : (d, (Z.of_nat (cd_ChunkIndex d), Some e)) ∈ runs).
    { apply event_of_run; rewrite ?Hfst, ?Hsnd; [by rewrite Hp|done|by rewrite Hp|done]. }
    rewrite (Hin _ Hr eq_refl). simpl. unfold cs. rewrite new_statuses.
    by rewrite decide_True by (by apply list_elem_of_fmap_2).
Qed.

(** The end of an upload: its counters, and what becomes of the manifest. *)
Lemma finish_upload_spec fileID sid name size ds order events m s ms :
  order ≡ₚ ds → countable_chunks ds → NoDup (cd_ChunkID <$> ds) → NoDup (cd_ChunkIndex <$> ds) →
  events.*1 = (λ d, Z.of_nat (cd_ChunkIndex d)) <$> order →
  stored (cfg_ManifestDir cfg) ms fileID =
    Ok (set_status m (mark (foldl (λ m d, <[cd_ChunkID d := false]> m) ∅ ds) (zip order events))) →
  let '(r, _, ms') := finish_upload MC cfg no_fault fileID sid name size (length ds) events s ms in
  up_events r = events ∧ ∃ result, up_result r = Some result ∧ ur_ChunksTotal result = Z.of_nat (length ds) ∧
    (ur_ChunksDone result + ur_ChunksFailed result = Z.of_nat (length ds))%Z ∧
    (up_err r = None → ur_ChunksFailed result = 0%Z ∧ (manifest_Exists no_fault (cfg_ManifestDir cfg) fileID ms').1 = false) ∧
    (up_err r ≠ None → ∃ pending ms'', GetPendingChunks no_fault (cfg_ManifestDir cfg) fileID ms' = (Ok pending, ms'') ∧
       NoDup pending ∧ ∀ c, c ∈ pending ↔ failed_chunk ds events c).
Proof.
  intros Hp Hcnt Hids Hidx Hev Hst.
  assert (Hlen : length events = length ds).
  { apply (f_equal length) in Hev. rewrite !length_fmap in Hev. by rewrite Hev, Hp. }
  destruct (counts_exact events) as [Hsum Hfail]; [unfold countable_chunks in *; by rewrite Hlen|].
  destruct (pending_stored (cfg_ManifestDir cfg) fileID _ ms Hst) as (pending & ms'' & Hpend & Hnd & Hin).
  assert (Hpending : ∃ pending ms'', GetPendingChunks no_fault (cfg_ManifestDir cfg) fileID ms = (Ok pending, ms'') ∧
       NoDup pending ∧ ∀ c, c ∈ pending ↔ failed_chunk ds events c).
  { exists pending, ms''. split_and!; [done|done|]. intros c. rewrite Hin. by apply (pending_failed order). }
  unfold finish_upload. case_decide as Hf; [|destruct (mc_CommitFile MC sid size [] s) as [[e|] s3]].
  - split; [done|]. eexists. split; [reflexivity|]. simpl. split_and!; [done|lia|done|by intros _].
  - split; [done|]. eexists. split; [reflexivity|]. simpl. split_and!; [done|lia|done|by intros _].
  - split; [done|]. eexists. split; [reflexivity|]. cbn [ur_ChunksTotal ur_ChunksDone ur_ChunksFailed up_err].
    split_and!; [done|lia| |done]. intros _. split.
    + unfold count_failed in *. rewrite to_int32_id in *; [lia|..];
        pose proof (count_events events); unfold countable_chunks in Hcnt; unfold is_int32, two31; lia.
    + destruct (delete_load (cfg_ManifestDir cfg) fileID ms) as (ms3 & Hd & He). rewrite Hd. exact He.
Qed.

(** A new manifest, none of whose chunks is done. *)
Lemma pending_new fileID name size ds ms :
  stored (cfg_ManifestDir cfg) ms fileID = Ok (new_manifest cfg fileID name size ds) →
  ∃ pending ms'', GetPendingChunks no_fault (cfg_ManifestDir cfg) fileID ms = (Ok pending, ms'') ∧
    NoDup pending ∧ ∀ c, c ∈ pending ↔ c ∈ cd_ChunkID <$> ds.
Proof.
  intros Hst. destruct (pending_stored (cfg_ManifestDir cfg) fileID _ ms Hst) as (pending & ms'' & Hp & Hnd & Hin).
  exists pending, ms''. split_and!; [done|done|]. intros c. rewrite Hin. simpl. rewrite new_statuses.
  case_decide; [done|]. by rewrite lookup_empty.
Qed.

(** C21. The manifest of an upload is right.  On a local disk that works, with a positive
    [MaxParallelUploads], fewer than 2^31 chunks and distinct chunk IDs, an upload that
    reaches its goroutines has a result: it handled every chunk exactly once, in whatever
    order they ran; the chunks done and failed add up to all chunks; a successful upload has
    no failed chunk and leaves no manifest; a failed one (chunks failed, or [CommitFile] did)
    leaves a manifest whose pending chunks are exactly those that failed.  An upload without
    a result failed before its goroutines and handled no chunk: at a file it cannot stat or
    that is empty, with no manifest written, or at [CreateFile] or the opening of the file,
    with every chunk pending. *)
Theorem upload_manifest_tracks (f : LocalFile) (fileName fileID : string)
    (order : list ChunkDescriptor → list ChunkDescriptor) (s : St) (ms : Manifests) :
  let ds := descriptors fileID (length (lf_data f)) (cfg_ChunkSize cfg) in
  (∀ l, order l ≡ₚ l) → is_int64 (Z.of_nat (length (lf_data f))) → is_int64 (cfg_ChunkSize cfg) →
  NoDup (cd_ChunkID <$> ds) → countable_chunks ds → (0 < cfg_MaxParallelUploads cfg)%Z →
  let '(out, _, ms') := Upload MC SC amb cfg no_fault f fileName fileID order s ms in
  ∃ r, out = Returns r ∧
  match up_result r with
  | Some result =>
      (up_events r).*1 ≡ₚ (λ d, Z.of_nat (cd_ChunkIndex d)) <$> ds ∧
      ur_ChunksTotal result = Z.of_nat (length ds) ∧
      (ur_ChunksDone result + ur_ChunksFailed result = Z.of_nat (length ds))%Z ∧
      (up_err r = None → ur_ChunksFailed result = 0%Z ∧ (manifest_Exists no_fault (cfg_ManifestDir cfg) fileID ms').1 = false) ∧
      (up_err r ≠ None → ∃ pending ms'', GetPendingChunks no_fault (cfg_ManifestDir cfg) fileID ms' = (Ok pending, ms'') ∧
         NoDup pending ∧ ∀ c, c ∈ pending ↔ failed_chunk ds (up_events r) c)
  | None =>
      up_err r ≠ None ∧ up_events r = [] ∧
      if decide (lf_stat f ≠ None ∨ ds = []) then ms' = ms
      else ∃ pending ms'', GetPendingChunks no_fault (cfg_ManifestDir cfg) fileID ms' = (Ok pending, ms'') ∧
         NoDup pending ∧ ∀ c, c ∈ pending ↔ c ∈ cd_ChunkID <$> ds
  end.
Proof.
  intros ds Hord Hsz Hcs Hids Hcnt Hsem. unfold Upload. rewrite (semaphore_pos _ Hsem).
  destruct (lf_stat f); [by eexists; rewrite decide_True by auto|]. unfold GenerateDescriptors; cbn [res_bind]. fold (descriptors fileID (length (lf_data f)) (cfg_ChunkSize cfg)).
  fold ds. destruct ds as [|d0 ds0] eqn:Hds; [by eexists; rewrite decide_True by auto|].
  assert (Hnot : ¬ (@None error ≠ None ∨ ds = [])) by (rewrite Hds; by intros [|]). rewrite <-Hds in *. clear d0 ds0 Hds.
  destruct (create_load (cfg_ManifestDir cfg) (new_manifest cfg fileID fileName (Z.of_nat (length (lf_data f))) ds) ms)
    as (ms1 & -> & Hst1); [done|].
  destruct (mc_CreateFile MC _ _ _ _ _ s) as [[[sid pls]|] s1]; [|by eexists; rewrite decide_False by done; split_and!; [..|apply pending_new in Hst1]].
  destruct (lf_open f); [by eexists; rewrite decide_False by done; split_and!; [..|apply pending_new in Hst1]|].
  destruct (upload_chunks_tracks SC amb cfg (lf_data f) fileID pls (order ds)
    (new_manifest cfg fileID fileName (Z.of_nat (length (lf_data f))) ds) _ s1 ms1 ltac:(done) eq_refl eq_refl Hst1)
    as (events & s2 & ms2 & -> & Hev & Hst2).
  assert (Hidx : NoDup (cd_ChunkIndex <$> ds)) by (unfold ds; rewrite descriptors_index; apply NoDup_seq).
  pose proof (finish_upload_spec fileID sid fileName (Z.of_nat (length (lf_data f))) ds (order ds) events _ s2 ms2
    (Hord ds) Hcnt Hids Hidx Hev Hst2) as Hfin.
  destruct (finish_upload _ _ _ _ _ _ _ _ _ s2 ms2) as [[r s3] ms3]. destruct Hfin as (Hevs & result & Hres & Hrest).
  exists r. split; [done|]. rewrite Hres, Hevs. split; [|done]. by rewrite Hev, (Hord ds).
Qed.
End manifest.

(** A node that refuses the second chunk. *)
Definition w_refusing : StorageClient unit := mkStorageClient unit
  (λ _ id _ _ _ s, (if decide (id = ComputeChunkID "f" 1) then Some (ErrNew "disk full") else None, s))
  (λ _ _ s, (Err EOF, s)).
Definition w_cfg : Config := mkConfig ["m:1"] 2 4 4 "/manifests" "/out" 2 4096 1%Z 1%Z 1%Z.

Lemma upload_manifest_tracks_witness :
  match Upload w_MC w_refusing calm w_cfg (λ _, None) (mkLocalFile None None w_file) "name" "f" reverse tt (mkManifests ∅ 0) with
  | (Returns r, _, ms') =>
      up_events r = [(2%Z, None); (1%Z, Some (ErrWrap "uploadChunkWithRetry" (exhausted (Some (ErrNew "disk full"))))); (0%Z, None)] ∧
      ∃ pending ms'', GetPendingChunks (λ _, None) "/manifests" "f" ms' = (Ok pending, ms'') ∧ ComputeChunkID "f" 1 ∈ pending
  | _ => False
  end.
Proof.
  pose proof (upload_manifest_tracks w_MC w_refusing calm w_cfg (mkLocalFile None None w_file) "name" "f" reverse tt
    (mkManifests ∅ 0) (λ l, reverse_Permutation l) ltac:(vm_compute; intuition congruence)
    ltac:(vm_compute; intuition congruence) ltac:(compute_decide) ltac:(vm_compute; reflexivity) ltac:(reflexivity)) as H.
  destruct (Upload _ _ _ _ _ _ _ _ _ _ _) as [[out s'] ms'] eqn:E. destruct H as (r & -> & H).
  assert (Hr : (Upload w_MC w_refusing calm w_cfg (λ _, None) (mkLocalFile None None w_file) "name" "f" reverse tt
    (mkManifests ∅ 0)).1.1 = Returns r) by (by rewrite E).
  vm_compute in Hr. injection Hr as <-. split; [reflexivity|].
  cbn [up_result] in H. destruct H as (_ & _ & _ & _ & Hp). destruct Hp as (pending & ms'' & Hg & _ & Hin); [discriminate|].
  exists pending, ms''. split; [exact Hg|]. apply Hin. eexists (descriptor "f" 5 2 1), _.
  split_and!; [|reflexivity|].
  - vm_compute. right; left.
  - simpl. right; left.
Defined.

Lemma upload_returns_witness :
  ∃ r, (Upload w_MC w_refusing calm w_cfg (λ n, if decide (n = 3) then Some (ErrNew "disk full", true) else None)
          (mkLocalFile None None w_file) "name" "f" reverse tt (mkManifests ∅ 0)).1.1 = Returns r.
Proof.
  apply (upload_returns w_MC w_refusing calm w_cfg (λ n, if decide (n = 3) then Some (ErrNew "disk full", true) else None)
    (mkLocalFile None None w_file) "name" "f" reverse tt (mkManifests ∅ 0)). reflexivity.
Defined.
