(* ===== verification/MetaClient.v ===== *)
(** * The metadata clients: client/internal/metadataclient/grpc.go, storage/metaclient and the SDK facade

    [GRPCClient] turns the operations of the client into RPCs of the metadata service and
    converts the answers; [StorageMetadataClient] does the same for a storage node;
    dfsclient/client.go is the public API on top of the services.  Both metadata clients
    are stubs over the leader-aware connection, which is the parameter [invoke]: one unary
    call, with its deadline, against the state of the servers.  The stub of a method
    decodes the message type of that method, so the other answers do not occur; they are
    mapped to an error. *)

From S2P Require Import Prelude GoLib Json FsmTypes MetaServer Replication.
From S2P Require Import Sha256 DiskStore Chunk StorageServer Retry ClientConfig Manifest Client.

Definition proto_error : error := ErrStatus Internal "grpc: failed to unmarshal the received message".

(** ** Conversions *)

Definition protoToFileInfo (f : FileInfo) : ClientFileInfo :=
  mkClientFileInfo (fi_FileId f) (fi_FileName f) (fi_FileSize f) (fi_ChunkSize f) (fi_ChunkIds f) (fi_Status f)
    (fi_CreatedAt f).

Definition protoToChunkInfo (c : ChunkInfo) : ClientChunkInfo :=
  mkClientChunkInfo (ci_ChunkId c) (ci_FileId c) (ci_ChunkIndex c) (ci_Size c) (ci_Checksum c) (ci_Replicas c).

Definition protoToPlacement (p : ChunkPlacement) : Placement :=
  mkPlacement (cp_ChunkId p) (ni_Address (cp_Primary p)) (ni_Address <$> cp_Replicas p).

(** ** The client's metadata client *)

Section grpc.
Context {St : Type} (invoke : request → St → res response * St).

Definition grpc_CreateFile (fileID fileName : string) (fileSize chunkSize : Z) (chunkIDs : list string) (s : St)
    : res (string * list Placement) * St :=
  match invoke (CreateFileReq fileID fileName fileSize chunkSize chunkIDs) s with
  | (Err e, s') => (Err (ErrWrap "metadataclient: CreateFile RPC failed" e), s')
  | (Ok (CreateFileResp fid placements), s') => (Ok (fid, protoToPlacement <$> placements), s')
  | (Ok _, s') => (Err proto_error, s')
  end.

(** A call whose answer is not used. *)
Definition grpc_ack (msg : string) (req : request) (s : St) : option error * St :=
  match invoke req s with
  | (Err e, s') => (Some (ErrWrap msg e), s')
  | (Ok _, s') => (None, s')
  end.

Definition grpc_CommitChunk (chunkID fileID : string) (confirmedNodes : list string) (checksum : bytes) : St → option error * St :=
  grpc_ack "metadataclient: CommitChunk RPC failed" (CommitChunkReq chunkID confirmedNodes checksum).

Definition grpc_GetFile (fileID : string) (s : St) : res (ClientFileInfo * list ClientChunkInfo) * St :=
  match invoke (GetFileReq fileID) s with
  | (Err e, s') => (Err (ErrWrap "metadataclient: GetFile RPC failed" e), s')
  | (Ok (GetFileResp file chunks), s') => (Ok (protoToFileInfo file, protoToChunkInfo <$> chunks), s')
  | (Ok _, s') => (Err proto_error, s')
  end.

(** The prefix is filtered here; the request carries none. *)
Definition grpc_ListFiles (pre : string) (s : St) : res (list ClientFileInfo) * St :=
  match invoke (ListFilesReq "") s with
  | (Err e, s') => (Err (ErrWrap "metadataclient: ListFiles RPC failed" e), s')
  | (Ok (ListFilesResp files), s') =>
      (Ok (protoToFileInfo <$> filter (λ f, pre = "" ∨ String.prefix pre (fi_FileName f) = true) files), s')
  | (Ok _, s') => (Err proto_error, s')
  end.

(** The first file of that name in the listing. *)
Definition grpc_GetFileByName (fileName : string) (s : St) : res (ClientFileInfo * list ClientChunkInfo) * St :=
  match grpc_ListFiles "" s with
  | (Err e, s') => (Err e, s')
  | (Ok files, s') =>
      match list_find (λ f, cfi_FileName f = fileName) files with
      | Some (_, f) => grpc_GetFile (cfi_FileID f) s'
      | None => (Err (ErrNew "metadataclient: file not found"), s')
      end
  end.

Definition grpc_DeleteFile (fileID : string) : St → option error * St :=
  grpc_ack "metadataclient: DeleteFile RPC failed" (DeleteFileReq fileID).

Definition grpc_CommitFile (fileID : string) (fileSize : Z) (checksum : bytes) : St → option error * St :=
  grpc_ack "metadataclient: CommitFile RPC failed" (CommitFileReq fileID fileSize checksum).

Definition grpc_GetChunkLocations (chunkID : string) (s : St) : res (list string) * St :=
  match invoke (GetChunkLocationsReq chunkID) s with
  | (Err e, s') => (Err (ErrWrap "metadataclient: GetChunkLocations RPC failed" e), s')
  | (Ok (GetChunkLocationsResp nodes), s') => (Ok (ni_Address <$> nodes), s')
  | (Ok _, s') => (Err proto_error, s')
  end.

Definition GRPCClient : MetadataClient St :=
  mkMetadataClient St grpc_CreateFile grpc_CommitChunk grpc_GetFile grpc_GetFileByName grpc_ListFiles grpc_DeleteFile
    grpc_CommitFile grpc_GetChunkLocations.

(** ** The storage node's metadata client

    Each method hands its request to the stub under the node's own deadline. *)

Definition sm_RegisterNode (nodeId address : string) (freeSpace : Z) (chunkIds : list string) : St → res response * St :=
  invoke (RegisterNodeReq nodeId address freeSpace chunkIds).
Definition sm_DeregisterNode (nodeId : string) : St → res response * St := invoke (DeregisterNodeReq nodeId).
Definition sm_Heartbeat (nodeId : string) (freeSpace chunkCount : Z) : St → res response * St :=
  invoke (HeartbeatReq nodeId freeSpace chunkCount).
Definition sm_ReportRepairResult (r : ReportRepairResultRequest) : St → res response * St :=
  invoke (ReportRepairResultReq (rr_NodeId r) (rr_JobId r) (rr_JobSucceed r) (rr_Error r)).
Definition sm_CommitChunk (r : CommitChunkRequest) : St → res response * St :=
  invoke (CommitChunkReq (ccr_ChunkId r) (ccr_ConfirmedNodes r) (ccr_Checksum r)).
End grpc.

(** The interface both clients of a storage node implement; [Close] has the error of
    closing the connection. *)
Record StorageMetadataClientInterface (St : Type) := mkStorageMetadataClientInterface {
  smi_RegisterNode : string → string → Z → list string → St → res response * St;
  smi_DeregisterNode : string → St → res response * St;
  smi_Heartbeat : string → Z → Z → St → res response * St;
  smi_ReportRepairResult : ReportRepairResultRequest → St → res response * St;
  smi_CommitChunk : CommitChunkRequest → St → res response * St;
  smi_Close : option error;
}.

Definition StorageMetadataClient {St} (invoke : request → St → res response * St) (close : option error) : StorageMetadataClientInterface St :=
  mkStorageMetadataClientInterface St (sm_RegisterNode invoke) (sm_DeregisterNode invoke) (sm_Heartbeat invoke)
    (sm_ReportRepairResult invoke) (sm_CommitChunk invoke) close.

(** The mock answers every call with the zero message and no error. *)
Definition MockMetaForNode {St} : StorageMetadataClientInterface St :=
  mkStorageMetadataClientInterface St (λ _ _ _ _ s, (Ok (RegisterNodeResp ""), s)) (λ _ s, (Ok SuccessResp, s))
    (λ _ _ _ s, (Ok (HeartbeatResp []), s)) (λ _ s, (Ok SuccessResp, s)) (λ _ s, (Ok SuccessResp, s)) None.

(** ** The facade: dfsclient/client.go *)

(** What the progress function of the SDK receives. *)
Record ProgressInfo := mkProgressInfo {
  pi_ChunkIndex : Z;
  pi_ChunksTotal : Z;
  pi_BytesDone : Z;
  pi_BytesTotal : Z;
  pi_Err : option error;
}.

(** The public view of a file. *)
Record SdkFileInfo := mkSdkFileInfo {
  sf_FileID : string;
  sf_FileName : string;
  sf_FileSize : Z;
  sf_ChunkSize : Z;
  sf_ChunkCount : Z;
  sf_Status : string;
  sf_CreatedAt : Z;
}.

(** *** Progress

    The callbacks of the chunks run in the goroutines of the chunks, so that their atomic
    operations interleave.  [callback] is where one of them is, [schedule] which of them
    takes its next step; a callback runs while its goroutine has a slot of the semaphore. *)

Inductive callback :=
| CbStart                  (* the chunk has not ended yet *)
| CbStore (done : Z)       (* before [bytesDone.Store(done)] *)
| CbLoad                   (* before [bytesDone.Load()] *)
| CbCall (bytesDone : Z)   (* before the call of [progress] *)
| CbDone.

#[export] Instance callback_eq_dec : EqDecision callback.
Proof. solve_decision. Defined.

(** The next operation of a callback on [bytesDone]: [Upload] adds a chunk and then stores
    the sum capped at the total, in two steps; [Download] has no cap. *)
Definition callback_step (chunkSize : Z) (cap : option Z) (err : option error) (bytesDone : Z) (pc : callback) : Z * callback :=
  match pc with
  | CbStart =>
      match err, cap with
      | Some _, _ => (bytesDone, CbLoad)
      | None, Some totalBytes =>
          let done := to_int64 (bytesDone + chunkSize) in
          (done, CbStore (if decide (totalBytes < done)%Z then totalBytes else done))
      | None, None => (to_int64 (bytesDone + chunkSize), CbLoad)
      end
  | CbStore done => (done, CbLoad)
  | CbLoad => (bytesDone, CbCall bytesDone)
  | CbCall _ => (bytesDone, CbDone)
  | CbDone => (bytesDone, CbDone)
  end.

Record progress_state := mkProgress {
  ps_bytesDone : Z;
  ps_callbacks : list callback;
  ps_reports : list ProgressInfo;
}.

(** Callbacks that hold a slot. *)
Definition active (c : callback) : Prop := match c with CbStart | CbDone => False | _ => True end.
#[export] Instance active_dec c : Decision (active c).
Proof. destruct c; apply _. Defined.

Definition in_flight (cbs : list callback) : nat := length (filter active cbs).

Section progress.
Context (chunkSize : Z) (cap : option Z) (slots : nat) (events : list progress_event).

(** The [i]-th callback takes its turn. *)
Definition turn (st : progress_state) (i : nat) : progress_state :=
  match events !! i, ps_callbacks st !! i with
  | Some (idx, err), Some pc =>
      if decide (pc = CbStart ∧ slots ≤ in_flight (ps_callbacks st)) then st
      else
        let '(b, pc') := callback_step chunkSize cap err (ps_bytesDone st) pc in
        mkProgress b (<[i := pc']> (ps_callbacks st))
          (ps_reports st ++
             match pc with
             | CbCall done => [mkProgressInfo idx (Z.of_nat (length events)) done (default 0%Z cap) err]
             | _ => []
             end)
  | _, _ => st
  end.

(** Every callback gets the turns it needs to end, with [wg.Wait()]: in the first pass those
    that had begun, in the second the others. *)
Definition last_turns : list nat :=
  let pass := seq 0 (length events) ≫= replicate 4 in pass ++ pass.

Definition run_progress (schedule : list nat) : progress_state :=
  foldl turn (mkProgress 0 (replicate (length events) CbStart) []) (schedule ++ last_turns).
End progress.

(** The reports of an upload and of a download, in the order in which they are made. *)
Definition upload_progress (chunkSize totalBytes : Z) (slots : nat) (schedule : list nat) (events : list progress_event)
    : list ProgressInfo := ps_reports (run_progress chunkSize (Some totalBytes) slots events schedule).

Definition download_progress (chunkSize : Z) (slots : nat) (schedule : list nat) (events : list progress_event)
    : list ProgressInfo := ps_reports (run_progress chunkSize None slots events schedule).

Section facade.
Context {St : Type} (MC : MetadataClient St) (SC : StorageClient St) (amb : Ambient) (cfg : Config).

(** What [Upload] of the SDK returns, and what its progress function saw; [schedule]
    interleaves the callbacks of the chunks. *)
Definition sdk_Upload (os_fault : nat → option (error * bool)) (f : LocalFile) (remoteName fileID : string)
    (order : list ChunkDescriptor → list ChunkDescriptor) (schedule : list nat) (s : St) (ms : Manifests)
    : maybe_panic (option UploadResult * option error) * list ProgressInfo * St * Manifests :=
  match lf_stat f with
  | Some e => (Returns (None, Some (ErrWrap "dfsclient: failed to stat file" e)), [], s, ms)
  | None =>
      let totalBytes := Z.of_nat (length (lf_data f)) in
      match Upload MC SC amb cfg os_fault f remoteName fileID order s ms with
      | (Panics, s', ms') => (Panics, [], s', ms')
      | (Blocks, s', ms') => (Blocks, [], s', ms')
      | (Returns r, s', ms') =>
          (Returns (up_result r, up_err r),
           upload_progress (cfg_ChunkSize cfg) totalBytes (Z.to_nat (cfg_MaxParallelUploads cfg)) schedule (up_events r), s', ms')
      end
  end.

(** [UploadReader]: the reader's bytes, or its error, go through a temporary file that is
    removed in the end.  [tmp] is the error of creating the directory or the file. *)
Definition UploadReader (os_fault : nat → option (error * bool)) (tmp : option error) (r : res bytes)
    (remoteName fileID : string) (order : list ChunkDescriptor → list ChunkDescriptor) (schedule : list nat) (s : St) (ms : Manifests)
    : maybe_panic (option UploadResult * option error) * list ProgressInfo * St * Manifests :=
  match tmp with
  | Some e => (Returns (None, Some (ErrWrap "dfsclient: failed to create temp file" e)), [], s, ms)
  | None =>
      match r with
      | Err e => (Returns (None, Some (ErrWrap "dfsclient: failed to buffer upload data" e)), [], s, ms)
      | Ok data => sdk_Upload os_fault (mkLocalFile None None data) remoteName fileID order schedule s ms
      end
  end.

Definition sdk_Download `{!GoSort} (disk : OutputFile) (remoteName : string) (before : option bytes)
    (order : list ClientChunkInfo → list ClientChunkInfo) (schedule : list nat) (s : St)
    : maybe_panic download_return * list ProgressInfo * St :=
  match Download MC SC amb cfg disk remoteName before order s with
  | (Panics, s') => (Panics, [], s')
  | (Blocks, s') => (Blocks, [], s')
  | (Returns r, s') =>
      (Returns r, download_progress (cfg_ChunkSize cfg) (Z.to_nat (cfg_MaxParallelDownloads cfg)) schedule (dl_events r), s')
  end.

Definition sdk_file (f : ClientFileInfo) : SdkFileInfo :=
  mkSdkFileInfo (cfi_FileID f) (cfi_FileName f) (cfi_FileSize f) (cfi_ChunkSize f)
    (Z.of_nat (length (cfi_ChunkIDs f))) (cfi_Status f) (cfi_CreatedAt f).

Definition sdk_List (pre : string) (s : St) : res (list SdkFileInfo) * St :=
  match service_ListFiles MC pre s with
  | (Err e, s') => (Err (ErrWrap "dfsclient" e), s')
  | (Ok files, s') => (Ok (sdk_file <$> files), s')
  end.

Definition sdk_Delete (fileID : string) (s : St) : option error * St :=
  match service_DeleteFile MC fileID s with
  | (Some e, s') => (Some (ErrWrap "dfsclient" e), s')
  | (None, s') => (None, s')
  end.

(** [Close]: both connections are closed, the first error is returned. *)
Definition sdk_Close (close_meta close_storage : option error) : option error :=
  match close_meta, close_storage with
  | Some e, _ => Some (ErrWrap "dfsclient: failed to close metadata connection" e)
  | None, Some e => Some (ErrWrap "dfsclient: failed to close storage connections" e)
  | None, None => None
  end.
End facade.

(** ** The progress of concurrent chunks *)

Lemma omap_Forall2 {A B} (f : A → option B) l k : Forall2 (λ x y, f x = Some y) l k → omap f l = k.
Proof. induction 1 as [|x y l k Hf _ IH]; [done|]. csimpl. by rewrite Hf, IH. Qed.

Section progress_laws.
Context (chunkSize : Z) (cap : option Z) (slots : nat) (events : list progress_event).
Notation go := (turn chunkSize cap slots events).

(** The reports belong to the callbacks that have ended, one each. *)
Definition reports_done (st : progress_state) : Prop :=
  length (ps_callbacks st) = length events ∧
  ∃ order, NoDup order ∧ (∀ i, i ∈ order ↔ ps_callbacks st !! i = Some CbDone) ∧
    Forall2 (λ i info, events !! i = Some (pi_ChunkIndex info, pi_Err info)) order (ps_reports st).

Lemma callback_step_done err b pc : (callback_step chunkSize cap err b pc).2 = CbDone ↔ pc = CbDone ∨ ∃ v, pc = CbCall v.
Proof.
  split; [|by intros [->|[v ->]]]. destruct pc, err, cap; simpl; intros; (discriminate || eauto).
Qed.

Lemma turn_reports st i : reports_done st → reports_done (go st i).
Proof.
  intros (Hlen & order & Hnd & Hin & Hall). unfold turn.
  destruct (events !! i) as [[idx err]|] eqn:He; [|by split; eauto].
  destruct (ps_callbacks st !! i) as [pc|] eqn:Hpc; [|by split; eauto]. case_decide; [by split; eauto|].
  pose proof (callback_step_done err (ps_bytesDone st) pc) as Hdone.
  destruct (callback_step _ _ _ _ pc) as [b pc']. simpl in Hdone. assert (Hi : i < length (ps_callbacks st)) by (by eapply lookup_lt_Some).
  split; [simpl; by rewrite length_insert|]. simpl. destruct pc as [| | |v|].
  4: { exists (order ++ [i]). split_and!; [|intros j|by apply Forall2_app; [|constructor]].
    - apply NoDup_app. split_and!; [done| |by apply NoDup_singleton]. intros j Hj%Hin ->%list_elem_of_singleton. congruence.
    - rewrite elem_of_app, list_elem_of_singleton, Hin, list_lookup_insert. rewrite (proj2 Hdone) by eauto. case_decide; naive_solver. }
  all: exists order; rewrite app_nil_r; split_and!; [done|intros j|done]; rewrite Hin, list_lookup_insert; case_decide; naive_solver.
Qed.

(** Turns a callback still needs. *)
Definition turns_left (pc : callback) : nat :=
  match pc with CbStart => 4 | CbStore _ => 3 | CbLoad => 2 | CbCall _ => 1 | CbDone => 0 end.

Definition waits (st : progress_state) (i : nat) : Prop :=
  ps_callbacks st !! i = Some CbStart ∧ slots ≤ in_flight (ps_callbacks st).

(** A callback that does not wait for a slot ends with these turns. *)
Lemma turns_end k st i pc :
  i < length events → ps_callbacks st !! i = Some pc → ¬ waits st i → turns_left pc ≤ k →
  ps_callbacks (foldl go st (replicate k i)) = <[i := CbDone]> (ps_callbacks st).
Proof.
  intros Hi. revert st pc. induction k as [|k IH]; intros st pc Hpc Hw Hk.
  - destruct pc; simpl in Hk; try lia. simpl. symmetry. by apply list_insert_id.
  - simpl. destruct (lookup_lt_is_Some_2 events i Hi) as [[idx err] He].
    assert (Hlt : i < length (ps_callbacks st)) by (by eapply lookup_lt_Some).
    assert (Ht : ps_callbacks (go st i) = <[i := (callback_step chunkSize cap err (ps_bytesDone st) pc).2]> (ps_callbacks st)).
    { unfold turn. rewrite He, Hpc, decide_False; [by destruct (callback_step _ _ _ _ _)|].
      intros [-> ?]. by apply Hw. }
    rewrite (IH (go st i) (callback_step chunkSize cap err (ps_bytesDone st) pc).2).
    + by rewrite Ht, list_insert_insert_eq.
    + by rewrite Ht, list_lookup_insert_eq.
    + intros [Hs _]. rewrite Ht, list_lookup_insert_eq in Hs by done. by destruct pc, err, cap.
    + destruct pc, err, cap; simpl in *; lia.
Qed.

Lemma turns_wait k st i : waits st i → foldl go st (replicate k i) = st.
Proof.
  intros Hw. induction k as [|k IH]; [done|]. simpl. rewrite <-IH at 2. f_equal. unfold turn.
  destruct (events !! i) as [[]|]; [|done]. destruct Hw as [-> ?]. by rewrite decide_True.
Qed.

Lemma in_flight_0 cbs : in_flight cbs = 0 ↔ ∀ j c, cbs !! j = Some c → c = CbStart ∨ c = CbDone.
Proof.
  unfold in_flight. split.
  - intros Hz j c Hc. destruct (decide (active c)) as [Ha|Ha]; [|destruct c; simpl in Ha; naive_solver].
    apply nil_length_inv in Hz. exfalso. eapply (not_elem_of_nil c). rewrite <-Hz.
    apply list_elem_of_filter. split; [done|]. by eapply list_elem_of_lookup_2.
  - intros Hall. destruct (filter _ cbs) as [|c l] eqn:Hf; [done|].
    assert (Hin : c ∈ filter active cbs) by (rewrite Hf; left).
    apply list_elem_of_filter in Hin as [Ha [j Hj]%list_elem_of_lookup]. by destruct (Hall j c Hj) as [-> | ->].
Qed.

(** A pass leaves nobody in flight, and if nobody was, everybody is done. *)
Lemma pass_ends l st :
  0 < slots → length (ps_callbacks st) = length events → Forall (λ i, i < length events) l →
  let cbs' := ps_callbacks (foldl go st (l ≫= replicate 4)) in
  length cbs' = length events ∧
  (∀ j, j ∉ l → cbs' !! j = ps_callbacks st !! j ∨ cbs' !! j = Some CbDone) ∧
  (∀ j, j ∈ l → cbs' !! j = Some CbStart ∨ cbs' !! j = Some CbDone) ∧
  (in_flight (ps_callbacks st) = 0 → ∀ j, j ∈ l → cbs' !! j = Some CbDone).
Proof.
  intros Hs Hlen Hl. revert st Hlen. induction Hl as [|i l Hi _ IH]; intros st Hlen cbs'; subst cbs'.
  { split_and!; [done|by left|by intros j []%not_elem_of_nil|by intros _ j []%not_elem_of_nil]. }
  rewrite bind_cons, foldl_app.
  set (st1 := foldl go st (replicate 4 i)).
  assert (Hone : ps_callbacks st1 = <[i := CbDone]> (ps_callbacks st) ∨
    ps_callbacks st1 = ps_callbacks st ∧ ps_callbacks st !! i = Some CbStart ∧ in_flight (ps_callbacks st) ≠ 0).
  { destruct (lookup_lt_is_Some_2 (ps_callbacks st) i ltac:(lia)) as [pc Hpc].
    destruct (decide (pc = CbStart ∧ slots ≤ in_flight (ps_callbacks st))) as [[-> Hw]|Hw].
    - right. unfold st1. rewrite turns_wait by (by split). split_and!; [done|done|lia].
    - left. apply (turns_end 4 st i pc); [done|done| |destruct pc; simpl; lia]. intros [Hs1 Hs2]. apply Hw. split; [congruence|done]. }
  assert (Hlen1 : length (ps_callbacks st1) = length events) by (destruct Hone as [-> | (-> & _)]; rewrite ?length_insert; done).
  assert (Hother : ∀ j, j ≠ i → ps_callbacks st1 !! j = ps_callbacks st !! j).
  { intros j Hne. destruct Hone as [-> | (-> & _)]; [by rewrite list_lookup_insert_ne|done]. }
  assert (Hat : ps_callbacks st1 !! i = Some CbStart ∨ ps_callbacks st1 !! i = Some CbDone).
  { destruct Hone as [-> | (-> & ? & _)]; [right; apply list_lookup_insert_eq; lia|by left]. }
  destruct (IH st1 Hlen1) as (Hl & Hout & Hin & Hzero). split_and!; [done|..].
  - intros j Hj. rewrite not_elem_of_cons in Hj. destruct Hj as [Hne Hj]. rewrite <-(Hother j Hne). by apply Hout.
  - intros j Hj. destruct (decide (j ∈ l)) as [?|Hnl]; [by apply Hin|]. apply elem_of_cons in Hj as [->|?]; [|done].
    destruct (Hout i Hnl) as [-> |]; [done|by right].
  - intros H0. destruct Hone as [Hone|(_ & _ & ?)]; [|done]. intros j Hj. destruct (decide (j ∈ l)) as [?|Hnl].
    + apply Hzero; [|done]. rewrite Hone, in_flight_0 in *. intros k c [(_ & <- & _)|[_ ?]]%list_lookup_insert_Some; eauto.
    + apply elem_of_cons in Hj as [->|?]; [|done]. destruct (Hout i Hnl) as [-> |]; [|done].
      rewrite Hone. apply list_lookup_insert_eq. lia.
Qed.

Lemma turns_reports l st : reports_done st → reports_done (foldl go st l).
Proof. revert st. induction l as [|i l IH]; intros st Hst; [done|]. by apply IH, turn_reports. Qed.

(** Every chunk is reported exactly once. *)
Lemma run_reports schedule :
  0 < slots →
  (λ info, (pi_ChunkIndex info, pi_Err info)) <$> ps_reports (run_progress chunkSize cap slots events schedule) ≡ₚ events.
Proof.
  intros Hs. unfold run_progress, last_turns. set (st0 := mkProgress _ _ _). set (pass := seq 0 _ ≫= _).
  rewrite !foldl_app.
  assert (H0 : reports_done (foldl go st0 schedule)).
  { apply turns_reports. split; [apply length_replicate|]. exists []. split_and!; [constructor| |constructor].
    intros i. simpl. rewrite lookup_replicate. split; [by intros []%not_elem_of_nil|naive_solver]. }
  assert (Hall : Forall (λ i, i < length events) (seq 0 (length events))) by (apply Forall_forall; intros i; rewrite elem_of_seq; lia).
  set (st1 := foldl go st0 schedule) in *. destruct (pass_ends _ st1 Hs (proj1 H0) Hall) as (Hl1 & _ & Hin1 & _).
  fold pass in Hl1, Hin1. set (st2 := foldl go st1 pass) in *.
  destruct (pass_ends _ st2 Hs Hl1 Hall) as (Hl2 & _ & _ & Hin2). fold pass in Hl2, Hin2.
  assert (Hdone : ∀ j, j ∈ seq 0 (length events) → ps_callbacks (foldl go st2 pass) !! j = Some CbDone).
  { apply Hin2, in_flight_0. intros j c Hc. assert (Hj : j < length events) by (rewrite <-Hl1; by eapply lookup_lt_Some).
    destruct (Hin1 j) as [Hj'|Hj']; [rewrite elem_of_seq; lia|..]; rewrite Hc in Hj'; injection Hj'; auto. }
  destruct (turns_reports pass st2 (turns_reports pass st1 H0)) as (_ & order & Hnd & Hin & Hrep).
  assert (Hp : order ≡ₚ seq 0 (length events)).
  { apply NoDup_Permutation; [done|apply NoDup_seq|]. intros i. rewrite Hin. split; [|apply Hdone].
    intros Hi%lookup_lt_Some. rewrite elem_of_seq. lia. }
  set (reports := ps_reports (foldl go st2 pass)) in *.
  assert (Heq : omap (λ i, events !! i) order = (λ info, (pi_ChunkIndex info, pi_Err info)) <$> reports).
  { apply omap_Forall2, Forall2_fmap_r. exact Hrep. }
  rewrite <-Heq, Hp, (omap_Forall2 _ _ events); [done|]. apply Forall2_same_length_lookup. split; [apply length_seq|].
  intros i x y [-> _]%lookup_seq Hy. exact Hy.
Qed.
End progress_laws.

(** *** How far the bytes done can overshoot *)

Lemma length_filter_insert {A} (P : A → Prop) `{!∀ x, Decision (P x)} (l : list A) i x y :
  l !! i = Some x →
  length (filter P (<[i := y]> l)) + (if decide (P x) then 1 else 0) = length (filter P l) + (if decide (P y) then 1 else 0).
Proof.
  revert i. induction l as [|z l IH]; intros [|i] Hx; simplify_eq/=.
  - rewrite !filter_cons. repeat case_decide; simpl; lia.
  - specialize (IH i Hx). rewrite !filter_cons. repeat case_decide; simpl in *; lia.
Qed.

Definition is_store (c : callback) : Prop := match c with CbStore _ => True | _ => False end.
#[export] Instance is_store_dec c : Decision (is_store c).
Proof. destruct c; apply _. Defined.
Definition stores (cbs : list callback) : nat := length (filter is_store cbs).

Section bounds.
Context (chunkSize totalBytes : Z) (slots : nat) (events : list progress_event).
Context (Hchunk : (0 < chunkSize)%Z) (Htotal : (0 ≤ totalBytes)%Z).
Context (Hwidth : (totalBytes + chunkSize * Z.of_nat (length events) < two63)%Z).
Notation go := (turn chunkSize (Some totalBytes) slots events).

(** The most a report can show: each other callback may have added and not yet stored. *)
Definition most : Z := (totalBytes + chunkSize * Z.of_nat (slots - 1))%Z.

Definition callback_bounded (c : callback) : Prop :=
  match c with
  | CbStore v => (0 ≤ v ≤ totalBytes)%Z
  | CbCall v => (0 ≤ v ≤ most)%Z
  | _ => True
  end.

Record progress_bounded (st : progress_state) : Prop := {
  pb_length : length (ps_callbacks st) = length events;
  pb_slots : in_flight (ps_callbacks st) ≤ slots;
  pb_bytes : (0 ≤ ps_bytesDone st ≤ totalBytes + chunkSize * Z.of_nat (stores (ps_callbacks st)))%Z;
  pb_callbacks : Forall callback_bounded (ps_callbacks st);
  pb_reports : Forall (λ info, pi_BytesTotal info = totalBytes ∧ (0 ≤ pi_BytesDone info ≤ most)%Z) (ps_reports st);
}.

Lemma stores_in_flight cbs : stores cbs ≤ in_flight cbs.
Proof.
  unfold stores, in_flight. induction cbs as [|c cbs IH]; [done|]. rewrite !filter_cons.
  destruct c; repeat case_decide; simpl in *; try lia; naive_solver.
Qed.

Lemma in_flight_insert cbs i pc pc' :
  cbs !! i = Some pc →
  in_flight (<[i := pc']> cbs) + (if decide (active pc) then 1 else 0) =
    in_flight cbs + (if decide (active pc') then 1 else 0) ∧
  stores (<[i := pc']> cbs) + (if decide (is_store pc) then 1 else 0) = stores cbs + (if decide (is_store pc') then 1 else 0).
Proof.
  intros Hpc. split; [by apply (length_filter_insert active)|by apply (length_filter_insert is_store)].
Qed.

Lemma loader_below cbs i : cbs !! i = Some CbLoad → stores cbs + 1 ≤ in_flight cbs.
Proof.
  intros Hpc. destruct (in_flight_insert cbs i CbLoad CbDone Hpc) as [H1 H2].
  pose proof (stores_in_flight (<[i := CbDone]> cbs)) as H3. repeat case_decide; simpl in *; try lia; naive_solver.
Qed.

Lemma turn_bounded st i : progress_bounded st → progress_bounded (go st i).
Proof.
  intros [Hlen Hsl Hb Hc Hr]. unfold turn. destruct (events !! i) as [[idx err]|] eqn:He; [|done].
  destruct (ps_callbacks st !! i) as [pc|] eqn:Hpc; [|done]. case_decide as Hw; [done|].
  set (cbs := ps_callbacks st) in *. pose proof (stores_in_flight cbs) as Hsf.
  assert (Hone : callback_bounded pc) by (by eapply (proj1 (Forall_lookup _ _) Hc)).
  assert (Hn : (Z.of_nat (stores cbs) + (if decide (pc = CbStart) then 1 else 0) ≤ Z.of_nat (length events))%Z).
  { destruct (in_flight_insert cbs i pc (CbStore 0) Hpc) as [_ H1].
    pose proof (length_filter is_store (<[i := CbStore 0]> cbs)) as H2. rewrite length_insert, Hlen in H2. fold (stores (<[i := CbStore 0]> cbs)) in H2.
    destruct pc; repeat case_decide; simpl in *; try lia; done. }
  assert (Hmake : ∀ b pc' rs, in_flight (<[i := pc']> cbs) ≤ slots →
    (0 ≤ b ≤ totalBytes + chunkSize * Z.of_nat (stores (<[i := pc']> cbs)))%Z → callback_bounded pc' →
    Forall (λ info, pi_BytesTotal info = totalBytes ∧ (0 ≤ pi_BytesDone info ≤ most)%Z) rs →
    progress_bounded (mkProgress b (<[i := pc']> cbs) (ps_reports st ++ rs))).
  { intros b pc' rs ????. split; simpl; [by rewrite length_insert|done|done| |by apply Forall_app].
    by apply Forall_insert. }
  pose proof (λ c, in_flight_insert cbs i pc c Hpc) as Hcnt.
  destruct pc as [|v| |v|]; simpl callback_step; cbv iota.
  - assert (Hslot : in_flight cbs < slots) by (destruct (decide (slots ≤ in_flight cbs)); [naive_solver|lia]). destruct err as [e|].
    + destruct (Hcnt CbLoad) as [H1 H2]. apply Hmake; simpl in *; [lia|lia|done|constructor].
    + rewrite to_int64_id by (unfold is_int64, two63 in *; simpl in Hn; nia).
      set (v := if decide _ then _ else _). destruct (Hcnt (CbStore v)) as [H1 H2].
      apply Hmake; simpl in *; [lia|nia| |constructor]. subst v. case_decide; lia.
  - destruct (Hcnt CbLoad) as [H1 H2]. apply Hmake; simpl in *; [lia|nia|done|constructor].
  - destruct (Hcnt (CbCall (ps_bytesDone st))) as [H1 H2]. pose proof (loader_below cbs i Hpc) as Hl.
    apply Hmake; simpl in *; [lia|nia|unfold most; nia|constructor].
  - destruct (Hcnt CbDone) as [H1 H2]. apply Hmake; simpl in *; [lia|nia|done|by constructor].
  - destruct (Hcnt CbDone) as [H1 H2]. apply Hmake; simpl in *; [lia|nia|done|by constructor].
Qed.

Lemma upload_progress_bounded schedule info :
  info ∈ upload_progress chunkSize totalBytes slots schedule events →
  pi_BytesTotal info = totalBytes ∧ (0 ≤ pi_BytesDone info ≤ most)%Z.
Proof.
  unfold upload_progress, run_progress. generalize (schedule ++ last_turns events) as l. intros l.
  assert (Hall : ∀ st, progress_bounded st → progress_bounded (foldl go st l)).
  { induction l as [|i l IH]; intros st Hst; [done|]. by apply IH, turn_bounded. }
  intros Hin. set (st0 := mkProgress _ _ _) in Hin.
  enough (Hst0 : progress_bounded st0) by exact (proj1 (Forall_forall _ _) (pb_reports _ (Hall _ Hst0)) _ Hin). subst st0.
  assert (H0 : ∀ (Q : callback → Prop) `{!∀ c, Decision (Q c)}, ¬ Q CbStart → length (filter Q (replicate (length events) CbStart)) = 0).
  { intros Q HQ Hno. generalize (length events) as n. intros n. induction n as [|n IH]; [done|]. simpl. by rewrite filter_cons_False. }
  split; simpl; [apply length_replicate| | |by apply Forall_replicate|constructor].
  - unfold in_flight. rewrite H0; [lia|by intros []].
  - unfold stores. rewrite H0; [lia|by intros []].
Qed.
End bounds.

(** The callback is not atomic.  Two chunks of one file can end so that both report only
    one chunk's bytes, although both succeeded, or so that one of them reports more than the
    size of the file: 8 bytes of 6. *)
Theorem progress_loses_updates :
  pi_BytesDone <$> upload_progress 4 8 2 [0; 1; 1; 0; 0; 1; 0; 1] [(0%Z, None); (1%Z, None)] = [4; 4]%Z ∧
  pi_BytesDone <$> upload_progress 4 6 2 [0; 0; 1; 0; 0; 1; 1; 1] [(0%Z, None); (1%Z, None)] = [8; 6]%Z.
Proof. split; vm_compute; reflexivity. Qed.
