(* ===== verification/System.v ===== *)
(** * The system: a client, storage nodes and the metadata service

    The components put together the way main.go and the constructors do: the client's
    metadata calls and those of the storage nodes go through the leader-aware connection
    to the metadata service ([MetaServer.handle]), chunks go through the client's frames
    to the [PutChunk] handler of a node, from there by [replicateToSingleNode] to its
    peers and back as a commit to the metadata service.  Everything the program does not
    control is a [Net]: which calls lose their request or their answer, which streams
    break, what the disks do, in which order goroutines end. *)

From S2P Require Import Prelude GoLib Json FsmTypes Fsm Placement World MetaServer.
From S2P Require Import Sha256 DiskStore Chunk StorageServer Retry Replication ClientConfig Manifest Client MetaClient.

Record Node := mkNode {
  nd_NodeID : string;
  nd_disk : DiskStore;
  nd_cache : LeaderCache;
  nd_repairs : ReplicationManager;
}.

(** The storage nodes by gRPC address, and how many remote operations have happened. *)
Record Sys := mkSys {
  sy_world : World;
  sy_nodes : gmap string Node;
  sy_ops : nat;
}.

(** What becomes of a call to the metadata service. *)
Inductive fate := Delivered | RequestLost (e : error) | ReplyLost (e : error).

(** Indexed by the number of the operation. *)
Record Net := mkNet {
  meta_fate : nat → fate;
  meta_other : nat → string → error * option string; (* answers of nodes that do not lead *)
  meta_dial : string → option error;
  disk_io : string → nat → io_outcome;               (* by address *)
  storage_dial : nat → option error;
  put_cut : nat → option (nat * error);              (* the upload stream breaks after some frames *)
  put_reply : nat → option error;                    (* the answer to the upload is lost *)
  get_send : nat → nat → option error;
  get_cut : nat → option error;                      (* the download stream breaks at its end *)
  peer_dial : nat → option error;
  peer_net : nat → nat → option error;
  fan_order : nat → list string → list string;       (* how the goroutines of a fan-out end *)
  fan_cut : nat → option (nat * option error);       (* its timer, or the end of its context *)
  node_amb : nat → Ambient;
}.

Definition tick (s : Sys) : Sys := mkSys (sy_world s) (sy_nodes s) (S (sy_ops s)).
Definition set_world (w : World) (s : Sys) : Sys := mkSys w (sy_nodes s) (sy_ops s).
Definition set_node (addr : string) (nd : Node) (s : Sys) : Sys :=
  mkSys (sy_world s) (<[addr := nd]> (sy_nodes s)) (sy_ops s).
Definition set_disk (addr : string) (d : DiskStore) (s : Sys) : Sys :=
  match sy_nodes s !! addr with
  | Some nd => set_node addr (mkNode (nd_NodeID nd) d (nd_cache nd) (nd_repairs nd)) s
  | None => s
  end.
Definition set_cache (addr : string) (c : LeaderCache) (s : Sys) : Sys :=
  match sy_nodes s !! addr with
  | Some nd => set_node addr (mkNode (nd_NodeID nd) (nd_disk nd) c (nd_repairs nd)) s
  | None => s
  end.

Definition unreachable : error := ErrStatus Unavailable "connection refused".

Section system.
Context `{!Env, !MapRange, !GoSort} (src tgt : PlacementStrategy) (rf : Z) (leader : string) (net : Net).

(** ** Calls to the metadata service *)

(** One call to the metadata node at [addr], which leads when it is [leader]. *)
Definition meta_rpc (req : request) (attempt : nat) (addr : string) (s : Sys)
    : (response + error) * option string * Sys :=
  let n := sy_ops s in
  let s := tick s in
  match meta_fate net n with
  | RequestLost e => (inr e, None, s)
  | fate =>
      if decide (addr = leader) then
        let '(rp, w') := handle src tgt rf req (sy_world s) in
        let s' := set_world w' s in
        match fate with
        | ReplyLost e => (inr e, None, s')
        | _ => (match rp_result rp with Ok r => inl r | Err e => inr e end, rp_trailer rp, s')
        end
      else let '(e, trailer) := meta_other net n addr in (inr e, trailer, s)
  end.

Definition meta_invoke (p : Policy) (amb : Ambient) (req : request) (c : LeaderCache) (s : Sys)
    : res response * LeaderCache * Sys :=
  let '(r, c', s') := Invoke (meta_dial net) p amb (meta_rpc req) c s in
  (match r with inl x => Ok x | inr e => Err e end, c', s').

(** A call by the storage node at [addr]; its retry policy is [p]. *)
Definition node_invoke (p : Policy) (addr : string) (req : request) (s : Sys) : res response * Sys :=
  match sy_nodes s !! addr with
  | None => (Err unreachable, s)
  | Some nd =>
      let '(r, c', s') := meta_invoke p (node_amb net (sy_ops s)) req (nd_cache nd) s in
      (r, set_cache addr c' s')
  end.

(** ** Replication between nodes *)

(** [replicateToSingleNode] from the node at [from] to the one at [to].  A node that sends
    to itself reads the file it opened at the start, and its store ends as the receiver
    leaves it. *)
Definition peer_transfer (from to chunkId : string) (s : Sys) : option error * Sys :=
  let n := sy_ops s in
  let s := tick s in
  match sy_nodes s !! from, sy_nodes s !! to with
  | Some a, Some b =>
      match replicateToSingleNode (disk_io net from) (disk_io net to) (peer_net net n) (peer_dial net n) chunkId
              (nd_disk a) (nd_disk b) with
      | Some (r, src', dst') =>
          (match r with Ok _ => None | Err e => Some e end, set_disk to dst' (set_disk from src' s))
      | None => (Some unreachable, s)
      end
  | _, _ => (Some unreachable, s)
  end.

(** A goroutine of the fan-out, or a repair worker: the transfer with its retries. *)
Definition transfer_with_retry (from to chunkId : string) (s : Sys) : option error * Sys :=
  let '(err, s', _) := Do (peer_transfer from to chunkId) DefaultRetryPolicy (node_amb net (sy_ops s)) s in (err, s').

Fixpoint fan_run (from chunkId : string) (targets : list string) (s : Sys) : list fan_event * Sys :=
  match targets with
  | [] => ([], s)
  | t :: rest =>
      let '(err, s1) := transfer_with_retry from t chunkId s in
      let '(events, s2) := fan_run from chunkId rest s1 in
      (FanResult t err :: events, s2)
  end.

(** What the collecting loop of the fan-out receives. *)
Definition fan_view (n : nat) (events : list fan_event) : list fan_event :=
  match fan_cut net n with
  | None => events
  | Some (k, None) => take k events ++ [FanTimeout]
  | Some (k, Some e) => take k events ++ [FanDone e]
  end.

Definition fan_out (from chunkId : string) (targets : list string) (s : Sys) : list string * option error * Sys :=
  let n := sy_ops s in
  let '(events, s') := fan_run from chunkId (fan_order net n targets) (tick s) in
  (default ([], Some ErrFanout) (ReplicatorToNodes targets false (fan_view n events)), s').

(** ** The storage service of a node *)

(** [PutChunk] at [addr], with the replicator and the metadata client it is built with. *)
Definition node_PutChunk (p : Policy) (addr : string) (stream : list (recv PutChunkRequest)) (s : Sys) : put_out * Sys :=
  match sy_nodes s !! addr with
  | None => (put_fail Unavailable "connection refused", s)
  | Some nd =>
      match put_loop (disk_io net addr) stream None "" [] None (nd_disk nd) with
      | (inl out, d') => (out, set_disk addr d' s)
      | (inr (last, replicateTo), d') =>
          let s1 := set_disk addr d' s in
          let '(confirmed, s2) :=
            if decide (replicateTo = []) then ([], None, s1) else fan_out addr (pc_ChunkId last) replicateTo s1 in
          let req := mkCommitChunkRequest (pc_ChunkId last) ([nd_NodeID nd] ++ confirmed.1) (pc_Checksum last) in
          let '(r, s3) := sm_CommitChunk (node_invoke p addr) req s2 in
          let h := mkStorageServerHandler (Some (λ _ _, confirmed))
            (Some (λ _, match r with Ok _ => None | Err e => Some e end)) (nd_NodeID nd) in
          (put_commit h last replicateTo, s3)
      end
  end.

(** ** The client *)

(** The client's connections: to the metadata service, and the pool of storageclient. *)
Record Cli := mkCli {
  cl_sys : Sys;
  cl_cache : LeaderCache;
  cl_conns : gset string;
}.

Definition client_invoke (cfg : Config) (amb : Ambient) (req : request) (c : Cli) : res response * Cli :=
  let '(r, cache, s') := meta_invoke (cfg_RetryPolicy cfg) amb req (cl_cache c) (cl_sys c) in
  (r, mkCli s' cache (cl_conns c)).

Definition getOrDial (addr : string) (c : Cli) : option error * Cli :=
  if decide (addr ∈ cl_conns c) then (None, c)
  else
    match storage_dial net (sy_ops (cl_sys c)) with
    | Some e => (Some (ErrWrap "storageclient: failed to connect" e), c)
    | None => (None, mkCli (cl_sys c) (cl_cache c) ({[addr]} ∪ cl_conns c))
    end.

(** [p] is the retry policy of the nodes. *)
Definition storage_PutChunk (p : Policy) (cfg : Config) (addr chunkID : string) (data checksum : bytes)
    (replicateTo : list string) (c : Cli) : option error * Cli :=
  match getOrDial addr c with
  | (Some e, c1) => (Some e, c1)
  | (None, c1) =>
      let n := sy_ops (cl_sys c1) in
      let frames := client_frames (cfg_FrameSize cfg) chunkID replicateTo checksum data in
      let stream :=
        match put_cut net n with
        | None => RecvMsg <$> frames
        | Some (k, e) => (RecvMsg <$> take k frames) ++ [RecvErr e]
        end in
      let '(out, s') := node_PutChunk p addr stream (tick (cl_sys c1)) in
      (match put_cut net n with
       | Some (_, e) => Some (ErrWrap "storageclient: PutChunk send frame failed" e)
       | None =>
           match po_result out with
           | Err e => Some (ErrWrap "storageclient: PutChunk close failed" e)
           | Ok _ =>
               match put_reply net n with
               | Some e => Some (ErrWrap "storageclient: PutChunk close failed" e)
               | None => None
               end
           end
       end, mkCli s' (cl_cache c1) (cl_conns c1))
  end.

Definition storage_GetChunk (addr chunkID : string) (c : Cli) : res bytes * Cli :=
  match getOrDial addr c with
  | (Some e, c1) => (Err e, c1)
  | (None, c1) =>
      let n := sy_ops (cl_sys c1) in
      let s := tick (cl_sys c1) in
      match sy_nodes s !! addr with
      | None => (Err (ErrWrap "storageclient: GetChunk stream open failed" unreachable), mkCli s (cl_cache c1) (cl_conns c1))
      | Some nd =>
          match GetChunk (disk_io net addr) (get_send net n) chunkID (nd_disk nd) with
          | None => (Err unreachable, mkCli s (cl_cache c1) (cl_conns c1))
          | Some (r, frames, d') =>
              let ending := match r, get_cut net n with
                            | Err e, _ | Ok _, Some e => [RecvErr e]
                            | Ok _, None => []
                            end in
              (get_data ((RecvMsg <$> (fr_Data <$> frames)) ++ ending) [],
               mkCli (set_disk addr d' s) (cl_cache c1) (cl_conns c1))
          end
      end
  end.

(** [Close] of the pool; [range] is the order of the map, [close] what each connection answers. *)
Definition storage_Close (range : gset string → list string) (close : string → option error) (c : Cli) : option error * Cli :=
  (ErrWrap "storageclient: failed to close connection" <$> head (omap close (range (cl_conns c))),
   mkCli (cl_sys c) (cl_cache c) ∅).

Definition system_metadata (cfg : Config) (amb : Ambient) : MetadataClient Cli := GRPCClient (client_invoke cfg amb).
Definition system_storage (p : Policy) (cfg : Config) : StorageClient Cli :=
  mkStorageClient Cli (storage_PutChunk p cfg) storage_GetChunk.
End system.
