(* ===== verification/StorageNode.v ===== *)
(** * A storage node in the system: storage/service and storage/node.go

    heartbeat.go (the sender and one round of its loop), register.go, node.go (the wiring,
    [Start] and [Stop]) and the loop of a repair worker of replication/manager.go, over
    the system of [System].  A node is in [sy_nodes] while its gRPC server runs, under
    the address it reports to the metadata service. *)

From S2P Require Import Prelude GoLib Json FsmTypes Fsm Placement World MetaServer.
From S2P Require Import DiskStore StorageServer Retry Replication StorageConfig MetaClient System.

(** ** service/types.go: what the services ask the node *)

Record service_NodeInfo := mkServiceNodeInfo {
  GetFreeSpace : Sys → Z;
  GetNodeID : string;
  GetChunkCount : Sys → Z;
  GetChunkList : Sys → res (list string);
  GetGrpcAddr : string;
}.

(** [status.Code(err)] *)
Definition status_Code (e : error) : code := default Unknown (FromError e).

Definition set_repairs (addr : string) (m : ReplicationManager) (s : Sys) : Sys :=
  match sy_nodes s !! addr with
  | Some nd => set_node addr (mkNode (nd_NodeID nd) (nd_disk nd) (nd_cache nd) m) s
  | None => s
  end.

(** The repair job of an instruction: neither the node IDs nor [DeleteSource] are taken. *)
Definition job_of (val : RepairInstruction) : Replication.RepairJob :=
  mkJob (ri_JobId val) (ri_ChunkId val) (ri_SourceAddr val) (ri_TargetAddr val).

(** The loop of [processHeartbeatResponse]: the jobs that were dropped.  [ctx i] tells
    whether the context has ended before the i-th job. *)
Fixpoint enqueue_jobs (ctx : nat → bool) (i : nat) (jobs : list RepairInstruction) (m : ReplicationManager)
    : list RepairInstruction * ReplicationManager :=
  match jobs with
  | [] => ([], m)
  | val :: rest =>
      if ctx i then ([], m)
      else
        let '(enqueued, m1) := EnqueueRepair (job_of val) m in
        let '(dropped, m2) := enqueue_jobs ctx (S i) rest m1 in
        ((if (enqueued : bool) then [] else [val]) ++ dropped, m2)
  end.

Definition drop_report (nodeID : string) (val : RepairInstruction) : ReportRepairResultRequest :=
  mkReport (ri_JobId val) false "job dropped: job queue is full" nodeID.

Section node.
Context `{!Env, !MapRange, !GoSort} (src tgt : PlacementStrategy) (rf : Z) (leader : string) (net : Net).
(** The retry policy of the node's metadata client, and [err.Error()]. *)
Context (p : Policy) (Error_text : error → string).

Notation invoke := (node_invoke src tgt rf leader net p).

(** ** service/register.go *)

Definition RegisterWithMetadata (addr : string) (ni : service_NodeInfo) (s : Sys) : option error * Sys :=
  match GetChunkList ni s with
  | Err e => (Some e, s)
  | Ok chunkIDs =>
      match sm_RegisterNode (invoke addr) (GetNodeID ni) (GetGrpcAddr ni) (to_int64 (GetFreeSpace ni s)) chunkIDs s with
      | (Err e, s') => (Some e, s')
      | (Ok _, s') => (None, s')
      end
  end.

Definition DeregisterFromMetadata (addr : string) (ni : service_NodeInfo) (s : Sys) : option error * Sys :=
  match sm_DeregisterNode (invoke addr) (GetNodeID ni) s with
  | (Err e, s') => (Some e, s')
  | (Ok _, s') => (None, s')
  end.

(** ** service/heartbeat.go *)

Definition sendBeat (addr : string) (ni : service_NodeInfo) (s : Sys) : res response * Sys :=
  sm_Heartbeat (invoke addr) (GetNodeID ni) (to_int64 (GetFreeSpace ni s)) (to_int32 (GetChunkCount ni s)) s.

(** The goroutines that report dropped jobs: [sent] picks those that get a slot before the
    context ends, in their order. *)
Definition report_dropped (addr : string) (ni : service_NodeInfo) (sent : list RepairInstruction → list RepairInstruction)
    (dropped : list RepairInstruction) (s : Sys) : Sys :=
  foldl (λ s val, (sm_ReportRepairResult (invoke addr) (drop_report (GetNodeID ni) val) s).2) s (sent dropped).

Definition processHeartbeatResponse (addr : string) (ni : service_NodeInfo) (ctx : nat → bool)
    (sent : list RepairInstruction → list RepairInstruction) (res : response) (s : Sys) : Sys :=
  match res, sy_nodes s !! addr with
  | HeartbeatResp jobs, Some nd =>
      let '(dropped, m') := enqueue_jobs ctx 0 jobs (nd_repairs nd) in
      report_dropped addr ni sent dropped (set_repairs addr m' s)
  | _, _ => s
  end.

(** One tick of [heartbeatTicker]; without a registerer an unknown node stays unknown. *)
Definition heartbeat_tick (addr : string) (ni : service_NodeInfo) (registerer : bool) (ctx : nat → bool)
    (sent : list RepairInstruction → list RepairInstruction) (s : Sys) : Sys :=
  match sendBeat addr ni s with
  | (Err e, s1) =>
      if decide (status_Code e = NotFound) then
        if registerer then (RegisterWithMetadata addr ni s1).2 else s1
      else s1
  | (Ok res, s1) => processHeartbeatResponse addr ni ctx sent res s1
  end.

(** ** replication/manager.go: a worker's round *)

Definition repair_worker (addr : string) (s : Sys) : Sys :=
  match sy_nodes s !! addr with
  | None => s
  | Some nd =>
      match take_job (nd_repairs nd) with
      | None => s
      | Some (job, m1) =>
          let '(err, s1) := transfer_with_retry net addr (Target job) (ChunkID job) (set_repairs addr m1 s) in
          let s2 := (sm_ReportRepairResult (invoke addr) (repair_report Error_text (nd_NodeID nd) job err) s1).2 in
          match sy_nodes s2 !! addr with
          | Some nd2 => set_repairs addr (release job (nd_repairs nd2)) s2
          | None => s2
          end
      end
  end.
End node.

(** ** The life of a heartbeat sender *)

(** The goroutine of [Start]: before [time.NewTicker], waiting in [select], sending a beat. *)
Inductive ticker := NotLaunched | Launched | Ticking | Beating | Returned | TickerPanic.

Record HeartbeatSender := mkSender {
  hs_gap : Duration;
  hs_once : bool;
  hs_cancel : bool;       (* [hs.cancel != nil] *)
  hs_done : bool;         (* the context has ended *)
  hs_ticker : ticker;
  hs_launches : nat;
  hs_beats : nat;
}.

Definition NewHeartbeatSender (gap : Duration) : HeartbeatSender := mkSender gap false false false NotLaunched 0 0.

Definition sender_Start (hs : HeartbeatSender) : HeartbeatSender :=
  if hs_once hs then hs
  else mkSender (hs_gap hs) true true false Launched (S (hs_launches hs)) (hs_beats hs).

(** Up to the wait: the [once] is used up, and what was started is cancelled. *)
Definition StopAndWait (hs : HeartbeatSender) : HeartbeatSender :=
  mkSender (hs_gap hs) true (hs_cancel hs) (hs_done hs || hs_cancel hs) (hs_ticker hs) (hs_launches hs) (hs_beats hs).

Definition set_ticker (t : ticker) (n : nat) (hs : HeartbeatSender) : HeartbeatSender :=
  mkSender (hs_gap hs) (hs_once hs) (hs_cancel hs) (hs_done hs) t (hs_launches hs) n.

(** [time.NewTicker] panics on an interval that is not positive; when a tick and the end
    of the context are both ready, [select] takes either. *)
Inductive sender_step : HeartbeatSender → HeartbeatSender → Prop :=
| ss_start hs : sender_step hs (sender_Start hs)
| ss_stop hs : sender_step hs (StopAndWait hs)
| ss_new hs : hs_ticker hs = Launched → (0 < hs_gap hs)%Z → sender_step hs (set_ticker Ticking (hs_beats hs) hs)
| ss_panic hs : hs_ticker hs = Launched → (hs_gap hs ≤ 0)%Z → sender_step hs (set_ticker TickerPanic (hs_beats hs) hs)
| ss_tick hs : hs_ticker hs = Ticking → sender_step hs (set_ticker Beating (S (hs_beats hs)) hs)
| ss_beat hs : hs_ticker hs = Beating → sender_step hs (set_ticker Ticking (hs_beats hs) hs)
| ss_return hs : hs_ticker hs = Ticking → hs_done hs = true → sender_step hs (set_ticker Returned (hs_beats hs) hs).

(** ** node.go *)

Inductive server := NoServer | Serving | ServerStopped.

#[global] Instance server_eq_dec : EqDecision server.
Proof. solve_decision. Defined.

Record StorageNode := mkStorageNode {
  sn_config : StorageNodeConfig;
  sn_node : Node;                      (* store, metadata client, replication manager *)
  sn_listener : option string;         (* the address the listener is bound to *)
  sn_server : server;
  sn_workers : bool;                   (* the repair workers run *)
  sn_registerer : bool;
  sn_heartbeat : option HeartbeatSender;
  sn_dialer : PeerDialer;
  sn_metaclosed : bool;
}.

(** The store, the logger and the metadata client, where they are not nil. *)
Definition NewStorageNode (cfg : StorageNodeConfig) (logger : option unit) (store : option DiskStore)
    (metaClient : option LeaderCache) : res StorageNode :=
  match store, logger, metaClient with
  | None, _, _ => Err (ErrNew "StorageNode: store must not be nil")
  | _, None, _ => Err (ErrNew "StorageNode: logger must not be nil")
  | _, _, None => Err (ErrNew "StorageNode: metaClient must not be nil")
  | Some d, Some _, Some c =>
      Ok (mkStorageNode cfg (mkNode (sc_NodeID cfg) d c NewReplicationManager) None NoServer false false None NewPeerDialer false)
  end.

Definition node_GetFreeSpace (nd : Node) : Z := match (FreeSpace (nd_disk nd)).1 with Ok space => space | Err _ => 0%Z end.

Definition node_GetChunkList `{!GoSort} (nd : Node) : res (list string) := (List (nd_disk nd)).1.

Definition node_GetChunkCount `{!GoSort} (nd : Node) : Z :=
  match node_GetChunkList nd with Ok chunks => to_uint32 (Z.of_nat (length chunks)) | Err _ => 0%Z end.

Definition node_GetGrpcAddr (sn : StorageNode) : string :=
  if decide (sc_AdvertiseAddr (sn_config sn) ≠ "") then sc_AdvertiseAddr (sn_config sn)
  else default (sc_GRPCAddr (sn_config sn)) (sn_listener sn).

Definition BoundAddr (sn : StorageNode) : string := default "" (sn_listener sn).

(** The node as it runs, or as it was built when it does not serve. *)
Definition running_node (sn : StorageNode) (s : Sys) : Node := default (sn_node sn) (sy_nodes s !! node_GetGrpcAddr sn).

(** How the node answers the interface [service.NodeInfo]. *)
Definition node_info_of `{!GoSort} (sn : StorageNode) : service_NodeInfo :=
  mkServiceNodeInfo (λ s, node_GetFreeSpace (running_node sn s)) (sc_NodeID (sn_config sn))
    (λ s, node_GetChunkCount (running_node sn s)) (λ s, node_GetChunkList (running_node sn s)) (node_GetGrpcAddr sn).

Section lifecycle.
Context `{!Env, !MapRange, !GoSort} (src tgt : PlacementStrategy) (rf : Z) (leader : string) (net : Net).

Definition with_heartbeat (h : option HeartbeatSender) (sn : StorageNode) : StorageNode :=
  mkStorageNode (sn_config sn) (sn_node sn) (sn_listener sn) (sn_server sn) (sn_workers sn) (sn_registerer sn) h
    (sn_dialer sn) (sn_metaclosed sn).

(** [listen] is [net.Listen]: the address it bound, or its error.  A failed registration
    is left to the heartbeat. *)
Definition node_Start (listen : string → res string) (sn : StorageNode) (s : Sys) : option error * StorageNode * Sys :=
  match Validate (sn_config sn) with
  | Some e => (Some e, sn, s)
  | None =>
      match listen (sc_GRPCAddr (sn_config sn)) with
      | Err e => (Some e, sn, s)
      | Ok lis =>
          let sn1 := mkStorageNode (sn_config sn) (sn_node sn) (Some lis) Serving true true (sn_heartbeat sn)
                       (sn_dialer sn) (sn_metaclosed sn) in
          let addr := node_GetGrpcAddr sn1 in
          let s1 := set_node addr (sn_node sn) s in
          let s2 := (RegisterWithMetadata src tgt rf leader net (RetryPolicy (sn_config sn)) addr (node_info_of sn1) s1).2 in
          let hs := sender_Start (NewHeartbeatSender (sc_HeartbeatInterval (sn_config sn))) in
          (None, with_heartbeat (Some hs) sn1, s2)
      end
  end.

Definition node_Stop (sn : StorageNode) (s : Sys) : StorageNode * Sys :=
  if decide (sn_server sn = NoServer) then (sn, s)
  else
    let addr := node_GetGrpcAddr sn in
    let s1 :=
      if sn_registerer sn then
        (DeregisterFromMetadata src tgt rf leader net (RetryPolicy (sn_config sn)) addr (node_info_of sn) s).2
      else s in
    (mkStorageNode (sn_config sn) (running_node sn s1) (sn_listener sn) ServerStopped false (sn_registerer sn)
       (StopAndWait <$> sn_heartbeat sn) (CloseAll (sn_dialer sn)) true,
     mkSys (sy_world s1) (delete addr (sy_nodes s1)) (sy_ops s1)).
End lifecycle.
