(* ===== verification/SystemTheorems.v ===== *)
(** * End-to-end correctness of the system

    What an upload that reports success has stored, a download returns, whatever the
    network, the Raft log and the order of goroutines did to the upload on the way. *)

From S2P Require Import Prelude GoLib Json FsmTypes Fsm FsmCommands FsmInv Placement World Scheduler MetaServer MetaTheorems.
From S2P Require Import Sha256 DiskStore DiskStoreSpec DiskStoreTheorems Chunk StorageServer StorageTheorems Retry.
From S2P Require Import Replication ClientConfig Manifest Client ClientTheorems UploadTheorems MetaClient System.

(** ** Disks *)

(** The node at [addr] stores [d] under [c]. *)
Definition holds (s : Sys) (addr c : string) (d : bytes) : Prop :=
  ∃ nd, sy_nodes s !! addr = Some nd ∧ contents (nd_disk nd) !! c = Some d.

Definition all_disks_ok (s : Sys) : Prop := ∀ addr nd, sy_nodes s !! addr = Some nd → store_ok (nd_disk nd).

(** A node of which at most the chunk [c] has changed, to [d]. *)
Record node_stores (c : string) (d : bytes) (x y : Node) : Prop := {
  ns_id : nd_NodeID y = nd_NodeID x ∧ nd_repairs y = nd_repairs x;
  ns_ok : store_ok (nd_disk x) → store_ok (nd_disk y);
  ns_contents : contents (nd_disk y) = contents (nd_disk x) ∨ contents (nd_disk y) = <[c := d]> (contents (nd_disk x));
}.

#[global] Instance node_stores_preorder c d : PreOrder (node_stores c d).
Proof.
  split; [by split; auto|]. intros x y z [[H1 H1'] H2 H3] [[H4 H4'] H5 H6]. split; [split; congruence|auto|].
  destruct H3 as [H3|H3], H6 as [H6|H6]; rewrite H6, H3; auto. right. by rewrite insert_insert_eq.
Qed.

Record only_stores (c : string) (d : bytes) (s s' : Sys) : Prop := {
  os_world : sy_world s' = sy_world s;
  os_nodes : map_relation (λ _, node_stores c d) (λ _ _, False) (λ _ _, False) (sy_nodes s) (sy_nodes s');
}.

Lemma only_stores_node c d s s' addr x :
  only_stores c d s s' → sy_nodes s !! addr = Some x → ∃ y, sy_nodes s' !! addr = Some y ∧ node_stores c d x y.
Proof.
  intros [_ Hn] Hx. specialize (Hn addr). rewrite Hx in Hn. simpl in Hn.
  destruct (sy_nodes s' !! addr) as [y|]; [eauto|done].
Qed.

#[global] Instance only_stores_preorder c d : PreOrder (only_stores c d).
Proof.
  split.
  - intros s. split; [done|]. intros a. by destruct (sy_nodes s !! a); simpl.
  - intros s1 s2 s3 [Hw1 Hn1] [Hw2 Hn2]. split; [congruence|]. intros a. specialize (Hn1 a). specialize (Hn2 a).
    destruct (sy_nodes s1 !! a), (sy_nodes s2 !! a), (sy_nodes s3 !! a); simpl in *; try done. by etransitivity.
Qed.

Lemma only_stores_ok c d s s' : only_stores c d s s' → all_disks_ok s → all_disks_ok s'.
Proof.
  intros [_ Hn] Hok addr y Hy. specialize (Hn addr). rewrite Hy in Hn.
  destruct (sy_nodes s !! addr) as [x|] eqn:Hx; simpl in Hn; [|done]. apply (ns_ok _ _ _ _ Hn). by eapply Hok.
Qed.

(** What a node holds it keeps, unless it is the chunk that changes, and to other data. *)
Lemma only_stores_holds c d s s' addr c' d' :
  only_stores c d s s' → (c' = c → d' = d) → holds s addr c' d' → holds s' addr c' d'.
Proof.
  intros Hs Heq (x & Hx & Hc). destruct (only_stores_node _ _ _ _ _ _ Hs Hx) as (y & Hy & [_ _ Hd]).
  exists y. split; [done|]. destruct Hd as [-> | ->]; [done|].
  destruct (decide (c' = c)) as [->|Hne]; [by rewrite lookup_insert_eq, Heq|by rewrite lookup_insert_ne].
Qed.

Lemma only_stores_tick c d s : only_stores c d s (tick s).
Proof. split; [done|]. intros a. simpl. destruct (sy_nodes s !! a); simpl; done. Qed.

Lemma set_disk_stores c d s addr nd disk :
  sy_nodes s !! addr = Some nd → node_stores c d nd (mkNode (nd_NodeID nd) disk (nd_cache nd) (nd_repairs nd)) →
  only_stores c d s (set_disk addr disk s) ∧
  sy_nodes (set_disk addr disk s) !! addr = Some (mkNode (nd_NodeID nd) disk (nd_cache nd) (nd_repairs nd)) ∧
  ∀ a, a ≠ addr → sy_nodes (set_disk addr disk s) !! a = sy_nodes s !! a.
Proof.
  intros Hnd Hst. unfold set_disk. rewrite Hnd. simpl. split_and!.
  - split; [done|]. intros a. simpl. destruct (decide (a = addr)) as [->|Hne].
    + by rewrite Hnd, lookup_insert_eq.
    + rewrite lookup_insert_ne by done. by destruct (sy_nodes s !! a); simpl.
  - by rewrite lookup_insert_eq.
  - intros a Hne. by rewrite lookup_insert_ne.
Qed.

(** ** Transfers *)

Section storing.
Context (net : Net) (Hio : ∀ addr, no_faults (disk_io net addr)) (c : string) (d : bytes).

(** The node at [addr] has nothing under [c] but possibly [d]. *)
Definition agrees (s : Sys) (addr : string) : Prop :=
  ∀ nd d', sy_nodes s !! addr = Some nd → contents (nd_disk nd) !! c = Some d' → d' = d.

Lemma holds_agrees s addr : holds s addr c d → agrees s addr.
Proof. intros (nd & Hnd & Hc) nd' d' Hnd' Hc'. congruence. Qed.

Lemma only_stores_agrees s s' addr : only_stores c d s s' → agrees s addr → agrees s' addr.
Proof.
  intros [_ Hn] Ha y d' Hy Hc. specialize (Hn addr). rewrite Hy in Hn.
  destruct (sy_nodes s !! addr) as [x|] eqn:Hx; simpl in Hn; [|done].
  destruct (ns_contents _ _ _ _ Hn) as [Heq|Heq]; rewrite Heq in Hc; [by eapply Ha|].
  rewrite lookup_insert_eq in Hc. by injection Hc.
Qed.

Lemma peer_transfer_stores from to s :
  all_disks_ok s → agrees s from →
  only_stores c d s (peer_transfer net from to c s).2 ∧
  ((peer_transfer net from to c s).1 = None → holds (peer_transfer net from to c s).2 to c d).
Proof.
  intros Hok Hag. unfold peer_transfer. simpl. pose proof (only_stores_tick c d s) as Ht.
  destruct (sy_nodes s !! from) as [a|] eqn:Ha; [|by split]. destruct (sy_nodes s !! to) as [b|] eqn:Hb; [|by split].
  destruct (transfer_any _ _ (Hio from) (Hio to) (peer_net net (sy_ops s)) (peer_dial net (sy_ops s)) c _ _
    (Hok _ _ Ha) (Hok _ _ Hb)) as (r & k & dst' & -> & Hok' & Hres).
  destruct (set_disk_stores c d (tick s) from a (set_calls k (nd_disk a)) Ha) as (Hs1 & Hself & Hother).
  { split; [done|by apply store_ok_calls|by left]. }
  assert (∃ b', sy_nodes (set_disk from (set_calls k (nd_disk a)) (tick s)) !! to = Some b' ∧
    contents (nd_disk b') = contents (nd_disk b)) as (b' & Hb' & Hcb).
  { destruct (decide (to = from)) as [->|Hne]; [|by rewrite Hother; eauto].
    eexists. split; [exact Hself|]. by assert (a = b) as -> by congruence. }
  assert (Hres' : contents dst' = contents (nd_disk b') ∧ (∃ e, r = Err e) ∨ contents dst' = <[c := d]> (contents (nd_disk b'))).
  { rewrite Hcb. destruct r; [|by eauto]. destruct Hres as (d' & Hd' & ->). right. by rewrite (Hag _ _ Ha Hd'). }
  destruct (set_disk_stores c d _ to b' dst' Hb') as (Hs2 & Hto & _).
  { split; [done|done|]. by destruct Hres' as [[? _]|?]; auto. }
  split; [by etransitivity; [exact Ht|]; etransitivity|]. simpl. intros Hr. eexists. split; [exact Hto|]. simpl.
  destruct Hres' as [[_ [e ->]] | ->]; [done|]. by rewrite lookup_insert_eq.
Qed.

Lemma transfer_with_retry_stores from to s :
  all_disks_ok s → agrees s from →
  only_stores c d s (transfer_with_retry net from to c s).2 ∧
  ((transfer_with_retry net from to c s).1 = None → holds (transfer_with_retry net from to c s).2 to c d).
Proof.
  intros Hok Hag. unfold transfer_with_retry.
  pose proof (Do_keeps (peer_transfer net from to c) DefaultRetryPolicy (node_amb net (sy_ops s))
    (λ s', only_stores c d s s') (λ s', holds s' to c d) s) as H.
  destruct (Do _ _ _ s) as [[r s'] sleeps]. apply H; [|reflexivity]. intros s1 Hs1.
  destruct (peer_transfer_stores from to s1) as [H1 H2].
  - by eapply only_stores_ok.
  - by eapply only_stores_agrees.
  - split; [by etransitivity|done].
Qed.

Lemma fan_run_stores from targets s :
  all_disks_ok s → holds s from c d →
  let '(events, s') := fan_run net from c targets s in
  only_stores c d s s' ∧ ∀ t, FanResult t None ∈ events → holds s' t c d.
Proof.
  revert s. induction targets as [|t targets IH]; intros s Hok Hh; simpl.
  { split; [done|]. by intros t ?%not_elem_of_nil. }
  destruct (transfer_with_retry_stores from t s Hok (holds_agrees _ _ Hh)) as [H1 H2].
  destruct (transfer_with_retry net from t c s) as [err s1]. simpl in *.
  specialize (IH s1 (only_stores_ok _ _ _ _ H1 Hok) (only_stores_holds _ _ _ _ _ _ _ H1 (λ _, eq_refl) Hh)).
  destruct (fan_run net from c targets s1) as [events s2]. destruct IH as [H3 H4]. split; [by etransitivity|].
  intros t' [[= -> <-]|Hin]%elem_of_cons; [|by apply H4].
  eapply only_stores_holds; [exact H3|done|by apply H2].
Qed.

Lemma fan_collect_confirms total n events ok errs l e t :
  fan_collect total n events ok errs = Some (l, e) → t ∈ l → t ∈ ok ∨ FanResult t None ∈ events.
Proof.
  revert events ok errs. induction n as [|n IH]; intros events ok errs; simpl.
  { unfold fan_result. case_decide; intros [= <- _]; auto. }
  destruct events as [|[a [e'|]| |e'] events]; [done|..].
  - intros Hc Ht. destruct (IH _ _ _ Hc Ht); [by left|right; by right].
  - intros Hc Ht. destruct (IH _ _ _ Hc Ht) as [[Hin| ->%list_elem_of_singleton]%elem_of_app|]; [by left|..]; right; [left|by right].
  - intros [= <- _]. auto.
  - intros [= <- _]. auto.
Qed.

(** What the fan-out confirms was a success. *)
Lemma fan_out_confirms n targets events t :
  t ∈ (default ([], Some ErrFanout) (ReplicatorToNodes targets false (fan_view net n events))).1 → FanResult t None ∈ events.
Proof.
  unfold ReplicatorToNodes, ReplicateToNodesWithResult. case_decide; [by intros ?%not_elem_of_nil|].
  destruct (fan_collect _ _ _ _ _) as [[l e]|] eqn:Hc; simpl; [|by intros ?%not_elem_of_nil].
  intros Ht. destruct (fan_collect_confirms _ _ _ _ _ _ _ _ Hc Ht) as [?%not_elem_of_nil|Hev]; [done|].
  unfold fan_view in Hev. destruct (fan_cut net n) as [[k [e'|]]|]; [..|done].
  all: apply elem_of_app in Hev as [Hev|[=]%list_elem_of_singleton]; [|done..].
  all: apply elem_of_take in Hev as (i & Hi & _); by eapply list_elem_of_lookup_2.
Qed.

Lemma fan_out_stores from targets s :
  all_disks_ok s → holds s from c d →
  let '(confirmed, s') := fan_out net from c targets s in
  only_stores c d s s' ∧ ∀ t, t ∈ confirmed.1 → holds s' t c d.
Proof.
  intros Hok Hh. unfold fan_out.
  pose proof (fan_run_stores from (fan_order net (sy_ops s) targets) (tick s)
    (only_stores_ok _ _ _ _ (only_stores_tick c d s) Hok) Hh) as H.
  destruct (fan_run net from c _ (tick s)) as [events s']. destruct H as [H1 H2].
  split; [etransitivity; [apply only_stores_tick|exact H1]|]. intros t Ht. by eapply H2, fan_out_confirms.
Qed.
End storing.

(** ** Receiving a chunk from the client *)

(** The stream a node sees for a chunk, possibly broken. *)
Definition put_stream (frames : list PutChunkRequest) (cut : option (nat * error)) : list (recv PutChunkRequest) :=
  match cut with
  | None => RecvMsg <$> frames
  | Some (k, e) => (RecvMsg <$> take k frames) ++ [RecvErr e]
  end.

Lemma accept_rest_broken fs e id d f : accept_rest ((RecvMsg <$> fs) ++ [RecvErr e]) id d f = None.
Proof. revert d f. induction fs as [|g fs IH]; intros d f; [done|]. simpl. by case_decide. Qed.

(** The node stores the client's chunk and goes on with it, or turns the client away and
    keeps what it has; a broken stream is always turned away. *)
Lemma put_stream_received io size id replicas data cut disk :
  no_faults io → store_ok disk →
  let '(rcv, disk') := put_loop io (put_stream (client_frames size id replicas (Compute_checksum data) data) cut)
                         None "" [] None disk in
  store_ok disk' ∧
  ((contents disk' = contents disk ∧ turned_away rcv) ∨
   (cut = None ∧ contents disk' = <[id := data]> (contents disk) ∧
    ∃ last, rcv = inr (last, filter (.≠ "") replicas) ∧ pc_ChunkId last = id ∧ pc_Checksum last = sha256 data)).
Proof.
  intros Hio Hok.
  destruct (client_frames_ok size id replicas (Compute_checksum data) data) as (f & fs & -> & Hj & Hids & Hlast & Hsum & Hrep).
  inversion Hids as [|?? Hid Hrest]; subst.
  assert (Haway : ∀ rest, accept_rest rest (pc_ChunkId f) (pc_Data f) f = None →
    let '(rcv, disk') := put_loop io (RecvMsg f :: rest) None "" [] None disk in
    store_ok disk' ∧ contents disk' = contents disk ∧ turned_away rcv).
  { intros rest Hr. pose proof (put_receive_ok io Hio f rest disk Hok) as H. rewrite Hr in H.
    destruct (put_loop _ _ _ _ _ _ _) as [rcv disk']. by destruct H as [[? ?] _]. }
  destruct cut as [[[|k] e]|].
  - simpl. split; [done|]. left. split; [done|]. apply put_fail_away.
  - specialize (Haway ((RecvMsg <$> take k fs) ++ [RecvErr e]) (accept_rest_broken _ _ _ _ _)).
    change (put_stream (f :: fs) (Some (S k, e))) with (RecvMsg f :: (RecvMsg <$> take k fs) ++ [RecvErr e]).
    destruct (put_loop _ _ _ _ _ _ _) as [rcv disk']. destruct Haway as (? & ? & ?). auto.
  - pose proof (put_receive_ok io Hio f (RecvMsg <$> fs) disk Hok) as H.
    change (put_stream (f :: fs) None) with (RecvMsg f :: (RecvMsg <$> fs)).
    destruct (put_loop _ _ _ _ _ _ _) as [rcv disk']. destruct H as [[Hok' H] _].
    rewrite accept_rest_frames in H by done. cbv zeta in H.
    change (pc_Data f ++ mjoin (pc_Data <$> fs)) with (mjoin (pc_Data <$> f :: fs)) in H.
    rewrite decide_True in H by done. destruct H as (r & Hspec & Hr). split; [done|].
    unfold spec_put in Hspec. destruct r as [|er].
    + right. repeat case_match; try done. injection Hspec as <- Hc. split_and!; [done|by symmetry|].
      eexists. split; [rewrite <-replica_targets_fmap, <-Hrep; exact Hr|]. split; [|exact Hsum].
      destruct (last fs) as [g|] eqn:Hg; simpl; [|done].
      apply (proj1 (Forall_forall _ _) Hrest g). by apply last_Some_elem_of.
    + left. repeat case_match; simplify_eq; done.
Qed.

(** ** Committing a chunk *)

Section commit.
Context `{!Env, !MapRange, !GoSort} (src tgt : PlacementStrategy) (rf : Z).

(** Whatever Raft does, [CommitChunk] leaves the files, chunks and nodes alone or does to
    them what its command does; when it succeeds it was the latter. *)
Lemma CommitChunk_core c raw sum w :
  let cmd := mkCommandCommitChunk c raw sum in
  let '(r, w') := CommitChunk src tgt rf c raw sum w in
  (core (wd_fsm w') = core (wd_fsm w) ∨ core (wd_fsm w') = core (handleCmdCommitChunk (wd_fsm w) cmd).1) ∧
  (∀ x, r = Ok x → ∃ s', handleCmdCommitChunk (wd_fsm w) cmd = (s', None) ∧ core (wd_fsm w') = core s').
Proof.
  intros cmd. unfold CommitChunk. fold cmd. unfold mbind at 1, M_bind at 1.
  destruct (Propose_effect (CommitChunkC cmd) w) as [He Hok]; [done|]. cbn [exec] in He, Hok.
  destruct (Propose (encode (CommitChunkC cmd)) w) as [[e|] w1]; simpl in He, Hok.
  { split; [|done]. destruct He as [-> | ->]; auto. }
  specialize (Hok eq_refl). rewrite Hok in He. unfold gets, mbind, M_bind.
  assert (Hkeep : ∀ w2, core (wd_fsm w2) = core (wd_fsm w1) →
    (core (wd_fsm w2) = core (wd_fsm w) ∨ core (wd_fsm w2) = core (handleCmdCommitChunk (wd_fsm w) cmd).1) ∧
    (∀ x : response, Ok SuccessResp = Ok x → ∃ s', handleCmdCommitChunk (wd_fsm w) cmd = (s', None) ∧ core (wd_fsm w2) = core s')).
  { intros w2 Hw2. rewrite Hok. simpl. split; [by right|]. intros _ _. by eexists. }
  destruct (GetChunkLocations (wd_fsm w1) c) as [l|]; [case_decide|]; [|by apply Hkeep..].
  pose proof (core_ScheduleRepairForChunk src tgt (core (wd_fsm w1)) c w1 eq_refl) as Hcore.
  destruct (ScheduleRepairForChunk _ _ _ w1) as [[] w2]. by apply Hkeep.
Qed.
End commit.

Lemma resolved_addr_registry s s' x : nodeRegistry s = nodeRegistry s' → resolved_addr s x = resolved_addr s' x.
Proof. intros Heq. unfold resolved_addr, GetNode. by rewrite Heq. Qed.

(** The registry [R] and the node IDs [N] of the running nodes by address: no two nodes
    share an address, no address is a node ID, and a running node is registered under its
    own address. *)
Record cluster_ok (R : gmap string NodeEntry) (N : gmap string string) : Prop := {
  ck_keys : ∀ k n, R !! k = Some n → ne_NodeID n = k;
  ck_empty : R !! "" = None;
  ck_not_id : ∀ k n, R !! k = Some n → R !! ne_Address n = None;
  ck_unique : ∀ k1 k2 n1 n2, R !! k1 = Some n1 → R !! k2 = Some n2 → ne_Address n1 = ne_Address n2 → k1 = k2;
  ck_nodes : ∀ addr id, N !! addr = Some id → addr ≠ "" ∧ ∃ n, R !! id = Some n ∧ ne_Address n = addr;
}.

(** ** Calls to the metadata service *)

Section calls.
Context {Env0 : Env} {Range0 : MapRange} {Sort0 : GoSort} (src tgt : PlacementStrategy) (rf : Z) (leader : string) (net : Net).

(** A call of a handler that keeps [I], at whatever node and with whatever fate. *)
Lemma rpc_keeps_leading (I : Sys → Prop) (Q : response → Sys → Prop) req k a s :
  (∀ s, I s → I (tick s)) →
  (∀ s, is_leader = true → I s → let '(r, w) := run_handler src tgt rf req (sy_world s) in
     I (set_world w s) ∧ ∀ x, r = Ok x → Q x (set_world w s)) →
  I s →
  let '(r, _, s') := meta_rpc src tgt rf leader net req k a s in
  I s' ∧ ∀ x, r = inl x → a = leader ∧ is_leader = true ∧ Q x s'.
Proof.
  intros Htick Hrun Hs. specialize (λ Hl, Hrun (tick s) Hl (Htick s Hs)). pose proof (Htick s Hs) as Hs'.
  unfold meta_rpc. destruct (meta_fate net (sy_ops s)) as [|e|e]; [|by split|].
  all: case_decide as Ha; [|destruct (meta_other net _ a); by split].
  all: unfold handle; destruct is_leader; simpl negb; cbv iota.
  - specialize (Hrun eq_refl). destruct (run_handler _ _ _ _ _) as [r w]. destruct Hrun as [HI HQ]. split; [done|]. simpl.
    intros x Hx. destruct r as [y|]; [|done]. injection Hx as ->. auto.
  - unfold leaderRedirect. case_decide; (split; [exact Hs'|done]).
  - specialize (Hrun eq_refl). destruct (run_handler _ _ _ _ _) as [r w]. by destruct Hrun as [HI _].
  - by split.
Qed.

Lemma invoke_keeps_leading (I : Sys → Prop) (Q : response → Sys → Prop) p amb req cache s :
  (∀ s, I s → I (tick s)) →
  (∀ s, is_leader = true → I s → let '(r, w) := run_handler src tgt rf req (sy_world s) in
     I (set_world w s) ∧ ∀ x, r = Ok x → Q x (set_world w s)) →
  I s →
  let '(r, cache', s') := meta_invoke src tgt rf leader net p amb req cache s in
  I s' ∧ ∀ x, r = Ok x → conn cache' = Some leader ∧ is_leader = true ∧ Q x s'.
Proof.
  intros Htick Hrun Hs. unfold meta_invoke.
  pose proof (Invoke_keeps (meta_dial net) p amb (meta_rpc src tgt rf leader net req) I
    (λ a x s', a = leader ∧ is_leader = true ∧ Q x s') cache s) as Hinv.
  destruct (Invoke _ _ _ _ _ s) as [[r cache'] s']. destruct Hinv as [Hk Hq]; [|done|].
  - intros k a s1 Hs1. pose proof (rpc_keeps_leading I Q req k a s1 Htick Hrun Hs1) as Hrpc.
    destruct (meta_rpc _ _ _ _ _ req k a s1) as [[? ?] ?]. exact Hrpc.
  - split; [done|]. intros x Hx. destruct r as [y|]; [|done]. injection Hx as ->.
    destruct (Hq x eq_refl) as (a & Ha & -> & Hl & HQ). auto.
Qed.

Lemma invoke_keeps (I : Sys → Prop) (Q : response → Sys → Prop) p amb req cache s :
  (∀ s, I s → I (tick s)) →
  (∀ s, I s → let '(r, w) := run_handler src tgt rf req (sy_world s) in
     I (set_world w s) ∧ ∀ x, r = Ok x → Q x (set_world w s)) →
  I s →
  let '(r, cache', s') := meta_invoke src tgt rf leader net p amb req cache s in
  I s' ∧ ∀ x, r = Ok x → conn cache' = Some leader ∧ is_leader = true ∧ Q x s'.
Proof. intros Htick Hrun Hs. apply invoke_keeps_leading; [done|by intros s1 _; apply Hrun|done]. Qed.

(** A call that is not disturbed, on a connection to the leader. *)
Lemma invoke_direct p amb req cache s r w :
  conn cache = Some leader → meta_fate net (sy_ops s) = Delivered → ctx_err amb 0 = None → (1 ≤ MaxAttempts p)%Z →
  is_leader = true → run_handler src tgt rf req (sy_world s) = (Ok r, w) →
  meta_invoke src tgt rf leader net p amb req cache s = (Ok r, cache, set_world w (tick s)).
Proof.
  intros Hc Hf Ha Hp Hl Hrun. unfold meta_invoke, Invoke. destruct (Z.to_nat (MaxAttempts p)) as [|n] eqn:Hn; [lia|].
  cbn [invoke_loop]. rewrite Ha, Hc. unfold meta_rpc. rewrite Hf, decide_True by done. unfold handle. rewrite Hl. simpl negb.
  cbv iota. change (sy_world (tick s)) with (sy_world s). by rewrite Hrun.
Qed.
End calls.

Section upload_state.
Context {Range0 : MapRange} (R : gmap string NodeEntry) (N : gmap string string) (Hcluster : cluster_ok R N).
Context (F : gmap string FileRecord) (fileID : string) (ids : list string) (data : nat → bytes).
Context (Hids : NoDup ids).

Notation fsm s := (wd_fsm (sy_world s)).

(** Every replica that [GetFile] reports has the chunk, and there is one. *)
Definition replicas_serve (s : Sys) (c : string) (d : bytes) (reps : list string) : Prop :=
  (∀ x a, x ∈ reps → resolved_addr (fsm s) x = Some a → holds s a c d) ∧
  ∃ x a, x ∈ reps ∧ resolved_addr (fsm s) x = Some a.

Definition completed (s : Sys) (i : nat) (c : string) : Prop :=
  ∃ reps, chunkRegistry (fsm s) !! c = Some (committed_chunk fileID i (mkUpload c reps (sha256 (data i)))) ∧
    replicas_serve s c (data i) reps.

(** During the upload: the chunks in [D] are complete, the others complete or untouched. *)
Record uploading (D : gset string) (s : Sys) : Prop := {
  ul_registry : nodeRegistry (fsm s) = R;
  ul_files : fileIndex (fsm s) = F;
  ul_nodes : nd_NodeID <$> sy_nodes s = N;
  ul_disks : all_disks_ok s;
  ul_chunks : ∀ i c, ids !! i = Some c →
    completed s i c ∨ (c ∉ D ∧ chunkRegistry (fsm s) !! c = Some (new_chunk_stub fileID i c));
}.

Lemma holds_node s addr c d :
  nd_NodeID <$> sy_nodes s = N → holds s addr c d →
  ∃ id n, N !! addr = Some id ∧ R !! id = Some n ∧ ne_Address n = addr.
Proof.
  intros HN (nd & Hnd & _). assert (Ha : N !! addr = Some (nd_NodeID nd)) by (by rewrite <-HN, lookup_fmap, Hnd).
  destruct (ck_nodes _ _ Hcluster _ _ Ha) as (_ & n & Hn & <-). by eexists _, n.
Qed.

Lemma normalized_serve D s addr id confirmed i c :
  uploading D s → N !! addr = Some id → resolved_addr (fsm s) id = Some addr → holds s addr c (data i) →
  (∀ t, t ∈ confirmed → holds s t c (data i)) →
  replicas_serve s c (data i) (normalizeReplicaNodeIDs (fsm s) ([id] ++ confirmed)).
Proof.
  intros Hul Hid Hres Hown Hconf. pose proof (ul_registry _ _ Hul) as HR.
  destruct (ck_nodes _ _ Hcluster _ _ Hid) as (_ & n0 & Hn0 & Haddr).
  destruct (normalize_fold_spec (fsm s) ltac:(rewrite HR; apply Hcluster) ltac:(rewrite HR; apply Hcluster)
    ([id] ++ confirmed) ([], ∅)) as (_ & H2 & H3); [split; [constructor|done]|set_solver|].
  fold (normalizeReplicaNodeIDs (fsm s) ([id] ++ confirmed)) in H2, H3.
  assert (Hself : ∀ x, names_replica (fsm s) x id → x = id).
  { intros x [[-> _]|(n & Hn & Ha)]; [done|]. rewrite HR in Hn. pose proof (ck_not_id _ _ Hcluster _ _ Hn) as Hno.
    rewrite Ha in Hno. congruence. }
  split.
  - intros x a Hx Ha. destruct (H2 x Hx) as [[]%not_elem_of_nil|(e & He & Hnames)].
    apply elem_of_app in He as [->%list_elem_of_singleton|He].
    + apply Hself in Hnames as ->. rewrite Hres in Ha. by injection Ha as <-.
    + specialize (Hconf e He). destruct (holds_node s e c _ (ul_nodes _ _ Hul) Hconf) as (id' & n' & _ & Hn' & Ha').
      destruct Hnames as [[-> [[n Hn]|Hno]]|(n & Hn & Hne)].
      * rewrite HR in Hn. pose proof (ck_not_id _ _ Hcluster _ _ Hn') as Hbad. rewrite Ha' in Hbad. congruence.
      * exfalso. apply (Hno id' n'); [by rewrite HR|done].
      * unfold resolved_addr, GetNode in Ha. rewrite Hn in Ha. repeat case_decide; simplify_eq. done.
  - destruct (H3 id) as (x & Hx & Hnames); [set_solver|]. apply Hself in Hnames as ->. by exists id, addr.
Qed.

(** The chunk records do not change, and no disk loses a chunk of the file. *)
Lemma uploading_keep D s s' :
  core (fsm s') = core (fsm s) → nd_NodeID <$> sy_nodes s' = nd_NodeID <$> sy_nodes s → all_disks_ok s' →
  (∀ i c a, ids !! i = Some c → holds s a c (data i) → holds s' a c (data i)) →
  uploading D s → uploading D s'.
Proof.
  intros Hcore HN Hok Hh [H1 H2 H3 H4 H5]. unfold core in Hcore. injection Hcore as Hf Hc Hr.
  split; [congruence..|done|]. intros i c Hi. rewrite Hc. destruct (H5 i c Hi) as [(reps & Hrec & Hs & Hsome)|?]; [left|by right].
  exists reps. rewrite Hc. split; [done|].
  assert (Hres : ∀ x, resolved_addr (fsm s') x = resolved_addr (fsm s) x) by (intros; by apply resolved_addr_registry).
  split; [intros x a; rewrite Hres; intros; eapply Hh; eauto|].
  destruct Hsome as (x & a & Hx & Ha). exists x, a. by rewrite Hres.
Qed.

Lemma ids_data i j c : ids !! i = Some c → ids !! j = Some c → data i = data j.
Proof. intros Hi Hj. by rewrite (NoDup_lookup _ _ _ _ Hids Hi Hj). Qed.

Lemma uploading_stores D s s' i c :
  ids !! i = Some c → only_stores c (data i) s s' → uploading D s → uploading D s'.
Proof.
  intros Hi Hs Hul. apply (uploading_keep D s); [by rewrite (os_world _ _ _ _ Hs)| | | |done].
  - apply map_eq. intros a. rewrite !lookup_fmap. pose proof (os_nodes _ _ _ _ Hs a) as Ha.
    destruct (sy_nodes s !! a), (sy_nodes s' !! a); simpl in *; try done. f_equal. apply Ha.
  - eapply only_stores_ok; [done|apply Hul].
  - intros j c' a Hj. apply (only_stores_holds _ _ _ _ _ _ _ Hs). intros ->. by apply (ids_data j i c).
Qed.

Lemma uploading_world D s w : core (wd_fsm w) = core (fsm s) → uploading D s → uploading D (set_world w s).
Proof. intros Hc Hul. apply (uploading_keep D s); [done|done|apply Hul|done|done]. Qed.

(** The command that commits chunk [i], when its replicas serve it. *)
Lemma uploading_commit D s w i c raw :
  ids !! i = Some c → uploading D s → replicas_serve s c (data i) (normalizeReplicaNodeIDs (fsm s) raw) →
  let cmd := mkCommandCommitChunk c raw (sha256 (data i)) in
  core (wd_fsm w) = core (handleCmdCommitChunk (fsm s) cmd).1 →
  uploading D (set_world w s) ∧
  ((handleCmdCommitChunk (fsm s) cmd).2 = None → uploading ({[c]} ∪ D) (set_world w s)).
Proof.
  intros Hi Hul Hserve. unfold handleCmdCommitChunk, Fsm.GetChunk. simpl.
  destruct (ul_chunks _ _ Hul i c Hi) as [(reps & Hrec & _)|[_ Hrec]]; rewrite Hrec.
  { rewrite decide_False; simpl; [|intros [Hlen _]; by apply nil_length_inv, checksum_nonempty in Hlen].
    intros Hc. split; [by apply uploading_world|done]. }
  rewrite decide_True by done. simpl. intros Hc. unfold core in Hc. injection Hc as Hf Hch Hr.
  enough (Hnew : uploading ({[c]} ∪ D) (set_world w s)).
  { split; [|done]. destruct Hnew as [H1 H2 H3 H4 H5]. split; [done..|]. intros j c' Hj.
    destruct (H5 j c' Hj) as [?|[? ?]]; [by left|right]. set_solver. }
  destruct Hul as [H1 H2 H3 H4 H5].
  assert (Hres : ∀ x, resolved_addr (wd_fsm w) x = resolved_addr (fsm s) x) by (intros; by apply resolved_addr_registry).
  assert (Hsv : ∀ c' d' reps, replicas_serve s c' d' reps → replicas_serve (set_world w s) c' d' reps).
  { intros c' d' reps [Hs1 Hs2]. split; simpl; [intros x a Hx; rewrite Hres; by apply Hs1|].
    destruct Hs2 as (x & a & Hx & Ha). exists x, a. by rewrite Hres. }
  split; [simpl; congruence..|done|]. intros j c' Hj. simpl. rewrite Hch.
  destruct (decide (c' = c)) as [->|Hne].
  - left. assert (j = i) as -> by (by eapply NoDup_lookup). eexists. cbn [sy_world set_world].
    rewrite Hch, lookup_insert_eq. split; [reflexivity|]. by apply Hsv.
  - rewrite lookup_insert_ne by done. destruct (H5 j c' Hj) as [(reps & Hrec' & Hserve')|[Hnot Hrec']]; [left|right; set_solver].
    exists reps. cbn [sy_world set_world]. rewrite Hch, lookup_insert_ne by done. split; [done|]. by apply Hsv.
Qed.

(** ** Putting a chunk *)

Context {Env0 : Env} {Sort0 : GoSort} (src tgt : PlacementStrategy) (rf : Z) (leader : string) (net : Net).
Context (Hio : ∀ addr, no_faults (disk_io net addr)).

(** The nodes that confirmed chunk [i] have it. *)
Definition confirmed_ok (s : Sys) (i : nat) (addr c : string) (confirmed : list string) : Prop :=
  holds s addr c (data i) ∧ ∀ t, t ∈ confirmed → holds s t c (data i).

(** A node whose registration is usable for reads. *)
Definition usable (addr id : string) : Prop :=
  N !! addr = Some id ∧ ∀ s, nodeRegistry s = R → resolved_addr s id = Some addr.

(** The handler of the commit, on a state in which the confirmed nodes have the chunk. *)
Lemma commit_handler D i c addr id confirmed s :
  ids !! i = Some c → usable addr id → uploading D s ∧ confirmed_ok s i addr c confirmed →
  let '(r, w) := run_handler src tgt rf (CommitChunkReq c ([id] ++ confirmed) (sha256 (data i))) (sy_world s) in
  (uploading D (set_world w s) ∧ confirmed_ok (set_world w s) i addr c confirmed) ∧
  ∀ x, r = Ok x → uploading ({[c]} ∪ D) (set_world w s).
Proof.
  intros Hi [Hid Hres] [Hul Hconf].
  assert (Hserve : replicas_serve s c (data i) (normalizeReplicaNodeIDs (fsm s) ([id] ++ confirmed))).
  { destruct Hconf. eapply (normalized_serve D); [exact Hul|done|apply Hres, Hul|done|done]. }
  pose proof (CommitChunk_core src tgt rf c ([id] ++ confirmed) (sha256 (data i)) (sy_world s)) as Hcore.
  cbn [run_handler]. destruct (CommitChunk _ _ _ _ _ _ _) as [r w]. cbv zeta in Hcore. destruct Hcore as [Hc Hok].
  split; [split; [|exact Hconf]|].
  - destruct Hc as [Hc|Hc]; [by apply uploading_world|by apply (uploading_commit D s w i c _ Hi Hul Hserve)].
  - intros x Hx. destruct (Hok x Hx) as (s' & Hs' & Hc').
    apply (uploading_commit D s w i c ([id] ++ confirmed) Hi Hul Hserve); by rewrite Hs'.
Qed.

Lemma uploading_tick D s : uploading D s → uploading D (tick s).
Proof. intros Hul. apply (uploading_keep D s); [done|done|apply Hul|done|done]. Qed.

Lemma set_cache_stores c d addr cache s : only_stores c d s (set_cache addr cache s).
Proof.
  unfold set_cache. destruct (sy_nodes s !! addr) as [nd|] eqn:Hnd; [|done]. split; [done|]. intros a. simpl.
  destruct (decide (a = addr)) as [->|Hne].
  - rewrite Hnd, lookup_insert_eq. simpl. by split; auto.
  - rewrite lookup_insert_ne by done. by destruct (sy_nodes s !! a); simpl.
Qed.

Lemma confirmed_stores s s' i addr c confirmed :
  only_stores c (data i) s s' → confirmed_ok s i addr c confirmed → confirmed_ok s' i addr c confirmed.
Proof. intros Hs [Ha Hb]. split; [|intros t Ht]; (eapply only_stores_holds; [done|done|auto]). Qed.

Lemma commit_invoke D i c addr id confirmed p s :
  ids !! i = Some c → usable addr id → uploading D s → confirmed_ok s i addr c confirmed →
  let '(r, s') := node_invoke src tgt rf leader net p addr (CommitChunkReq c ([id] ++ confirmed) (sha256 (data i))) s in
  uploading D s' ∧ ∀ x, r = Ok x → uploading ({[c]} ∪ D) s'.
Proof.
  intros Hi Hu Hul Hconf. unfold node_invoke. destruct (sy_nodes s !! addr) as [nd|]; [|by split].
  pose proof (invoke_keeps src tgt rf leader net (λ s', uploading D s' ∧ confirmed_ok s' i addr c confirmed)
    (λ _ s', uploading ({[c]} ∪ D) s') p (node_amb net (sy_ops s)) (CommitChunkReq c ([id] ++ confirmed) (sha256 (data i)))
    (nd_cache nd) s) as Hinv.
  destruct (meta_invoke _ _ _ _ _ _ _ _ _ s) as [[r cache] s']. destruct Hinv as [[Hk _] Hq]; [| |done|].
  - intros s1 [Hs1 Hs2]. split; [by apply uploading_tick|exact Hs2].
  - intros s1 Hs1. by apply commit_handler.
  - assert (Hset : ∀ D', uploading D' s' → uploading D' (set_cache addr cache s')).
    { intros D'. apply (uploading_stores _ _ _ i c Hi), set_cache_stores. }
    split; [by apply Hset|]. intros x Hx. destruct (Hq x Hx) as (_ & _ & Hy). by apply Hset.
Qed.

(** [PutChunk] of the client's stream for chunk [i] at a usable node. *)
Lemma node_put D i c addr id p size replicas cut s :
  ids !! i = Some c → usable addr id → uploading D s →
  let '(out, s') := node_PutChunk src tgt rf leader net p addr
    (put_stream (client_frames size c replicas (Compute_checksum (data i)) (data i)) cut) s in
  uploading D s' ∧ ∀ r, po_result out = Ok r → uploading ({[c]} ∪ D) s'.
Proof.
  intros Hi Hu Hul. unfold node_PutChunk. destruct (sy_nodes s !! addr) as [nd|] eqn:Hnd; [|by split].
  assert (Hnid : nd_NodeID nd = id).
  { destruct Hu as [HN _]. rewrite <-(ul_nodes _ _ Hul), lookup_fmap, Hnd in HN. by injection HN. }
  pose proof (put_stream_received (disk_io net addr) size c replicas (data i) cut (nd_disk nd) (Hio addr)
    (ul_disks _ _ Hul _ _ Hnd)) as Hput.
  destruct (put_loop _ _ _ _ _ _ (nd_disk nd)) as [rcv disk']. destruct Hput as [Hok' Hcase].
  destruct (set_disk_stores c (data i) s addr nd disk' Hnd) as (Hs1 & Hat & _).
  { split; [done|done|]. destruct Hcase as [[? _]|(_ & ? & _)]; auto. }
  destruct Hcase as [[_ (out & -> & [[e He] _])]|(_ & Hcont & last & -> & Hlid & Hlsum)].
  { split; [by eapply uploading_stores|]. intros r Hr. congruence. }
  assert (Hh : holds (set_disk addr disk' s) addr c (data i)).
  { eexists. split; [exact Hat|]. simpl. by rewrite Hcont, lookup_insert_eq. }
  set (s1 := set_disk addr disk' s) in *. rewrite Hlid, Hlsum, Hnid.
  assert (Hfan : ∀ targets, let '(confirmed, s2) := if decide (targets = []) then ([], None, s1) else fan_out net addr c targets s1 in
    only_stores c (data i) s1 s2 ∧ ∀ t, t ∈ confirmed.1 → holds s2 t c (data i)).
  { intros targets. case_decide; [split; [done|by intros t ?%not_elem_of_nil]|].
    apply fan_out_stores; [done| |done]. eapply only_stores_ok; [done|apply Hul]. }
  specialize (Hfan (filter (.≠ "") replicas)).
  destruct (if decide (filter (.≠ "") replicas = []) then _ else _) as [confirmed s2]. destruct Hfan as [Hs2 Hconf].
  pose proof (commit_invoke D i c addr id confirmed.1 p s2 Hi Hu) as Hc.
  assert (Hul2 : uploading D s2) by (eapply uploading_stores; [done|exact Hs2|]; by eapply uploading_stores).
  specialize (Hc Hul2). unfold sm_CommitChunk. cbn [ccr_ChunkId ccr_ConfirmedNodes ccr_Checksum].
  destruct (node_invoke _ _ _ _ _ _ _ _ s2) as [r s3]. destruct Hc as [Hk Hq].
  { split; [|done]. eapply only_stores_holds; [exact Hs2|done|exact Hh]. }
  split; [done|]. unfold put_commit. simpl. destruct r as [x|e]; [by eauto|done].
Qed.

(** An address where the chunk can go: that of a live node, or of no running node. *)
Definition target_ok (addr : string) : Prop := N !! addr = None ∨ ∃ id, usable addr id.

Lemma live_target_ok k n : R !! k = Some n → ne_Status n = NodeStatusAlive → target_ok (ne_Address n).
Proof.
  intros Hk Hst. unfold target_ok. destruct (N !! ne_Address n) as [id|] eqn:Hid; [|by left]. right. exists id.
  destruct (ck_nodes _ _ Hcluster _ _ Hid) as (Hne & n' & Hn' & Ha).
  assert (k = id) as -> by (eapply (ck_unique _ _ Hcluster); eauto). split; [done|]. intros s Hs.
  unfold resolved_addr, GetNode. rewrite Hs, Hk. rewrite decide_False by (rewrite Hst; by intros []). by rewrite decide_True.
Qed.

Lemma getOrDial_sys addr c : cl_sys (getOrDial net addr c).2 = cl_sys c.
Proof. unfold getOrDial. case_decide; [done|]. by destruct (storage_dial _ _). Qed.

Lemma storage_put D i c addr p cfg replicas cl :
  ids !! i = Some c → target_ok addr → uploading D (cl_sys cl) →
  let r := storage_PutChunk src tgt rf leader net p cfg addr c (data i) (Compute_checksum (data i)) replicas cl in
  uploading D (cl_sys r.2) ∧ (r.1 = None → uploading ({[c]} ∪ D) (cl_sys r.2)).
Proof.
  intros Hi Hu Hul. cbv zeta. unfold storage_PutChunk. pose proof (getOrDial_sys addr cl) as Hsys.
  destruct (getOrDial net addr cl) as [[e|] c1]; simpl in Hsys; [simpl; by rewrite Hsys|]. rewrite Hsys. cbv zeta.
  set (n := sy_ops (cl_sys cl)).
  pose proof (uploading_tick D _ Hul) as Ht.
  change (match put_cut net n with
          | None => RecvMsg <$> client_frames (cfg_FrameSize cfg) c replicas (Compute_checksum (data i)) (data i)
          | Some (k, e) => (RecvMsg <$> take k (client_frames (cfg_FrameSize cfg) c replicas (Compute_checksum (data i)) (data i))) ++ [RecvErr e]
          end) with (put_stream (client_frames (cfg_FrameSize cfg) c replicas (Compute_checksum (data i)) (data i)) (put_cut net n)).
  assert (Hput : let '(out, s') := node_PutChunk src tgt rf leader net p addr
    (put_stream (client_frames (cfg_FrameSize cfg) c replicas (Compute_checksum (data i)) (data i)) (put_cut net n)) (tick (cl_sys cl)) in
    uploading D s' ∧ ∀ r, po_result out = Ok r → uploading ({[c]} ∪ D) s').
  { destruct Hu as [Hnone|[id Hu]]; [|by apply (node_put D i c addr id)].
    unfold node_PutChunk. rewrite <-(ul_nodes _ _ Hul), lookup_fmap in Hnone. simpl.
    destruct (sy_nodes (cl_sys cl) !! addr); [done|]. by split. }
  destruct (node_PutChunk _ _ _ _ _ _ _ _ _) as [out s']. destruct Hput as [Hk Hq]. simpl. split; [done|].
  destruct (put_cut net n) as [[k e]|]; [done|]. destruct (po_result out) as [r|e]; [|done].
  destruct (put_reply net n); [done|]. intros _. by apply (Hq r).
Qed.

Lemma upload_chunk_put D amb cfg p file desc placement cl i :
  ids !! i = Some (cd_ChunkID desc) → described file desc = data i → target_ok (pl_Primary placement) →
  uploading D (cl_sys cl) →
  let '(err, cl') := uploadChunkWithRetry (system_storage src tgt rf leader net p cfg) amb cfg file desc placement cl in
  uploading D (cl_sys cl') ∧ (err = None → uploading ({[cd_ChunkID desc]} ∪ D) (cl_sys cl')).
Proof.
  intros Hi Hdata Hu Hul. unfold uploadChunkWithRetry. case_decide; [by split|].
  change (take (Z.to_nat (cd_Size desc)) (drop (Z.to_nat (cd_Offset desc)) file)) with (described file desc). rewrite Hdata.
  pose proof (Do_keeps (sc_PutChunk (system_storage src tgt rf leader net p cfg) (pl_Primary placement) (cd_ChunkID desc)
    (data i) (Compute_checksum (data i)) (pl_Replicas placement)) (cfg_RetryPolicy cfg) amb (λ cl, uploading D (cl_sys cl))
    (λ cl, uploading ({[cd_ChunkID desc]} ∪ D) (cl_sys cl)) cl) as Hdo.
  destruct (Do _ _ _ cl) as [[err cl'] sleeps]. destruct Hdo as [Hk Hq]; [|done|].
  - intros cl1 Hcl1. by apply (storage_put D i).
  - split; [done|]. destruct err; [done|]. by intros _; apply Hq.
Qed.

Lemma upload_chunks_put amb cfg os_fault p file placements order D cl ms :
  (∀ d, d ∈ order → target_ok (pl_Primary (placement_for placements (cd_ChunkID d))) ∧
     ∃ i, ids !! i = Some (cd_ChunkID d) ∧ described file d = data i) →
  uploading D (cl_sys cl) →
  match upload_chunks (system_storage src tgt rf leader net p cfg) amb cfg os_fault file fileID placements order cl ms with
  | (Returns events, cl', _) =>
      length events = length order ∧
      (Forall (λ e, e.2 = None) events → uploading (list_to_set (cd_ChunkID <$> order) ∪ D) (cl_sys cl'))
  | _ => True
  end.
Proof.
  revert D cl ms. induction order as [|d order IH]; intros D cl ms Hord Hul.
  { simpl. split; [done|]. intros _. by rewrite (left_id_L ∅ (∪)). }
  destruct (Hord d) as (Ht & i & Hi & Hd); [by left|]. simpl. unfold upload_chunk.
  pose proof (upload_chunk_put D amb cfg p file d _ cl i Hi Hd Ht Hul) as Hput.
  destruct (uploadChunkWithRetry _ _ _ _ _ _ _) as [[e|] cl1]; [destruct Hput as [Hput _]|destruct Hput as [_ Hput]; specialize (Hput eq_refl)].
  - specialize (IH D cl1 ms (λ d' Hd', Hord d' (list_elem_of_further _ _ _ Hd')) Hput).
    destruct (upload_chunks _ _ _ _ _ _ _ order cl1 ms) as [[[events| |] cl2] ms2]; [|done..].
    destruct IH as [Hlen _]. simpl. split; [by rewrite Hlen|]. by inversion 1.
  - destruct (MarkChunkDone _ _ _ _ ms) as [[r| |] ms1]; [|done..].
    specialize (IH ({[cd_ChunkID d]} ∪ D) cl1 ms1 (λ d' Hd', Hord d' (list_elem_of_further _ _ _ Hd')) Hput).
    destruct (upload_chunks _ _ _ _ _ _ _ order cl1 ms1) as [[[events| |] cl2] ms2]; [|done..].
    destruct IH as [Hlen Hall]. csimpl. split; [by rewrite Hlen|]. inversion 1; subst.
    replace (({[cd_ChunkID d]} ∪ list_to_set (cd_ChunkID <$> order) : gset string) ∪ D)
      with (list_to_set (cd_ChunkID <$> order) ∪ ({[cd_ChunkID d]} ∪ D)) by set_solver. by apply Hall.
Qed.
End upload_state.

(** ** Creating and committing the file *)

Section metadata_effects.
Context `{!Env, !MapRange} (tgt : PlacementStrategy) (rf : Z).

(** Whatever Raft does, [CreateFile] leaves the FSM alone or applies its command. *)
Lemma CreateFile_effect fileId name size chunkSize chunkIds w :
  fileId ≠ "" →
  let w' := (CreateFile tgt rf fileId name size chunkSize chunkIds w).2 in
  wd_fsm w' = wd_fsm w ∨
  ∃ t, wd_fsm w' = (handleCmdCreateFile (wd_fsm w) (mkCommandCreateFile fileId name chunkIds (to_uint64 size)
    (to_uint64 chunkSize) [] t)).1.
Proof.
  intros Hne. unfold CreateFile. rewrite decide_False by done. unfold mret, M_ret.
  unfold mbind at 1, M_bind at 1. unfold gets, mbind, M_bind, Now.
  destruct (Fsm.GetFile (wd_fsm w) fileId); [by left|]. do 3 (case_decide; [by left|]).
  destruct (res_mapM _ chunkIds) as [pl|]; [|by left]. simpl.
  set (cmd := mkCommandCreateFile _ _ _ _ _ _ _). destruct (Propose_effect (CreateFileC cmd) (next_tick w)) as [He _];
    [split; apply to_uint64_range|].
  destruct (Propose _ (next_tick w)) as [[e'|] w2]; simpl in *; (destruct He as [->|He]; [by left|right; by eexists]).
Qed.

Lemma CommitFile_effect fileId size checksum w :
  let cmd := mkCommandCommitFile fileId (to_uint64 size) checksum in
  let '(r, w') := CommitFile fileId size checksum w in
  (wd_fsm w' = wd_fsm w ∨ wd_fsm w' = (handleCmdCommitFile (wd_fsm w) cmd).1) ∧
  (∀ x, r = Ok x → handleCmdCommitFile (wd_fsm w) cmd = (wd_fsm w', None)).
Proof.
  intros cmd. unfold CommitFile. fold cmd. unfold mbind, M_bind.
  destruct (Propose_effect (CommitFileC cmd) w) as [He Hok]; [apply to_uint64_range|]. cbn [exec] in He, Hok.
  destruct (Propose _ w) as [[e|] w1]; simpl in *; split; try done. intros _ _. by apply Hok.
Qed.
End metadata_effects.

Section whole.
Context {Env0 : Env} {Range0 : MapRange} {Sort0 : GoSort} (src tgt : PlacementStrategy) {Laws0 : PlacementLaws tgt}.
Context (rf : Z) (leader : string) (net : Net) (R : gmap string NodeEntry) (N : gmap string string).
Context (Hcluster : cluster_ok R N) (F0 : gmap string FileRecord) (fileID name : string) (size chunkSize : Z).
Context (ids : list string) (data : nat → bytes) (Hids : NoDup ids) (Hfid : fileID ≠ "").

Notation fsm s := (wd_fsm (sy_world s)).

(** The record of the new file, created at [t]. *)
Definition new_file (t : Time) : FileRecord :=
  mkFileRecord fileID name (to_uint64 size) (to_uint64 chunkSize) [] ids FileStatusCreating t zero_time.

(** Before the upload: the cluster is in order, and the file unknown or just created. *)
Definition before_upload (s : Sys) : Prop :=
  nodeRegistry (fsm s) = R ∧ nd_NodeID <$> sy_nodes s = N ∧ all_disks_ok s ∧
  (fileIndex (fsm s) = F0 ∨ is_Some (fileIndex (fsm s) !! fileID)).

Lemma create_file_ok s w resp :
  before_upload s → run_handler src tgt rf (CreateFileReq fileID name size chunkSize ids) (sy_world s) = (Ok resp, w) →
  ∃ pls t, resp = CreateFileResp fileID pls ∧
    uploading R N (<[fileID := new_file t]> F0) fileID ids data ∅ (set_world w s) ∧
    (minChunkSize ≤ chunkSize ≤ maxChunkSize)%Z ∧
    ∀ p, p ∈ pls → target_ok R N (ni_Address (cp_Primary p)).
Proof.
  intros (HR & HN & Hok & HF) Hrun. cbn [run_handler] in Hrun.
  assert (Hshape : ∃ pls, resp = CreateFileResp fileID pls).
  { unfold CreateFile in Hrun. rewrite decide_False in Hrun by done. unfold gets, mbind, M_bind, mret, M_ret in Hrun.
    repeat case_match; simplify_eq; eauto. }
  destruct Hshape as [pls ->].
  destruct (create_file_run tgt rf _ _ _ _ _ _ _ _ _ Hfid Hrun) as (_ & Hcs & Hmap & t & Hc).
  exists pls, t. split; [done|]. split_and!; [|lia|lia|].
  - unfold handleCmdCreateFile, Fsm.GetFile in Hc. simpl in Hc.
    destruct (fileIndex (fsm s) !! fileID) as [f|] eqn:Hf; [done|]. destruct HF as [HF|[? ?]]; [|done].
    destruct (existsb _ _); [done|]. injection Hc as Hw.
    split; simpl; [by rewrite <-Hw|by rewrite <-Hw; simpl; rewrite HF|done|done|].
    intros i c Hi. right. split; [set_solver|]. rewrite <-Hw. simpl.
    destruct (stubs_lookup (new_chunk_stub fileID) ids (chunkRegistry (fsm s)) c) as [[Hni _]|(j & Hj & ->)]; [done|..].
    + by apply list_elem_of_lookup_2 in Hi.
    + do 2 f_equal. by eapply NoDup_lookup.
  - apply res_mapM_Forall2 in Hmap. intros p Hp. apply list_elem_of_lookup in Hp as [k Hk].
    destruct (Forall2_lookup_r _ _ _ _ _ Hmap Hk) as (v & _ & Hplace).
    destruct (place_chunk_best tgt rf _ _ _ _ Hplace) as (_ & out & Hout & _ & _ & rest & Hperm & _).
    destruct out as [|n out]; [done|]. injection Hout as -> _.
    assert (Hin : n ∈ candidates (GetLiveNodes (fsm s)) chunkSize []) by (rewrite Hperm; set_solver).
    apply elem_of_candidates in Hin as ([Hst [k' Hk']%elem_of_range_values]%list_elem_of_filter & _).
    rewrite HR in Hk'. by apply (live_target_ok R N Hcluster k').
Qed.

Lemma create_invoke cfg amb cl :
  before_upload (cl_sys cl) →
  match grpc_CreateFile (client_invoke src tgt rf leader net cfg amb) fileID name size chunkSize ids cl with
  | (Ok (fid, pls), cl') => fid = fileID ∧ (minChunkSize ≤ chunkSize ≤ maxChunkSize)%Z ∧
      (∃ t, uploading R N (<[fileID := new_file t]> F0) fileID ids data ∅ (cl_sys cl')) ∧
      ∀ p, p ∈ pls → target_ok R N (pl_Primary p)
  | (Err _, _) => True
  end.
Proof.
  intros Hb. unfold grpc_CreateFile, client_invoke. set (req := CreateFileReq _ _ _ _ _).
  pose proof (invoke_keeps src tgt rf leader net before_upload (λ x s', ∃ pls t, x = CreateFileResp fileID pls ∧
    uploading R N (<[fileID := new_file t]> F0) fileID ids data ∅ s' ∧ (minChunkSize ≤ chunkSize ≤ maxChunkSize)%Z ∧
    ∀ p, p ∈ pls → target_ok R N (ni_Address (cp_Primary p))) (cfg_RetryPolicy cfg) amb req (cl_cache cl) (cl_sys cl)) as Hinv.
  destruct (meta_invoke _ _ _ _ _ _ _ _ _ _) as [[r cache] s'].
  destruct Hinv as [_ Hq]; [done| |done|].
  - intros s Hs. destruct (run_handler src tgt rf req (sy_world s)) as [r' w] eqn:Hrun. split.
    + assert (Hw : w = (CreateFile tgt rf fileID name size chunkSize ids (sy_world s)).2).
      { cbn [run_handler req] in Hrun. by rewrite Hrun. }
      destruct Hs as (HR & HN & Hok & HF). unfold before_upload. cbn [sy_world sy_nodes set_world].
      destruct (CreateFile_effect tgt rf fileID name size chunkSize ids (sy_world s) Hfid) as [He|[t He]];
        rewrite Hw, He; [done|].
      unfold handleCmdCreateFile. simpl. destruct (Fsm.GetFile _ _); [done|]. destruct (existsb _ _); [done|]. simpl.
      split_and!; [done..|]. right. rewrite lookup_insert_eq. eauto.
    + intros x ->. by apply create_file_ok.
  - destruct r as [x|]; [|done]. destruct (Hq x eq_refl) as (_ & _ & pls & t & -> & Hul & Hcs & Hpls).
    split_and!; [done|lia|lia|by exists t|]. intros p (p' & -> & Hp)%list_elem_of_fmap. by apply Hpls.
Qed.

Notation stored F s := (uploading R N F fileID ids data (list_to_set ids) s).

Lemma uploading_refile F F' D s w :
  uploading R N F fileID ids data D s → nodeRegistry (wd_fsm w) = nodeRegistry (fsm s) →
  chunkRegistry (wd_fsm w) = chunkRegistry (fsm s) → fileIndex (wd_fsm w) = F' →
  uploading R N F' fileID ids data D (set_world w s).
Proof.
  intros [H1 H2 H3 H4 H5] Hr Hc Hf. split; simpl; [congruence|done|done|done|].
  assert (Hres : ∀ x, resolved_addr (wd_fsm w) x = resolved_addr (fsm s) x) by (intros; by apply resolved_addr_registry).
  intros i c Hi. rewrite Hc. destruct (H5 i c Hi) as [(reps & Hrec & Hs & x & a & Hx & Ha)|?]; [left|by right].
  exists reps. cbn [sy_world set_world]. rewrite Hc. split; [done|]. split; [intros y b; simpl; rewrite Hres; apply Hs|].
  exists x, a. simpl. by rewrite Hres.
Qed.

Definition committed_file (t : Time) : FileRecord := set_file_committed (new_file t) [].

Lemma commit_file_handler t s :
  let F := <[fileID := new_file t]> F0 in let F' := <[fileID := committed_file t]> F0 in
  stored F s ∨ stored F' s →
  let '(r, w) := run_handler src tgt rf (CommitFileReq fileID size []) (sy_world s) in
  (stored F (set_world w s) ∨ stored F' (set_world w s)) ∧ ∀ x, r = Ok x → stored F' (set_world w s).
Proof.
  intros F F' Hs. cbn [run_handler]. pose proof (CommitFile_effect fileID size [] (sy_world s)) as He.
  destruct (CommitFile fileID size [] (sy_world s)) as [r w]. cbv zeta in He. destruct He as [He Hok].
  assert (Hcmd : ∀ s', handleCmdCommitFile (fsm s) (mkCommandCommitFile fileID (to_uint64 size) []) = (s', None) →
    nodeRegistry s' = nodeRegistry (fsm s) ∧ chunkRegistry s' = chunkRegistry (fsm s) ∧ fileIndex s' = F').
  { intros s'. unfold handleCmdCommitFile, Fsm.GetFile. simpl.
    assert (Hfi : fileIndex (fsm s) = F ∨ fileIndex (fsm s) = F') by (destruct Hs as [[]|[]]; auto).
    destruct Hfi as [Hfi|Hfi]; rewrite Hfi; unfold F, F'; rewrite lookup_insert_eq, decide_False by auto;
      (destruct (check_chunks_complete _ _); [done|]); intros [= <-]; simpl; by rewrite insert_insert_eq. }
  assert (Hto : ∀ s', handleCmdCommitFile (fsm s) (mkCommandCommitFile fileID (to_uint64 size) []) = (s', None) →
    wd_fsm w = s' → stored F' (set_world w s)).
  { intros s' Hc Hw. destruct (Hcmd s' Hc) as (Hr & Hch & Hf). subst s'.
    by destruct Hs as [Hs|Hs]; eapply uploading_refile. }
  split; [|intros x Hx; by apply (Hto (wd_fsm w) (Hok x Hx))].
  destruct He as [He|He].
  - destruct Hs as [Hs|Hs]; [left|right]; (apply uploading_world; [by rewrite He|done]).
  - destruct (handleCmdCommitFile (fsm s) _) as [s' [e|]] eqn:Hc; simpl in He; [|right; by apply (Hto s')].
    assert (s' = fsm s) as -> by (unfold handleCmdCommitFile in Hc; repeat case_match; by simplify_eq).
    destruct Hs as [Hs|Hs]; [left|right]; (apply uploading_world; [by rewrite He|done]).
Qed.

Lemma commit_file_invoke cfg amb t cl :
  stored (<[fileID := new_file t]> F0) (cl_sys cl) →
  match grpc_CommitFile (client_invoke src tgt rf leader net cfg amb) fileID size [] cl with
  | (None, cl') => stored (<[fileID := committed_file t]> F0) (cl_sys cl') ∧ conn (cl_cache cl') = Some leader ∧ is_leader = true
  | (Some _, _) => True
  end.
Proof.
  intros Hs. unfold grpc_CommitFile, grpc_ack, client_invoke.
  pose proof (invoke_keeps src tgt rf leader net
    (λ s, stored (<[fileID := new_file t]> F0) s ∨ stored (<[fileID := committed_file t]> F0) s)
    (λ _ s, stored (<[fileID := committed_file t]> F0) s) (cfg_RetryPolicy cfg) amb (CommitFileReq fileID size [])
    (cl_cache cl) (cl_sys cl)) as Hinv.
  destruct (meta_invoke _ _ _ _ _ _ _ _ _ _) as [[r cache] s']. destruct Hinv as [_ Hq]; [| |by left|].
  - intros s [Ht|Ht]; [left|right]; by apply uploading_tick.
  - intros s. apply commit_file_handler.
  - destruct r as [x|]; [|done]. by destruct (Hq x eq_refl) as (? & ? & ?).
Qed.

(** ** Reading the file back *)

(** The commits of the chunks, from the chunk records. *)
Lemma stored_uploads F s :
  stored F s →
  ∃ ups, up_ChunkId <$> ups = ids ∧ ∀ i u, ups !! i = Some u →
    up_Checksum u = sha256 (data i) ∧ chunkRegistry (fsm s) !! up_ChunkId u = Some (committed_chunk fileID i u) ∧
    replicas_serve s (up_ChunkId u) (data i) (up_Nodes u).
Proof.
  intros [_ _ _ _ Hchunks].
  destruct (list_choice (λ i c u, up_ChunkId u = c ∧ up_Checksum u = sha256 (data i) ∧
    chunkRegistry (fsm s) !! up_ChunkId u = Some (committed_chunk fileID i u) ∧
    replicas_serve s (up_ChunkId u) (data i) (up_Nodes u)) ids) as (ups & Hlen & Hups).
  { intros i c Hi. destruct (Hchunks i c Hi) as [(reps & Hrec & Hs)|[Hno _]]; [by exists (mkUpload c reps (sha256 (data i)))|].
    destruct Hno. apply elem_of_list_to_set. by eapply list_elem_of_lookup_2. }
  exists ups. split.
  - apply list_eq. intros i. rewrite list_lookup_fmap. destruct (ups !! i) as [u|] eqn:Hu.
    + destruct (lookup_lt_is_Some_2 ids i) as [c Hc]; [rewrite <-Hlen; by eapply lookup_lt_Some|].
      rewrite Hc. simpl. f_equal. by apply (Hups i c u).
    + simpl. symmetry. apply lookup_ge_None_2. rewrite <-Hlen. by apply lookup_ge_None_1.
  - intros i u Hu. destruct (lookup_lt_is_Some_2 ids i) as [c Hc]; [rewrite <-Hlen; by eapply lookup_lt_Some|].
    by destruct (Hups i c u Hc Hu) as (_ & ?).
Qed.

(** The answer to a download: our file is the only complete one of its name. *)
Context (Huniq : ∀ k f, F0 !! k = Some f → fr_Filename f = name → fr_Status f ≠ FileStatusComplete).

Lemma list_finds_file t s :
  fileIndex (fsm s) = <[fileID := committed_file t]> F0 →
  let files := protoToFileInfo <$> filter (λ f, "" = "" ∨ String.prefix "" (fi_FileName f) = true)
    (file_info <$> filter (λ f, fr_Status f = FileStatusComplete) (ListFiles (fsm s) "")) in
  ∃ k f, list_find (λ f, cfi_FileName f = name) files = Some (k, f) ∧ cfi_FileID f = fileID.
Proof.
  intros Hf files.
  assert (Hin : ∀ f, f ∈ files ↔ ∃ k r, fileIndex (fsm s) !! k = Some r ∧ fr_Status r = FileStatusComplete ∧
    f = protoToFileInfo (file_info r)).
  { intros f. unfold files, ListFiles. rewrite list_elem_of_fmap. split.
    - intros (fi & -> & [_ Hfi]%list_elem_of_filter). apply list_elem_of_fmap in Hfi as (r & -> & Hr).
      apply list_elem_of_filter in Hr as [Hst Hr]. rewrite (go_sort_perm filename_less) in Hr.
      apply list_elem_of_filter in Hr as [_ [k Hk]%elem_of_range_values]. eauto.
    - intros (k & r & Hk & Hst & ->). eexists. split; [reflexivity|]. apply list_elem_of_filter. split; [by left|].
      apply list_elem_of_fmap_2, list_elem_of_filter. split; [done|]. rewrite (go_sort_perm filename_less).
      apply list_elem_of_filter. split; [by destruct (fr_Filename r)|]. apply elem_of_range_values. eauto. }
  destruct (list_find_elem_of (λ f, cfi_FileName f = name) files (protoToFileInfo (file_info (committed_file t))))
    as [[k f] Hfind].
  - apply Hin. exists fileID, (committed_file t). by rewrite Hf, lookup_insert_eq.
  - done.
  - exists k, f. split; [done|]. apply list_find_Some in Hfind as (Hk & Hname & _).
    apply list_elem_of_lookup_2, Hin in Hk as (k' & r & Hr & Hst & ->). rewrite Hf in Hr.
    apply lookup_insert_Some in Hr as [[_ <-]|[_ Hr]]; [done|]. by destruct (Huniq k' r Hr Hname).
Qed.

Lemma get_file_handler t s ups :
  fileIndex (fsm s) = <[fileID := committed_file t]> F0 → up_ChunkId <$> ups = ids →
  (∀ i u, ups !! i = Some u → chunkRegistry (fsm s) !! up_ChunkId u = Some (committed_chunk fileID i u)) →
  run_handler src tgt rf (GetFileReq fileID) (sy_world s) =
    (Ok (GetFileResp (file_info (committed_file t)) (imap (uploaded_info (fsm s) fileID) ups)), sy_world s).
Proof.
  intros Hf Hids' Hups. cbn [run_handler]. unfold handle_GetFile, gets, GetFileChunks, Fsm.GetFile.
  rewrite Hf, lookup_insert_eq, decide_False by (by intros []). cbn [res_bind].
  destruct (collect_committed (chunkRegistry (fsm s)) ups fileID 0 Hups) as [Hcol _].
  change (fr_ChunkIDs (committed_file t)) with ids. rewrite <-Hids', Hcol. do 3 f_equal. by rewrite fmap_imap.
Qed.

Lemma get_by_name cfg amb t cl :
  stored (<[fileID := committed_file t]> F0) (cl_sys cl) → conn (cl_cache cl) = Some leader → is_leader = true →
  (∀ n, meta_fate net n = Delivered) → ctx_err amb 0 = None → (1 ≤ cfg_RetryAttempts cfg)%Z →
  ∃ cl1 ups, grpc_GetFileByName (client_invoke src tgt rf leader net cfg amb) name cl =
      (Ok (protoToFileInfo (file_info (committed_file t)), protoToChunkInfo <$> imap (uploaded_info (fsm (cl_sys cl)) fileID) ups), cl1) ∧
    sy_nodes (cl_sys cl1) = sy_nodes (cl_sys cl) ∧ up_ChunkId <$> ups = ids ∧
    ∀ i u, ups !! i = Some u → up_Checksum u = sha256 (data i) ∧
      replicas_serve (cl_sys cl) (up_ChunkId u) (data i) (up_Nodes u).
Proof.
  intros Hst Hconn Hl Hfate Hctx Hp. destruct cl as [s cache conns]. simpl in *.
  destruct (stored_uploads _ _ Hst) as (ups & Hids' & Hups).
  unfold grpc_GetFileByName, grpc_ListFiles, client_invoke at 1.
  erewrite invoke_direct; [|done|apply Hfate|done|done|done|reflexivity].
  destruct (list_finds_file t s (ul_files _ _ _ _ _ _ _ _ Hst)) as (k & f & Hfind & Hfid'). cbv zeta in Hfind.
  cbn [cl_sys cl_cache cl_conns]. rewrite Hfind, Hfid'. unfold grpc_GetFile, client_invoke.
  erewrite invoke_direct; [|done|apply Hfate|done|done|done|];
    [|exact (get_file_handler t s ups (ul_files _ _ _ _ _ _ _ _ Hst) Hids' (λ i u Hu, proj1 (proj2 (Hups i u Hu))))].
  eexists _, ups. split; [reflexivity|]. split_and!; [done|done|]. intros i u Hu. by destruct (Hups i u Hu) as (? & _ & ?).
Qed.
End whole.

(** ** Downloading *)

Lemma GetChunk_any io id s :
  no_faults io → store_ok s →
  ∃ r frames k, StorageServer.GetChunk io sends_ok id s = Some (r, frames, set_calls k s) ∧
    match contents s !! id with
    | Some d => r = Ok tt ∧ mjoin (fr_Data <$> frames) = d
    | None => ∃ e, r = Err e
    end.
Proof.
  intros Hio Hok. destruct (contents s !! id) as [d|] eqn:Hc.
  - destruct (GetChunk_run io Hio id d s Hok Hc) as [k Hk]. eexists _, _, k. split; [exact Hk|]. split; [done|].
    apply (split_frames_carry DefaultFrameSize); [done|unfold DefaultFrameSize; lia|lia].
  - assert (Hk : s = set_calls (io_calls s) s) by by destruct s. unfold StorageServer.GetChunk. case_decide.
    + eexists _, _, (io_calls s). rewrite <-Hk. split; [reflexivity|]. eauto.
    + rewrite Exists_ok by done. rewrite bool_decide_false by (rewrite Hc; by intros []).
      eexists _, _, (io_calls s). rewrite <-Hk. split; [reflexivity|]. eauto.
Qed.

Lemma get_data_join frames acc : get_data (RecvMsg <$> frames) acc = Ok (acc ++ mjoin frames).
Proof.
  revert acc. induction frames as [|f frames IH]; intros acc; simpl; [by rewrite app_nil_r|].
  rewrite IH. by rewrite <-app_assoc.
Qed.

(** A network that does not disturb reads. *)
Record reads_work (net : Net) : Prop := {
  rw_disk : ∀ addr, no_faults (disk_io net addr);
  rw_meta : ∀ n, meta_fate net n = Delivered;
  rw_dial : ∀ n, storage_dial net n = None;
  rw_send : ∀ n, get_send net n = sends_ok;
  rw_cut : ∀ n, get_cut net n = None;
}.

Lemma storage_get net addr id cl :
  reads_work net → all_disks_ok (cl_sys cl) →
  let '(r, cl') := storage_GetChunk net addr id cl in
  all_disks_ok (cl_sys cl') ∧ (∀ a c d, holds (cl_sys cl) a c d → holds (cl_sys cl') a c d) ∧
  (∀ d, holds (cl_sys cl) addr id d → r = Ok d).
Proof.
  intros Hrw Hok. unfold storage_GetChunk. pose proof (getOrDial_sys net addr cl) as Hsys.
  destruct (getOrDial net addr cl) as [err c1] eqn:Hd. simpl in Hsys.
  assert (err = None) as ->.
  { unfold getOrDial in Hd. rewrite (rw_dial _ Hrw) in Hd. by case_decide; injection Hd as <-. }
  rewrite Hsys. simpl. destruct (sy_nodes (cl_sys cl) !! addr) as [nd|] eqn:Hnd.
  2:{ simpl. split_and!; [done|done|]. intros d (nd & Hnd' & _). congruence. }
  rewrite (rw_send _ Hrw), (rw_cut _ Hrw).
  destruct (GetChunk_any (disk_io net addr) id (nd_disk nd) (rw_disk _ Hrw addr) (Hok _ _ Hnd)) as (r & frames & k & -> & Hr).
  cbv iota beta. set (s := tick (cl_sys cl)). cbn [cl_sys].
  assert (Hstores : ∀ c d, only_stores c d s (set_disk addr (set_calls k (nd_disk nd)) s)).
  { intros c d. apply (set_disk_stores c d s addr nd (set_calls k (nd_disk nd)) Hnd).
    split; [done|by apply store_ok_calls|by left]. }
  split_and!.
  - exact (only_stores_ok _ _ _ _ (Hstores "" []) Hok).
  - intros a c d Hh. exact (only_stores_holds _ _ _ _ _ _ _ (Hstores c d) (λ _, eq_refl) Hh).
  - intros d (nd' & Hnd' & Hc). assert (nd' = nd) as -> by congruence. rewrite Hc in Hr. destruct Hr as [-> <-].
    rewrite app_nil_r. by rewrite get_data_join.
Qed.

(** ** The whole upload *)

Lemma elem_of_descriptors fileID n cs d :
  d ∈ descriptors fileID n cs →
  ∃ i, descriptors fileID n cs !! i = Some d ∧ d = descriptor fileID (Z.of_nat n) cs i ∧
    (Z.of_nat i < num_chunks (Z.of_nat n) cs)%Z.
Proof.
  intros [i Hi]%list_elem_of_lookup. exists i. split; [done|]. unfold descriptors in Hi.
  rewrite list_lookup_fmap in Hi. destruct (seq 0 _ !! i) as [j|] eqn:Hj; [|done]. injection Hi as <-.
  apply lookup_seq in Hj as [-> Hlt]. split; [done|]. lia.
Qed.

Lemma placement_for_elem placements c :
  placement_for placements c = zero_Placement ∨ placement_for placements c ∈ placements.
Proof.
  unfold placement_for. destruct (last _) as [p|] eqn:Hl; simpl; [right|by left].
  apply last_Some_elem_of, list_elem_of_filter in Hl. by destruct Hl.
Qed.

Section upload_run.
Context {Env0 : Env} {Range0 : MapRange} {Sort0 : GoSort} (src tgt : PlacementStrategy) {Laws0 : PlacementLaws tgt}.
Context (rf : Z) (leader : string) (net : Net) (Hio : ∀ addr, no_faults (disk_io net addr)).
Context (p : Policy) (cfg : Config) (amb : Ambient) (os_fault : nat → option (error * bool)).
Context (file : bytes) (cs : nat) (Hcs : cfg_ChunkSize cfg = Z.of_nat cs).
Context (Hsz : chunkable (Z.of_nat (length file)) (Z.of_nat cs)).
Context (fileID name : string) (Hfid : fileID ≠ "").

Notation ds := (descriptors fileID (length file) (Z.of_nat cs)).
Notation ids := (cd_ChunkID <$> ds).
Notation fsm s := (wd_fsm (sy_world s)).

Lemma upload_stores order open cl ms r cl' ms' :
  NoDup ids → countable_chunks ds → (∀ l, order l ≡ₚ l) →
  let R := nodeRegistry (fsm (cl_sys cl)) in let N := nd_NodeID <$> sy_nodes (cl_sys cl) in
  let F0 := fileIndex (fsm (cl_sys cl)) in
  cluster_ok R N → all_disks_ok (cl_sys cl) →
  Upload (system_metadata src tgt rf leader net cfg amb) (system_storage src tgt rf leader net p cfg) amb cfg os_fault
    (mkLocalFile None open file) name fileID order cl ms = (Returns r, cl', ms') →
  up_err r = None →
  ∃ t, uploading R N (<[fileID := committed_file fileID name (Z.of_nat (length file)) (Z.of_nat cs) ids t]> F0) fileID ids
      (chunk_piece cs file) (list_to_set ids) (cl_sys cl') ∧
    conn (cl_cache cl') = Some leader ∧ is_leader = true ∧ ids ≠ [].
Proof.
  intros Hnd Hcnt Hord R N F0 Hcl Hdisks. unfold Upload. cbn [lf_stat lf_data lf_open].
  unfold GenerateDescriptors; cbn [res_bind]. rewrite Hcs. fold ds.
  destruct ds as [|d0 ds0] eqn:Hds; [by intros [= <- _ _]|].
  assert (Hne : ids ≠ []) by (by rewrite Hds). rewrite <-Hds in *. clear d0 ds0 Hds.
  destruct (manifest_Create _ _ _ ms) as [[[]|e] ms1]; [|by intros [= <- _ _]].
  pose proof (create_invoke src tgt rf leader net R N Hcl F0 fileID name (Z.of_nat (length file)) (Z.of_nat cs) ids
    (chunk_piece cs file) Hnd Hfid cfg amb cl ltac:(split_and!; [done..|by left])) as Hcreate.
  cbn [mc_CreateFile system_metadata GRPCClient].
  destruct (grpc_CreateFile _ _ _ _ _ _ cl) as [[[fid pls]|e] cl1]; [|by intros [= <- _ _]].
  destruct Hcreate as (-> & _ & [t Hul] & Htargets). destruct open; [by intros [= <- _ _]|].
  destruct (semaphore (cfg_MaxParallelUploads cfg)); [|done..].
  set (F := <[fileID := new_file fileID name (Z.of_nat (length file)) (Z.of_nat cs) ids t]> F0) in *.
  pose proof (upload_chunks_put R N Hcl F fileID ids (chunk_piece cs file) Hnd src tgt rf leader net Hio amb cfg os_fault p file
    pls (order ds) ∅ cl1 ms1) as Hput.
  destruct (upload_chunks _ _ _ _ _ _ _ _ cl1 ms1) as [[[events| |] cl2] ms2]; [|done..].
  destruct Hput as [Hlen Hall]; [|done|].
  { intros d Hd. rewrite (Hord ds) in Hd. destruct (elem_of_descriptors _ _ _ _ Hd) as (i & Hi & -> & Hlt). split.
    - destruct (placement_for_elem pls (cd_ChunkID (descriptor fileID (Z.of_nat (length file)) (Z.of_nat cs) i))) as [->|Hin];
        [|by apply Htargets]. left. destruct (N !! "") as [id|] eqn:Hn; [|done]. by destruct (ck_nodes _ _ Hcl _ _ Hn).
    - exists i. rewrite list_lookup_fmap, Hi. split; [done|]. by apply described_piece. }
  destruct (finish_upload _ _ _ _ _ _ _ _ _ _ _) as [[r' cl3] ms3] eqn:Hfin. intros [= -> <- <-] Herr.
  unfold finish_upload in Hfin. case_decide as Hfailed; [by injection Hfin as <- _ _|].
  assert (Hstored : uploading R N F fileID ids (chunk_piece cs file) (list_to_set ids) (cl_sys cl2)).
  { assert (Hset : list_to_set (cd_ChunkID <$> order ds) ∪ ∅ = (list_to_set ids : gset string)).
    { rewrite (right_id_L ∅ (∪)). apply list_to_set_perm_L. apply fmap_Permutation, Hord. }
    rewrite <-Hset. apply Hall. rewrite Forall_forall. intros e He.
    destruct (decide (e.2 = None)); [done|]. destruct Hfailed. apply counts_exact; [|by exists e].
    unfold countable_chunks in *. by rewrite Hlen, (Hord ds). }
  pose proof (commit_file_invoke src tgt rf leader net R N F0 fileID name (Z.of_nat (length file)) (Z.of_nat cs) ids
    (chunk_piece cs file) Hfid cfg amb t cl2 Hstored) as Hcommit.
  cbn [mc_CommitFile system_metadata GRPCClient] in Hfin.
  destruct (grpc_CommitFile _ _ _ _ cl2) as [[e|] cl4]; [by injection Hfin as <- _ _|].
  injection Hfin as <- <- <-. destruct Hcommit as (H1 & H2 & H3). by exists t.
Qed.
End upload_run.

Section download_run.
Context {Env0 : Env} {Range0 : MapRange} {Sort0 : GoSort} (src tgt : PlacementStrategy).
Context (rf : Z) (leader : string) (net : Net) (Hreads : reads_work net).
Context (p : Policy) (cfg : Config) (amb : Ambient) (Hctx : ∀ i, ctx_err amb i = None) (Hcfg : (1 ≤ cfg_RetryAttempts cfg)%Z).
Context (file : bytes) (cs : nat) (Hsz : chunkable (Z.of_nat (length file)) (Z.of_nat cs)).
Context (fileID name : string) (R : gmap string NodeEntry) (N : gmap string string) (F0 : gmap string FileRecord).
Context (Huniq : ∀ k f, F0 !! k = Some f → fr_Filename f = name → fr_Status f ≠ FileStatusComplete).

Notation ds := (descriptors fileID (length file) (Z.of_nat cs)).
Notation ids := (cd_ChunkID <$> ds).
Notation SC := (system_storage src tgt rf leader net p cfg).

(** What the client keeps while it reads: the chunks stay where they were in [s0]. *)
Definition reading (s0 : Sys) (cl : Cli) : Prop :=
  all_disks_ok (cl_sys cl) ∧ ∀ a c d, holds s0 a c d → holds (cl_sys cl) a c d.

Lemma reading_get s0 addr id cl : reading s0 cl → reading s0 (sc_GetChunk SC addr id cl).2.
Proof.
  intros [Hok Hh]. simpl. pose proof (storage_get net addr id cl Hreads Hok) as Hget.
  destruct (storage_GetChunk net addr id cl) as [r cl']. destruct Hget as (Hok' & Hh' & _). split; auto.
Qed.

Lemma reading_serves s0 addr id d cl : reading s0 cl → holds s0 addr id d → (sc_GetChunk SC addr id cl).1 = Ok d.
Proof.
  intros [Hok Hh] Ha. simpl. pose proof (storage_get net addr id cl Hreads Hok) as Hget.
  destruct (storage_GetChunk net addr id cl) as [r cl']. destruct Hget as (_ & _ & Hr). by apply Hr, Hh.
Qed.

Lemma chunk_served s0 i u :
  (Z.of_nat i < num_chunks (Z.of_nat (length file)) (Z.of_nat cs))%Z → (Z.of_nat i < 2 ^ 31)%Z →
  up_Checksum u = sha256 (chunk_piece cs file i) →
  replicas_serve s0 (up_ChunkId u) (chunk_piece cs file i) (up_Nodes u) →
  served SC (reading s0) file cs (protoToChunkInfo (uploaded_info (wd_fsm (sy_world s0)) fileID i u)) i.
Proof.
  intros Hi H31 Hsum [Hall (x & a & Hx & Ha)]. destruct (num_chunks_bounds _ _ Hsz) as (_ & Hn & _).
  destruct Hsz as (Ht & Hc & Hb).
  assert (Hoff : (Z.of_nat i * Z.of_nat cs < Z.of_nat (length file))%Z) by nia.
  split; simpl.
  - apply to_int32_id. unfold is_int32, two31. lia.
  - split; [nia|]. unfold is_int64, two63. nia.
  - done.
  - exists a. split; [by apply list_elem_of_omap; exists x|]. intros cl Hcl. apply (reading_serves s0); [done|].
    by apply (Hall x).
  - intros addr cl d (x' & Hx' & Ha')%list_elem_of_omap Hcl Hd _.
    pose proof (reading_serves s0 addr (up_ChunkId u) (chunk_piece cs file i) cl Hcl (Hall x' addr Hx' Ha')) as Hgot.
    simpl in Hgot. congruence.
Qed.

Lemma download_stored disk before order t cl :
  output_works disk → (∀ l, order l ≡ₚ l) → countable_chunks ds → ids ≠ [] → (0 < cfg_MaxParallelDownloads cfg)%Z →
  uploading R N (<[fileID := committed_file fileID name (Z.of_nat (length file)) (Z.of_nat cs) ids t]> F0) fileID ids
    (chunk_piece cs file) (list_to_set ids) (cl_sys cl) →
  conn (cl_cache cl) = Some leader → is_leader = true →
  ∃ r cl', Download (system_metadata src tgt rf leader net cfg amb) SC amb cfg disk name before order cl = (Returns r, cl') ∧
    dl_err r = None ∧ dl_output r = Some file.
Proof.
  intros Hdisk Hord Hcnt Hne Hsem Hst Hconn Hl. destruct Hsz as (Ht & Hc & Hb) eqn:Hsz'. clear Hsz'.
  destruct (get_by_name src tgt rf leader net R N F0 fileID name (Z.of_nat (length file)) (Z.of_nat cs) ids
    (chunk_piece cs file) Huniq cfg amb t cl Hst Hconn Hl (rw_meta _ Hreads) (Hctx 0) Hcfg) as (cl1 & ups & Hget & Hn & Hups & Hall).
  assert (Hlen : length ups = Z.to_nat (num_chunks (Z.of_nat (length file)) (Z.of_nat cs))).
  { apply (f_equal length) in Hups. unfold descriptors in Hups. by rewrite !length_fmap, length_seq in Hups. }
  destruct (num_chunks_bounds _ _ Hsz) as (Hn1 & Hn2 & Hn3).
  assert (Hread1 : reading (cl_sys cl) cl1).
  { split; [intros a nd; rewrite Hn; apply Hst|]. intros a c d (nd & Hnd & Hd). exists nd. by rewrite Hn. }
  edestruct (Download_run (system_metadata src tgt rf leader net cfg amb) SC amb cfg disk (reading (cl_sys cl)) file cs (length ups)
    name (protoToFileInfo (file_info (committed_file fileID name (Z.of_nat (length file)) (Z.of_nat cs) ids t)))
    (protoToChunkInfo <$> imap (uploaded_info (wd_fsm (sy_world (cl_sys cl))) fileID) ups) before order cl cl1) as (r & cl2 & Hrun & _ & Herr & Hout & _);
    [apply reading_get|exact Hord|exact Hctx|exact Hdisk|lia| | |exact Hget|exact Hread1|..].
  - destruct ups; [by rewrite <-Hups in Hne|simpl; lia].
  - rewrite Hlen. nia.
  - simpl. rewrite to_uint64_id by (unfold is_uint64, two64; lia). apply to_int64_id. unfold is_int64, two63. lia.
  - simpl. rewrite to_uint64_id by (unfold is_uint64, two64; lia). apply to_int64_id. unfold is_int64, two63. lia.
  - exact Hsem.
  - apply Forall2_same_length_lookup_2; [by rewrite length_fmap, length_imap, length_seq|].
    intros i c j Hci [-> Hj]%lookup_seq. rewrite list_lookup_fmap, list_lookup_imap in Hci.
    destruct (ups !! i) as [u|] eqn:Hu; [|done]. injection Hci as <-. destruct (Hall i u Hu) as [Hsum Hserve].
    apply chunk_served; [lia| |done|done].
    unfold countable_chunks, descriptors in Hcnt. rewrite length_fmap, length_seq in Hcnt. simpl in *. lia.
  - by exists r, cl2.
Qed.
End download_run.

(** C1. What an upload reports as stored, a download returns, when the name is new.  Take any
    cluster in which the running nodes are registered under their own addresses and their
    disks work, and in which no complete file has the name of the upload (of several files
    with one name the service hands out any: [shared_name_hides_upload]).  Let the
    upload of the file meet whatever it meets: lost requests and answers, broken streams,
    failed transfers, refused or lost Raft entries, timeouts, manifest errors and any order
    of goroutines.  If it returns without error, then a download by name in the state it
    left, with a positive [MaxParallelDownloads], a context that is not cancelled, reads
    that do not fail and an output disk that works, succeeds and writes exactly the file. *)
Theorem upload_download_roundtrip {Env0 : Env} {Range0 : MapRange} {Sort0 : GoSort} (src tgt : PlacementStrategy)
    {Laws0 : PlacementLaws tgt} (rf : Z) (leader : string) (net net' : Net) (p : Policy) (cfg : Config) (amb amb' : Ambient)
    (os_fault : nat → option (error * bool)) (file : bytes) (cs : nat) (open : option error) (name fileID : string)
    (order : list ChunkDescriptor → list ChunkDescriptor) (order' : list ClientChunkInfo → list ClientChunkInfo)
    (disk : OutputFile) (before : option bytes) (cl cl' : Cli) (ms ms' : Manifests) (r : upload_return) :
  let ds := descriptors fileID (length file) (Z.of_nat cs) in
  let s := wd_fsm (sy_world (cl_sys cl)) in
  (∀ addr, no_faults (disk_io net addr)) → reads_work net' →
  cluster_ok (nodeRegistry s) (nd_NodeID <$> sy_nodes (cl_sys cl)) → all_disks_ok (cl_sys cl) →
  (∀ k f, fileIndex s !! k = Some f → fr_Filename f = name → fr_Status f ≠ FileStatusComplete) →
  fileID ≠ "" → NoDup (cd_ChunkID <$> ds) → countable_chunks ds →
  cfg_ChunkSize cfg = Z.of_nat cs → chunkable (Z.of_nat (length file)) (Z.of_nat cs) → (1 ≤ cfg_RetryAttempts cfg)%Z →
  (0 < cfg_MaxParallelDownloads cfg)%Z → (∀ l, order l ≡ₚ l) → (∀ l, order' l ≡ₚ l) → (∀ i, ctx_err amb' i = None) → output_works disk →
  Upload (system_metadata src tgt rf leader net cfg amb) (system_storage src tgt rf leader net p cfg) amb cfg os_fault
    (mkLocalFile None open file) name fileID order cl ms = (Returns r, cl', ms') →
  up_err r = None →
  ∃ rd cl'', Download (system_metadata src tgt rf leader net' cfg amb') (system_storage src tgt rf leader net' p cfg) amb'
      cfg disk name before order' cl' = (Returns rd, cl'') ∧
    dl_err rd = None ∧ dl_output rd = Some file.
Proof.
  intros ds s Hio Hreads Hcl Hdisks Huniq Hfid Hnd Hcnt Hcs Hsz Hcfg Hsem Hord Hord' Hctx Hdisk Hup Herr.
  destruct (upload_stores src tgt rf leader net Hio p cfg amb os_fault file cs Hcs Hsz fileID name Hfid order open cl ms r cl' ms'
    Hnd Hcnt Hord Hcl Hdisks Hup Herr) as (t & Hst & Hconn & Hl & Hne).
  by apply (download_stored src tgt rf leader net' Hreads p cfg amb' Hctx Hcfg file cs Hsz fileID name
    (nodeRegistry s) (nd_NodeID <$> sy_nodes (cl_sys cl)) (fileIndex s) Huniq disk before order' t cl').
Qed.

(** Two nodes; the first call is lost, the first upload stream breaks, the first transfer fails. *)
Definition w_node (id root : string) : Node :=
  mkNode id (mkDiskStore root (root +:+ "/tmp") 2 50 0 ∅ true ∅ 0) (mkLeaderCache "m1:1" ["m1:1"] 0 (Some "m1:1"))
    NewReplicationManager.
Definition w_sys : Sys := mkSys w_up_world (<["h1:9000" := w_node "n1" "/a"]> {["h2:9000" := w_node "n2" "/b"]}) 0.
Definition w_cli : Cli := mkCli w_sys (mkLeaderCache "m1:1" ["m1:1"] 0 (Some "m1:1")) ∅.
Definition w_quiet : Net := mkNet (λ _, Delivered) (λ _ _, (ErrStatus Unavailable "no leader elected yet", None)) (λ _, None)
  (λ _, all_ok) (λ _, None) (λ _, None) (λ _, None) (λ _, sends_ok) (λ _, None) (λ _, None) (λ _ _, None)
  (λ _ l, l) (λ _, None) (λ _, calm).
Definition w_noisy : Net := mkNet (λ n, if decide (n = 0) then RequestLost (ErrStatus Unavailable "timeout") else Delivered)
  (λ _ _, (ErrStatus Unavailable "no leader elected yet", None)) (λ _, None)
  (λ _, all_ok) (λ _, None) (λ n, if decide (n = 2) then Some (0, ErrNew "reset") else None) (λ _, None) (λ _, sends_ok)
  (λ _, None) (λ n, if decide (n = 5) then Some (ErrNew "dial") else None) (λ _ _, None) (λ _ l, l) (λ _, None) (λ _, calm).
Definition w_conf : Config := mkConfig ["m1:1"] 65536 4 4 "/manifests" "/out" 3 32768 1%Z 1%Z 1%Z.
Definition w_upload : maybe_panic upload_return * Cli * Manifests :=
  @Upload Cli (@system_metadata demo_Env _ _ MostFreeSpaceStrategy MostFreeSpaceStrategy 2 "m1:1" w_noisy w_conf calm)
    (@system_storage demo_Env _ _ MostFreeSpaceStrategy MostFreeSpaceStrategy 2 "m1:1" w_noisy DefaultPolicy w_conf) calm w_conf (λ _, None)
    (mkLocalFile None None w_file) "name" "f" reverse w_cli (mkManifests ∅ 0).

Lemma w_nodes_ok : all_disks_ok w_sys.
Proof.
  intros addr nd Hnd. unfold w_sys in Hnd. simpl in Hnd.
  apply lookup_insert_Some in Hnd as [[_ <-]|[_ [_ <-]%lookup_singleton_Some]]; by apply empty_store_ok.
Qed.

(** A property of every entry of a concrete map. *)
Lemma map_check {V} (f : string → V → bool) (m : gmap string V) k v :
  forallb (λ kv, f kv.1 kv.2) (map_to_list m) = true → m !! k = Some v → f k v = true.
Proof.
  intros Hall Hk%elem_of_map_to_list. apply (proj1 (forallb_forall _ _) Hall (k, v)), list_elem_of_In, Hk.
Qed.

Definition w_registry : gmap string NodeEntry := nodeRegistry (wd_fsm (sy_world w_sys)).

Lemma w_cluster_ok : cluster_ok w_registry (nd_NodeID <$> sy_nodes w_sys).
Proof.
  split.
  - intros k n Hk. refine (proj1 (bool_decide_eq_true _) (map_check (λ k n, bool_decide (ne_NodeID n = k)) w_registry k n _ Hk)).
    vm_compute. reflexivity.
  - vm_compute. reflexivity.
  - intros k n Hk. refine (proj1 (bool_decide_eq_true _)
      (map_check (λ _ n, bool_decide (w_registry !! ne_Address n = None)) w_registry k n _ Hk)).
    vm_compute. reflexivity.
  - intros k1 k2 n1 n2 H1 H2 Ha.
    assert (Hk : ∀ k n, w_registry !! k = Some n → k = if decide (ne_Address n = "h1:9000") then "n1" else "n2").
    { intros k n Hk. refine (proj1 (bool_decide_eq_true _)
        (map_check (λ k n, bool_decide (k = if decide (ne_Address n = "h1:9000") then "n1" else "n2")) w_registry k n _ Hk)).
      vm_compute. reflexivity. }
    by rewrite (Hk _ _ H1), (Hk _ _ H2), Ha.
  - intros addr id. rewrite lookup_fmap. destruct (sy_nodes w_sys !! addr) as [nd|] eqn:Hnd; [|done]. intros [= <-].
    unfold w_sys in Hnd. simpl in Hnd.
    apply lookup_insert_Some in Hnd as [[<- <-]|[_ [<- <-]%lookup_singleton_Some]];
      (split; [done|]); (eexists; split; [vm_compute; reflexivity|reflexivity]).
Qed.

Definition w_download : maybe_panic download_return * Cli :=
  @Download Cli (@system_metadata demo_Env _ _ MostFreeSpaceStrategy MostFreeSpaceStrategy 2 "m1:1" w_quiet w_conf calm)
    (@system_storage demo_Env _ _ MostFreeSpaceStrategy MostFreeSpaceStrategy 2 "m1:1" w_quiet DefaultPolicy w_conf) calm w_conf
    good_output _ "name" None reverse w_upload.1.2.

Lemma upload_download_roundtrip_witness : ∃ rd cl'', w_download = (Returns rd, cl'') ∧ dl_err rd = None ∧ dl_output rd = Some w_file.
Proof.
  assert (Hret : match w_upload.1.1 with Returns r => bool_decide (up_err r = None) | _ => false end = true)
    by (vm_compute; reflexivity).
  unfold w_download. destruct w_upload as [[[r| |] cl'] ms'] eqn:Hup; [|discriminate..]. simpl in Hret.
  apply bool_decide_eq_true in Hret.
  apply (@upload_download_roundtrip demo_Env _ _ MostFreeSpaceStrategy MostFreeSpaceStrategy _ 2 "m1:1" w_noisy w_quiet
    DefaultPolicy w_conf calm calm (λ _, None) w_file 65536 None "name" "f" reverse reverse good_output None w_cli cl'
    (mkManifests ∅ 0) ms' r).
  - exact (λ addr n, eq_refl).
  - exact (Build_reads_work w_quiet (λ addr n, eq_refl) (λ n, eq_refl) (λ n, eq_refl) (λ n, eq_refl) (λ n, eq_refl)).
  - exact w_cluster_ok.
  - exact w_nodes_ok.
  - intros k f Hk. vm_compute in Hk. discriminate.
  - discriminate.
  - compute_decide.
  - vm_compute. reflexivity.
  - reflexivity.
  - vm_compute. intuition congruence.
  - vm_compute. discriminate.
  - reflexivity.
  - intros l. apply reverse_Permutation.
  - intros l. apply reverse_Permutation.
  - reflexivity.
  - split_and!; reflexivity.
  - exact Hup.
  - exact Hret.
Defined.

(** Another file is uploaded under the name. *)
Definition w_second : maybe_panic upload_return * Cli * Manifests :=
  @Upload Cli (@system_metadata demo_Env _ _ MostFreeSpaceStrategy MostFreeSpaceStrategy 2 "m1:1" w_quiet w_conf calm)
    (@system_storage demo_Env _ _ MostFreeSpaceStrategy MostFreeSpaceStrategy 2 "m1:1" w_quiet DefaultPolicy w_conf) calm w_conf (λ _, None)
    (mkLocalFile None None (to_bytes "new")) "name" "zz" reverse w_upload.1.2 (mkManifests ∅ 0).

Definition w_hidden : maybe_panic download_return * Cli :=
  @Download Cli (@system_metadata demo_Env _ _ MostFreeSpaceStrategy MostFreeSpaceStrategy 2 "m1:1" w_quiet w_conf calm)
    (@system_storage demo_Env _ _ MostFreeSpaceStrategy MostFreeSpaceStrategy 2 "m1:1" w_quiet DefaultPolicy w_conf) calm w_conf
    good_output _ "name" None reverse w_second.1.2.

(** Names are not unique, and a download takes the file the service lists first: here the
    second upload succeeds without a fault, and a download by its name returns the file that
    had the name before. *)
Theorem shared_name_hides_upload :
  match w_second.1.1, w_hidden.1 with
  | Returns r, Returns rd => up_err r = None ∧ dl_err rd = None ∧ dl_output rd = Some w_file ∧ w_file ≠ to_bytes "new"
  | _, _ => False
  end.
Proof. vm_compute. split_and!; [reflexivity..|discriminate]. Qed.

(** ** A retried upload of a committed chunk *)

Section retried.
Context {Env0 : Env} {Range0 : MapRange} {Sort0 : GoSort} (src tgt : PlacementStrategy) (rf : Z) (leader : string) (net : Net).

Lemma set_disk_world addr d s : sy_world (set_disk addr d s) = sy_world s.
Proof. unfold set_disk. by destruct (sy_nodes s !! addr). Qed.

Lemma peer_transfer_world from to c s : sy_world (peer_transfer net from to c s).2 = sy_world s.
Proof.
  unfold peer_transfer. simpl. destruct (sy_nodes s !! from), (sy_nodes s !! to); try done.
  destruct (replicateToSingleNode _ _ _ _ _ _ _) as [[[r src'] dst']|]; [|done]. simpl. by rewrite !set_disk_world.
Qed.

Lemma fan_out_world from c targets s : sy_world (fan_out net from c targets s).2 = sy_world s.
Proof.
  unfold fan_out. enough (Hrun : ∀ l s, sy_world (fan_run net from c l s).2 = sy_world s).
  { specialize (Hrun (fan_order net (sy_ops s) targets) (tick s)). by destruct (fan_run _ _ _ _ _). }
  clear s. intros l. induction l as [|t l IH]; intros s; [done|]. simpl. unfold transfer_with_retry.
  pose proof (Do_keeps (peer_transfer net from t c) DefaultRetryPolicy (node_amb net (sy_ops s))
    (λ s', sy_world s' = sy_world s) (λ _, True) s) as Hdo.
  destruct (Do _ _ _ s) as [[err s1] sleeps]. destruct Hdo as [Hw _]; [|done|].
  - intros s2 Hs2. by rewrite peer_transfer_world.
  - specialize (IH s1). destruct (fan_run net from c l s1). simpl in *. congruence.
Qed.

(** The chunk is complete. *)
Definition chunk_complete (c : string) (s : Sys) : Prop :=
  ∃ rec, chunkRegistry (wd_fsm (sy_world s)) !! c = Some rec ∧ cr_Status rec = ChunkStatusComplete.

Lemma commit_complete_fails c raw sum s :
  chunk_complete c s →
  let '(r, w) := run_handler src tgt rf (CommitChunkReq c raw sum) (sy_world s) in
  chunk_complete c (set_world w s) ∧ ∀ x, r = Ok x → False.
Proof.
  intros (rec & Hrec & Hst). cbn [run_handler].
  pose proof (CommitChunk_core src tgt rf c raw sum (sy_world s)) as Hcore.
  destruct (CommitChunk _ _ _ _ _ _ _) as [r w]. cbv zeta in Hcore. destruct Hcore as [Hc Hok].
  unfold handleCmdCommitChunk, Fsm.GetChunk in Hc, Hok. simpl in Hc, Hok. rewrite Hrec, decide_False in Hc, Hok by naive_solver.
  split; [|intros x Hx; by destruct (Hok x Hx) as (? & [=] & _)].
  exists rec. simpl. assert (Hcore : core (wd_fsm w) = core (wd_fsm (sy_world s))) by (destruct Hc; done).
  unfold core in Hcore. injection Hcore as _ Hreg _. by rewrite Hreg.
Qed.

(** The frame that a finalised chunk ends with was received. *)
Lemma put_loop_last io stream writer reg targets lastFrame disk last t disk' :
  put_loop io stream writer reg targets lastFrame disk = (inr (last, t), disk') →
  RecvMsg last ∈ stream ∨ (lastFrame = Some last ∧ writer ≠ None).
Proof.
  revert writer reg targets lastFrame disk. induction stream as [|[f|e] stream IH]; intros writer reg targets lastFrame disk; simpl.
  - unfold put_eof. destruct writer; [|done]. destruct lastFrame as [l|]; [|done]. destruct (pc_IsLast l); [simpl|done].
    destruct (Finalize io _ _ _) as [[[]?]?]; [|done]. intros [= -> _ _]. by right.
  - assert (Hnext : ∀ w reg' targets' disk1, put_loop io stream (Some w) reg' targets' (Some f) disk1 = (inr (last, t), disk') →
      RecvMsg last ∈ RecvMsg f :: stream ∨ (lastFrame = Some last ∧ writer ≠ None)).
    { intros w reg' targets' disk1 H. destruct (IH _ _ _ _ _ H) as [?|[[= ->] _]]; left; [by right|left]. }
    destruct writer as [w|].
    + destruct (put_frame io w reg f disk) as [[out|w'] disk1]; [done|]. apply Hnext.
    + destruct (NewChunkWriter io (pc_ChunkId f) disk) as [[w|e] disk1]; [|done].
      destruct (put_frame io w (pc_ChunkId f) f disk1) as [[out|w'] disk2]; [done|]. apply Hnext.
  - done.
Qed.
Lemma put_frame_out io w reg f disk out disk' :
  put_frame io w reg f disk = (inl out, disk') → ∃ e, po_result out = Err e.
Proof.
  unfold put_frame. case_decide; [intros [= <- _]; by eexists|].
  destruct (cw_Write io w _ disk) as [[[]?]?]; [done|]. intros [= <- _]. by eexists.
Qed.

Lemma put_loop_out io stream writer reg targets lastFrame disk out disk' :
  put_loop io stream writer reg targets lastFrame disk = (inl out, disk') → ∃ e, po_result out = Err e.
Proof.
  revert writer reg targets lastFrame disk. induction stream as [|[f|e] stream IH]; intros writer reg targets lastFrame disk; simpl.
  - unfold put_eof. destruct writer; [|intros [= <- _]; by eexists]. destruct lastFrame as [l|]; [|intros [= <- _]; by eexists].
    destruct (pc_IsLast l); simpl; [|intros [= <- _]; by eexists].
    destruct (Finalize io _ _ _) as [[[]?]?]; [done|]. intros [= <- _]. by eexists.
  - destruct writer as [w|]; [|destruct (NewChunkWriter io (pc_ChunkId f) disk) as [[w|e] disk1]; [|intros [= <- _]; by eexists]];
      (destruct (put_frame io w _ f _) as [[o|w'] disk2] eqn:Hf; [|by apply IH]);
      intros [= -> _]; by eapply put_frame_out.
  - intros [= <- _]. by eexists.
Qed.
End retried.

(** C37. [PutChunk] is not idempotent: once the metadata service has a chunk as complete,
    every further [PutChunk] of it returns an error, whatever the network does, although
    the chunk is stored and committed. *)
Theorem retried_put_fails {Env0 : Env} {Range0 : MapRange} {Sort0 : GoSort} (src tgt : PlacementStrategy) (rf : Z)
    (leader : string) (net : Net) (p : Policy) (addr c : string) (stream : list (recv PutChunkRequest)) (s : Sys) :
  chunk_complete c s → (∀ f, RecvMsg f ∈ stream → pc_ChunkId f = c) →
  ∃ e, po_result (node_PutChunk src tgt rf leader net p addr stream s).1 = Err e.
Proof.
  intros Hc Hids. unfold node_PutChunk. destruct (sy_nodes s !! addr) as [nd|]; [|by eexists].
  destruct (put_loop _ _ _ _ _ _ _) as [[out|[last targets]] d'] eqn:Hput; [by eapply put_loop_out|].
  assert (Hlast : pc_ChunkId last = c).
  { apply Hids. by destruct (put_loop_last _ _ _ _ _ _ _ _ _ _ Hput) as [|[? _]]. }
  rewrite Hlast. set (fan := if decide (targets = []) then _ else _).
  assert (Hw : sy_world fan.2 = sy_world s).
  { unfold fan. case_decide; simpl; [|rewrite fan_out_world]; by rewrite set_disk_world. }
  destruct fan as [confirmed s2]. simpl in Hw. unfold sm_CommitChunk. cbn [ccr_ChunkId ccr_ConfirmedNodes ccr_Checksum].
  set (req := CommitChunkReq _ _ _).
  assert (Hfail : ∀ x, (node_invoke src tgt rf leader net p addr req s2).1 ≠ Ok x).
  { unfold node_invoke. destruct (sy_nodes s2 !! addr) as [nd2|]; [|done].
    pose proof (invoke_keeps src tgt rf leader net (chunk_complete c) (λ _ _, False) p (node_amb net (sy_ops s2)) req
      (nd_cache nd2) s2) as Hinv.
    destruct (meta_invoke _ _ _ _ _ _ _ _ _ s2) as [[r cache] s']. destruct Hinv as [_ Hq].
    - done.
    - intros s1 Hs1. by apply commit_complete_fails.
    - unfold chunk_complete. by rewrite Hw.
    - intros x Hx. simpl in Hx. by destruct (Hq x Hx) as (_ & _ & []). }
  destruct (node_invoke _ _ _ _ _ _ _ _ s2) as [[x|e] s3]; [by destruct (Hfail x)|].
  unfold put_commit. simpl. by eexists.
Qed.

(** The chunk of the upload above, sent again. *)
Lemma retried_put_fails_witness :
  ∃ e, po_result (@node_PutChunk demo_Env _ _ MostFreeSpaceStrategy MostFreeSpaceStrategy 2 "m1:1" w_quiet DefaultPolicy "h1:9000"
    (RecvMsg <$> client_frames 32768 (ComputeChunkID "f" 0) [] (Compute_checksum w_file) w_file) (cl_sys w_upload.1.2)).1 = Err e.
Proof.
  apply (@retried_put_fails demo_Env _ _ MostFreeSpaceStrategy MostFreeSpaceStrategy 2 "m1:1" w_quiet DefaultPolicy "h1:9000"
    (ComputeChunkID "f" 0)).
  - assert (Hs : (cr_Status <$> chunkRegistry (wd_fsm (sy_world (cl_sys w_upload.1.2))) !! ComputeChunkID "f" 0) =
      Some ChunkStatusComplete) by (vm_compute; reflexivity).
    unfold chunk_complete. destruct (chunkRegistry _ !! _) as [rec|]; [|discriminate]. exists rec. split; [reflexivity|].
    by injection Hs.
  - intros f (g & [= ->] & Hg)%list_elem_of_fmap.
    destruct (client_frames_ok 32768 (ComputeChunkID "f" 0) [] (Compute_checksum w_file) w_file) as (h & hs & Heq & _ & Hall & _).
    rewrite Heq in Hg. exact (proj1 (Forall_forall _ _) Hall g Hg).
Defined.
