(* ===== verification/Network.v ===== *)
(** * The system at the grain of its messages

    [System] and [StorageNode] run the operations of a node or a client from beginning to
    end.  Here the same operations are cut where the program waits for somebody else: a
    call to the metadata service, a transfer, an answer.  What has been sent stays in
    [nw_sent]; a request may be delivered late, several times (the retries of the
    leader-aware client) or never, and in any order.  Between two steps of a
    node anything else may happen, among it the operations of other clients, sweeps,
    repairs, reconciliation timers and a change of the leader.  Each step runs the
    definition that models its code: [handle], [put_loop], [peer_transfer],
    [enqueue_jobs], [take_job], [repair_report], [DeleteChunk].

    Two things are restricted.  A deletion the reconciler asked for reaches a node only
    while the replica is [unclaimed]: not listed by the service, and not about to be by a
    repair or an upload under way ([RepairTheorems.reconcile_races_repair] is what
    happens otherwise).  And a node receives the streams of one chunk one at a time
    ([Writers] has their interleavings).  Disks do not fail.  [P] gives the address of each storage node by its ID, [D] the
    data of chunks: whoever uploads a chunk of [D] uploads its data. *)

From S2P Require Import Prelude GoLib Json FsmTypes Fsm FsmEquiv Placement World Scheduler Watcher Reconcile MetaServer.
From S2P Require Import Sha256 DiskStore DiskStoreSpec DiskStoreTheorems Chunk StorageServer StorageTheorems Retry Replication Client MetaClient System StorageNode.
From S2P Require Import SystemTheorems.

(** Requests and answers under way, and what a goroutine of a node knows between two steps. *)
Inductive message :=
| Request (from : string) (req : request)
| BeatAnswer (to : string) (jobs : list RepairInstruction)
| Working (node : string) (job : Replication.RepairJob)          (* a worker with the job it took *)
| Storing (node chunkId : string) (checksum : bytes) (targets : list string) (* a PutChunk handler *)
| Transferred (from to chunkId : string).                        (* a transfer that succeeded *)

Record Cloud := mkCloud { nw_sys : Sys; nw_sent : list message }.

(** What the sender of a request gets back, where it matters. *)
Definition answer_of (from : string) (req : request) (r : reply) : list message :=
  match req, rp_result r with
  | HeartbeatReq _ _ _, Ok (HeartbeatResp jobs) => [BeatAnswer from jobs]
  | _, _ => []
  end.

(** The requests a client or a node sends of its own accord: all but commits and reports
    of success, which follow from what a node did; a node registers as itself. *)
Definition unprompted (P : gmap string string) (req : request) : Prop :=
  match req with
  | RegisterNodeReq nodeId address _ _ => P !! nodeId = Some address
  | CommitChunkReq _ _ _ => False
  | ReportRepairResultReq _ _ jobSucceed _ => jobSucceed = false
  | _ => True
  end.

(** The nodes keep what they have; connections and counters may change. *)
Record same_node (x y : Node) : Prop := {
  sn_id : nd_NodeID y = nd_NodeID x;
  sn_repairs : nd_repairs y = nd_repairs x;
  sn_contents : contents (nd_disk y) = contents (nd_disk x);
  sn_ok : store_ok (nd_disk x) → store_ok (nd_disk y);
}.

Definition quiet (s s' : Sys) : Prop :=
  sy_world s' = sy_world s ∧
  map_relation (λ _, same_node) (λ _ _, False) (λ _ _, False) (sy_nodes s) (sy_nodes s').

(** The message would make, or has made, the node at [addr] a replica of [chunkId]: a
    commit that names it, the report of a repair to it, a handler or a fan-out that
    stored the chunk there. *)
Definition claims (P : gmap string string) (s : MetadataFSM) (addr chunkId : string) (m : message) : Prop :=
  match m with
  | Request _ (CommitChunkReq c confirmed _) => c = chunkId ∧ ∃ e, e ∈ confirmed ∧ (e = addr ∨ P !! e = Some addr)
  | Request _ (ReportRepairResultReq _ jobId jobSucceed _) => jobSucceed = true ∧
      ∃ j, repairJobRegistry s !! jobId = Some j ∧ rj_ChunkID j = chunkId ∧ P !! rj_TargetNodeID j = Some addr
  | Storing node c _ _ => node = addr ∧ c = chunkId
  | Transferred _ to c => to = addr ∧ c = chunkId
  | _ => False
  end.

(** Nobody counts on the chunk at the node. *)
Record unclaimed (P : gmap string string) (c : Cloud) (addr chunkId : string) : Prop := {
  un_listed : ∀ r x, chunkRegistry (wd_fsm (sy_world (nw_sys c))) !! chunkId = Some r → x ∈ cr_Replicas r → P !! x ≠ Some addr;
  un_claimed : ∀ m, m ∈ nw_sent c → ¬ claims P (wd_fsm (sy_world (nw_sys c))) addr chunkId m;
}.

(** The reports of dropped jobs, as [processHeartbeatResponse] sends them. *)
Definition drop_reports (addr : string) (nodeID : string) (dropped : list RepairInstruction) : list message :=
  (λ v, let r := drop_report nodeID v in
        Request addr (ReportRepairResultReq (rr_NodeId r) (rr_JobId r) (rr_JobSucceed r) (rr_Error r))) <$> dropped.

Definition report_message (Error_text : error → string) (addr nodeID : string) (job : Replication.RepairJob)
    (err : option error) : message :=
  let r := repair_report Error_text nodeID job err in
  Request addr (ReportRepairResultReq (rr_NodeId r) (rr_JobId r) (rr_JobSucceed r) (rr_Error r)).

Section steps.
Context `{!MapRange, !GoSort} (src tgt : PlacementStrategy) (rf : Z) (timeout : Duration).
Context (P : gmap string string) (D : gmap string bytes).

(** A goroutine of the metadata service. *)
Definition at_world {X} (m : M X) (c : Cloud) : Cloud :=
  mkCloud (set_world (m (sy_world (nw_sys c))).2 (nw_sys c)) (nw_sent c).

(** The service handles a request. *)
Definition deliver `{!Env} (from : string) (req : request) (c : Cloud) : Cloud :=
  let '(r, w) := handle src tgt rf req (sy_world (nw_sys c)) in
  mkCloud (set_world w (nw_sys c)) (nw_sent c ++ answer_of from req r).

(** The node [nd] at [addr] takes the jobs of an answer into its queue. *)
Definition accept (addr : string) (nd : Node) (ctx : nat → bool) (jobs : list RepairInstruction) (c : Cloud) : Cloud :=
  let '(dropped, m) := enqueue_jobs ctx 0 jobs (nd_repairs nd) in
  mkCloud (set_repairs addr m (nw_sys c)) (nw_sent c ++ drop_reports addr (nd_NodeID nd) dropped).

(** One attempt to transfer a chunk; [said] is what the sender makes of a success. *)
Definition transfer (net : Net) (from to chunkId : string) (said : list message) (c : Cloud) : Cloud :=
  let '(err, s) := peer_transfer net from to chunkId (nw_sys c) in
  mkCloud s (nw_sent c ++ if decide (err = None) then said else []).

(** The node [nd] at [addr] receives the stream of a chunk, up to the fan-out. *)
Definition receive (net : Net) (addr : string) (nd : Node) (stream : list (recv PutChunkRequest)) (c : Cloud) : Cloud :=
  let '(rcv, d) := put_loop (disk_io net addr) stream None "" [] None (nd_disk nd) in
  mkCloud (set_disk addr d (nw_sys c)) (nw_sent c ++
    match rcv with
    | inr (last, targets) => [Storing addr (pc_ChunkId last) (pc_Checksum last) targets]
    | inl _ => []
    end).

Definition working_disks (net : Net) : Prop := ∀ addr, no_faults (disk_io net addr).

Inductive net_step : Cloud → Cloud → Prop :=
(* the metadata service *)
| nt_send from req c :
    unprompted P req → net_step c (mkCloud (nw_sys c) (nw_sent c ++ [Request from req]))
| nt_deliver (E : Env) from req c : Request from req ∈ nw_sent c → net_step c (deliver from req c)
| nt_sweep (E : Env) c : net_step c (at_world (sweep src tgt timeout) c)
| nt_execute (E : Env) c : net_step c (at_world Scheduler.worker_step c)
| nt_recover (E : Env) c : net_step c (at_world (RecoverStuckJobs src) c)
| nt_reschedule (E : Env) i c : net_step c (at_world (fire_reschedule src tgt i) c)
| nt_timer (E : Env) n c : net_step c (at_world (fire_timer src tgt rf n) c)
| nt_failover w c :
    fsm_equiv (wd_fsm (sy_world (nw_sys c))) (wd_fsm w) →
    net_step c (mkCloud (set_world w (nw_sys c)) (nw_sent c))
(* a deletion [evictStaleReplica] asked for *)
| nt_delete net addr nd chunkId c :
    working_disks net → (addr, chunkId) ∈ wd_deletes (sy_world (nw_sys c)) → unclaimed P c addr chunkId →
    sy_nodes (nw_sys c) !! addr = Some nd →
    net_step c (mkCloud (set_disk addr (DeleteChunk (disk_io net addr) chunkId (nd_disk nd)).2 (nw_sys c)) (nw_sent c))
(* repairs *)
| nt_accept addr nd jobs ctx c :
    BeatAnswer addr jobs ∈ nw_sent c → sy_nodes (nw_sys c) !! addr = Some nd → net_step c (accept addr nd ctx jobs c)
| nt_take addr nd job m c :
    sy_nodes (nw_sys c) !! addr = Some nd → take_job (nd_repairs nd) = Some (job, m) →
    net_step c (mkCloud (set_repairs addr m (nw_sys c)) (nw_sent c ++ [Working addr job]))
| nt_transfer net Error_text addr nd job c :
    working_disks net → Working addr job ∈ nw_sent c → sy_nodes (nw_sys c) !! addr = Some nd →
    net_step c (transfer net addr (Target job) (ChunkID job) [report_message Error_text addr (nd_NodeID nd) job None] c)
| nt_release addr nd job c :
    sy_nodes (nw_sys c) !! addr = Some nd →
    net_step c (mkCloud (set_repairs addr (release job (nd_repairs nd)) (nw_sys c)) (nw_sent c))
(* uploads *)
| nt_receive net addr nd size chunkId data replicas cut c :
    working_disks net → (∀ d, D !! chunkId = Some d → data = d) → sy_nodes (nw_sys c) !! addr = Some nd →
    net_step c (receive net addr nd
      (put_stream (client_frames size chunkId replicas (Compute_checksum data) data) cut) c)
| nt_fan net addr to chunkId checksum targets c :
    working_disks net → Storing addr chunkId checksum targets ∈ nw_sent c →
    net_step c (transfer net addr to chunkId [Transferred addr to chunkId] c)
| nt_commit addr nd chunkId checksum targets confirmed c :
    Storing addr chunkId checksum targets ∈ nw_sent c → sy_nodes (nw_sys c) !! addr = Some nd →
    (∀ t, t ∈ confirmed → Transferred addr t chunkId ∈ nw_sent c) →
    net_step c (mkCloud (nw_sys c) (nw_sent c ++ [Request addr (CommitChunkReq chunkId ([nd_NodeID nd] ++ confirmed) checksum)]))
(* membership and bookkeeping *)
| nt_start addr nd c :
    sy_nodes (nw_sys c) !! addr = None → P !! nd_NodeID nd = Some addr → store_ok (nd_disk nd) →
    (∀ chunkId d d', D !! chunkId = Some d → contents (nd_disk nd) !! chunkId = Some d' → d' = d) →
    nd_repairs nd = NewReplicationManager →
    net_step c (mkCloud (set_node addr nd (nw_sys c)) (nw_sent c))
| nt_quiet s c : quiet (nw_sys c) s → net_step c (mkCloud s (nw_sent c))
| nt_lose sent c : sent ⊆ nw_sent c → net_step c (mkCloud (nw_sys c) sent).
End steps.

(** ** Reconciliation with its deletions *)

Section reconcile.
Context `{!Env, !MapRange, !GoSort} (src tgt : PlacementStrategy) (rf : Z) (net : Net).

(** The calls of [DeleteChunk] that a timer makes, at the nodes they reach. *)
Definition perform_deletes (calls : list (string * string)) (s : Sys) : Sys :=
  foldl (λ s '(addr, chunkId),
    match sy_nodes s !! addr with
    | Some nd => set_disk addr (DeleteChunk (disk_io net addr) chunkId (nd_disk nd)).2 s
    | None => s
    end) s calls.

(** The timer of [Schedule] with its deletions carried out. *)
Definition reconcile_timer (nodeID : string) (c : Cloud) : Cloud :=
  let s := nw_sys c in
  let w' := (fire_timer src tgt rf nodeID (sy_world s)).2 in
  mkCloud (perform_deletes (drop (length (wd_deletes (sy_world s))) (wd_deletes w')) (set_world w' s)) (nw_sent c).
End reconcile.
