(* ===== verification/NetworkRuns.v ===== *)
(** * The operations of the system are runs of its messages

    Every operation that [System], [StorageNode] and the client run from beginning to end
    (the upload of a chunk or of a file, a heartbeat, a round of a repair worker, a call)
    is a sequence of steps of [Network.net_step], with the retries, losses and orders its
    [Net] describes.  What holds of every run of messages therefore holds of them, also
    when several interleave. *)

From S2P Require Import Prelude GoLib Json FsmTypes Fsm FsmEquiv Placement World Scheduler Watcher Reconcile MetaServer.
From S2P Require Import Sha256 DiskStore DiskStoreSpec DiskStoreTheorems Chunk StorageServer StorageTheorems Retry Replication StorageConfig ClientConfig Manifest Client ClientTheorems MetaClient System StorageNode.
From S2P Require Import UploadTheorems SystemTheorems Network.

(** ** Bookkeeping *)

Lemma quiet_nodes s s' :
  sy_world s' = sy_world s → (λ nd, (nd_NodeID nd, nd_disk nd, nd_repairs nd)) <$> sy_nodes s' =
    (λ nd, (nd_NodeID nd, nd_disk nd, nd_repairs nd)) <$> sy_nodes s → quiet s s'.
Proof.
  intros Hw Hn. split; [done|]. intros a. pose proof (f_equal (.!! a) Hn) as Ha. rewrite !lookup_fmap in Ha.
  destruct (sy_nodes s !! a), (sy_nodes s' !! a); simpl in *; try done. injection Ha as H1 H2 H3. by split; rewrite ?H2.
Qed.

Lemma quiet_tick s : quiet s (tick s).
Proof. by apply quiet_nodes. Qed.

Lemma quiet_cache addr c s : quiet s (set_cache addr c s).
Proof.
  unfold set_cache. destruct (sy_nodes s !! addr) as [nd|] eqn:Hnd; [|by apply quiet_nodes].
  apply quiet_nodes; [done|]. simpl. rewrite fmap_insert. simpl. apply insert_id. by rewrite lookup_fmap, Hnd.
Qed.

(** Disks and connections change, node IDs do not. *)
Lemma set_disk_ids addr d s : nd_NodeID <$> sy_nodes (set_disk addr d s) = nd_NodeID <$> sy_nodes s.
Proof.
  unfold set_disk. destruct (sy_nodes s !! addr) as [nd|] eqn:Hnd; [|done]. simpl. rewrite fmap_insert. simpl.
  apply insert_id. by rewrite lookup_fmap, Hnd.
Qed.

Lemma peer_transfer_ids net from to k s :
  nd_NodeID <$> sy_nodes (peer_transfer net from to k s).2 = nd_NodeID <$> sy_nodes s.
Proof.
  unfold peer_transfer. simpl. destruct (sy_nodes s !! from), (sy_nodes s !! to); try done.
  destruct (replicateToSingleNode _ _ _ _ _ _ _) as [[[r d1] d2]|]; [|done]. simpl. by rewrite !set_disk_ids.
Qed.

Section runs.
Context {Env0 : Env} {Range0 : MapRange} {Sort0 : GoSort} (src tgt : PlacementStrategy) (rf : Z) (timeout : Duration).
Context (leader : string) (net : Net) (Hio : working_disks net).
Context (P : gmap string string) (D : gmap string bytes).

Notation step := (net_step src tgt rf timeout P D).

(** [s'] is reached from [c] with the messages [ms] sent, among others. *)
Definition reaches (c : Cloud) (ms : list message) (s' : Sys) : Prop :=
  ∃ sent, rtc step c (mkCloud s' sent) ∧ nw_sent c ⊆ sent ∧ ms ⊆ sent.

Lemma reaches_refl s sent : reaches (mkCloud s sent) sent s.
Proof. exists sent. by split_and!. Qed.

Lemma reaches_weaken c ms ms' s : ms' ⊆ ms ++ nw_sent c → reaches c ms s → reaches c ms' s.
Proof. intros Hsub (sent & Hr & H1 & H2). exists sent. split_and!; [done|done|]. set_solver. Qed.

(** One more step, from any state in which the messages have been sent. *)
Lemma reaches_step c ms ms' s s' :
  (∀ sent, ms ⊆ sent → nw_sent c ⊆ sent → ∃ new, step (mkCloud s sent) (mkCloud s' (sent ++ new)) ∧ ms' ⊆ sent ++ new) →
  reaches c ms s → reaches c ms' s'.
Proof.
  intros Hs (sent & Hr & H1 & H2). destruct (Hs sent H2 H1) as (new & Hst & H3). exists (sent ++ new).
  split_and!; [by eapply rtc_r|set_solver|done].
Qed.

Lemma reaches_quiet c ms s s' : quiet s s' → reaches c ms s → reaches c ms s'.
Proof.
  intros Hq (sent & Hr & H1 & H2). exists sent. split_and!; [|done|done]. eapply rtc_r; [exact Hr|]. by apply nt_quiet.
Qed.

Lemma reaches_send c ms s from req : unprompted P req → reaches c ms s → reaches c (Request from req :: ms) s.
Proof.
  intros Hu. apply reaches_step. intros sent H1 _. exists [Request from req]. split; [by apply (nt_send _ _ _ _ _ _ from req (mkCloud s sent))|set_solver].
Qed.

(** ** Calls to the metadata service *)

Lemma reaches_deliver c ms s from req :
  is_leader = true → Request from req ∈ ms → reaches c ms s →
  let '(r, w) := run_handler src tgt rf req (sy_world s) in
  reaches c (answer_of from req (mkReply r None) ++ ms) (set_world w s).
Proof.
  intros Hl Hin. destruct (run_handler src tgt rf req (sy_world s)) as [r w] eqn:Hr. apply reaches_step.
  intros sent H1 _. exists (answer_of from req (mkReply r None)). split; [|set_solver].
  pose proof (nt_deliver src tgt rf timeout P D Env0 from req (mkCloud s sent) (H1 _ Hin)) as Hst.
  unfold deliver in Hst. simpl in Hst. unfold handle in Hst. rewrite Hl in Hst. simpl in Hst. by rewrite Hr in Hst.
Qed.

(** Any number of attempts, at any node. *)
Lemma invoke_reaches c ms s p amb from req cache :
  Request from req ∈ ms → reaches c ms s →
  let '(r, _, s') := meta_invoke src tgt rf leader net p amb req cache s in
  reaches c ms s' ∧ ∀ x, r = Ok x → reaches c (answer_of from req (mkReply r None) ++ ms) s'.
Proof.
  intros Hin Hc.
  pose proof (invoke_keeps_leading src tgt rf leader net (reaches c ms)
    (λ x s', reaches c (answer_of from req (mkReply (Ok x) None) ++ ms) s') p amb req cache s) as H.
  destruct (meta_invoke _ _ _ _ _ _ _ _ _ s) as [[r cache'] s']. destruct H as [Hk Hq].
  - intros s1. apply reaches_quiet, quiet_tick.
  - intros s1 Hl Hs1. pose proof (reaches_deliver c ms s1 from req Hl Hin Hs1) as Hd.
    destruct (run_handler _ _ _ _ _) as [r1 w]. split; [|by intros x ->].
    eapply reaches_weaken; [|exact Hd]. set_solver.
  - done.
  - split; [done|]. intros x Hx. destruct (Hq x Hx) as (_ & _ & Hy). by rewrite Hx.
Qed.

Lemma node_invoke_reaches c ms s p addr from req :
  Request from req ∈ ms → reaches c ms s →
  let '(r, s') := node_invoke src tgt rf leader net p addr req s in
  reaches c ms s' ∧ ∀ x, r = Ok x → reaches c (answer_of from req (mkReply r None) ++ ms) s'.
Proof.
  intros Hin Hc. unfold node_invoke. destruct (sy_nodes s !! addr) as [nd|]; [|by split].
  pose proof (invoke_reaches c ms s p (node_amb net (sy_ops s)) from req (nd_cache nd) Hin Hc) as H.
  destruct (meta_invoke _ _ _ _ _ _ _ _ _ s) as [[r cache] s']. destruct H as [H1 H2].
  split; [by eapply reaches_quiet; [apply quiet_cache|]|]. intros x Hx. eapply reaches_quiet; [apply quiet_cache|by eapply H2].
Qed.

Lemma node_call_reaches c ms s p addr req :
  unprompted P req → reaches c ms s → reaches c ms (node_invoke src tgt rf leader net p addr req s).2.
Proof.
  intros Hu Hc. pose proof (node_invoke_reaches c (Request addr req :: ms) s p addr addr req ltac:(left)
    (reaches_send _ _ _ addr req Hu Hc)) as H.
  destruct (node_invoke _ _ _ _ _ _ _ _ s) as [r s']. eapply reaches_weaken; [|apply H]. set_solver.
Qed.

(** ** Transfers *)

(** The retries of a transfer that a message allows. *)
Lemma transfer_reaches c ms s from to k said :
  (∀ c', ms ⊆ nw_sent c' → nd_NodeID <$> sy_nodes (nw_sys c') = nd_NodeID <$> sy_nodes s → step c' (transfer net from to k said c')) →
  reaches c ms s →
  let '(err, s') := transfer_with_retry net from to k s in
  nd_NodeID <$> sy_nodes s' = nd_NodeID <$> sy_nodes s ∧ reaches c ms s' ∧ (err = None → reaches c (said ++ ms) s').
Proof.
  intros Hst Hc. unfold transfer_with_retry.
  pose proof (Do_keeps (peer_transfer net from to k) DefaultRetryPolicy (node_amb net (sy_ops s))
    (λ s', nd_NodeID <$> sy_nodes s' = nd_NodeID <$> sy_nodes s ∧ reaches c ms s') (λ s', reaches c (said ++ ms) s') s) as H.
  destruct (Do _ _ _ s) as [[err s'] sleeps]. destruct H as [[H1 H2] H3]; [|done|done]. intros s1 [Hid Hs1].
  pose proof (peer_transfer_ids net from to k s1) as Hids.
  assert (Hone : reaches c (if decide ((peer_transfer net from to k s1).1 = None) then said ++ ms else ms)
    (peer_transfer net from to k s1).2).
  { eapply reaches_step; [|exact Hs1]. intros sent Hsub _. specialize (Hst (mkCloud s1 sent) Hsub Hid). unfold transfer in Hst.
    simpl in Hst. destruct (peer_transfer net from to k s1) as [err1 s2]. eexists. split; [exact Hst|]. simpl.
    case_decide; set_solver. }
  destruct (peer_transfer net from to k s1) as [err1 s2]. simpl in *. split; [split; [congruence|]|].
  - eapply reaches_weaken; [|exact Hone]. case_decide; set_solver.
  - intros ->. by rewrite decide_True in Hone.
Qed.

Lemma fan_run_reaches c ms s addr k sum targets order :
  Storing addr k sum targets ∈ ms → reaches c ms s →
  let '(events, s') := fan_run net addr k order s in
  nd_NodeID <$> sy_nodes s' = nd_NodeID <$> sy_nodes s ∧
  reaches c (((λ t, Transferred addr t k) <$> omap (λ e, match e with FanResult t None => Some t | _ => None end) events) ++ ms) s'.
Proof.
  intros Hin. revert ms s Hin. induction order as [|t order IH]; intros ms s Hin Hc; simpl; [done|].
  pose proof (transfer_reaches c ms s addr t k [Transferred addr t k]) as Ht.
  destruct (transfer_with_retry net addr t k s) as [err s1]. destruct Ht as (Hid & Hr & Hok); [|done|].
  { intros c' Hsub _. eapply nt_fan; [done|]. apply Hsub, Hin. }
  set (ms1 := if decide (err = None) then Transferred addr t k :: ms else ms).
  assert (Hr1 : reaches c ms1 s1) by (unfold ms1; case_decide; [by apply Hok|done]).
  specialize (IH ms1 s1 ltac:(unfold ms1; case_decide; set_solver) Hr1).
  destruct (fan_run net addr k order s1) as [events s2]. destruct IH as [Hid2 Hr2]. split; [congruence|].
  eapply reaches_weaken; [|exact Hr2]. unfold ms1. destruct err; simpl; set_solver.
Qed.

Lemma fan_out_reaches c ms s addr k sum targets :
  Storing addr k sum targets ∈ ms → reaches c ms s →
  let '(confirmed, s') := fan_out net addr k targets s in
  nd_NodeID <$> sy_nodes s' = nd_NodeID <$> sy_nodes s ∧ reaches c (((λ t, Transferred addr t k) <$> confirmed.1) ++ ms) s'.
Proof.
  intros Hin Hc. unfold fan_out.
  pose proof (fan_run_reaches c ms (tick s) addr k sum targets (fan_order net (sy_ops s) targets) Hin
    (reaches_quiet _ _ _ _ (quiet_tick s) Hc)) as H.
  destruct (fan_run net addr k _ (tick s)) as [events s']. destruct H as [Hid Hr]. split; [done|].
  eapply reaches_weaken; [|exact Hr]. intros m [Hm|?]%elem_of_app; [|set_solver].
  apply list_elem_of_fmap in Hm as (t & -> & Ht). rewrite !elem_of_app. left; left. apply list_elem_of_fmap. exists t. split; [done|].
  apply list_elem_of_omap. exists (FanResult t None). split; [|done]. by eapply fan_out_confirms.
Qed.
(** ** The operations of a node *)

Lemma node_lookup_id s s' addr nd :
  nd_NodeID <$> sy_nodes s' = nd_NodeID <$> sy_nodes s → sy_nodes s !! addr = Some nd →
  ∃ nd', sy_nodes s' !! addr = Some nd' ∧ nd_NodeID nd' = nd_NodeID nd.
Proof.
  intros Hid Hnd. pose proof (f_equal (.!! addr) Hid) as Ha. rewrite !lookup_fmap, Hnd in Ha.
  destruct (sy_nodes s' !! addr) as [nd'|]; [|done]. exists nd'. split; [done|]. by injection Ha.
Qed.

(** [PutChunk] of a client's stream for a chunk whose data, if planned, it carries. *)
Lemma put_reaches c ms s p addr size k data replicas cut :
  (∀ d, D !! k = Some d → data = d) → reaches c ms s →
  reaches c ms (node_PutChunk src tgt rf leader net p addr
    (put_stream (client_frames size k replicas (Compute_checksum data) data) cut) s).2.
Proof.
  intros Hdata Hc. unfold node_PutChunk. set (stream := put_stream _ cut). destruct (sy_nodes s !! addr) as [nd|] eqn:Hnd; [|done].
  assert (Hrcv : ∀ sent, step (mkCloud s sent) (receive net addr nd stream (mkCloud s sent))) by (intros sent; by apply nt_receive).
  unfold receive in Hrcv. simpl in Hrcv.
  destruct (put_loop _ stream _ _ _ _ (nd_disk nd)) as [[out|[last targets]] d'].
  { simpl. eapply reaches_step; [|exact Hc]. intros sent H1 _. exists []. split; [apply Hrcv|set_solver]. }
  set (s1 := set_disk addr d' s). set (m := Storing addr (pc_ChunkId last) (pc_Checksum last) targets).
  assert (Hc1 : reaches c (m :: ms) s1).
  { eapply reaches_step; [|exact Hc]. intros sent H1 _. exists [m]. split; [apply Hrcv|set_solver]. }
  assert (Hid1 : nd_NodeID <$> sy_nodes s1 = nd_NodeID <$> sy_nodes s) by apply set_disk_ids.
  assert (Hfan : let '(confirmed, s2) := if decide (targets = []) then ([], None, s1) else fan_out net addr (pc_ChunkId last) targets s1 in
    nd_NodeID <$> sy_nodes s2 = nd_NodeID <$> sy_nodes s1 ∧
    reaches c (((λ t, Transferred addr t (pc_ChunkId last)) <$> confirmed.1) ++ m :: ms) s2).
  { case_decide; [done|]. eapply fan_out_reaches; [left|done]. }
  destruct (if decide (targets = []) then _ else _) as [confirmed s2]. destruct Hfan as [Hid2 Hc2].
  destruct (node_lookup_id s s2 addr nd) as (nd2 & Hnd2 & Hid); [congruence|done|].
  set (req := CommitChunkReq (pc_ChunkId last) ([nd_NodeID nd] ++ confirmed.1) (pc_Checksum last)).
  assert (Hc3 : reaches c (Request addr req :: ms) s2).
  { eapply reaches_step; [|exact Hc2]. intros sent H1 _. exists [Request addr req]. split; [|set_solver].
    unfold req. rewrite <-Hid. eapply (nt_commit _ _ _ _ _ _ addr nd2 _ _ targets confirmed.1 (mkCloud s2 sent)); [|done|].
    - apply H1. set_solver.
    - intros t Ht. apply H1, elem_of_app. left. apply list_elem_of_fmap. eauto. }
  unfold sm_CommitChunk. cbn [ccr_ChunkId ccr_ConfirmedNodes ccr_Checksum]. fold req.
  pose proof (node_invoke_reaches c (Request addr req :: ms) s2 p addr addr req ltac:(left) Hc3) as H.
  destruct (node_invoke _ _ _ _ _ _ _ _ s2) as [r s3]. eapply reaches_weaken; [|apply H]. set_solver.
Qed.

(** One round of a repair worker. *)
Lemma worker_reaches c ms s p Error_text addr :
  reaches c ms s → reaches c ms (repair_worker src tgt rf leader net p Error_text addr s).
Proof.
  intros Hc. unfold repair_worker. destruct (sy_nodes s !! addr) as [nd|] eqn:Hnd; [|done].
  destruct (take_job (nd_repairs nd)) as [[job m1]|] eqn:Ht; [|done]. set (s0 := set_repairs addr m1 s).
  assert (Hc0 : reaches c (Working addr job :: ms) s0).
  { eapply reaches_step; [|exact Hc]. intros sent H1 _. exists [Working addr job]. split; [|set_solver].
    by eapply (nt_take _ _ _ _ _ _ addr nd job m1 (mkCloud s sent)). }
  assert (Hnd0 : ∃ nd0, sy_nodes s0 !! addr = Some nd0 ∧ nd_NodeID nd0 = nd_NodeID nd).
  { unfold s0, set_repairs. rewrite Hnd. simpl. rewrite lookup_insert_eq. by eexists. }
  destruct Hnd0 as (nd0 & Hnd0 & Hid0).
  pose proof (transfer_reaches c (Working addr job :: ms) s0 addr (Target job) (ChunkID job)
    [report_message Error_text addr (nd_NodeID nd) job None]) as Htr.
  destruct (transfer_with_retry net addr (Target job) (ChunkID job) s0) as [err s1].
  destruct Htr as (Hids & Hc1 & Hok); [|done|].
  { intros c' Hsub Hid'. destruct (node_lookup_id s0 (nw_sys c') addr nd0 Hid' Hnd0) as (nd' & Hnd' & Heq0).
    rewrite <-Hid0, <-Heq0. apply nt_transfer; [done|apply Hsub; left|done]. }
  set (req := let r := repair_report Error_text (nd_NodeID nd) job err in
    ReportRepairResultReq (rr_NodeId r) (rr_JobId r) (rr_JobSucceed r) (rr_Error r)).
  assert (Hc2 : reaches c (Request addr req :: ms) s1).
  { destruct err as [e|].
    - apply reaches_send; [done|]. eapply reaches_weaken; [|exact Hc1]. set_solver.
    - eapply reaches_weaken; [|by apply Hok]. set_solver. }
  unfold sm_ReportRepairResult. fold req.
  pose proof (node_invoke_reaches c (Request addr req :: ms) s1 p addr addr req ltac:(left) Hc2) as H.
  change (ReportRepairResultReq _ _ _ _) with req.
  destruct (node_invoke _ _ _ _ _ _ _ _ s1) as [r s2]. destruct H as [Hc3 _]. simpl.
  assert (Hc4 : reaches c ms s2) by (eapply reaches_weaken; [|exact Hc3]; set_solver).
  destruct (sy_nodes s2 !! addr) as [nd2|] eqn:Hnd2; [|done].
  eapply reaches_step; [|exact Hc4]. intros sent H1 _. exists []. rewrite app_nil_r. split; [|done].
  by apply (nt_release _ _ _ _ _ _ addr nd2 job (mkCloud s2 sent)).
Qed.

Lemma register_reaches c ms s p addr ni :
  P !! GetNodeID ni = Some (GetGrpcAddr ni) → reaches c ms s →
  reaches c ms (RegisterWithMetadata src tgt rf leader net p addr ni s).2.
Proof.
  intros Hni Hc. unfold RegisterWithMetadata, sm_RegisterNode. destruct (GetChunkList ni s) as [cs|e]; [|done].
  set (req := RegisterNodeReq _ _ _ _). pose proof (node_call_reaches c ms s p addr req Hni Hc) as H.
  by destruct (node_invoke _ _ _ _ _ _ _ _ s) as [[] ?].
Qed.

Lemma report_dropped_reaches c ms s p addr ni sent dropped :
  reaches c ms s → reaches c ms (report_dropped src tgt rf leader net p addr ni sent dropped s).
Proof.
  unfold report_dropped. generalize (sent dropped) as l. intros l. revert s. induction l as [|v l IH]; intros s Hc; [done|].
  simpl. apply IH. unfold sm_ReportRepairResult. by apply node_call_reaches.
Qed.

(** One tick of the heartbeat. *)
Lemma heartbeat_reaches c ms s p addr ni registerer ctx sent :
  P !! GetNodeID ni = Some (GetGrpcAddr ni) → reaches c ms s →
  reaches c ms (heartbeat_tick src tgt rf leader net p addr ni registerer ctx sent s).
Proof.
  intros Hni Hc. unfold heartbeat_tick, sendBeat, sm_Heartbeat. set (req := HeartbeatReq _ _ _).
  pose proof (node_invoke_reaches c (Request addr req :: ms) s p addr addr req ltac:(left) (reaches_send _ _ _ addr req I Hc)) as H.
  destruct (node_invoke _ _ _ _ _ _ _ _ s) as [[x|e] s1]; destruct H as [Hk Hq].
  - specialize (Hq x eq_refl). unfold processHeartbeatResponse.
    assert (Hms : reaches c ms s1) by (eapply reaches_weaken; [|exact Hk]; set_solver).
    destruct x as [|jobs| | | | |]; try done. destruct (sy_nodes s1 !! addr) as [nd|] eqn:Hnd; [|done].
    destruct (enqueue_jobs ctx 0 jobs (nd_repairs nd)) as [dropped m'] eqn:He. apply report_dropped_reaches.
    eapply reaches_step; [|exact Hq]. intros sent' H1 _. exists (drop_reports addr (nd_NodeID nd) dropped). split; [|set_solver].
    pose proof (nt_accept src tgt rf timeout P D addr nd jobs ctx (mkCloud s1 sent') (H1 _ ltac:(left)) Hnd) as Hst.
    unfold accept in Hst. simpl in Hst. by rewrite He in Hst.
  - assert (Hms : reaches c ms s1) by (eapply reaches_weaken; [|exact Hk]; set_solver).
    case_decide; [|done]. destruct registerer; [|done]. by apply register_reaches.
Qed.

(** ** The operations of a client *)

Lemma client_reaches c ms cfg amb req cl :
  unprompted P req → reaches c ms (cl_sys cl) → reaches c ms (cl_sys (client_invoke src tgt rf leader net cfg amb req cl).2).
Proof.
  intros Hu Hc. unfold client_invoke.
  pose proof (invoke_reaches c (Request "" req :: ms) (cl_sys cl) (cfg_RetryPolicy cfg) amb "" req (cl_cache cl) ltac:(left)
    (reaches_send _ _ _ "" req Hu Hc)) as H.
  destruct (meta_invoke _ _ _ _ _ _ _ _ _ _) as [[r cache] s']. simpl. eapply reaches_weaken; [|apply H]. set_solver.
Qed.

Lemma storage_put_reaches c ms p cfg addr k data replicas cl :
  (∀ d, D !! k = Some d → data = d) → reaches c ms (cl_sys cl) →
  reaches c ms (cl_sys (storage_PutChunk src tgt rf leader net p cfg addr k data (Compute_checksum data) replicas cl).2).
Proof.
  intros Hdata Hc. unfold storage_PutChunk. pose proof (getOrDial_sys net addr cl) as Hsys.
  destruct (getOrDial net addr cl) as [[e|] c1]; simpl in Hsys; [simpl; by rewrite Hsys|]. rewrite Hsys. cbv zeta.
  set (n := sy_ops (cl_sys cl)).
  pose proof (put_reaches c ms (tick (cl_sys cl)) p addr (cfg_FrameSize cfg) k data replicas (put_cut net n) Hdata
    (reaches_quiet _ _ _ _ (quiet_tick _) Hc)) as H.
  unfold put_stream in H. by destruct (node_PutChunk _ _ _ _ _ _ _ _ _) as [out s'].
Qed.

Lemma upload_chunk_reaches c ms p cfg amb file desc placement cl :
  (∀ d, D !! cd_ChunkID desc = Some d → described file desc = d) → reaches c ms (cl_sys cl) →
  reaches c ms (cl_sys (uploadChunkWithRetry (system_storage src tgt rf leader net p cfg) amb cfg file desc placement cl).2).
Proof.
  intros Hdata Hc. unfold uploadChunkWithRetry. case_decide; [done|].
  change (take (Z.to_nat (cd_Size desc)) (drop (Z.to_nat (cd_Offset desc)) file)) with (described file desc).
  pose proof (Do_keeps (sc_PutChunk (system_storage src tgt rf leader net p cfg) (pl_Primary placement) (cd_ChunkID desc)
    (described file desc) (Compute_checksum (described file desc)) (pl_Replicas placement)) (cfg_RetryPolicy cfg) amb
    (λ cl, reaches c ms (cl_sys cl)) (λ _, True) cl) as Hdo.
  destruct (Do _ _ _ cl) as [[err cl'] sleeps]. destruct Hdo as [Hk _]; [|done|done].
  intros cl1 Hcl1. split; [|done]. simpl. by apply storage_put_reaches.
Qed.

Lemma upload_chunks_reaches c ms p cfg amb os_fault file fileID placements order cl mf :
  (∀ d x, d ∈ order → D !! cd_ChunkID d = Some x → described file d = x) → reaches c ms (cl_sys cl) →
  reaches c ms (cl_sys (upload_chunks (system_storage src tgt rf leader net p cfg) amb cfg os_fault file fileID placements order cl mf).1.2).
Proof.
  revert cl mf. induction order as [|d order IH]; intros cl mf Hdata Hc; [done|]. simpl. unfold upload_chunk.
  assert (Hd : ∀ x, D !! cd_ChunkID d = Some x → described file d = x) by (intros x; apply Hdata; left).
  assert (Ho : ∀ d' x, d' ∈ order → D !! cd_ChunkID d' = Some x → described file d' = x) by (intros d' x Hin; apply Hdata; by right).
  pose proof (upload_chunk_reaches c ms p cfg amb file d (placement_for placements (cd_ChunkID d)) cl Hd Hc) as Hput.
  destruct (uploadChunkWithRetry _ _ _ _ _ _ cl) as [[e|] cl1]; simpl in Hput.
  - specialize (IH cl1 mf Ho Hput). by destruct (upload_chunks _ _ _ _ _ _ _ order cl1 mf) as [[[] ?] ?].
  - destruct (MarkChunkDone _ _ _ _ mf) as [[r| |] mf1]; [|done..].
    specialize (IH cl1 mf1 Ho Hput). by destruct (upload_chunks _ _ _ _ _ _ _ order cl1 mf1) as [[[] ?] ?].
Qed.

Lemma upload_reaches c ms p cfg amb os_fault stat open file name fileID order cl mf :
  (∀ d x, d ∈ order (descriptors fileID (length file) (cfg_ChunkSize cfg)) → D !! cd_ChunkID d = Some x → described file d = x) →
  reaches c ms (cl_sys cl) →
  reaches c ms (cl_sys (Upload (system_metadata src tgt rf leader net cfg amb) (system_storage src tgt rf leader net p cfg) amb
    cfg os_fault (mkLocalFile stat open file) name fileID order cl mf).1.2).
Proof.
  intros Hdata Hc. unfold Upload. cbn [lf_stat lf_data lf_open]. destruct stat; [done|].
  unfold GenerateDescriptors. cbn [res_bind]. fold (descriptors fileID (length file) (cfg_ChunkSize cfg)).
  set (ds := descriptors fileID (length file) (cfg_ChunkSize cfg)) in *. destruct ds as [|d0 ds0] eqn:Hds; [done|]. rewrite <-Hds in *. destruct (manifest_Create _ _ _ mf) as [[[]|e] mf1]; [|done].
  cbn [mc_CreateFile system_metadata GRPCClient]. unfold grpc_CreateFile. set (req := CreateFileReq _ _ _ _ _).
  pose proof (client_reaches c ms cfg amb req cl I Hc) as Hc1.
  destruct (client_invoke _ _ _ _ _ _ _ req cl) as [[[]|e] cl1]; simpl in Hc1; try done.
  destruct open; [done|]. destruct (semaphore _); [|done..].
  pose proof (upload_chunks_reaches c ms p cfg amb os_fault file fileID (protoToPlacement <$> placements) (order ds) cl1 mf1
    Hdata Hc1) as Hc2.
  destruct (upload_chunks _ _ _ _ _ _ _ (order ds) cl1 mf1) as [[[events| |] cl2] mf2]; [|done..]. simpl in Hc2.
  unfold finish_upload. case_decide; [done|]. cbn [mc_CommitFile system_metadata GRPCClient]. unfold grpc_CommitFile, grpc_ack.
  match goal with |- context [client_invoke _ _ _ _ _ _ _ ?req cl2] =>
    pose proof (client_reaches c ms cfg amb req cl2 I Hc2) as Hc3 end.
  by destruct (client_invoke _ _ _ _ _ _ _ _ cl2) as [[|] cl3].
Qed.

Lemma delete_reaches c ms cfg amb fileID cl :
  reaches c ms (cl_sys cl) →
  reaches c ms (cl_sys (service_DeleteFile (system_metadata src tgt rf leader net cfg amb) fileID cl).2).
Proof.
  intros Hc. unfold service_DeleteFile. cbn [mc_DeleteFile system_metadata GRPCClient]. unfold grpc_DeleteFile, grpc_ack.
  pose proof (client_reaches c ms cfg amb (DeleteFileReq fileID) cl I Hc) as Hc1.
  by destruct (client_invoke _ _ _ _ _ _ _ _ cl) as [[|] cl1].
Qed.

Lemma goroutine_reaches {X} (m : M X) s :
  (∀ c, step c (at_world m c)) → ∀ sent, reaches (mkCloud s sent) sent (set_world (m (sy_world s)).2 s).
Proof. intros Hm sent. exists sent. split_and!; [|done..]. apply rtc_once. exact (Hm (mkCloud s sent)). Qed.
End runs.

(** ** The system run operation by operation *)

(** A node that is built for the address [addr] of the plan, on a sound store that has
    nothing wrong of [D]. *)
Record fresh_node (P : gmap string string) (D : gmap string bytes) (sn : StorageNode) (addr : string) : Prop := {
  fn_id : nd_NodeID (sn_node sn) = sc_NodeID (sn_config sn);
  fn_planned : P !! sc_NodeID (sn_config sn) = Some addr;
  fn_disk : store_ok (nd_disk (sn_node sn));
  fn_data : ∀ chunkId d d', D !! chunkId = Some d → contents (nd_disk (sn_node sn)) !! chunkId = Some d' → d' = d;
  fn_repairs : nd_repairs (sn_node sn) = NewReplicationManager;
}.

(** One operation at a time, with whatever network, clock and Raft outcomes, as long as disks
    work: what nodes, clients and the goroutines of the service do from beginning to end.
    Heartbeats may be cut off at any job and lose their reports. *)
Inductive op_step `{!MapRange, !GoSort} (src tgt : PlacementStrategy) (rf : Z) (timeout : Duration)
    (P : gmap string string) (D : gmap string bytes) : Sys → Sys → Prop :=
| op_register (E : Env) leader net p addr ni s :
    working_disks net → P !! GetNodeID ni = Some (GetGrpcAddr ni) →
    op_step src tgt rf timeout P D s (RegisterWithMetadata src tgt rf leader net p addr ni s).2
| op_beat (E : Env) leader net p addr ni registerer ctx sent s :
    working_disks net → P !! GetNodeID ni = Some (GetGrpcAddr ni) →
    op_step src tgt rf timeout P D s (heartbeat_tick src tgt rf leader net p addr ni registerer ctx sent s)
| op_worker (E : Env) leader net p Error_text addr s :
    working_disks net → op_step src tgt rf timeout P D s (repair_worker src tgt rf leader net p Error_text addr s)
| op_upload (E : Env) leader net p cfg amb os_fault stat open file name fileID order cl mf :
    working_disks net →
    (∀ d x, d ∈ order (descriptors fileID (length file) (cfg_ChunkSize cfg)) → D !! cd_ChunkID d = Some x → described file d = x) →
    op_step src tgt rf timeout P D (cl_sys cl)
      (cl_sys (Upload (system_metadata src tgt rf leader net cfg amb) (system_storage src tgt rf leader net p cfg) amb
        cfg os_fault (mkLocalFile stat open file) name fileID order cl mf).1.2)
| op_delete (E : Env) leader net cfg amb fileID cl :
    working_disks net → op_step src tgt rf timeout P D (cl_sys cl)
      (cl_sys (service_DeleteFile (system_metadata src tgt rf leader net cfg amb) fileID cl).2)
| op_start (E : Env) leader net listen sn sn' s s' :
    node_Start src tgt rf leader net listen sn s = (None, sn', s') → working_disks net →
    sy_nodes s !! node_GetGrpcAddr sn' = None → fresh_node P D sn (node_GetGrpcAddr sn') → op_step src tgt rf timeout P D s s'
| op_sweep (E : Env) s : op_step src tgt rf timeout P D s (set_world (sweep src tgt timeout (sy_world s)).2 s)
| op_execute (E : Env) s : op_step src tgt rf timeout P D s (set_world (Scheduler.worker_step (sy_world s)).2 s)
| op_recover (E : Env) s : op_step src tgt rf timeout P D s (set_world (RecoverStuckJobs src (sy_world s)).2 s)
| op_reschedule (E : Env) i s : op_step src tgt rf timeout P D s (set_world (fire_reschedule src tgt i (sy_world s)).2 s).

(** [Start]: the node is reachable, then it registers. *)
Lemma start_reaches `{!Env, !MapRange, !GoSort} src tgt rf timeout P D leader net listen sn sn' s s' sent :
  node_Start src tgt rf leader net listen sn s = (None, sn', s') → working_disks net →
  sy_nodes s !! node_GetGrpcAddr sn' = None → fresh_node P D sn (node_GetGrpcAddr sn') →
  reaches src tgt rf timeout P D (mkCloud s sent) sent s'.
Proof.
  unfold node_Start. destruct (StorageConfig.Validate _); [done|]. destruct (listen _) as [lis|]; [|done]. intros [= <- <-] Hio Hnone Hf.
  apply register_reaches; [done|by apply Hf|]. exists sent. split_and!; [|done..]. apply rtc_once.
  destruct Hf as [Hid HP Hok Hd Hr]. apply (nt_start _ _ _ _ _ _ _ _ (mkCloud s sent)); [exact Hnone|by rewrite Hid|done..].
Qed.

Lemma op_reaches `{!MapRange, !GoSort} src tgt rf timeout P D s s' sent :
  op_step src tgt rf timeout P D s s' → reaches src tgt rf timeout P D (mkCloud s sent) sent s'.
Proof.
  intros Hop. pose proof (reaches_refl src tgt rf timeout P D s sent) as Hr. destruct Hop.
  - by apply register_reaches.
  - by apply heartbeat_reaches.
  - by apply worker_reaches.
  - by apply upload_reaches.
  - by apply delete_reaches.
  - by eapply start_reaches.
  - apply goroutine_reaches. intros c. apply nt_sweep.
  - apply goroutine_reaches. intros c. apply nt_execute.
  - apply goroutine_reaches. intros c. apply nt_recover.
  - apply goroutine_reaches. intros c. apply nt_reschedule.
Qed.

(** Operations that follow one another, as a run of messages. *)
Lemma ops_run `{!MapRange, !GoSort} src tgt rf timeout P D s s' sent :
  rtc (op_step src tgt rf timeout P D) s s' →
  ∃ sent', rtc (net_step src tgt rf timeout P D) (mkCloud s sent) (mkCloud s' sent') ∧ sent ⊆ sent'.
Proof.
  intros Hr. revert sent. induction Hr as [s|s1 s2 s3 Hop _ IH]; intros sent; [by exists sent|].
  destruct (op_reaches _ _ _ _ _ _ _ _ sent Hop) as (sent1 & Hrun & Hsub & _).
  destruct (IH sent1) as (sent2 & Hrun2 & Hsub2). exists sent2. split; [by etransitivity|]. simpl in Hsub. set_solver.
Qed.

(** ** A concrete run *)

(** Two empty nodes start and register, and a client uploads a file to them; the network is
    the noisy one. *)
Definition w_plan : gmap string string := <["n1" := "h1:9000"]> {["n2" := "h2:9000"]}.
Definition w_planned : gmap string bytes := {[ComputeChunkID "f" 0 := w_file]}.
Definition w_void : Sys := mkSys (mkWorld NewEmptyMetadataFsm (mkSched ∅ ∅ [] [] 0%Z) ∅ ∅ [] 0 0 0) ∅ 0.
Definition w_built (id root addr : string) : StorageNode :=
  mkStorageNode (mkStorageNodeConfig id addr "" ["m1:1"] 1%Z 1%Z root 3 1%Z 5 1%Z 2%Z)
    (mkNode id (mkDiskStore root (root +:+ "/tmp") 2 1000000 0 ∅ true ∅ 0) (mkLeaderCache "m1:1" ["m1:1"] 0 (Some "m1:1"))
      NewReplicationManager) None NoServer false false None
    NewPeerDialer false.
Definition w_join (id root addr : string) (s : Sys) : option error * StorageNode * Sys :=
  @node_Start demo_Env _ _ MostFreeSpaceStrategy MostFreeSpaceStrategy 2 "m1:1" w_quiet Ok (w_built id root addr) s.
Definition w_joined : Sys := (w_join "n2" "/b" "h2:9000" (w_join "n1" "/a" "h1:9000" w_void).2).2.
Definition w_uploaded : maybe_panic upload_return * Cli * Manifests :=
  @Upload Cli (@system_metadata demo_Env _ _ MostFreeSpaceStrategy MostFreeSpaceStrategy 2 "m1:1" w_noisy w_conf calm)
    (@system_storage demo_Env _ _ MostFreeSpaceStrategy MostFreeSpaceStrategy 2 "m1:1" w_noisy DefaultPolicy w_conf) calm w_conf (λ _, None)
    (mkLocalFile None None w_file) "name" "f" reverse
    (mkCli w_joined (mkLeaderCache "m1:1" ["m1:1"] 0 (Some "m1:1")) ∅) (mkManifests ∅ 0).

Lemma w_joined_run :
  rtc (op_step MostFreeSpaceStrategy MostFreeSpaceStrategy 2 0%Z w_plan w_planned) w_void w_joined.
Proof.
  assert (Hjoin : ∀ id root addr s, w_plan !! id = Some addr → root ≠ "" → addr ≠ "" → sy_nodes s !! addr = None →
    op_step MostFreeSpaceStrategy MostFreeSpaceStrategy 2 0%Z w_plan w_planned s (w_join id root addr s).2).
  { intros id root addr s Hid Hroot Haddr Hnone.
    destruct (w_join id root addr s) as [[err sn'] s'] eqn:Hrun. unfold w_join in Hrun.
    assert (Hst : err = None ∧ node_GetGrpcAddr sn' = addr).
    { unfold node_Start in Hrun. simpl in Hrun. unfold StorageConfig.Validate in Hrun. simpl in Hrun.
      rewrite !decide_False in Hrun by done. by injection Hrun as <- <- _. }
    destruct Hst as [-> Ha]. eapply (op_start _ _ _ _ _ _ demo_Env "m1:1" w_quiet Ok (w_built id root addr) sn'); [exact Hrun|by intros ? ?|by rewrite Ha|].
    rewrite Ha. split; [done|done|by apply empty_store_ok|done|done]. }
  eapply rtc_l; [|apply rtc_once; unfold w_joined]; apply Hjoin; vm_compute; done.
Qed.

Lemma w_uploaded_run :
  rtc (op_step MostFreeSpaceStrategy MostFreeSpaceStrategy 2 0%Z w_plan w_planned) w_void (cl_sys w_uploaded.1.2).
Proof.
  eapply rtc_r; [exact w_joined_run|]. apply (op_upload _ _ _ _ _ _ demo_Env "m1:1" w_noisy DefaultPolicy w_conf calm (λ _, None) None None
    w_file "name" "f" reverse (mkCli w_joined (mkLeaderCache "m1:1" ["m1:1"] 0 (Some "m1:1")) ∅)); [by intros addr n|].
  assert (Hds : (λ d, (cd_ChunkID d, described w_file d)) <$> reverse (descriptors "f" (length w_file) (cfg_ChunkSize w_conf)) =
    [(ComputeChunkID "f" 0, w_file)]) by (vm_compute; reflexivity).
  intros d x Hd Hx. assert (Hin : (cd_ChunkID d, described w_file d) ∈ [(ComputeChunkID "f" 0, w_file)]).
  { rewrite <-Hds. apply list_elem_of_fmap. exact (ex_intro _ d (conj eq_refl Hd)). }
  apply list_elem_of_singleton, pair_eq in Hin as [Hk Hv]. rewrite Hk in Hx. unfold w_planned in Hx.
  rewrite lookup_singleton_eq in Hx. apply (inj Some) in Hx. exact (eq_trans Hv Hx).
Qed.
