(* ===== verification/NetworkTheorems.v ===== *)
(** * Safety of the system at the grain of its messages

    However clients, nodes, repairs, the watcher and changes of the leader interleave and
    however late and often messages arrive, the metadata service lists as replicas of a
    chunk only nodes that have its data, under its checksum, as long as the deletions of
    the reconciler do not race with a repair or an upload of the same replica. *)

From S2P Require Import Prelude GoLib Json FsmTypes Fsm FsmCommands FsmInv FsmEquiv FsmSnapshot Placement World Scheduler Watcher Reconcile MetaServer MetaTheorems.
From S2P Require Import Sha256 DiskStore DiskStoreSpec DiskStoreTheorems Chunk StorageServer StorageTheorems Retry.
From S2P Require Import Replication StorageConfig ClientConfig Manifest Client ClientTheorems MetaClient System StorageNode UploadTheorems SystemTheorems Network NetworkRuns.

Notation fsm s := (wd_fsm (sy_world s)).

(** ** What the service may do to its state machine *)

(** The plan of the cluster: node IDs to addresses; no address is a node ID. *)
Record plan_ok (P : gmap string string) : Prop := {
  po_empty : P !! "" = None;
  po_address : ∀ k a, P !! k = Some a → a ≠ "" ∧ P !! a = None;
}.

Definition members (P : gmap string string) (s : MetadataFSM) : Prop :=
  ∀ k n, nodeRegistry s !! k = Some n → ne_NodeID n = k ∧ P !! k = Some (ne_Address n).

Definition job_keys (s : MetadataFSM) : Prop := ∀ id j, repairJobRegistry s !! id = Some j → rj_JobID j = id.

Section growth.
Context (P : gmap string string).

(** Members stay members, jobs keep their chunk and target; replicas of a chunk shrink, or
    grow by those [A] allows, and a checksum stays or becomes one [S] allows. *)
Record may_add (A : string → string → Prop) (S : string → bytes → Prop) (s s' : MetadataFSM) : Prop := {
  ma_members : members P s → members P s';
  ma_jobs : ∀ id j, repairJobRegistry s !! id = Some j → ∃ j', repairJobRegistry s' !! id = Some j' ∧
    rj_ChunkID j' = rj_ChunkID j ∧ rj_TargetNodeID j' = rj_TargetNodeID j ∧ rj_DeleteSource j' = rj_DeleteSource j;
  ma_keys : job_keys s → job_keys s';
  ma_replicas : ∀ c r' x, chunkRegistry s' !! c = Some r' → x ∈ cr_Replicas r' →
    (∃ r, chunkRegistry s !! c = Some r ∧ x ∈ cr_Replicas r) ∨ A c x;
  ma_sums : ∀ c r', chunkRegistry s' !! c = Some r' →
    (∃ r, chunkRegistry s !! c = Some r ∧ cr_Checksum r' = cr_Checksum r) ∨ cr_Checksum r' = [] ∨ S c (cr_Checksum r');
}.

#[global] Instance may_add_preorder A S : PreOrder (may_add A S).
Proof.
  split; [by split; eauto|]. intros s1 s2 s3 [H1 H2 Hk1 H3 H3'] [H4 H5 Hk2 H6 H6']. split; [by auto| |by auto| |].
  - intros id j Hj. destruct (H2 _ _ Hj) as (j2 & Hj2 & ? & ? & ?). destruct (H5 _ _ Hj2) as (j3 & Hj3 & ? & ? & ?).
    exists j3. split; [done|]. split_and!; congruence.
  - intros c r3 x Hr3 Hx. destruct (H6 _ _ _ Hr3 Hx) as [(r2 & Hr2 & Hx2)|]; [|by right]. by eapply H3.
  - intros c r3 Hr3. destruct (H6' _ _ Hr3) as [(r2 & Hr2 & Heq)|]; [|by right]. rewrite Heq. by apply (H3' c r2).
Qed.

(** A state that differs in none of the registries, or in the node registry by members. *)
Lemma may_add_nodes A S s s' :
  (members P s → members P s') → repairJobRegistry s' = repairJobRegistry s → chunkRegistry s' = chunkRegistry s →
  may_add A S s s'.
Proof. intros H1 H2 H3. split; [done|rewrite H2; eauto|unfold job_keys; by rewrite H2|rewrite H3; eauto..]. Qed.

Lemma may_add_node A S s n y :
  (members P s → ne_NodeID y = n ∧ P !! n = Some (ne_Address y)) →
  may_add A S s (set_nodeRegistry s (<[n := y]> (nodeRegistry s))).
Proof.
  intros Hy. apply may_add_nodes; [|done..]. intros Hm k x Hk. simpl in Hk.
  apply lookup_insert_Some in Hk as [[<- <-]|[_ Hk]]; [by apply Hy|by apply Hm].
Qed.

(** The status, space and time stamps of a node may change. *)
Lemma may_add_known A S s n x y :
  nodeRegistry s !! n = Some x → ne_NodeID y = ne_NodeID x → ne_Address y = ne_Address x →
  may_add A S s (set_nodeRegistry s (<[n := y]> (nodeRegistry s))).
Proof. intros Hx Hi Ha. apply may_add_node. intros Hm. rewrite Hi, Ha. by apply Hm. Qed.

Lemma may_add_chunk A S s c r r' :
  chunkRegistry s !! c = Some r → (∀ x, x ∈ cr_Replicas r' → x ∈ cr_Replicas r ∨ A c x) →
  cr_Checksum r' = cr_Checksum r ∨ S c (cr_Checksum r') →
  may_add A S s (set_chunkRegistry s (<[c := r']> (chunkRegistry s))).
Proof.
  intros Hr Hin Hsum. split; [done|by eauto|done|..]; simpl.
  - intros k q x [[-> ->]|[_ Hq]]%lookup_insert_Some Hx; [|by eauto]. destruct (Hin x Hx); eauto.
  - intros k q [[-> ->]|[_ Hq]]%lookup_insert_Some; [|by eauto]. destruct Hsum; eauto.
Qed.

Lemma may_add_job A S s id j :
  (job_keys s → rj_JobID j = id) →
  (∀ j0, repairJobRegistry s !! id = Some j0 →
     rj_ChunkID j = rj_ChunkID j0 ∧ rj_TargetNodeID j = rj_TargetNodeID j0 ∧ rj_DeleteSource j = rj_DeleteSource j0) →
  may_add A S s (set_repairJobRegistry s (<[id := j]> (repairJobRegistry s))).
Proof.
  intros Hid Hj. split; [done| | |by eauto..]; simpl.
  - intros k q Hq. destruct (decide (k = id)) as [->|Hne].
    + rewrite lookup_insert_eq. eauto.
    + rewrite lookup_insert_ne by done. eauto.
  - intros Hk k q Hq. simpl in Hq. apply lookup_insert_Some in Hq as [[<- <-]|[_ Hq]]; auto.
Qed.

(** New records without replicas and checksums. *)
Lemma may_add_stubs A S s (l : list ChunkRecord) :
  Forall (λ r, cr_Replicas r = [] ∧ cr_Checksum r = []) l →
  may_add A S s (set_chunkRegistry s (foldl (λ m r, <[cr_ChunkID r := r]> m) (chunkRegistry s) l)).
Proof.
  intros Hl.
  enough (H : ∀ m : gmap string ChunkRecord, (∀ c r, m !! c = Some r → chunkRegistry s !! c = Some r ∨ cr_Replicas r = [] ∧ cr_Checksum r = []) →
    ∀ c r, foldl (λ m r, <[cr_ChunkID r := r]> m) m l !! c = Some r →
      chunkRegistry s !! c = Some r ∨ cr_Replicas r = [] ∧ cr_Checksum r = []).
  { specialize (H (chunkRegistry s) (λ c r Hr, or_introl Hr)). split; [done|by eauto|done|..]; simpl.
    - intros c r x Hr Hx. destruct (H c r Hr) as [?|[Hn _]]; [by eauto|]. rewrite Hn in Hx. by apply not_elem_of_nil in Hx.
    - intros c r Hr. destruct (H c r Hr) as [?|[_ ?]]; eauto. }
  induction Hl as [|r0 l Hr0 _ IH]; intros m Hm; simpl; [done|]. apply IH. intros c r [[_ <-]|[_ Hr]]%lookup_insert_Some; auto.
Qed.

(** What a command needs. *)
Definition allowed `{!MapRange} (A : string → string → Prop) (S : string → bytes → Prop) (s : MetadataFSM) (c : command) : Prop :=
  match c with
  | RegisterNodeC req => P !! rn_NodeID req = Some (rn_Address req)
  | AddChunkReplicaC req => A (ar_ChunkID req) (ar_NodeID req)
  | CommitChunkC req =>
      (∀ x, x ∈ normalizeReplicaNodeIDs s (cc_NodeIDs req) → A (cc_ChunkID req) x) ∧ S (cc_ChunkID req) (cc_Checksum req)
  | _ => True
  end.

Lemma exec_may_add `{!MapRange} A S s c : allowed A S s c → may_add A S s (exec s c).1.
Proof.
  intros Hc. destruct c as [req|req|req|req|req|req|req|req|req|req|req|req|req|req|req|req]; simpl in *.
  - unfold handleCmdRegisterNode, GetNode. destruct (nodeRegistry s !! _) as [n|] eqn:Hn; simpl; [|by apply may_add_node].
    apply may_add_nodes; [|done..]. intros Hm. destruct (Hm _ _ Hn) as [Hid _]. rewrite Hid, insert_insert_eq.
    by apply (may_add_node A S s (rn_NodeID req)).
  - unfold handleCmdDeregisterNode, GetNode. destruct (nodeRegistry s !! _) as [n|] eqn:Hn; simpl; [|done]. by eapply may_add_known.
  - unfold handleCmdMarkNodeDead, GetNode. destruct (nodeRegistry s !! _) as [n|] eqn:Hn; simpl; [|done]. by eapply may_add_known.
  - unfold handleCmdMarkNodeAlive, GetNode. destruct (nodeRegistry s !! _) as [n|] eqn:Hn; simpl; [|done]. by eapply may_add_known.
  - unfold handleCmdUpdateNodeSpace, GetNode. destruct (nodeRegistry s !! _) as [n|] eqn:Hn; simpl; [|done]. by eapply may_add_known.
  - unfold handleCmdCreateFile. destruct (GetFile s _); [done|]. destruct (existsb _ _); simpl; [done|].
    set (l := imap _ _). assert (Hl : Forall (λ r, cr_Replicas r = [] ∧ cr_Checksum r = []) l).
    { apply Forall_lookup. intros i r Hr. unfold l in Hr. rewrite list_lookup_imap in Hr.
      apply fmap_Some in Hr as (x & _ & ->). done. }
    etransitivity; [by apply (may_add_stubs A S s l)|]. by apply may_add_nodes.
  - unfold handleCmdCommitFile. repeat (case_match; simpl; try done). by apply may_add_nodes.
  - unfold handleCmdDeleteFile. repeat (case_match; simpl; try done). by apply may_add_nodes.
  - unfold handleCmdCommitChunk, Fsm.GetChunk. destruct (chunkRegistry s !! _) as [r|] eqn:Hr; [|done]. simpl.
    case_decide; simpl; [|done]. destruct Hc as [HA HS]. eapply may_add_chunk; [done| |by right]. auto.
  - unfold handleCmdEvictChunkFromNode, Fsm.GetChunk. destruct (chunkRegistry s !! _) as [r|] eqn:Hr; [|done]. simpl.
    destruct (getIndex _ _); [|done]. simpl. eapply may_add_chunk; [done| |by left]. simpl. intros x [Hx|Hx]%elem_of_app; left.
    + by eapply elem_of_take in Hx as (? & ?%list_elem_of_lookup_2 & _).
    + apply list_elem_of_lookup in Hx as [i Hi]. rewrite lookup_drop in Hi. by eapply list_elem_of_lookup_2.
  - unfold handleCmdMarkChunkLost, Fsm.GetChunk. destruct (chunkRegistry s !! _) as [r|] eqn:Hr; [|done]. simpl.
    eapply may_add_chunk; [done|by left|by left].
  - unfold handleCmdCreateRepairJob. destruct (repairJobRegistry s !! _) eqn:Hj; [done|]. simpl.
    apply may_add_job; [done|]. by intros j0 Hj0; simplify_eq.
  - unfold handleCmdUpdateRepairJob. destruct (repairJobRegistry s !! _) as [j|] eqn:Hj; simpl; [|done].
    apply may_add_job; [intros Hk; exact (Hk _ _ Hj)|]. by intros j0 Hj0; simplify_eq.
  - unfold handleCmdAddChunkReplica, Fsm.GetChunk. destruct (chunkRegistry s !! _) as [r|] eqn:Hr; [|done]. simpl.
    case_decide; [done|]. simpl. eapply may_add_chunk; [done| |by left]. simpl.
    intros x [?| ->%list_elem_of_singleton]%elem_of_app; auto.
  - by apply may_add_nodes.
  - by apply may_add_nodes.
Qed.
End growth.

(** ** The handlers and the goroutines of the service *)

Section handlers.
Context `{!Env, !MapRange, !GoSort} (src tgt : PlacementStrategy) (rf : Z) (P : gmap string string).
Context (A : string → string → Prop) (S : string → bytes → Prop) (s0 : MetadataFSM).

Definition adds (w : World) : Prop := may_add P A S s0 (wd_fsm w).

Lemma adds_modify f : (∀ w, wd_fsm (f w) = wd_fsm w) → preserves adds (modify f).
Proof. intros Hf. apply preserves_modify. intros w. unfold adds. by rewrite Hf. Qed.
Lemma adds_Now : preserves adds Now.
Proof. by intros w Hw. Qed.
Lemma adds_NewUUID : preserves adds NewUUID.
Proof. by intros w Hw. Qed.

Lemma adds_Propose c : fits c → (∀ s, may_add P A S s0 s → allowed P A S s c) → preserves adds (Propose (encode c)).
Proof.
  intros Hfit Hc w Hw. specialize (Hc _ Hw). unfold adds in *.
  destruct (Propose_effect c w Hfit) as [[-> | ->] _]; [done|]. etransitivity; [exact Hw|]. by apply exec_may_add.
Qed.

Lemma adds_try_enqueue j : preserves adds (try_enqueue j).
Proof. apply adds_modify. intros w. cbv beta zeta. by case_decide. Qed.

#[local] Hint Resolve adds_Now adds_NewUUID adds_try_enqueue : dfs.
#[local] Hint Extern 2 (preserves adds (Propose _)) => apply adds_Propose; [done|intros; exact I] : dfs.
#[local] Hint Extern 2 (preserves adds (modify _)) => apply adds_modify; done : dfs.

Lemma adds_UpdateRepairJobStatus j st : preserves adds (UpdateRepairJobStatus j st).
Proof. unfold UpdateRepairJobStatus. preserve; auto with dfs. Qed.

Lemma adds_scheduleRepairJobs c l d : preserves adds (scheduleRepairJobs src tgt c l d).
Proof. unfold scheduleRepairJobs, schedule_target, schedule_delete. preserve; auto with dfs. Qed.

#[local] Hint Resolve adds_UpdateRepairJobStatus adds_scheduleRepairJobs : dfs.

Lemma adds_ScheduleRepairForChunk c : preserves adds (ScheduleRepairForChunk src tgt c).
Proof. unfold ScheduleRepairForChunk. preserve; auto with dfs. Qed.

Lemma adds_proposeEvictChunk c n r : preserves adds (proposeEvictChunk c n r).
Proof. unfold proposeEvictChunk. preserve; auto with dfs. Qed.

#[local] Hint Resolve adds_proposeEvictChunk adds_ScheduleRepairForChunk : dfs.

Lemma adds_TriggerRepair n : preserves adds (TriggerRepair src tgt n).
Proof. unfold TriggerRepair, trigger_chunk. preserve; auto with dfs. Qed.

Lemma adds_executeJob j : preserves adds (executeJob j).
Proof. unfold executeJob. preserve; auto with dfs. Qed.

#[local] Hint Resolve adds_TriggerRepair adds_executeJob : dfs.

Lemma adds_worker_step : preserves adds Scheduler.worker_step.
Proof. unfold Scheduler.worker_step. preserve; auto with dfs. Qed.

Lemma adds_RecoverStuckJobs : preserves adds (RecoverStuckJobs src).
Proof.
  unfold RecoverStuckJobs. preserve. intros l. induction l as [|j l IH]; simpl; [apply preserves_ret|].
  apply preserves_bind; [unfold recover_job, recover_choice, enqueueJob; preserve; auto with dfs|].
  intros []; [apply IH|apply preserves_ret].
Qed.

Lemma adds_fire_reschedule i : preserves adds (fire_reschedule src tgt i).
Proof. unfold fire_reschedule. preserve; auto with dfs. Qed.

Lemma adds_sweep timeout : preserves adds (sweep src tgt timeout).
Proof. unfold sweep, sweep_node, buildMarkDeadCmd. preserve; auto with dfs. Qed.

Lemma adds_fire_timer n : preserves adds (fire_timer src tgt rf n).
Proof.
  unfold fire_timer, ReconcileNode, evictStaleReplica, handleMissingReplica, reconcile_proposeEvictChunk, DeleteChunkRPC, Cancel.
  preserve; auto with dfs.
Qed.

(** *** Requests *)

Lemma adds_UpdateLastSeen n t : preserves adds (watcher_UpdateLastSeen n t).
Proof.
  intros w Hw. unfold watcher_UpdateLastSeen, UpdateLastSeen, adds in *.
  destruct (nodeRegistry (wd_fsm w) !! n) as [e|] eqn:He; simpl; [|done].
  etransitivity; [exact Hw|]. by eapply may_add_known.
Qed.

#[local] Hint Resolve adds_UpdateLastSeen : dfs.

Lemma adds_Heartbeat n fs cc : preserves adds (Heartbeat n fs cc).
Proof.
  unfold Heartbeat, ProposeUpdateNodeSpace, sched_GetPendingJobsForNode. preserve; auto with dfs.
  all: try (by intros w Hw). intros t. apply adds_Propose; [split; apply to_uint64_range|done].
Qed.

Lemma adds_RegisterNode n addr fs cs : P !! n = Some addr → preserves adds (RegisterNode n addr fs cs).
Proof.
  intros Hn. unfold RegisterNode, Schedule. preserve; auto with dfs.
  intros t. apply adds_Propose; [split; apply to_uint64_range|done].
Qed.

Lemma adds_OnJobComplete n jobId ok e :
  (ok = true → ∃ j, repairJobRegistry s0 !! jobId = Some j ∧ (rj_DeleteSource j = false → A (rj_ChunkID j) (rj_TargetNodeID j))) →
  preserves adds (OnJobComplete n jobId ok e).
Proof.
  intros Hok. unfold OnJobComplete. apply preserves_bind; [by apply adds_modify|]. intros [].
  apply hoare_bind with (Q := λ r w, adds w ∧ r = GetRepairJob (wd_fsm w) jobId); [by intros w Hw|].
  intros [j'|e']; [|by intros w [Hw _]]. destruct ok.
  - intros w [Hw Hj']. unfold GetRepairJob in Hj'. destruct (Hok eq_refl) as (j & Hj & HA).
    destruct (ma_jobs _ _ _ _ _ Hw _ _ Hj) as (j2 & Hj2 & Hc & Ht & Hd). rewrite Hj2 in Hj'. injection Hj' as ->.
    rewrite Hd, Hc, Ht. destruct (rj_DeleteSource j); [by apply adds_proposeEvictChunk|].
    apply adds_Propose; [done| |exact Hw]. intros s _. by apply HA.
  - eapply hoare_weaken; [|intros w [Hw _]; exact Hw|intros ? ? Hq; exact Hq]. preserve; auto with dfs.
Qed.

Lemma adds_Report n jobId ok e :
  (ok = true → ∃ j, repairJobRegistry s0 !! jobId = Some j ∧ (rj_DeleteSource j = false → A (rj_ChunkID j) (rj_TargetNodeID j))) →
  preserves adds (ReportRepairResult n jobId ok e).
Proof.
  intros Hok. unfold ReportRepairResult. apply preserves_bind; [apply adds_UpdateRepairJobStatus|].
  intros [?|]; [apply preserves_ret|]. apply preserves_bind; [by apply adds_OnJobComplete|].
  intros [?|]; apply preserves_ret.
Qed.

(** What a commit's entries are resolved to, given the plan. *)
Definition names_planned (x e : string) : Prop := x = e ∨ P !! x = Some e.

Lemma normalized_planned s raw x :
  plan_ok P → members P s → x ∈ normalizeReplicaNodeIDs s raw → ∃ e, e ∈ raw ∧ names_planned x e.
Proof.
  intros HP Hm Hx.
  destruct (normalize_fold_spec s (λ k n Hk, proj1 (Hm k n Hk))) with (raw := raw) (acc := ([] : list string, ∅ : gset string))
    as (_ & H2 & _); [|split; [constructor|done]|set_solver|].
  { destruct (nodeRegistry s !! "") as [n|] eqn:Hn; [|done]. destruct (Hm _ _ Hn) as [_ Hp]. by rewrite (po_empty _ HP) in Hp. }
  destruct (H2 x Hx) as [[]%not_elem_of_nil|(e & He & [[-> _]|(n & Hn & <-)])]; exists e || eexists; (split; [exact He|]); [by left|].
  right. by apply Hm.
Qed.

Lemma adds_CommitChunk c raw sum :
  plan_ok P → members P s0 → (∀ x e, e ∈ raw → names_planned x e → A c x) → S c sum →
  preserves adds (CommitChunk src tgt rf c raw sum).
Proof.
  intros HP Hm HA HS. unfold CommitChunk. apply preserves_bind.
  - apply adds_Propose; [done|]. intros s Hs. split; [|done]. simpl. intros x Hx.
    destruct (normalized_planned s raw x HP (ma_members _ _ _ _ _ Hs Hm) Hx) as (e & He & Hn). by eapply HA.
  - preserve; auto with dfs.
Qed.

(** What a request needs in order to be handled. *)
Definition request_ok (req : request) : Prop :=
  match req with
  | RegisterNodeReq n a _ _ => P !! n = Some a
  | CommitChunkReq c raw sum => (∀ x e, e ∈ raw → names_planned x e → A c x) ∧ S c sum
  | ReportRepairResultReq _ jobId ok _ =>
      ok = true → ∃ j, repairJobRegistry s0 !! jobId = Some j ∧ (rj_DeleteSource j = false → A (rj_ChunkID j) (rj_TargetNodeID j))
  | _ => True
  end.

Lemma adds_run_handler req : plan_ok P → members P s0 → request_ok req → preserves adds (run_handler src tgt rf req).
Proof.
  intros HP Hm Hreq. destruct req; cbn [run_handler request_ok] in *.
  - by apply adds_RegisterNode.
  - unfold DeregisterNode. preserve; auto with dfs.
  - apply adds_Heartbeat.
  - unfold CreateFile. preserve; auto with dfs. intros t. apply adds_Propose; [split; apply to_uint64_range|done].
  - apply preserves_gets.
  - unfold DeleteFile. preserve; auto with dfs.
  - apply preserves_gets.
  - unfold CommitFile. preserve; auto with dfs. apply adds_Propose; [apply to_uint64_range|done].
  - destruct Hreq. by apply adds_CommitChunk.
  - apply preserves_gets.
  - unfold ReportCorruption. preserve; auto with dfs.
  - by apply adds_Report.
Qed.

Lemma adds_handle req : plan_ok P → members P s0 → request_ok req → preserves adds (handle src tgt rf req).
Proof.
  intros HP Hm Hreq w Hw. unfold handle. destruct is_leader; [|done]. simpl.
  pose proof (adds_run_handler req HP Hm Hreq w Hw) as Hr. by destruct (run_handler _ _ _ req w).
Qed.
End handlers.

(** ** A consistent system *)

Section invariant.
Context (P : gmap string string) (D : gmap string bytes).

(** The job of a node is one of the state machine, for a target that is known or has no
    address yet. *)
Definition job_ok (s : MetadataFSM) (job : Replication.RepairJob) : Prop :=
  ∃ j, repairJobRegistry s !! JobID job = Some j ∧ rj_ChunkID j = ChunkID job ∧
    (Target job = "" ∨ P !! rj_TargetNodeID j = Some (Target job)).

(** The disks agree with [D], nodes run and are registered as planned, a replica the
    service lists has its chunk, under the right checksum. *)
Record consistent (s : Sys) : Prop := {
  cs_disks : all_disks_ok s;
  cs_data : ∀ addr nd c d d', sy_nodes s !! addr = Some nd → D !! c = Some d → contents (nd_disk nd) !! c = Some d' → d' = d;
  cs_running : ∀ addr nd, sy_nodes s !! addr = Some nd → P !! nd_NodeID nd = Some addr;
  cs_members : members P (fsm s);
  cs_keys : job_keys (fsm s);
  cs_replicas : ∀ c r x a d, chunkRegistry (fsm s) !! c = Some r → x ∈ cr_Replicas r →
    P !! x = Some a → D !! c = Some d → holds s a c d;
  cs_sums : ∀ c r d, chunkRegistry (fsm s) !! c = Some r → D !! c = Some d →
    cr_Checksum r = [] ∨ cr_Checksum r = sha256 d;
  cs_jobs : ∀ addr nd job, sy_nodes s !! addr = Some nd → job ∈ repairQ (nd_repairs nd) → job_ok (fsm s) job;
}.

(** What a message may say. *)
Definition message_ok (s : Sys) (m : message) : Prop :=
  match m with
  | Request _ (RegisterNodeReq n a _ _) => P !! n = Some a
  | Request _ (CommitChunkReq c raw sum) => ∀ d, D !! c = Some d →
      sum = sha256 d ∧ ∀ x e a, e ∈ raw → names_planned P x e → P !! x = Some a → holds s a c d
  | Request _ (ReportRepairResultReq _ jobId ok _) => ok = true →
      ∃ j, repairJobRegistry (fsm s) !! jobId = Some j ∧
        ∀ a d, P !! rj_TargetNodeID j = Some a → D !! rj_ChunkID j = Some d → holds s a (rj_ChunkID j) d
  | Request _ _ => True
  | BeatAnswer _ jobs => Forall (λ v, job_ok (fsm s) (job_of v)) jobs
  | Working _ job => job_ok (fsm s) job
  | Storing node c sum _ => is_Some (sy_nodes s !! node) ∧ ∀ d, D !! c = Some d → sum = sha256 d ∧ holds s node c d
  | Transferred _ to c => is_Some (sy_nodes s !! to) ∧ ∀ d, D !! c = Some d → holds s to c d
  end.

Definition cloud_ok (c : Cloud) : Prop := consistent (nw_sys c) ∧ Forall (message_ok (nw_sys c)) (nw_sent c).

(** *** Steps keep it *)

(** A node of which nothing of [D] is lost and nothing wrong is stored. *)
Record node_keeps (x y : Node) : Prop := {
  nk_id : nd_NodeID y = nd_NodeID x;
  nk_ok : store_ok (nd_disk x) → store_ok (nd_disk y);
  nk_data : ∀ c d d', D !! c = Some d → contents (nd_disk y) !! c = Some d' → d' = d ∨ contents (nd_disk x) !! c = Some d';
  nk_keep : ∀ c d, D !! c = Some d → contents (nd_disk x) !! c = Some d → contents (nd_disk y) !! c = Some d;
}.

(** What a step may do: the state machine grows by [A] and [S], nodes keep their data, or are new. *)
Record sys_keeps (A : string → string → Prop) (S : string → bytes → Prop) (s s' : Sys) : Prop := {
  sk_fsm : may_add P A S (fsm s) (fsm s');
  sk_nodes : ∀ addr x, sy_nodes s !! addr = Some x → ∃ y, sy_nodes s' !! addr = Some y ∧ node_keeps x y;
}.

Lemma keeps_holds A S s s' a c d : sys_keeps A S s s' → D !! c = Some d → holds s a c d → holds s' a c d.
Proof.
  intros Hk HD (x & Hx & Hc). destruct (sk_nodes _ _ _ _ Hk _ _ Hx) as (y & Hy & Hxy). exists y. split; [done|].
  by apply (nk_keep _ _ Hxy).
Qed.

Lemma keeps_job A S s s' job : sys_keeps A S s s' → job_ok (fsm s) job → job_ok (fsm s') job.
Proof.
  intros Hk (j & Hj & Hc & Ht). destruct (ma_jobs _ _ _ _ _ (sk_fsm _ _ _ _ Hk) _ _ Hj) as (j' & Hj' & Hc' & Ht' & _).
  exists j'. by rewrite Hc', Ht'.
Qed.

Lemma keeps_message A S s s' m : sys_keeps A S s s' → message_ok s m → message_ok s' m.
Proof.
  intros Hk. assert (Hsome : ∀ a, is_Some (sy_nodes s !! a) → is_Some (sy_nodes s' !! a)).
  { intros a [x Hx]. destruct (sk_nodes _ _ _ _ Hk _ _ Hx) as (y & Hy & _). eauto. }
  destruct m as [from req|to jobs|node job|node c sum targets|from to c]; simpl.
  - destruct req; try done.
    + intros Hm d HD. destruct (Hm d HD) as [Hsum Hin]. split; [done|]. intros. eapply keeps_holds; eauto.
    + intros Hm Hok. destruct (Hm Hok) as (j & Hj & Hh).
      destruct (ma_jobs _ _ _ _ _ (sk_fsm _ _ _ _ Hk) _ _ Hj) as (j' & Hj' & Hc' & Ht' & _).
      exists j'. split; [done|]. rewrite Hc', Ht'. intros. eapply keeps_holds; eauto.
  - intros Hm. eapply Forall_impl; [exact Hm|]. intros v. by eapply keeps_job.
  - by eapply keeps_job.
  - intros [Hn Hd]. split; [by apply Hsome|]. intros d HD. destruct (Hd d HD). split; [done|]. by eapply keeps_holds.
  - intros [Hn Hd]. split; [by apply Hsome|]. intros d HD. eapply keeps_holds; eauto.
Qed.

Lemma keeps_messages A S s s' ms : sys_keeps A S s s' → Forall (message_ok s) ms → Forall (message_ok s') ms.
Proof. intros Hk Hm. eapply Forall_impl; [exact Hm|]. intros m. by eapply keeps_message. Qed.

(** A step of the service that adds only replicas that are there. *)
Lemma consistent_world A S s w :
  may_add P A S (fsm s) (wd_fsm w) →
  (∀ c x a d, A c x → P !! x = Some a → D !! c = Some d → holds s a c d) →
  (∀ c sum d, S c sum → D !! c = Some d → sum = sha256 d) →
  consistent s → consistent (set_world w s) ∧ sys_keeps A S s (set_world w s).
Proof.
  intros Hm HA HS [H1 H2 H3 H4 H5 H6 H7 H8].
  assert (Hk : sys_keeps A S s (set_world w s)).
  { split; [done|]. intros addr x Hx. exists x. split; [done|]. by split; auto. }
  split; [|done]. split; [done|done|done|by apply (ma_members _ _ _ _ _ Hm)|by apply (ma_keys _ _ _ _ _ Hm)|..]; simpl.
  - intros c r x a d Hr Hx Ha HD. destruct (ma_replicas _ _ _ _ _ Hm _ _ _ Hr Hx) as [(r0 & Hr0 & Hx0)|Hx0].
    + by apply (H6 c r0 x a d).
    + by apply (HA c x a d).
  - intros c r d Hr HD. destruct (ma_sums _ _ _ _ _ Hm _ _ Hr) as [(r0 & Hr0 & ->)|[?|HSc]]; [by apply (H7 c)|by left|right].
    by apply (HS c).
  - intros addr nd job Hnd Hj. apply (keeps_job A S s (set_world w s)); [done|]. by eapply H8.
Qed.

(** A step of the nodes. *)
Lemma consistent_nodes s s' :
  sy_world s' = sy_world s →
  (∀ addr x, sy_nodes s !! addr = Some x → ∃ y, sy_nodes s' !! addr = Some y ∧ node_keeps x y) →
  (∀ addr y, sy_nodes s' !! addr = Some y →
     (∃ x, sy_nodes s !! addr = Some x ∧ node_keeps x y ∧ ∀ job, job ∈ repairQ (nd_repairs y) → job ∈ repairQ (nd_repairs x) ∨ job_ok (fsm s) job) ∨
     (P !! nd_NodeID y = Some addr ∧ store_ok (nd_disk y) ∧ nd_repairs y = NewReplicationManager ∧
      ∀ c d d', D !! c = Some d → contents (nd_disk y) !! c = Some d' → d' = d)) →
  consistent s → consistent s' ∧ sys_keeps (λ _ _, False) (λ _ _, False) s s'.
Proof.
  intros Hw Hfwd Hback [H1 H2 H3 H4 H5 H6 H7 H8].
  assert (Hk : sys_keeps (λ _ _, False) (λ _ _, False) s s') by (split; [by rewrite Hw|done]).
  split; [|done]. split; rewrite ?Hw; [| | |done|done| |done|].
  - intros addr y Hy. destruct (Hback addr y Hy) as [(x & Hx & Hxy & _)|(_ & ? & _)]; [|done]. by eapply nk_ok; [|eapply H1].
  - intros addr y c d d' Hy HD Hc. destruct (Hback addr y Hy) as [(x & Hx & Hxy & _)|(_ & _ & _ & Hd)]; [|by eapply Hd].
    destruct (nk_data _ _ Hxy c d d' HD Hc) as [?|?]; [done|]. by eapply H2.
  - intros addr y Hy. destruct (Hback addr y Hy) as [(x & Hx & Hxy & _)|(? & _)]; [|done]. rewrite (nk_id _ _ Hxy). by apply H3.
  - intros c r x a d Hr Hx Ha HD. eapply keeps_holds; eauto.
  - intros addr y job Hy Hj. destruct (Hback addr y Hy) as [(x & Hx & _ & Hq)|(_ & _ & Hq & _)].
    + destruct (Hq job Hj); [by eapply H8|done].
    + rewrite Hq in Hj. by apply not_elem_of_nil in Hj.
Qed.

(** A transfer or an upload of a chunk of [D] stores its data. *)
Lemma consistent_stores s s' c d :
  only_stores c d s s' → (∀ d', D !! c = Some d' → d' = d) → consistent s →
  consistent s' ∧ sys_keeps (λ _ _, False) (λ _ _, False) s s'.
Proof.
  intros Hst Hd. assert (Hns : ∀ x y, node_stores c d x y → node_keeps x y).
  { intros x y [[Hid _] Hok Hc]. split; [done|done|..].
    - intros c' d0 d' HD. destruct Hc as [-> | ->]; [by right|]. intros [[-> <-]|[_ ?]]%lookup_insert_Some; [left|by right].
      symmetry. by apply Hd.
    - intros c' d0 HD Hx. destruct Hc as [-> | ->]; [done|]. destruct (decide (c = c')) as [->|Hne].
      + rewrite lookup_insert_eq. f_equal. symmetry. by apply Hd.
      + by rewrite lookup_insert_ne. }
  apply consistent_nodes.
  - apply Hst.
  - intros addr x Hx. destruct (only_stores_node _ _ _ _ _ _ Hst Hx) as (y & Hy & Hxy). eauto.
  - intros addr y Hy. pose proof (os_nodes _ _ _ _ Hst addr) as Hn. rewrite Hy in Hn.
    destruct (sy_nodes s !! addr) as [x|] eqn:Hx; simpl in Hn; [|done]. left. exists x. split_and!; [done|by apply Hns|].
    destruct Hn as [[_ ->] _ _]. auto.
Qed.

(** A deletion of a replica nobody counts on. *)
Lemma deleted_disk io k disk :
  no_faults io → store_ok disk → store_ok (DeleteChunk io k disk).2 ∧
    (contents (DeleteChunk io k disk).2 = contents disk ∨ contents (DeleteChunk io k disk).2 = delete k (contents disk)).
Proof.
  intros Hio Hok. unfold DeleteChunk. case_decide; [by auto|].
  destruct (Delete_matches io Hio k disk Hok) as (H1 & H2 & _). simpl in H1, H2. unfold ret_as, mbind, SE_bind in H1, H2.
  assert (Hd : contents (Delete io k disk).2 = contents disk ∨ contents (Delete io k disk).2 = delete k (contents disk)).
  { destruct (Delete io k disk) as [[[]|e] disk']; simpl in *; repeat case_match; try discriminate H2; injection H2; auto. }
  destruct (Delete io k disk) as [[[]|e] disk']; simpl in *; [done|]. by destruct (errors_Is _ _).
Qed.

Lemma deleted_holds c addr k nd disk' a k' d :
  unclaimed P c addr k → sy_nodes (nw_sys c) !! addr = Some nd →
  contents disk' = contents (nd_disk nd) ∨ contents disk' = delete k (contents (nd_disk nd)) →
  ¬ (a = addr ∧ k' = k) → holds (nw_sys c) a k' d → holds (set_disk addr disk' (nw_sys c)) a k' d.
Proof.
  intros Hun Hnd Hc Hne (x & Hx & Hd). unfold holds, set_disk. rewrite Hnd. simpl. destruct (decide (addr = a)) as [->|Ha].
  - rewrite lookup_insert_eq. eexists. split; [done|]. simplify_eq. simpl. destruct Hc as [-> | ->]; [done|].
    rewrite lookup_delete_ne; [done|]. intros ->. by apply Hne.
  - rewrite lookup_insert_ne by done. by exists x.
Qed.

Lemma consistent_repairs s addr nd m :
  sy_nodes s !! addr = Some nd → (∀ job, job ∈ repairQ m → job ∈ repairQ (nd_repairs nd) ∨ job_ok (fsm s) job) → consistent s →
  consistent (set_repairs addr m s) ∧ sys_keeps (λ _ _, False) (λ _ _, False) s (set_repairs addr m s).
Proof.
  intros Hnd Hm. unfold set_repairs. rewrite Hnd. apply consistent_nodes; simpl; [done|..].
  - intros a x Hx. destruct (decide (addr = a)) as [->|Hne].
    + rewrite lookup_insert_eq. eexists. split; [done|]. simplify_eq. by split; auto.
    + rewrite lookup_insert_ne by done. eexists. split; [done|]. by split; auto.
  - intros a y [[<- <-]|[Hne Hy]]%lookup_insert_Some; left; eexists; (split; [done|]); (split; [by split; auto|]); simpl; auto.
Qed.

Lemma consistent_quiet s s' :
  quiet s s' → consistent s → consistent s' ∧ sys_keeps (λ _ _, False) (λ _ _, False) s s'.
Proof.
  intros [Hw Hn]. assert (Hsn : ∀ x y, same_node x y → node_keeps x y).
  { intros x y [Hid _ Hc Hok]. split; rewrite ?Hc; auto. }
  apply consistent_nodes; [done|..].
  - intros addr x Hx. specialize (Hn addr). rewrite Hx in Hn. destruct (sy_nodes s' !! addr); simpl in Hn; eauto. done.
  - intros addr y Hy. specialize (Hn addr). rewrite Hy in Hn. destruct (sy_nodes s !! addr) as [x|]; simpl in Hn; [|done].
    left. exists x. split_and!; [done|by apply Hsn|]. destruct Hn as [_ -> _ _]. auto.
Qed.

Lemma consistent_start s addr nd :
  sy_nodes s !! addr = None → P !! nd_NodeID nd = Some addr → store_ok (nd_disk nd) →
  (∀ c d d', D !! c = Some d → contents (nd_disk nd) !! c = Some d' → d' = d) → nd_repairs nd = NewReplicationManager →
  consistent s → consistent (set_node addr nd s) ∧ sys_keeps (λ _ _, False) (λ _ _, False) s (set_node addr nd s).
Proof.
  intros Hnone Hp Hok Hd Hr. apply consistent_nodes; simpl; [done|..].
  - intros a x Hx. rewrite lookup_insert_ne by congruence. eexists. split; [done|]. by split; auto.
  - intros a y [[<- <-]|[Hne Hy]]%lookup_insert_Some; [by right|]. left. exists y. split_and!; [done|by split; auto|auto].
Qed.
End invariant.

(** ** Every step keeps the invariant *)

Lemma hoare_any {X Y} (m : M X) (f : X → M Y) R :
  (∀ a, hoare (λ _, True) (f a) R) → hoare (λ _, True) (m ≫= f) R.
Proof. intros Hf. by apply hoare_bind with (Q := λ _ _, True). Qed.

Lemma instructions_ok P s ids :
  job_keys s → members P s → Forall (λ v, job_ok P s (job_of v)) (buildRepairInstructions s ids).
Proof.
  intros Hk Hm. apply Forall_forall. intros v Hv. unfold buildRepairInstructions in Hv.
  apply list_elem_of_omap in Hv as (id & _ & Hv). unfold GetRepairJob in Hv.
  destruct (repairJobRegistry s !! id) as [j|] eqn:Hj; [|done]. injection Hv as <-.
  exists j. simpl. rewrite (Hk _ _ Hj). split_and!; [done|done|].
  unfold address_or_empty, GetNode. case_decide; [|by left].
  destruct (nodeRegistry s !! rj_TargetNodeID j) as [n|] eqn:Hn; [right|by left]. by apply Hm.
Qed.

Lemma Heartbeat_jobs `{!Env, !MapRange} P n fs cc w ins :
  job_keys (wd_fsm (Heartbeat n fs cc w).2) → members P (wd_fsm (Heartbeat n fs cc w).2) →
  (Heartbeat n fs cc w).1 = Ok (HeartbeatResp ins) →
  Forall (λ v, job_ok P (wd_fsm (Heartbeat n fs cc w).2) (job_of v)) ins.
Proof.
  enough (Hh : hoare (λ _, True) (Heartbeat n fs cc) (λ r w, job_keys (wd_fsm w) → members P (wd_fsm w) →
    ∀ ins, r = Ok (HeartbeatResp ins) → Forall (λ v, job_ok P (wd_fsm w) (job_of v)) ins))
    by (intros Hk Hm Hr; exact (Hh w I Hk Hm ins Hr)).
  unfold Heartbeat. apply hoare_any. intros [e|e]; [|by intros w' _].
  do 5 (apply hoare_any; intros ?).
  eapply hoare_bind with (Q := λ ins w, ins = buildRepairInstructions (wd_fsm w) _); [by intros w'|].
  intros ins' w' -> Hk Hm ins2 [= <-]. by apply instructions_ok.
Qed.

Lemma enqueue_jobs_queue ctx i jobs m job :
  job ∈ repairQ (enqueue_jobs ctx i jobs m).2 → job ∈ repairQ m ∨ job ∈ job_of <$> jobs.
Proof.
  revert i m. induction jobs as [|v jobs IH]; intros i m; simpl; [by left|]. destruct (ctx i); [by left|].
  rewrite EnqueueRepair_spec. specialize (IH (S i)).
  repeat case_decide; destruct (enqueue_jobs _ _ _ _) as [dropped m2] eqn:He; simpl; intros Hin;
    (match type of He with enqueue_jobs _ _ _ ?m1 = _ => specialize (IH m1) end); rewrite He in IH; set_solver.
Qed.

Section safety.
Context `{!MapRange, !GoSort} (src tgt : PlacementStrategy) (rf : Z) (timeout : Duration).
Context (P : gmap string string) (D : gmap string bytes) (HP : plan_ok P).

Notation step := (net_step src tgt rf timeout P D).
Notation none := (λ _ _, False).

(** The replicas and checksums that are true of a system. *)
Definition true_replica (s : Sys) (c x : string) : Prop := ∀ d a, D !! c = Some d → P !! x = Some a → holds s a c d.
Definition true_sum (c : string) (sum : bytes) : Prop := ∀ d, D !! c = Some d → sum = sha256 d.

Lemma cloud_post c s' ms :
  consistent P D s' → (∃ A S, sys_keeps P D A S (nw_sys c) s') → Forall (message_ok P D (nw_sys c)) (nw_sent c) →
  Forall (message_ok P D s') ms → cloud_ok P D (mkCloud s' (nw_sent c ++ ms)).
Proof.
  intros Hs (A & S & Hk) Hold Hnew. split; [done|]. apply Forall_app. split; [|done]. simpl. by eapply keeps_messages.
Qed.

Lemma cloud_quiet c s' :
  consistent P D s' ∧ sys_keeps P D none none (nw_sys c) s' → Forall (message_ok P D (nw_sys c)) (nw_sent c) →
  cloud_ok P D (mkCloud s' (nw_sent c)).
Proof. intros [Hs Hk] Hm. split; [done|]. simpl. by eapply keeps_messages. Qed.

Lemma message_request s from req :
  message_ok P D s (Request from req) → request_ok P (true_replica s) true_sum (fsm s) req.
Proof.
  destruct req; simpl; try done.
  - intros Hm. split.
    + intros x e He Hn d a HD Ha. destruct (Hm d HD) as [_ Hh]. by eapply Hh.
    + intros d HD. by apply Hm.
  - intros Hm Hok. destruct (Hm Hok) as (j & Hj & Hh). exists j. split; [done|]. intros _ d a HD Ha. by apply Hh.
Qed.

(** A step of the service that adds what is true. *)
Lemma world_ok c w ms :
  may_add P (true_replica (nw_sys c)) true_sum (fsm (nw_sys c)) (wd_fsm w) →
  Forall (message_ok P D (set_world w (nw_sys c))) ms → cloud_ok P D c →
  cloud_ok P D (mkCloud (set_world w (nw_sys c)) (nw_sent c ++ ms)).
Proof.
  intros Hadd Hms [Hs Hm]. destruct (consistent_world P D _ _ (nw_sys c) w Hadd) as [Hs' Hk]; [|by intros k sum d HS; apply HS|done|].
  { intros k x a d Hx Ha HD. by apply Hx. }
  apply cloud_post; [done|by eauto|done|done].
Qed.

Lemma goroutine_ok {X} (m : M X) c :
  (∀ A S s0, preserves (adds P A S s0) m) → cloud_ok P D c → cloud_ok P D (at_world m c).
Proof.
  intros Hp Hc. unfold at_world. rewrite <-(app_nil_r (nw_sent c)). apply world_ok; [|constructor|done].
  apply (Hp _ _ (fsm (nw_sys c)) (sy_world (nw_sys c))). unfold adds. reflexivity.
Qed.

Lemma deliver_ok (E : Env) from req c :
  Request from req ∈ nw_sent c → cloud_ok P D c → cloud_ok P D (deliver src tgt rf from req c).
Proof.
  intros Hin [Hs Hm]. unfold deliver. destruct (handle src tgt rf req (sy_world (nw_sys c))) as [r w] eqn:Hrun. assert (Hreq := proj1 (Forall_forall _ _) Hm _ Hin).
  assert (Hadd : may_add P (true_replica (nw_sys c)) true_sum (fsm (nw_sys c)) (wd_fsm w)).
  { pose proof (adds_handle src tgt rf P _ _ (fsm (nw_sys c)) req HP (cs_members _ _ _ Hs) (message_request _ _ _ Hreq)
      (sy_world (nw_sys c)) ltac:(unfold adds; reflexivity)) as Ha. by rewrite Hrun in Ha. }
  apply world_ok; [done| |by split]. unfold answer_of.
  destruct req as [| |n fs cc| | | | | | | | |], (rp_result r) as [[]|] eqn:Hr; try constructor; [|constructor]. simpl.
  unfold handle in Hrun. destruct is_leader; simpl in Hrun.
  - pose proof (Heartbeat_jobs P n fs cc (sy_world (nw_sys c)) repairJobs) as Hj.
    destruct (Heartbeat n fs cc (sy_world (nw_sys c))) as [r0 w0]. injection Hrun as <- <-. simpl in *. subst r0.
    apply Hj; [|by apply (ma_members _ _ _ _ _ Hadd), Hs|done]. by apply (ma_keys _ _ _ _ _ Hadd), Hs.
  - injection Hrun as <- _. unfold leaderRedirect in Hr. case_decide; discriminate Hr.
Qed.

Lemma failover_ok w c :
  fsm_equiv (fsm (nw_sys c)) (wd_fsm w) → cloud_ok P D c → cloud_ok P D (mkCloud (set_world w (nw_sys c)) (nw_sent c)).
Proof.
  intros (_ & Hc & Hj & _ & Hn)%fsm_equiv_fields Hok. rewrite <-(app_nil_r (nw_sent c)). apply world_ok; [|constructor|done].
  apply may_add_nodes; [|done..]. intros Hm k n Hk. pose proof (equiv_lookup _ _ k Hn) as Heq0. rewrite Hk in Heq0.
  destruct (nodeRegistry (fsm (nw_sys c)) !! k) as [n0|] eqn:Hn0; [|done]. injection Heq0. intros. destruct (Hm _ _ Hn0). by split; congruence.
Qed.

Lemma accept_ok addr nd jobs ctx c :
  BeatAnswer addr jobs ∈ nw_sent c → sy_nodes (nw_sys c) !! addr = Some nd → cloud_ok P D c →
  cloud_ok P D (accept addr nd ctx jobs c).
Proof.
  intros Hin Hnd [Hs Hm]. unfold accept. destruct (enqueue_jobs ctx 0 jobs (nd_repairs nd)) as [dropped m] eqn:Hq. assert (Hjobs := proj1 (Forall_forall _ _) Hm _ Hin). simpl in Hjobs.
  destruct (consistent_repairs P D (nw_sys c) addr nd m Hnd) as [Hs' Hk]; [|done|].
  - intros job Hj. pose proof (enqueue_jobs_queue ctx 0 jobs (nd_repairs nd) job) as He. rewrite Hq in He.
    destruct (He Hj) as [?|Hin']; [by left|right]. apply list_elem_of_fmap in Hin' as (v & -> & Hv).
    exact (proj1 (Forall_forall _ _) Hjobs v Hv).
  - apply cloud_post; [done|by eauto|done|]. apply Forall_fmap, Forall_forall. by intros v _.
Qed.

Lemma take_ok addr nd job m c :
  sy_nodes (nw_sys c) !! addr = Some nd → take_job (nd_repairs nd) = Some (job, m) → cloud_ok P D c →
  cloud_ok P D (mkCloud (set_repairs addr m (nw_sys c)) (nw_sent c ++ [Working addr job])).
Proof.
  intros Hnd Ht [Hs Hm]. apply take_job_Some in Ht.
  destruct (consistent_repairs P D (nw_sys c) addr nd m Hnd) as [Hs' Hk]; [|done|].
  - intros job' Hj. left. rewrite Ht. simpl. by right.
  - apply cloud_post; [done|by eauto|done|]. apply Forall_singleton. simpl. eapply keeps_job; [exact Hk|].
    eapply (cs_jobs _ _ _ Hs); [done|]. rewrite Ht. simpl. left.
Qed.

(** A transfer between running nodes. *)
Lemma transfer_ok net from to k said c :
  working_disks net → cloud_ok P D c →
  (∀ s, consistent P D s → sys_keeps P D none none (nw_sys c) s → is_Some (sy_nodes s !! to) →
     (∀ d, D !! k = Some d → holds s to k d) → Forall (message_ok P D s) said) →
  cloud_ok P D (transfer net from to k said c).
Proof.
  intros Hio [Hs Hm] Hsaid. unfold transfer. destruct (peer_transfer net from to k (nw_sys c)) as [err s] eqn:Ht.
  set (d0 := match sy_nodes (nw_sys c) !! from with Some nd => default [] (contents (nd_disk nd) !! k) | None => [] end).
  destruct (peer_transfer_stores net Hio k (default d0 (D !! k)) from to (nw_sys c)) as [Hst Hok]; [apply Hs| |].
  { intros nd d' Hnd Hc. destruct (D !! k) as [d|] eqn:HD; simpl; [by eapply (cs_data _ _ _ Hs)|].
    unfold d0. by rewrite Hnd, Hc. }
  rewrite Ht in Hst, Hok. simpl in *.
  destruct (consistent_stores P D (nw_sys c) s k _ Hst) as [Hs' Hk]; [by intros d' ->|done|].
  apply cloud_post; [done|by eauto|done|]. case_decide as Herr; [|constructor].
  destruct (Hok Herr) as (y & Hy & Hc). apply Hsaid; [done|done|by eauto|]. intros d HD.
  rewrite HD in Hc. simpl in Hc. by exists y.
Qed.

Lemma repair_ok net Error_text addr nd job c :
  working_disks net → Working addr job ∈ nw_sent c → cloud_ok P D c →
  cloud_ok P D (transfer net addr (Target job) (ChunkID job) [report_message Error_text addr (nd_NodeID nd) job None] c).
Proof.
  intros Hio Hin Hc. apply transfer_ok; [done|done|]. intros s Hs' Hk [y Hy] Hh. destruct Hc as [Hs Hm].
  apply Forall_singleton. simpl. intros _.
  destruct (keeps_job P D none none (nw_sys c) s job Hk (proj1 (Forall_forall _ _) Hm _ Hin)) as (j & Hj & Hjc & Htgt).
  exists j. split; [done|]. rewrite Hjc. intros a d Ha HD. pose proof (cs_running _ _ _ Hs' _ _ Hy) as Hrun.
  destruct Htgt as [Htgt|Htgt]; [rewrite Htgt in Hrun; by destruct (po_address _ HP _ _ Hrun)|].
  rewrite Ha in Htgt. injection Htgt as ->. by apply Hh.
Qed.

Lemma receive_ok net addr nd size k data replicas cut c :
  working_disks net → (∀ d, D !! k = Some d → data = d) → sy_nodes (nw_sys c) !! addr = Some nd → cloud_ok P D c →
  cloud_ok P D (receive net addr nd (put_stream (client_frames size k replicas (Compute_checksum data) data) cut) c).
Proof.
  intros Hio Hdata Hnd [Hs Hm]. unfold receive.
  pose proof (put_stream_received (disk_io net addr) size k replicas data cut (nd_disk nd) (Hio addr) (cs_disks _ _ _ Hs _ _ Hnd)) as Hp.
  destruct (put_loop _ _ _ _ _ _ (nd_disk nd)) as [rcv d]. destruct Hp as [Hok Hcase].
  destruct (set_disk_stores k data (nw_sys c) addr nd d Hnd) as (Hst & Hat & _).
  { split; [done|done|]. destruct Hcase as [[? _]|(_ & ? & _)]; auto. }
  destruct (consistent_stores P D _ _ _ _ Hst) as [Hs' Hk]; [intros d' HD; symmetry; by apply Hdata|done|].
  apply cloud_post; [done|by eauto|done|].
  destruct Hcase as [[_ (out & -> & _)]|(_ & Hcont & last & -> & -> & ->)]; [constructor|].
  apply Forall_singleton. simpl. split; [by eauto|]. intros d' HD. rewrite <-(Hdata d' HD). split; [done|].
  eexists. split; [exact Hat|]. simpl. by rewrite Hcont, lookup_insert_eq.
Qed.

Lemma commit_ok addr nd k sum targets confirmed c :
  Storing addr k sum targets ∈ nw_sent c → sy_nodes (nw_sys c) !! addr = Some nd →
  (∀ t, t ∈ confirmed → Transferred addr t k ∈ nw_sent c) → cloud_ok P D c →
  cloud_ok P D (mkCloud (nw_sys c) (nw_sent c ++ [Request addr (CommitChunkReq k ([nd_NodeID nd] ++ confirmed) sum)])).
Proof.
  intros Hin Hnd Hconf [Hs Hm]. pose proof (proj1 (Forall_forall _ _) Hm) as Hall.
  split; [done|]. simpl. apply Forall_app. split; [done|]. apply Forall_singleton. simpl. intros d HD.
  destruct (Hall _ Hin) as [_ Hsto]. destruct (Hsto d HD) as [-> Hh]. split; [done|].
  intros x e a He Hnames Ha. pose proof (cs_running _ _ _ Hs _ _ Hnd) as Hrun.
  apply elem_of_cons in He as [->|He].
  - destruct Hnames as [->|Hx]; [congruence|]. destruct (po_address _ HP _ _ Hx) as [_ Hno]. congruence.
  - destruct (Hall _ (Hconf e He)) as [[y Hy] Ht]. pose proof (cs_running _ _ _ Hs _ _ Hy) as Hry.
    destruct Hnames as [->|Hx]; [destruct (po_address _ HP _ _ Hry) as [_ Hno]; congruence|].
    rewrite Ha in Hx. injection Hx as ->. by apply Ht.
Qed.

Lemma deleted_messages c addr k nd disk' m :
  unclaimed P c addr k → sy_nodes (nw_sys c) !! addr = Some nd →
  contents disk' = contents (nd_disk nd) ∨ contents disk' = delete k (contents (nd_disk nd)) →
  m ∈ nw_sent c → message_ok P D (nw_sys c) m → message_ok P D (set_disk addr disk' (nw_sys c)) m.
Proof.
  intros Hun Hnd Hc Hin. pose proof (un_claimed _ _ _ _ Hun m Hin) as Hcl.
  assert (Hw : fsm (set_disk addr disk' (nw_sys c)) = fsm (nw_sys c)) by (unfold set_disk; by rewrite Hnd).
  assert (Hsome : ∀ a, is_Some (sy_nodes (nw_sys c) !! a) → is_Some (sy_nodes (set_disk addr disk' (nw_sys c)) !! a)).
  { intros a Ha. unfold set_disk. rewrite Hnd. simpl. apply lookup_insert_is_Some'. auto. }
  pose proof (λ a k' d, deleted_holds P c addr k nd disk' a k' d Hun Hnd Hc) as Hh.
  destruct m as [from req|to jobs|node job|node c0 sum targets|from to c0]; simpl in *; rewrite ?Hw; [|done|done|..].
  - destruct req; simpl in *; try done.
    + intros Hm d HD. destruct (Hm d HD) as [Hsum Hall]. split; [done|]. intros x e a He Hn Ha. apply Hh; [|by eapply Hall].
      intros [-> ->]. apply Hcl. split; [done|]. exists e. split; [done|]. destruct Hn as [->|Hn]; [by right|left]. congruence.
    + intros Hm Hok. destruct (Hm Hok) as (j & Hj & Hall). exists j. split; [done|]. intros a d Ha HD. apply Hh; [|by apply Hall].
      intros [-> Hk]. apply Hcl. eauto.
  - intros [Hn Hm]. split; [by apply Hsome|]. intros d HD. destruct (Hm d HD). split; [done|]. by apply Hh.
  - intros [Hn Hm]. split; [by apply Hsome|]. intros d HD. apply Hh; [done|by apply Hm].
Qed.

Lemma delete_ok net addr nd k c :
  working_disks net → unclaimed P c addr k → sy_nodes (nw_sys c) !! addr = Some nd → cloud_ok P D c →
  cloud_ok P D (mkCloud (set_disk addr (DeleteChunk (disk_io net addr) k (nd_disk nd)).2 (nw_sys c)) (nw_sent c)).
Proof.
  intros Hio Hun Hnd [Hs Hm]. pose proof (cs_disks _ _ _ Hs _ _ Hnd) as Hd.
  destruct (deleted_disk (disk_io net addr) k (nd_disk nd) (Hio addr) Hd) as [Hok Hc].
  set (disk' := (DeleteChunk _ _ _).2) in *. split; simpl.
  - pose proof (λ a k' d, deleted_holds P c addr k nd disk' a k' d Hun Hnd Hc) as Hh.
    destruct Hs as [H1 H2 H3 H4 H5 H6 H7 H8]. unfold set_disk in *. rewrite Hnd in *. split; simpl in *; [..|done| | |done|].
    + intros a x Hx. simpl in Hx. apply lookup_insert_Some in Hx as [[_ <-]|[_ Hx]]; [done|by eapply H1].
    + intros a x k' d d' [[_ <-]|[_ Hx]]%lookup_insert_Some HD; simpl; [|by eapply H2].
      destruct Hc as [-> | ->]; [by eapply H2|]. intros [_ ?]%lookup_delete_Some. by eapply H2.
    + intros a x [[<- <-]|[_ Hx]]%lookup_insert_Some; simpl; by apply H3.
    + done.
    + intros k' r x a d Hr Hx Ha HD. apply Hh; [|by eapply H6]. intros [-> ->]. by apply (un_listed _ _ _ _ Hun r x Hr Hx).
    + intros a x job [[_ <-]|[_ Hx]]%lookup_insert_Some; simpl; by eapply H8.
  - apply Forall_forall. intros m Hin. eapply deleted_messages; [done..|]. by apply (proj1 (Forall_forall _ _) Hm).
Qed.

Lemma step_ok c c' : step c c' → cloud_ok P D c → cloud_ok P D c'.
Proof.
  destruct 1; intros Hc.
  - destruct Hc as [Hs Hm]. split; [done|]. simpl. apply Forall_app. split; [done|]. apply Forall_singleton.
    destruct req; simpl in *; try done. by intros ->.
  - by apply deliver_ok.
  - apply goroutine_ok; [|done]. intros. apply adds_sweep.
  - apply goroutine_ok; [|done]. intros. apply adds_worker_step.
  - apply goroutine_ok; [|done]. intros. apply adds_RecoverStuckJobs.
  - apply goroutine_ok; [|done]. intros. apply adds_fire_reschedule.
  - apply goroutine_ok; [|done]. intros. apply adds_fire_timer.
  - by apply failover_ok.
  - by apply delete_ok.
  - by apply accept_ok.
  - by eapply take_ok.
  - by apply repair_ok.
  - destruct Hc as [Hs Hm]. apply cloud_quiet; [|done]. eapply consistent_repairs; [done| |done]. by left.
  - by apply receive_ok.
  - apply transfer_ok; [done|done|]. intros s _ _ Hto Hh. by apply Forall_singleton.
  - by eapply commit_ok.
  - destruct Hc as [Hs Hm]. apply cloud_quiet; [|done]. by apply consistent_start.
  - destruct Hc as [Hs Hm]. apply cloud_quiet; [|done]. by apply consistent_quiet.
  - destruct Hc as [Hs Hm]. split; [done|]. simpl. apply Forall_forall. intros m Hin. apply (proj1 (Forall_forall _ _) Hm). auto.
Qed.

Lemma run_ok c c' : rtc step c c' → cloud_ok P D c → cloud_ok P D c'.
Proof. induction 1 as [|c1 c2 c3 Hstep _ IH]; [done|]. intros Hc. apply IH. by apply (step_ok c1). Qed.
End safety.

(** ** From nothing *)

(** Nothing registered, nothing started, nothing sent. *)
Definition initial (c : Cloud) : Prop := fsm (nw_sys c) = NewEmptyMetadataFsm ∧ sy_nodes (nw_sys c) = ∅ ∧ nw_sent c = [].

Lemma initial_ok P D c : initial c → cloud_ok P D c.
Proof.
  intros (Hf & Hn & Hm). split; [|rewrite Hm; constructor].
  split; unfold all_disks_ok, members, job_keys; rewrite ?Hf, ?Hn; by intros.
Qed.

Lemma cloud_replicas P D c k d r x a :
  cloud_ok P D c → D !! k = Some d → chunkRegistry (fsm (nw_sys c)) !! k = Some r →
  (x ∈ cr_Replicas r → resolved_addr (fsm (nw_sys c)) x = Some a → holds (nw_sys c) a k d) ∧
  (cr_Checksum r = [] ∨ cr_Checksum r = sha256 d).
Proof.
  intros [Hs _] HD Hr. split; [|by eapply (cs_sums _ _ _ Hs)]. intros Hx Ha.
  unfold resolved_addr, GetNode in Ha. destruct (nodeRegistry (fsm (nw_sys c)) !! x) as [n|] eqn:Hn; [|done].
  repeat case_decide; try done. injection Ha as <-. eapply (cs_replicas _ _ _ Hs); [done..| |done]. by apply (cs_members _ _ _ Hs).
Qed.

(** ** Properties *)

(** C2. The metadata service never sends a client to a replica that is not there, with two
    races excluded.  Start with an empty service and no storage nodes, and let any number of
    nodes and clients run: uploads, heartbeats, repairs, sweeps, reconciliations,
    registrations and changes of the leader in any interleaving, with requests delivered
    late, twice or never, streams broken and transfers failed.  Then every address a chunk is
    looked up at has the chunk's data, and its recorded checksum, once there is one, is the
    SHA-256 of that data.  Excluded are: a [DeleteChunk] of the reconciler that arrives while
    the replica is listed or a repair or an upload that would list it is under way (the rule
    [nt_delete]; [RepairTheorems.reconcile_races_repair] shows what it would do), and two
    streams of one chunk to one node at the same time (the rule [nt_receive] takes a stream
    in one step; [Writers.racing_writers_corrupt] shows what they would do).  Disks work, nodes
    join and do not stop, they keep the IDs and addresses of the plan [P], and whoever uploads
    a chunk of [D] uploads its data. *)
Theorem replicas_stay_true `{!MapRange, !GoSort} (src tgt : PlacementStrategy) (rf : Z) (timeout : Duration)
    (P : gmap string string) (D : gmap string bytes) (c c' : Cloud) (k x a : string) (r : ChunkRecord) (d : bytes) :
  plan_ok P → initial c → rtc (net_step src tgt rf timeout P D) c c' →
  D !! k = Some d → chunkRegistry (fsm (nw_sys c')) !! k = Some r →
  (x ∈ cr_Replicas r → resolved_addr (fsm (nw_sys c')) x = Some a → holds (nw_sys c') a k d) ∧
  (cr_Checksum r = [] ∨ cr_Checksum r = sha256 d).
Proof.
  intros HP Hc Hrun HD Hr. apply (cloud_replicas P D); [|done..]. exact (run_ok src tgt rf timeout P D HP c c' Hrun (initial_ok P D c Hc)).
Qed.

Lemma w_plan_ok : plan_ok w_plan.
Proof.
  split; [done|]. unfold w_plan. intros k a [[<- <-]|[_ [<- <-]%lookup_singleton_Some]]%lookup_insert_Some; done.
Qed.

(** The upload of [w_uploaded]: its second replica and its checksum. *)
Lemma replicas_stay_true_witness :
  holds (cl_sys w_uploaded.1.2) "h2:9000" (ComputeChunkID "f" 0) w_file.
Proof.
  assert (Hrep : (λ r, bool_decide ("n2" ∈ cr_Replicas r)) <$> chunkRegistry (fsm (cl_sys w_uploaded.1.2)) !! ComputeChunkID "f" 0 = Some true)
    by (vm_compute; reflexivity).
  assert (Hres : resolved_addr (fsm (cl_sys w_uploaded.1.2)) "n2" = Some "h2:9000") by (vm_compute; reflexivity).
  destruct (chunkRegistry (fsm (cl_sys w_uploaded.1.2)) !! ComputeChunkID "f" 0) as [r|] eqn:Hr; [|discriminate Hrep].
  injection Hrep as Hin%bool_decide_eq_true.
  destruct (ops_run MostFreeSpaceStrategy MostFreeSpaceStrategy 2 0%Z w_plan w_planned w_void _ [] w_uploaded_run) as (sent & Hrun & _).
  apply (replicas_stay_true MostFreeSpaceStrategy MostFreeSpaceStrategy 2 0%Z w_plan w_planned (mkCloud w_void [])
    (mkCloud (cl_sys w_uploaded.1.2) sent) (ComputeChunkID "f" 0) "n2" "h2:9000" r w_file w_plan_ok);
    [split_and!; reflexivity|exact Hrun|apply lookup_singleton_eq|exact Hr|exact Hin|exact Hres].
Defined.
