(* ===== verification/RepairTheorems.v ===== *)
(** * Repairs across the system

    The repair loop from end to end: the scheduler's jobs reach a node with its heartbeat,
    a worker of the node transfers the chunk, and its report makes the target a replica.
    [NetworkTheorems] shows that repairs, like everything else, never make the service list
    a replica that does not have the chunk; here, that one round repairs the chunk when
    nothing is lost, and that a reconciliation can undo a repair between its transfer and
    its report. *)

From S2P Require Import Prelude GoLib Json FsmTypes Fsm FsmCommands FsmInv FsmEquiv FsmSnapshot Placement World Scheduler Watcher Reconcile MetaServer MetaTheorems.
From S2P Require Import Sha256 DiskStore DiskStoreSpec DiskStoreTheorems Chunk StorageServer StorageTheorems Retry.
From S2P Require Import Replication StorageConfig ClientConfig Client MetaClient System StorageNode SystemTheorems Network NetworkRuns NetworkTheorems.

(** ** A repair that is not disturbed *)

Definition node_ids (n : NodeEntry) : string * string * string := (ne_NodeID n, ne_Address n, ne_Status n).

Lemma node_ids_address s s' x :
  node_ids <$> nodeRegistry s' = node_ids <$> nodeRegistry s → address_or_empty s' x = address_or_empty s x.
Proof.
  intros Hn. unfold address_or_empty, GetNode. case_decide; [|done].
  assert (Heq0 : node_ids <$> nodeRegistry s' !! x = node_ids <$> nodeRegistry s !! x) by by rewrite <-!lookup_fmap, Hn.
  destruct (nodeRegistry s' !! x), (nodeRegistry s !! x); try done. by injection Heq0.
Qed.

(** What a heartbeat leaves alone. *)
Record beat_keeps (w0 w : World) : Prop := {
  bk_chunks : chunkRegistry (wd_fsm w) = chunkRegistry (wd_fsm w0);
  bk_jobs : repairJobRegistry (wd_fsm w) = repairJobRegistry (wd_fsm w0);
  bk_nodes : node_ids <$> nodeRegistry (wd_fsm w) = node_ids <$> nodeRegistry (wd_fsm w0);
  bk_sched : wd_sched w = wd_sched w0;
}.

Lemma beat_keeps_node w0 w n x y :
  beat_keeps w0 w → nodeRegistry (wd_fsm w) !! n = Some x → node_ids y = node_ids x →
  beat_keeps w0 (set_fsm (set_nodeRegistry (wd_fsm w) (<[n := y]> (nodeRegistry (wd_fsm w)))) w).
Proof.
  intros [H1 H2 H3 H4] Hx Hy. split; [done|done| |done]. simpl. rewrite fmap_insert, Hy, <-H3.
  apply insert_id. by rewrite lookup_fmap, Hx.
Qed.

Lemma beat_keeps_seen w0 n t : preserves (beat_keeps w0) (watcher_UpdateLastSeen n t).
Proof.
  intros w Hw. unfold watcher_UpdateLastSeen, UpdateLastSeen.
  destruct (nodeRegistry (wd_fsm w) !! n) as [e|] eqn:He; simpl; [by eapply beat_keeps_node|by destruct Hw].
Qed.

Lemma beat_keeps_space `{!Env, !MapRange} w0 n sp cc :
  preserves (beat_keeps w0) (ProposeUpdateNodeSpace n (to_uint64 sp) (to_uint64 cc)).
Proof.
  apply preserves_bind; [by intros w [? ? ? ?]|]. intros t w Hw. unfold Propose.
  rewrite Apply_encode by (split; apply to_uint64_range). cbn [exec]. unfold handleCmdUpdateNodeSpace, GetNode. simpl.
  destruct (nodeRegistry (wd_fsm w) !! n) as [e|] eqn:He; destruct (raft_apply _); simpl;
    try (by destruct Hw); by apply (beat_keeps_node w0 (next_proposal w) n e); [destruct Hw|..].
Qed.

Lemma Heartbeat_run `{!Env, !MapRange} n fs cc w :
  is_Some (nodeRegistry (wd_fsm w) !! n) →
  ∃ w', Heartbeat n fs cc w =
      (Ok (HeartbeatResp (buildRepairInstructions (wd_fsm w') (default [] (pendingJobs (wd_sched w) !! n)))), w') ∧
    beat_keeps w w'.
Proof.
  intros [e He]. enough (Hh : hoare (λ w1, w1 = w) (Heartbeat n fs cc) (λ r w', beat_keeps w w' ∧
    r = Ok (HeartbeatResp (buildRepairInstructions (wd_fsm w') (default [] (pendingJobs (wd_sched w) !! n)))))).
  { destruct (Heartbeat n fs cc w) as [r w'] eqn:Hw. specialize (Hh w eq_refl). rewrite Hw in Hh. simpl in Hh. destruct Hh as [Hk ->]. eauto. }
  unfold Heartbeat. eapply hoare_bind with (Q := λ a w1, a = Ok e ∧ beat_keeps w w1).
  { intros w1 ->. unfold GetNode; simpl. rewrite He. by split. }
  intros a. destruct a as [e'|]; [|by intros w1 [? _]].
  apply hoare_weaken with (P' := beat_keeps w) (Q' := λ r w', beat_keeps w w' ∧
    r = Ok (HeartbeatResp (buildRepairInstructions (wd_fsm w') (default [] (pendingJobs (wd_sched w) !! n)))));
    [|by intros w1 [_ ?]|done].
  eapply hoare_bind with (Q := λ _, beat_keeps w); [by intros w1 [? ? ? ?]|]. intros count.
  eapply hoare_bind with (Q := λ _, beat_keeps w); [by intros w1 [? ? ? ?]|]. intros t.
  eapply hoare_bind with (Q := λ _, beat_keeps w); [apply beat_keeps_seen|]. intros _.
  eapply hoare_bind with (Q := λ _, beat_keeps w); [case_decide; [apply beat_keeps_space|apply preserves_ret]|]. intros _.
  eapply hoare_bind with (Q := λ js w1, beat_keeps w w1 ∧ js = default [] (pendingJobs (wd_sched w) !! n)).
  { intros w1 Hw1. unfold sched_GetPendingJobsForNode. simpl. by rewrite (bk_sched _ _ Hw1). }
  intros js w1 [Hw1 ->]. by split.
Qed.

Lemma length_omap {X Y} (f : X → option Y) l : length (omap f l) ≤ length l.
Proof.
  induction l as [|x l IH]; [done|]. change (omap f (x :: l)) with (match f x with Some y => y :: omap f l | None => omap f l end).
  destruct (f x); cbn [length]; lia.
Qed.

Lemma enqueue_room ctx i jobs m :
  (∀ i, ctx i = false) → length (repairQ m) + length jobs ≤ repairQueueCap →
  ∃ l ks, enqueue_jobs ctx i jobs m = ([], mkManager (repairQ m ++ l) ks).
Proof.
  intros Hctx. revert i m. induction jobs as [|v jobs IH]; intros i m Hlen; simpl in *.
  { exists [], (inflight m). rewrite app_nil_r. by destruct m. }
  rewrite Hctx, EnqueueRepair_spec. case_decide; [|rewrite decide_True by lia].
  - destruct (IH (S i) m) as (l & ks & ->); [lia|]. eauto.
  - destruct (IH (S i) (mkManager (repairQ m ++ [job_of v]) ({[repair_key (job_of v)]} ∪ inflight m))) as (l & ks & ->).
    { simpl. rewrite length_app. simpl. lia. }
    exists (job_of v :: l), ks. simpl. by rewrite <-app_assoc.
Qed.

Record repairs_work (net : Net) : Prop := {
  wk_disk : ∀ addr, no_faults (disk_io net addr);
  wk_meta : ∀ n, meta_fate net n = Delivered;
  wk_dial : ∀ n, peer_dial net n = None;
  wk_peer : ∀ n, peer_net net n = sends_ok;
  wk_amb : ∀ n, ctx_err (node_amb net n) 0 = None;
}.

(** The first job pending for the node at [addr] copies a chunk it has to the node at
    [to], which has room for it. *)
Record repair_ready `{!Env} (leader : string) (s : Sys) (addr to jid : string) (rest : list string)
    (j : FsmTypes.RepairJob) (r : ChunkRecord) (nd nd' : Node) (d : bytes) : Prop := {
  rd_source : sy_nodes s !! addr = Some nd;
  rd_target : sy_nodes s !! to = Some nd';
  rd_apart : addr ≠ to;
  rd_disks : store_ok (nd_disk nd) ∧ store_ok (nd_disk nd');
  rd_conn : conn (nd_cache nd) = Some leader;
  rd_leads : is_leader = true;
  rd_idle : nd_repairs nd = NewReplicationManager;
  rd_known : is_Some (nodeRegistry (fsm s) !! nd_NodeID nd);
  rd_pending : pendingJobs (wd_sched (sy_world s)) !! nd_NodeID nd = Some (jid :: rest);
  rd_few : S (length rest) ≤ repairQueueCap;
  rd_job : repairJobRegistry (fsm s) !! jid = Some j ∧ rj_JobID j = jid ∧ rj_DeleteSource j = false;
  rd_chunk : chunkRegistry (fsm s) !! rj_ChunkID j = Some r;
  rd_address : address_or_empty (fsm s) (rj_TargetNodeID j) = to;
  rd_data : contents (nd_disk nd) !! rj_ChunkID j = Some d ∧ d ≠ [];
  rd_valid : validateChunkId (splitLevel (nd_disk nd')) (rj_ChunkID j) = Ok tt;
  rd_room : (used_bytes (contents (nd_disk nd')) + blen d - size_of (contents (nd_disk nd')) (rj_ChunkID j)
               ≤ totalSpace (nd_disk nd'))%Z;
}.

Section undisturbed.
Context {Env0 : Env} {Range0 : MapRange} {Sort0 : GoSort} (src tgt : PlacementStrategy) (rf : Z) (leader : string) (net : Net).
Context (p : Policy) (Hp : (1 ≤ MaxAttempts p)%Z) (Hnet : repairs_work net).

Notation invoke := (node_invoke src tgt rf leader net p).
Notation run req := (run_handler src tgt rf req).

Lemma set_cache_same addr nd s : sy_nodes s !! addr = Some nd → set_cache addr (nd_cache nd) s = s.
Proof.
  intros Hnd. unfold set_cache. rewrite Hnd. unfold set_node. destruct s as [w ns k], nd. simpl in *. by rewrite insert_id.
Qed.

Lemma node_invoke_direct addr req s nd r w :
  sy_nodes s !! addr = Some nd → conn (nd_cache nd) = Some leader → is_leader = true →
  run req (sy_world s) = (Ok r, w) → invoke addr req s = (Ok r, set_world w (tick s)).
Proof.
  intros Hnd Hc Hl Hr. unfold node_invoke. rewrite Hnd.
  rewrite (invoke_direct src tgt rf leader net p _ req _ s r w) by (done || apply Hnet).
  by rewrite set_cache_same.
Qed.

Lemma transfer_run_sys from to c d s nd nd' :
  sy_nodes s !! from = Some nd → sy_nodes s !! to = Some nd' → store_ok (nd_disk nd) → store_ok (nd_disk nd') →
  contents (nd_disk nd) !! c = Some d → d ≠ [] → validateChunkId (splitLevel (nd_disk nd')) c = Ok tt →
  (used_bytes (contents (nd_disk nd')) + blen d - size_of (contents (nd_disk nd')) c ≤ totalSpace (nd_disk nd'))%Z →
  ∃ k dst', transfer_with_retry net from to c s = (None, set_disk to dst' (set_disk from (set_calls k (nd_disk nd)) (tick s))) ∧
    contents dst' !! c = Some d.
Proof.
  intros Hf Ht Hok Hok' Hc Hd Hv Hroom.
  destruct (transfer_stored (disk_io net from) (disk_io net to) (wk_disk _ Hnet from) (wk_disk _ Hnet to) c d (nd_disk nd)
    (nd_disk nd') Hok Hok' Hc Hd Hv Hroom) as (k & dst' & Hrun & Hcd & _).
  exists k, dst'. split; [|by rewrite Hcd, lookup_insert_eq].
  unfold transfer_with_retry, Do. change (Z.to_nat (MaxAttempts DefaultRetryPolicy)) with 3. cbn [do_loop].
  rewrite (wk_amb _ Hnet). unfold peer_transfer. cbn [tick sy_nodes]. rewrite Hf, Ht.
  by rewrite (wk_peer _ Hnet), (wk_dial _ Hnet), Hrun.
Qed.

(** After the beat the job waits first in the queue. *)
Lemma beat_delivers s addr to jid rest j r nd nd' d ni registerer ctx sent :
  repair_ready leader s addr to jid rest j r nd nd' d → GetNodeID ni = nd_NodeID nd → (∀ i, ctx i = false) → sent [] = [] →
  ∃ l ks w', beat_keeps (sy_world s) w' ∧
    heartbeat_tick src tgt rf leader net p addr ni registerer ctx sent s =
    set_node addr (mkNode (nd_NodeID nd) (nd_disk nd) (nd_cache nd)
      (mkManager (mkJob jid (rj_ChunkID j) (address_or_empty (wd_fsm w') (rj_SourceNodeID j)) to :: l) ks))
      (set_world w' (tick s)).
Proof.
  intros [Hsrc _ _ _ Hconn Hl Hidle Hknown Hpend Hfew (Hj & Hjid & _) _ Hto _ _ _] Hid Hctx Hsent.
  unfold heartbeat_tick, sendBeat, sm_Heartbeat. set (req := HeartbeatReq _ _ _).
  destruct (Heartbeat_run (GetNodeID ni) (to_int64 (GetFreeSpace ni s)) (to_int32 (GetChunkCount ni s)) (sy_world s))
    as (w' & Hw & Hk); [by rewrite Hid|].
  rewrite Hid, Hpend in Hw. simpl in Hw. unfold GetRepairJob in Hw. rewrite (bk_jobs _ _ Hk), Hj in Hw.
  assert (Hrun : run req (sy_world s) = Heartbeat (nd_NodeID nd) (to_int64 (GetFreeSpace ni s)) (to_int32 (GetChunkCount ni s))
    (sy_world s)) by (unfold req; simpl; by rewrite Hid).
  rewrite Hw in Hrun. rewrite (node_invoke_direct addr req s nd _ w' Hsrc Hconn Hl Hrun).
  cbn [processHeartbeatResponse].
  change (sy_nodes (set_world w' (tick s))) with (sy_nodes s). rewrite Hsrc.
  rewrite Hidle. cbn [enqueue_jobs]. rewrite Hctx, EnqueueRepair_spec.
  rewrite decide_False by (cbn [NewReplicationManager inflight]; set_solver).
  rewrite decide_True by (cbn [NewReplicationManager repairQ length]; unfold repairQueueCap; lia). cbn [NewReplicationManager repairQ inflight app].
  set (job := job_of _). set (ins := buildRepairInstructions _ rest).
  destruct (enqueue_room ctx 1 ins (mkManager [job] ({[repair_key job]} ∪ ∅)) Hctx) as (l & ks & Heq).
  { simpl. enough (length ins ≤ length rest) by lia.
    apply length_omap. }
  rewrite Heq. simpl. unfold report_dropped. rewrite Hsent. simpl.
  exists l, ks, w'. split; [done|]. unfold set_repairs. change (sy_nodes (set_world w' (tick s))) with (sy_nodes s).
  rewrite Hsrc. subst job. unfold job_of. simpl. rewrite Hjid.
  assert (Ha : address_or_empty (wd_fsm w') (rj_TargetNodeID j) = to).
  { rewrite <-Hto. apply node_ids_address, Hk. }
  by rewrite Ha.
Qed.

(** A round of a worker with such a job. *)
Lemma worker_repairs `{!Committing Env0} s addr to jid j r nd nd' d source l ks Error_text :
  sy_nodes s !! addr = Some nd → sy_nodes s !! to = Some nd' → addr ≠ to → store_ok (nd_disk nd) → store_ok (nd_disk nd') →
  conn (nd_cache nd) = Some leader → is_leader = true →
  nd_repairs nd = mkManager (mkJob jid (rj_ChunkID j) source to :: l) ks →
  repairJobRegistry (fsm s) !! jid = Some j → rj_DeleteSource j = false → chunkRegistry (fsm s) !! rj_ChunkID j = Some r →
  contents (nd_disk nd) !! rj_ChunkID j = Some d → d ≠ [] → validateChunkId (splitLevel (nd_disk nd')) (rj_ChunkID j) = Ok tt →
  (used_bytes (contents (nd_disk nd')) + blen d - size_of (contents (nd_disk nd')) (rj_ChunkID j) ≤ totalSpace (nd_disk nd'))%Z →
  let s' := repair_worker src tgt rf leader net p Error_text addr s in
  holds s' to (rj_ChunkID j) d ∧
  cr_Replicas <$> chunkRegistry (fsm s') !! rj_ChunkID j = Some (appendUnique (cr_Replicas r) (rj_TargetNodeID j)) ∧
  rj_Status <$> repairJobRegistry (fsm s') !! jid = Some RepairStatusDone ∧
  wd_sched (sy_world s') = clear_pending (nd_NodeID nd) jid (wd_sched (sy_world s)) ∧
  nodeRegistry (fsm s') = nodeRegistry (fsm s).
Proof.
  intros Ha Ht Hne Hok Hok' Hconn Hl Hrep Hj Hdel Hr Hc Hd Hv Hroom. unfold repair_worker. rewrite Ha, Hrep. cbn [take_job repairQ].
  set (m1 := mkManager l _). set (nd1 := mkNode (nd_NodeID nd) (nd_disk nd) (nd_cache nd) m1).
  assert (Hs1 : set_repairs addr m1 s = set_node addr nd1 s) by (unfold set_repairs; by rewrite Ha). rewrite Hs1.
  destruct (transfer_run_sys addr to (rj_ChunkID j) d (set_node addr nd1 s) nd1 nd') as (k & dst' & Htr & Hcd); try done.
  { apply lookup_insert_eq. }
  { simpl. by rewrite lookup_insert_ne. }
  cbn [Target ChunkID]. rewrite Htr. set (s2 := set_disk to dst' _).
  assert (Hs2 : s2 = mkSys (sy_world s) (<[to := mkNode (nd_NodeID nd') dst' (nd_cache nd') (nd_repairs nd')]>
    (<[addr := mkNode (nd_NodeID nd) (set_calls k (nd_disk nd)) (nd_cache nd) m1]> (sy_nodes s))) (S (sy_ops s))).
  { unfold s2, set_disk. simpl. rewrite lookup_insert_eq. simpl. rewrite lookup_insert_ne, lookup_insert_ne by done. rewrite Ht.
    unfold set_node; simpl. by rewrite insert_insert_eq. }
  clearbody s2. subst s2. cbn [repair_report]. unfold sm_ReportRepairResult. cbn [rr_NodeId rr_JobId rr_JobSucceed rr_Error JobID].
  pose proof (report_success_run (sy_world s) (nd_NodeID nd) jid "" j r Hj Hdel Hr) as Hrun.
  destruct (ReportRepairResult (nd_NodeID nd) jid true "" (sy_world s)) as [x w'] eqn:Hrr.
  destruct Hrun as (-> & Hst & Hreps & Hsched & Hnodes).
  erewrite node_invoke_direct; [|simpl; rewrite lookup_insert_ne by done; apply lookup_insert_eq|done|done|exact Hrr].
  unfold set_repairs, set_node. simpl. rewrite lookup_insert_ne, lookup_insert_eq by done. simpl. split_and!; [|done..].
  eexists. simpl. rewrite lookup_insert_ne, lookup_insert_eq by done. split; [done|]. exact Hcd.
Qed.

(** The beat and the round one after the other. *)
Lemma beat_and_work `{!Committing Env0} s addr to jid rest j r nd nd' d ni registerer sent Error_text :
  repair_ready leader s addr to jid rest j r nd nd' d → GetNodeID ni = nd_NodeID nd → sent [] = [] →
  let s1 := heartbeat_tick src tgt rf leader net p addr ni registerer (λ _, false) sent s in
  let s2 := repair_worker src tgt rf leader net p Error_text addr s1 in
  holds s2 to (rj_ChunkID j) d ∧
  cr_Replicas <$> chunkRegistry (fsm s2) !! rj_ChunkID j = Some (appendUnique (cr_Replicas r) (rj_TargetNodeID j)) ∧
  rj_Status <$> repairJobRegistry (fsm s2) !! jid = Some RepairStatusDone ∧
  default [] (pendingJobs (wd_sched (sy_world s2)) !! nd_NodeID nd) = rest ∧
  node_ids <$> nodeRegistry (fsm s2) = node_ids <$> nodeRegistry (fsm s).
Proof.
  intros Hr Hid Hsent s1 s2.
  destruct (beat_delivers s addr to jid rest j r nd nd' d ni registerer (λ _, false) sent
    Hr Hid (λ _, eq_refl) Hsent) as (l & ks & w' & Hk & Hs1). fold s1 in Hs1.
  destruct Hr as [Hsrc Htgt Hne [Hok Hok'] Hconn Hl _ _ Hpend _ (Hj & _ & Hdel) Hck _ [Hc Hd] Hv Hroom].
  set (nd1 := mkNode _ _ _ _) in Hs1.
  destruct (worker_repairs s1 addr to jid j r nd1 nd' d
    (address_or_empty (wd_fsm w') (rj_SourceNodeID j)) l ks Error_text) as (H1 & H2 & H3 & H4 & H5); try done.
  - rewrite Hs1. apply lookup_insert_eq.
  - rewrite Hs1. simpl. by rewrite lookup_insert_ne.
  - rewrite Hs1. simpl. by rewrite (bk_jobs _ _ Hk).
  - rewrite Hs1. simpl. by rewrite (bk_chunks _ _ Hk).
  - fold s2 in H4, H5. split_and!; [exact H1|exact H2|exact H3| |rewrite H5, Hs1; apply Hk]. rewrite H4, Hs1. simpl. rewrite (bk_sched _ _ Hk).
    unfold clear_pending. rewrite Hpend. cbn [removeJob]. rewrite (decide_True (P := jid = jid)) by done. destruct rest; simpl.
    + by rewrite lookup_delete_eq.
    + by rewrite lookup_insert_eq.
Qed.
End undisturbed.

(** ** Properties *)

(** Repairs never make the metadata service list a replica that is not there: start
    from a consistent system and let operations follow one another in any order. *)
Theorem repairs_keep_replicas_true `{!MapRange, !GoSort} (src tgt : PlacementStrategy) (rf : Z) (timeout : Duration)
    (P : gmap string string) (D : gmap string bytes) (s s' : Sys) (c x a : string) (r : ChunkRecord) (d : bytes) :
  plan_ok P → consistent P D s → rtc (op_step src tgt rf timeout P D) s s' →
  D !! c = Some d → chunkRegistry (fsm s') !! c = Some r → x ∈ cr_Replicas r → resolved_addr (fsm s') x = Some a →
  holds s' a c d.
Proof.
  intros HP Hs Hrun HD Hr Hx Ha. destruct (ops_run src tgt rf timeout P D s s' [] Hrun) as (sent & Hnet & _).
  apply (cloud_replicas P D (mkCloud s' sent) c d r x a); [|done..].
  apply (run_ok src tgt rf timeout P D HP _ _ Hnet). split; [done|constructor].
Qed.

(** C6. One heartbeat and one round of a repair worker repair a chunk: when nothing is lost
    and Raft commits, a source node whose first pending job copies a chunk it has to a node
    with room leaves the target with the data, the target listed once as a replica, the
    job done and the other pending jobs still pending. *)
Theorem heartbeat_repairs {Env0 : Env} {Commit0 : Committing Env0} {Range0 : MapRange} {Sort0 : GoSort}
    (src tgt : PlacementStrategy) (rf : Z) (leader : string) (net : Net) (p : Policy) (Error_text : error → string)
    (ni : service_NodeInfo) (registerer : bool) (sent : list RepairInstruction → list RepairInstruction)
    (s : Sys) (addr to jid : string) (rest : list string) (j : FsmTypes.RepairJob) (r : ChunkRecord) (nd nd' : Node) (d : bytes) :
  repairs_work net → (1 ≤ MaxAttempts p)%Z → repair_ready leader s addr to jid rest j r nd nd' d →
  GetNodeID ni = nd_NodeID nd → sent [] = [] →
  let s1 := heartbeat_tick src tgt rf leader net p addr ni registerer (λ _, false) sent s in
  let s2 := repair_worker src tgt rf leader net p Error_text addr s1 in
  holds s2 to (rj_ChunkID j) d ∧
  cr_Replicas <$> chunkRegistry (fsm s2) !! rj_ChunkID j = Some (appendUnique (cr_Replicas r) (rj_TargetNodeID j)) ∧
  rj_Status <$> repairJobRegistry (fsm s2) !! jid = Some RepairStatusDone ∧
  default [] (pendingJobs (wd_sched (sy_world s2)) !! nd_NodeID nd) = rest.
Proof.
  intros Hnet Hp Hr Hid Hsent s1 s2.
  by destruct (beat_and_work src tgt rf leader net p Hp Hnet s addr to jid rest j r nd nd' d ni registerer sent Error_text
    Hr Hid Hsent) as (H1 & H2 & H3 & H4 & _).
Qed.

(** A chunk on [n1], and a job to copy it to [n2]. *)
Definition w_repair_log : list command :=
  [RegisterNodeC (mkCommandRegisterNode "n1" "h1:9000" 500%Z 0%Z 10%Z);
   RegisterNodeC (mkCommandRegisterNode "n2" "h2:9000" 400%Z 0%Z 10%Z);
   CreateFileC (mkCommandCreateFile "f1" "a.txt" ["abcdef"] 5%Z 65536%Z [] 11%Z);
   CommitChunkC (mkCommandCommitChunk "abcdef" ["n1"] (sha256 (to_bytes "hello")));
   CreateRepairJobC (mkCommandCreateRepairJob "j1" 20%Z "abcdef" false "n1" "n2");
   UpdateRepairJobC (mkCommandUpdateRepairJob "j1" RepairStatusInProgress "" 21%Z 0%Z "")].
Definition w_repair_fsm : MetadataFSM := apply_log NewEmptyMetadataFsm (log_of w_repair_log).
Definition w_source : Node :=
  mkNode "n1" demo_store2 (mkLeaderCache "m1:1" ["m1:1"] 0 (Some "m1:1")) NewReplicationManager.
Definition w_repair_sys : Sys :=
  mkSys (mkWorld w_repair_fsm (mkSched {["n1" := ["j1"]]} {["abcdef:n2" := "j1"]} [] [] 2%Z) ∅ ∅ [] 0 0 0)
    (<["h1:9000" := w_source]>
      {["h2:9000" := w_node "n2" "/b"]}) 0.
Definition w_source_info : service_NodeInfo := mkServiceNodeInfo (λ _, 0%Z) "n1" (λ _, 1%Z) (λ _, Ok ["abcdef"]) "h1:9000".
Definition w_data : gmap string bytes := {["abcdef" := to_bytes "hello"]}.

Lemma w_repair_nodes addr nd :
  sy_nodes w_repair_sys !! addr = Some nd →
  addr = "h1:9000" ∧ nd = w_source ∨
  addr = "h2:9000" ∧ nd = w_node "n2" "/b".
Proof.
  unfold w_repair_sys. simpl. intros [[<- <-]|[_ [<- <-]%lookup_singleton_Some]]%lookup_insert_Some; auto.
Qed.

Lemma w_repair_members : members w_plan w_repair_fsm.
Proof.
  intros k n Hk. refine (proj1 (bool_decide_eq_true _)
    (map_check (λ k n, bool_decide (ne_NodeID n = k ∧ w_plan !! k = Some (ne_Address n))) (nodeRegistry w_repair_fsm) k n _ Hk)).
  vm_compute. reflexivity.
Qed.

Lemma w_repair_consistent : consistent w_plan w_data w_repair_sys.
Proof.
  unfold w_data. split.
  - intros addr nd [[_ ->]|[_ ->]]%w_repair_nodes; [unfold w_source; cbn [nd_disk]; exact demo_store2_ok|by apply empty_store_ok].
  - intros addr nd c d d' Hnd [<- <-]%lookup_singleton_Some. revert Hnd.
    intros [[_ ->]|[_ ->]]%w_repair_nodes; vm_compute; congruence.
  - intros addr nd [[-> ->]|[-> ->]]%w_repair_nodes; vm_compute; reflexivity.
  - exact w_repair_members.
  - intros id j Hj. refine (proj1 (bool_decide_eq_true _)
      (map_check (λ id j, bool_decide (rj_JobID j = id)) (repairJobRegistry w_repair_fsm) id j _ Hj)). vm_compute. reflexivity.
  - intros c r x a d Hr Hx Ha [<- <-]%lookup_singleton_Some.
    assert (cr_Replicas r = ["n1"]) as Hreps by (vm_compute in Hr; by injection Hr as <-).
    rewrite Hreps, list_elem_of_singleton in Hx. subst x.
    assert (a = "h1:9000") as -> by (vm_compute in Ha; by injection Ha as <-).
    eexists. split; [unfold w_repair_sys; simpl; apply lookup_insert_eq|]. vm_compute. reflexivity.
  - intros c r d Hr [<- <-]%lookup_singleton_Some. right. vm_compute in Hr. injection Hr as <-. vm_compute. reflexivity.
  - intros addr nd job [[_ ->]|[_ ->]]%w_repair_nodes; intros []%not_elem_of_nil.
Qed.

Definition w_beaten : Sys :=
  @heartbeat_tick demo_Env _ _ MostFreeSpaceStrategy MostFreeSpaceStrategy 2 "m1:1" w_quiet DefaultPolicy
    "h1:9000" w_source_info true (λ _, false) id w_repair_sys.
Definition w_repaired : Sys :=
  @repair_worker demo_Env _ _ MostFreeSpaceStrategy MostFreeSpaceStrategy 2 "m1:1" w_quiet DefaultPolicy
    (λ _, "") "h1:9000" w_beaten.

Lemma w_repair_run : rtc (op_step MostFreeSpaceStrategy MostFreeSpaceStrategy 2 0%Z w_plan w_data) w_repair_sys w_repaired.
Proof.
  apply (rtc_l _ _ w_beaten); [|apply rtc_once].
  - unfold w_beaten. apply op_beat; [by intros addr n|reflexivity].
  - unfold w_repaired. apply op_worker. by intros addr n.
Qed.

Lemma repairs_keep_replicas_true_witness :
  "n2" ∈ from_option cr_Replicas [] (chunkRegistry (fsm w_repaired) !! "abcdef") ∧
  holds w_repaired "h2:9000" "abcdef" (to_bytes "hello").
Proof.
  assert (Hr : ∃ r, chunkRegistry (fsm w_repaired) !! "abcdef" = Some r ∧ "n2" ∈ cr_Replicas r).
  { destruct (chunkRegistry (fsm w_repaired) !! "abcdef") as [r|] eqn:Hr.
    - exists r. split; [reflexivity|].
      assert (Hreps : cr_Replicas <$> chunkRegistry (fsm w_repaired) !! "abcdef" = Some ["n1"; "n2"]) by (vm_compute; reflexivity).
      rewrite Hr in Hreps. simpl in Hreps. injection Hreps as ->. compute_decide.
    - assert (Hs : is_Some (chunkRegistry (fsm w_repaired) !! "abcdef")) by (vm_compute; eauto).
      rewrite Hr in Hs. destruct Hs as [? Hs]. discriminate Hs. }
  destruct Hr as (r & Hr & Hin). split; [rewrite Hr; exact Hin|].
  apply (repairs_keep_replicas_true MostFreeSpaceStrategy MostFreeSpaceStrategy 2 0%Z w_plan w_data w_repair_sys w_repaired
    "abcdef" "n2" "h2:9000" r (to_bytes "hello") w_plan_ok w_repair_consistent);
    [|vm_compute; reflexivity|exact Hr|exact Hin|vm_compute; reflexivity].
  exact w_repair_run.
Defined.

Lemma w_repair_ready : ∃ j r nd nd',
  @repair_ready demo_Env "m1:1" w_repair_sys "h1:9000" "h2:9000" "j1" [] j r nd nd' (to_bytes "hello") ∧
  rj_ChunkID j = "abcdef" ∧ rj_TargetNodeID j = "n2" ∧ nd_NodeID nd = "n1".
Proof.
  assert (Hjob : (λ j, (rj_JobID j, rj_ChunkID j, rj_TargetNodeID j, rj_DeleteSource j)) <$>
    repairJobRegistry w_repair_fsm !! "j1" = Some ("j1", "abcdef", "n2", false)) by (vm_compute; reflexivity).
  assert (Hchunk : is_Some (chunkRegistry w_repair_fsm !! "abcdef")) by (vm_compute; eauto).
  destruct Hchunk as [r Hr]. destruct (repairJobRegistry w_repair_fsm !! "j1") as [j|] eqn:Hj; [|discriminate Hjob].
  injection Hjob as Hjid Hc Ht Hdel. exists j, r, w_source, (w_node "n2" "/b").
  split; [|by split_and!]. split; rewrite ?Hc, ?Ht.
  - unfold w_repair_sys. apply lookup_insert_eq.
  - unfold w_repair_sys. simpl. rewrite lookup_insert_ne by done. apply lookup_singleton_eq.
  - done.
  - clear. split; [exact (cs_disks _ _ _ w_repair_consistent "h1:9000" w_source (lookup_insert_eq _ _ _))|by apply empty_store_ok].
  - reflexivity.
  - reflexivity.
  - reflexivity.
  - vm_compute. eauto.
  - vm_compute. reflexivity.
  - simpl. unfold repairQueueCap. lia.
  - split_and!; [exact Hj|done..].
  - exact Hr.
  - vm_compute. reflexivity.
  - split; [vm_compute; reflexivity|discriminate].
  - vm_compute. reflexivity.
  - vm_compute. discriminate.
Qed.

Lemma heartbeat_repairs_witness :
  holds w_repaired "h2:9000" "abcdef" (to_bytes "hello") ∧
  rj_Status <$> repairJobRegistry (fsm w_repaired) !! "j1" = Some RepairStatusDone.
Proof.
  destruct w_repair_ready as (j & r & nd & nd' & Hr & Hc & _ & Hid).
  destruct (@heartbeat_repairs demo_Env _ _ _ MostFreeSpaceStrategy MostFreeSpaceStrategy 2 "m1:1" w_quiet DefaultPolicy
    (λ _, "") w_source_info true id w_repair_sys "h1:9000" "h2:9000" "j1" [] j r nd nd' (to_bytes "hello")
    (Build_repairs_work w_quiet (λ _ _, eq_refl) (λ _, eq_refl) (λ _, eq_refl) (λ _, eq_refl) (λ _, eq_refl))
    ltac:(vm_compute; discriminate) Hr (eq_sym Hid) eq_refl) as (H1 & _ & H3 & _).
  rewrite Hc in H1. split; [exact H1|exact H3].
Defined.

(** ** A repair that is undone before it is reported *)

(** [n2] came back with a copy the service does not list; its inventory waits to be
    reconciled while a worker of [n1] has the job to copy the chunk to [n2]. *)
Definition w_stale : Node := mkNode "n2" demo_store2 (mkLeaderCache "m1:1" ["m1:1"] 0 (Some "m1:1")) NewReplicationManager.
Definition w_race_sys : Sys :=
  mkSys (mkWorld w_repair_fsm (mkSched {["n1" := ["j1"]]} {["abcdef:n2" := "j1"]} [] [] 2%Z) {["n2" := ["abcdef"]]} ∅ [] 0 0 0)
    (<["h1:9000" := w_source]> {["h2:9000" := w_stale]}) 0.
Definition w_race_job : Replication.RepairJob := mkJob "j1" "abcdef" "h1:9000" "h2:9000".
Definition w_race : Cloud := mkCloud w_race_sys [Working "h1:9000" w_race_job].
Definition w_raced : Cloud :=
  transfer w_quiet "h1:9000" "h2:9000" "abcdef" [report_message (λ _, "") "h1:9000" "n1" w_race_job None] w_race.
Definition w_reconciled : Cloud :=
  @reconcile_timer demo_Env _ MostFreeSpaceStrategy MostFreeSpaceStrategy 2 w_quiet "n2" w_raced.
Definition w_reported : Cloud :=
  @deliver _ _ MostFreeSpaceStrategy MostFreeSpaceStrategy 2 demo_Env "h1:9000" (ReportRepairResultReq "n1" "j1" true "") w_reconciled.

Lemma w_race_nodes addr nd :
  sy_nodes w_race_sys !! addr = Some nd → addr = "h1:9000" ∧ nd = w_source ∨ addr = "h2:9000" ∧ nd = w_stale.
Proof.
  unfold w_race_sys. simpl. intros [[<- <-]|[_ [<- <-]%lookup_singleton_Some]]%lookup_insert_Some; auto.
Qed.

Lemma w_race_ok : cloud_ok w_plan w_data w_race.
Proof.
  split.
  - destruct w_repair_consistent as [_ _ _ Hmem Hkeys Hrep Hsum _]. split; [..|exact Hmem|exact Hkeys| |exact Hsum|].
    + intros addr nd [[_ ->]|[_ ->]]%w_race_nodes; exact demo_store2_ok.
    + unfold w_data. intros addr nd c d d' Hnd [<- <-]%lookup_singleton_Some. revert Hnd.
      intros [[_ ->]|[_ ->]]%w_race_nodes; vm_compute; congruence.
    + intros addr nd [[-> ->]|[-> ->]]%w_race_nodes; vm_compute; reflexivity.
    + intros c r x a d Hr Hx Ha HD. destruct (Hrep c r x a d Hr Hx Ha HD) as (nd & Hnd & Hc).
      destruct (w_repair_nodes _ _ Hnd) as [[-> ->]|[-> ->]].
      { exists w_source. split; [unfold w_race_sys; apply lookup_insert_eq|exact Hc]. }
      unfold w_data in HD. apply lookup_singleton_Some in HD as [<- <-]. by vm_compute in Hc.
    + intros addr nd job [[_ ->]|[_ ->]]%w_race_nodes; intros []%not_elem_of_nil.
  - apply Forall_singleton. change (job_ok w_plan w_repair_fsm w_race_job).
    assert (Hj : (λ j, (rj_ChunkID j, w_plan !! rj_TargetNodeID j)) <$> repairJobRegistry w_repair_fsm !! "j1" = Some ("abcdef", Some "h2:9000"))
      by (vm_compute; reflexivity).
    destruct (repairJobRegistry w_repair_fsm !! "j1") as [j|] eqn:Hreg; [|discriminate Hj]. injection Hj as H1 H2.
    exists j. split_and!; [exact Hreg|exact H1|right; exact H2].
Qed.

(** A reconciliation and a repair race.  From a state in which all is well, a worker copies
    a chunk to a node; before its report arrives, the node's timer fires: the chunk is in
    the reported inventory and not yet listed, so the reconciler has the node delete it; the
    report then makes the node a replica.  The service sends clients to a node without the
    chunk; the rule [nt_delete] of [net_step] therefore asks that the replica be [unclaimed],
    which the report under way denies here. *)
Theorem reconcile_races_repair :
  cloud_ok w_plan w_data w_race ∧
  net_step MostFreeSpaceStrategy MostFreeSpaceStrategy 2 0%Z w_plan w_data w_race w_raced ∧
  Request "h1:9000" (ReportRepairResultReq "n1" "j1" true "") ∈ nw_sent w_reconciled ∧
  (∃ r, chunkRegistry (fsm (nw_sys w_reported)) !! "abcdef" = Some r ∧ "n2" ∈ cr_Replicas r ∧
     resolved_addr (fsm (nw_sys w_reported)) "n2" = Some "h2:9000") ∧
  holds (nw_sys w_raced) "h2:9000" "abcdef" (to_bytes "hello") ∧
  ∀ d, ¬ holds (nw_sys w_reported) "h2:9000" "abcdef" d.
Proof.
  split_and!.
  - exact w_race_ok.
  - apply (nt_transfer _ _ _ _ _ _ w_quiet (λ _, "") "h1:9000" w_source w_race_job); [by intros addr n|left|].
    unfold w_race, w_race_sys. apply lookup_insert_eq.
  - vm_compute. right. left.
  - assert (Hr : (λ r, bool_decide ("n2" ∈ cr_Replicas r)) <$> chunkRegistry (fsm (nw_sys w_reported)) !! "abcdef" = Some true)
      by (vm_compute; reflexivity).
    destruct (chunkRegistry (fsm (nw_sys w_reported)) !! "abcdef") as [r|]; [|done]. exists r.
    apply (inj Some), bool_decide_eq_true in Hr. split_and!; [reflexivity|exact Hr|]. vm_compute. reflexivity.
  - assert (Hyes : (λ nd, contents (nd_disk nd) !! "abcdef") <$> sy_nodes (nw_sys w_raced) !! "h2:9000" = Some (Some (to_bytes "hello")))
      by (vm_compute; reflexivity).
    unfold holds. destruct (sy_nodes (nw_sys w_raced) !! "h2:9000") as [nd|]; [|discriminate Hyes].
    exists nd. split; [reflexivity|exact (inj Some _ _ Hyes)].
  - intros d (nd & Hnd & Hc). assert (Hno : (λ nd, contents (nd_disk nd) !! "abcdef") <$> sy_nodes (nw_sys w_reported) !! "h2:9000" = Some None)
      by (vm_compute; reflexivity).
    rewrite Hnd in Hno. apply (inj Some) in Hno. clear Hnd. rewrite Hno in Hc. discriminate Hc.
Qed.
