(* ===== verification/Healing.v ===== *)
(** * A lost node is replaced

    The components of the repair loop put together: the watcher notices that a node is
    silent and marks it dead, the scheduler takes it off the chunk's replicas and creates a
    job, a worker of the scheduler makes the job pending, the source's heartbeat fetches
    it, and a worker of the source transfers the chunk and reports.  After these four steps
    the chunk has as many live replicas as before, each with the data. *)

From S2P Require Import Prelude GoLib Json FsmTypes Fsm FsmCommands FsmInv FsmEquiv FsmSnapshot Placement World Scheduler Watcher Reconcile MetaServer MetaTheorems.
From S2P Require Import Sha256 DiskStore DiskStoreSpec DiskStoreTheorems Chunk StorageServer StorageTheorems Retry.
From S2P Require Import Replication StorageConfig ClientConfig Client MetaClient System StorageNode SystemTheorems Network NetworkRuns NetworkTheorems RepairTheorems.

(** ** Lists of replicas *)

Lemma filter_all {A} (Q : A → Prop) `{!∀ x, Decision (Q x)} (l : list A) : (∀ x, x ∈ l → Q x) → filter Q l = l.
Proof.
  induction l as [|x l IH]; intros Hl; [done|]. rewrite filter_cons_True by (apply Hl; left). f_equal. apply IH.
  intros y Hy. apply Hl. by right.
Qed.

Lemma length_without (x : string) (l : list string) : NoDup l → x ∈ l → S (length (filter (λ y, y ≠ x) l)) = length l.
Proof.
  intros Hnd (l1 & l2 & ->)%list_elem_of_split. apply NoDup_app in Hnd as (_ & Hdis & [Hni _]%NoDup_cons).
  rewrite filter_app, filter_cons_False, !filter_all, !length_app by (done || tauto || set_solver). simpl. lia.
Qed.

Lemma omap_ids (f : string → option NodeEntry) (l : list string) :
  (∀ x, x ∈ l → ∃ m, f x = Some m ∧ ne_NodeID m = x) → ne_NodeID <$> omap f l = l.
Proof.
  induction l as [|x l IH]; intros Hl; [done|]. destruct (Hl x ltac:(left)) as (m & Hm & Hid). csimpl. rewrite Hm. csimpl.
  rewrite Hid. f_equal. apply IH. intros y Hy. apply Hl. by right.
Qed.

(** ** The metadata node's part *)

Section metadata.
Context `{!Env, !MapRange, !Committing _} (src tgt : PlacementStrategy) (timeout : Duration).

Lemma sweep_fresh_nodes now l w :
  (∀ n, n ∈ l → ¬ stale timeout now n) → (foreach l (sweep_node src tgt timeout now) w).2 = w.
Proof.
  induction l as [|n l IH]; intros Hl; [done|]. simpl. unfold mbind, M_bind.
  pose proof (sweep_node_fresh src tgt timeout now w n (Hl n ltac:(left))) as Hn.
  destruct (sweep_node src tgt timeout now n w) as [u w1]. simpl in Hn. subst w1. apply IH. intros m Hm. apply Hl. by right.
Qed.

(** When one node is silent, a sweep is what it does with that node. *)
Lemma sweep_single w dead n :
  let now := clock (wd_ticks w) in
  reachable (wd_fsm w) → is_leader = true → nodeRegistry (wd_fsm w) !! dead = Some n →
  (∀ x m, x ≠ dead → nodeRegistry (wd_fsm w) !! x = Some m → ¬ stale timeout now m) →
  (sweep src tgt timeout w).2 = (sweep_node src tgt timeout now n (next_tick w)).2.
Proof.
  intros now [Hinv _]%reachable_inv Hl Hn Hothers. unfold sweep. rewrite Hl. cbn [negb].
  unfold gets, Now. unfold mbind at 1, M_bind at 1. unfold mbind at 1, M_bind at 1. fold now.
  change (wd_fsm (next_tick w)) with (wd_fsm w).
  destruct (GetAllNodes_spec (wd_fsm w) Hinv) as [Hnd Hspec].
  assert (Hin : n ∈ GetAllNodes (wd_fsm w)) by (apply Hspec; by rewrite (inv_node_key _ Hinv _ _ Hn)).
  apply list_elem_of_split in Hin as (pre & suf & Hsplit).
  assert (Hfresh : ∀ m, m ∈ pre ∨ m ∈ suf → ¬ stale timeout now m).
  { intros m Hm. apply (Hothers (ne_NodeID m)); [|apply Hspec; rewrite Hsplit; set_solver].
    rewrite Hsplit, fmap_app, fmap_cons in Hnd. rewrite (inv_node_key _ Hinv _ _ Hn) in Hnd. intros Heq.
    apply NoDup_app in Hnd as (_ & Hdis & [Hsuf _]%NoDup_cons).
    assert (Hmem : ∀ l : list NodeEntry, m ∈ l → dead ∈ ne_NodeID <$> l) by (intros l Hml; rewrite <-Heq; by apply list_elem_of_fmap_2).
    destruct Hm as [Hm|Hm]; [|by apply Hsuf, Hmem]. apply (Hdis _ (Hmem _ Hm)). left. }
  rewrite Hsplit.
  assert (Happ : ∀ l1 l2 w1, (foreach (l1 ++ l2) (sweep_node src tgt timeout now) w1).2 =
    (foreach l2 (sweep_node src tgt timeout now) (foreach l1 (sweep_node src tgt timeout now) w1).2).2).
  { induction l1 as [|a l1 IH]; intros l2 w1; [done|]. simpl. unfold mbind, M_bind.
    destruct (sweep_node src tgt timeout now a w1). apply IH. }
  rewrite Happ, (sweep_fresh_nodes now pre) by auto. simpl. unfold mbind, M_bind.
  destruct (sweep_node src tgt timeout now n (next_tick w)) as [u w1]. apply sweep_fresh_nodes. auto.
Qed.

(** The only chunk of a node. *)
Lemma only_chunk s dead c r :
  fsm_inv s → chunkRegistry s !! c = Some r → (∀ k r', chunkRegistry s !! k = Some r' → dead ∈ cr_Replicas r' ↔ k = c) →
  GetChunksByNode s dead = [c].
Proof.
  intros Hinv Hc Honly. destruct (GetChunksByNode_spec s dead Hinv) as [Hnd Hspec].
  assert (Hall : ∀ k, k ∈ GetChunksByNode s dead ↔ k = c).
  { intros k. rewrite Hspec. split; [intros (r' & Hk & Hin); by eapply Honly|]. intros ->. exists r. split; [done|]. by apply (Honly c r). }
  destruct (GetChunksByNode s dead) as [|k l]; [by destruct (not_elem_of_nil c); apply Hall|].
  assert (k = c) as -> by (apply Hall; left). destruct l as [|k' l]; [done|].
  assert (k' = c) as -> by (apply Hall; right; left). apply NoDup_cons in Hnd as [Hni _]. destruct Hni. left.
Qed.

(** The state machine once [dead] is marked and off the chunk [c]. *)
Definition without (s : MetadataFSM) (dead : string) (n : NodeEntry) (now : Time) (c : string) (r : ChunkRecord) : MetadataFSM :=
  set_chunkRegistry (set_nodeRegistry s (<[dead := set_node_status n NodeStatusDead now]> (nodeRegistry s)))
    (<[c := drop_replica dead r]> (chunkRegistry s)).

Lemma locations_without s dead n now c r :
  GetChunkLocations (without s dead n now c r) c =
    Ok (omap (live_replica (without s dead n now c r)) (cr_Replicas (drop_replica dead r))).
Proof. unfold GetChunkLocations, Fsm.GetChunk. cbn [without chunkRegistry set_chunkRegistry]. by rewrite lookup_insert_eq. Qed.

(** Who is live then. *)
Lemma live_without s dead n now c r x m :
  fsm_inv s → live_replica (without s dead n now c r) x = Some m ↔
    x ≠ dead ∧ ne_NodeID m = x ∧ nodeRegistry s !! x = Some m ∧ ne_Status m ≠ NodeStatusDead.
Proof.
  intros Hinv. unfold live_replica, without; simpl. destruct (decide (x = dead)) as [->|Hne].
  { rewrite lookup_insert_eq. simpl. naive_solver. }
  rewrite lookup_insert_ne by done. destruct (nodeRegistry s !! x) as [m'|] eqn:Hx; [|naive_solver].
  case_decide; [naive_solver|]. pose proof (inv_node_key _ Hinv _ _ Hx). naive_solver.
Qed.

(** What the sweep does with a silent node that has one chunk: the chunk is scheduled for
    repair in the state in which the node is marked dead and off the chunk. *)
Lemma sweep_node_schedules now w dead n c r :
  let s' := without (wd_fsm w) dead n now c r in
  let live := omap (live_replica s') (cr_Replicas (drop_replica dead r)) in
  let deficit := (replicationFactor (wd_sched w) - Z.of_nat (length live))%Z in
  fsm_inv (wd_fsm w) → nodeRegistry (wd_fsm w) !! dead = Some n → stale timeout now n →
  chunkRegistry (wd_fsm w) !! c = Some r →
  (∀ k r', chunkRegistry (wd_fsm w) !! k = Some r' → dead ∈ cr_Replicas r' ↔ k = c) → (0 < deficit)%Z →
  ∃ w2, wd_fsm w2 = s' ∧ wd_sched w2 = wd_sched w ∧ wd_uuids w2 = wd_uuids w ∧
    (sweep_node src tgt timeout now n w).2 = (scheduleRepairJobs src tgt c live deficit w2).2.
Proof.
  intros s' live deficit Hinv Hn [Hst Hel] Hc Honly Hdef. pose proof (inv_node_key _ Hinv _ _ Hn) as Hk.
  unfold sweep_node. rewrite decide_False, decide_False by auto. cbv zeta.
  unfold mbind at 1, M_bind at 1. unfold buildMarkDeadCmd. rewrite Propose_committed, Hk by done.
  rewrite (exec_mark_dead _ dead n) by done. cbn [fst snd].
  set (s1 := set_nodeRegistry _ _). assert (Hinv1 : fsm_inv s1) by by eapply inv_modify_node.
  unfold TriggerRepair, gets. unfold mbind at 1, M_bind at 1. cbn [wd_fsm set_fsm].
  rewrite (only_chunk s1 dead c r Hinv1 Hc Honly). cbn [foreach]. unfold mbind at 1, M_bind at 1.
  unfold trigger_chunk, proposeEvictChunk. unfold mbind at 1, M_bind at 1. unfold mbind at 1, M_bind at 1. unfold Now.
  rewrite Propose_committed by done. cbn [exec wd_fsm next_tick set_fsm].
  rewrite (exec_evict s1 c dead _ _ r); [|by eapply inv_replicas|done|by apply (Honly c r)]. cbn [fst snd].
  change (set_chunkRegistry s1 _) with s'.
  match goal with |- context [set_fsm s' ?w'] => set (w2 := set_fsm s' w') end.
  exists w2. split_and!; [done..|]. unfold gets. unfold mbind, M_bind.
  assert (Hloc : GetChunkLocations (wd_fsm w2) c = Ok live) by exact (locations_without (wd_fsm w) dead n now c r).
  rewrite Hloc.
  assert (Hex : excludeNode live dead = live).
  { unfold excludeNode. apply filter_all. intros m (x & Hx & Hm)%list_elem_of_omap Heq.
    apply live_without in Hm as (Hne & Hid & _); [congruence|done]. }
  rewrite Hex. change (replicationFactor (wd_sched w2)) with (replicationFactor (wd_sched w)). fold deficit.
  rewrite decide_False by lia. by destruct (scheduleRepairJobs src tgt c live deficit w2) as [[] ?].
Qed.
End metadata.

Section repair.
Context `{!Env, !MapRange, !Committing _} (src tgt : PlacementStrategy) `{!PlacementLaws src, !PlacementLaws tgt}.
Context (timeout : Duration).

(** A worker takes the only job there is. *)
Lemma worker_step_run w jid j :
  jobs (wd_sched w) = [jid] → repairJobRegistry (wd_fsm w) !! jid = Some j → pendingJobs (wd_sched w) = ∅ →
  let w' := (Scheduler.worker_step w).2 in
  chunkRegistry (wd_fsm w') = chunkRegistry (wd_fsm w) ∧ nodeRegistry (wd_fsm w') = nodeRegistry (wd_fsm w) ∧
  pendingJobs (wd_sched w') !! rj_SourceNodeID j = Some [jid] ∧
  ∃ t, repairJobRegistry (wd_fsm w') !! jid = Some (mkRepairJob (rj_JobID j) (rj_ChunkID j) "" (rj_DeleteSource j)
    (rj_SourceNodeID j) (rj_TargetNodeID j) RepairStatusInProgress 0 (rj_CreatedAt j) t).
Proof.
  intros Hjobs Hj Hp.
  assert (Hrun : ∃ t, (Scheduler.worker_step w).2 =
    set_fsm (set_repairJobRegistry (wd_fsm w) (<[jid := mkRepairJob (rj_JobID j) (rj_ChunkID j) "" (rj_DeleteSource j)
        (rj_SourceNodeID j) (rj_TargetNodeID j) RepairStatusInProgress 0 (rj_CreatedAt j) t]> (repairJobRegistry (wd_fsm w))))
      (next_proposal (next_tick (set_sched (set_pending {[rj_SourceNodeID j := [jid]]}
        (<[pending_key (rj_ChunkID j) (rj_TargetNodeID j) := jid]> (pendingJobsSet (wd_sched w))) (set_jobs [] (wd_sched w))) w)))).
  { eexists. unfold Scheduler.worker_step, gets. unfold mbind at 1, M_bind at 1. rewrite Hjobs.
    unfold executeJob, gets, modify, mbind, M_bind. unfold GetRepairJob. simpl. rewrite Hj. simpl.
    rewrite Propose_committed by done. cbn [exec wd_fsm]. unfold handleCmdUpdateRepairJob. simpl. rewrite Hj, Hp. simpl.
    rewrite lookup_empty. reflexivity. }
  destruct Hrun as [t ->]. simpl. rewrite lookup_singleton_eq, lookup_insert_eq. eauto 10.
Qed.

(** A live node that lost one of its fellow replicas, and what is there to replace it. *)
Record lost_replica (w : World) (dead : string) (n : NodeEntry) (c : string) (r : ChunkRecord) : Prop := {
  lr_reachable : reachable (wd_fsm w);
  lr_leads : is_leader = true;
  lr_ids : uuid_fresh w;
  lr_dead : nodeRegistry (wd_fsm w) !! dead = Some n;
  lr_stale : stale timeout (clock (wd_ticks w)) n;
  lr_others : ∀ x m, x ≠ dead → nodeRegistry (wd_fsm w) !! x = Some m →
    ne_Status m = NodeStatusAlive ∧ ¬ stale timeout (clock (wd_ticks w)) m;
  lr_chunk : chunkRegistry (wd_fsm w) !! c = Some r;
  lr_only : ∀ k r', chunkRegistry (wd_fsm w) !! k = Some r' → dead ∈ cr_Replicas r' ↔ k = c;
  lr_known : ∀ x, x ∈ cr_Replicas r → is_Some (nodeRegistry (wd_fsm w) !! x);
  lr_factor : replicationFactor (wd_sched w) = Z.of_nat (length (cr_Replicas r)) ∧ 2 ≤ length (cr_Replicas r);
  lr_spare : ∃ x m, x ≠ dead ∧ x ∉ cr_Replicas r ∧ nodeRegistry (wd_fsm w) !! x = Some m ∧ (to_uint64 (cr_Size r) ≤ ne_FreeSpace m)%Z;
  lr_idle : pendingJobs (wd_sched w) = ∅ ∧ pendingJobsSet (wd_sched w) = ∅ ∧ jobs (wd_sched w) = [];
}.

(** The survivors are live, and there are as many as replicas but one. *)
Lemma survivors_live w dead n c r now :
  lost_replica w dead n c r →
  let live := omap (live_replica (without (wd_fsm w) dead n now c r)) (cr_Replicas (drop_replica dead r)) in
  ne_NodeID <$> live = cr_Replicas (drop_replica dead r) ∧ S (length live) = length (cr_Replicas r) ∧
  ∀ m, m ∈ live → nodeRegistry (wd_fsm w) !! ne_NodeID m = Some m ∧ ne_NodeID m ∈ cr_Replicas r ∧ ne_NodeID m ≠ dead.
Proof.
  intros [Hr _ _ Hdead _ Hothers Hc Honly Hknown _ _ _] live. destruct (reachable_inv _ Hr) as [Hinv _].
  assert (Hids : ne_NodeID <$> live = cr_Replicas (drop_replica dead r)).
  { apply omap_ids. intros x [Hne Hx]%list_elem_of_filter. destruct (Hknown x Hx) as [m Hm].
    destruct (Hothers x m Hne Hm) as [Hst _]. pose proof (inv_node_key _ Hinv _ _ Hm) as Hid. exists m.
    by rewrite (proj2 (live_without _ _ _ _ _ _ x m Hinv)) by (rewrite Hst; done). }
  split_and!; [done| |].
  - rewrite <-(length_fmap ne_NodeID live), Hids. apply length_without; [by eapply inv_replicas|by apply (Honly c r)].
  - intros m (x & [Hne Hx]%list_elem_of_filter & Hm)%list_elem_of_omap.
    apply live_without in Hm as (_ & <- & Hm & _); done.
Qed.

(** Once the node is marked dead, the spare node can be a target. *)
Lemma spare_candidate w dead n c r now live :
  lost_replica w dead n c r → ne_NodeID <$> live = cr_Replicas (drop_replica dead r) →
  1 ≤ length (candidates (GetLiveNodes (without (wd_fsm w) dead n now c r)) (cr_Size (drop_replica dead r)) live).
Proof.
  intros Hlost Hlive. pose proof Hlost as [Hr _ _ _ _ Hothers _ _ _ _ (x & m & Hne & Hx & Hm & Hroom) _].
  destruct (reachable_inv _ Hr) as [Hinv _].
  assert (Hcand : m ∈ candidates (GetLiveNodes (without (wd_fsm w) dead n now c r)) (cr_Size (drop_replica dead r)) live).
  { apply elem_of_candidates. split_and!; [|rewrite Hlive, (inv_node_key _ Hinv _ _ Hm); by intros [_ ?]%list_elem_of_filter|done].
    apply list_elem_of_filter. split; [by apply (Hothers x m)|]. apply elem_of_range_values. exists x.
    unfold without; simpl. by rewrite lookup_insert_ne. }
  destruct (candidates _ _ _); [by apply elem_of_nil in Hcand|]. simpl. lia.
Qed.

(** A target is a node that was known before, and not the dead one. *)
Lemma candidate_known s dead n now c r size live my :
  fsm_inv s → my ∈ candidates (GetLiveNodes (without s dead n now c r)) size live →
  nodeRegistry s !! ne_NodeID my = Some my ∧ ne_NodeID my ≠ dead.
Proof.
  intros Hinv ([Hst Hv]%list_elem_of_filter & _ & _)%elem_of_candidates. apply elem_of_range_values in Hv as [k Hk].
  unfold without in Hk; simpl in Hk. apply lookup_insert_Some in Hk as [[<- <-]|[Hne Hk]]; [done|].
  by rewrite (inv_node_key _ Hinv _ _ Hk).
Qed.

(** The sweep and one step of a worker: the repair waits for the source's heartbeat. *)
Lemma sweep_and_execute w dead n c r :
  lost_replica w dead n c r →
  let w' := (Scheduler.worker_step (sweep src tgt timeout w).2).2 in
  ∃ x y mx my jid j, x ∈ cr_Replicas r ∧ x ≠ dead ∧ y ∉ cr_Replicas r ∧
    nodeRegistry (wd_fsm w) !! x = Some mx ∧ nodeRegistry (wd_fsm w) !! y = Some my ∧
    rj_JobID j = jid ∧ rj_ChunkID j = c ∧ rj_SourceNodeID j = x ∧ rj_TargetNodeID j = y ∧ rj_DeleteSource j = false ∧
    repairJobRegistry (wd_fsm w') !! jid = Some j ∧ pendingJobs (wd_sched w') !! x = Some [jid] ∧
    chunkRegistry (wd_fsm w') !! c = Some (drop_replica dead r) ∧
    ∃ now, nodeRegistry (wd_fsm w') = <[dead := set_node_status n NodeStatusDead now]> (nodeRegistry (wd_fsm w)).
Proof.
  intros Hlost w'. pose proof Hlost as [Hr Hl Hids Hdead Hst Hothers Hc Honly Hknown [Hrf Htwo] Hspare (Hp & Hps & Hj)].
  destruct (reachable_inv _ Hr) as [Hinv _]. set (now := clock (wd_ticks w)) in *.
  destruct (survivors_live w dead n c r now Hlost) as (Hlive & Hlen & Hin).
  set (s' := without (wd_fsm w) dead n now c r) in *. set (live := omap (live_replica s') _) in *.
  destruct (sweep_node_schedules src tgt timeout now (next_tick w) dead n c r) as (w2 & Hf2 & Hs2 & Hu2 & Hrun); try done.
  { cbn [wd_sched next_tick wd_fsm]. fold s' live. lia. }
  cbn [wd_sched next_tick wd_fsm] in *. fold s' live in Hrun, Hf2.
  replace (replicationFactor (wd_sched w) - Z.of_nat (length live))%Z with 1%Z in Hrun by lia.
  assert (Hsweep : (sweep src tgt timeout w).2 = (scheduleRepairJobs src tgt c live 1 w2).2).
  { rewrite <-Hrun. apply (sweep_single src tgt timeout w dead n); try done. intros x m Hx Hm. by apply (Hothers x m). }
  destruct (scheduleRepairJobs_under src tgt w2 c (drop_replica dead r) live 1) as [_ Hsched].
  - rewrite Hf2. apply (inv_update_chunk (set_nodeRegistry (wd_fsm w)
      (<[dead := set_node_status n NodeStatusDead now]> (nodeRegistry (wd_fsm w)))) c r); try done;
      [by apply (inv_modify_node _ dead n)|apply NoDup_filter, (inv_replicas _ Hinv _ _ Hc)|by left].
  - destruct Hids as [Hinj Hfresh]. split; [done|]. rewrite Hf2, Hu2. exact Hfresh.
  - rewrite Hf2. apply lookup_insert_eq.
  - intros Hnil. rewrite Hnil in Hlen. simpl in Hlen. lia.
  - lia.
  - destruct Hsched as (source & targets & created & Hsrc & Hone & Hgood & Hsd).
    { pose proof (spare_candidate w dead n c r now live Hlost Hlive) as Hs. fold s' in Hs. rewrite Hf2. lia. }
    destruct targets as [|my [|]]; try (simpl in Hone; lia).
    apply Forall_singleton in Hgood as (Hcand & Hmy & Hmyl).
    destruct (Hin source Hsrc) as (Hx & Hxr & Hxd).
    rewrite Hf2 in Hcand. pose proof (candidate_known _ _ _ _ _ _ _ _ _ Hinv Hcand) as Hy.
    destruct Hy as [Hy Hyd]. destruct Hsd as [Hts _ Hjs _ Hq (_ & Hcs & Hns & _ & Hpd)].
    rewrite Hs2, Hps in Hts. rewrite (filter_all (λ t, _)) in Hts by (intros; by rewrite lookup_empty). simpl in Hts.
    destruct created as [|[[jid t] y] [|]]; try done. simpl in Hts. injection Hts as ->.
    rewrite <-Hsweep in *. rewrite Hs2, Hj in Hq. simpl in Hq.
    specialize (Hjs jid t (ne_NodeID my) ltac:(left)).
    destruct (worker_step_run _ jid _ Hq Hjs) as (Hc' & Hn' & Hp' & t' & Hj'); [by rewrite Hpd, Hs2|].
    exists (ne_NodeID source), (ne_NodeID my), source, my, jid,
      (mkRepairJob jid c "" false (ne_NodeID source) (ne_NodeID my) RepairStatusInProgress 0 t t').
    split_and!; [done|done| |done|done|reflexivity|reflexivity|reflexivity|reflexivity|reflexivity|exact Hj'|exact Hp'|..].
    + intros Hyr. apply Hmyl. rewrite Hlive. by apply list_elem_of_filter.
    + unfold w'. rewrite Hc', Hcs, Hf2. apply lookup_insert_eq.
    + exists now. unfold w'. by rewrite Hn', Hns, Hf2.
Qed.
End repair.

(** ** The whole loop *)

(** One node of the system has gone silent; the others run, know the leader, have no repairs
    to do and have room for the chunk. *)
Record node_lost `{!Env, !MapRange} (timeout : Duration) (leader : string) (P : gmap string string) (D : gmap string bytes)
    (s : Sys) (dead : string) (n : NodeEntry) (c : string) (r : ChunkRecord) (d : bytes) : Prop := {
  nl_meta : lost_replica timeout (sy_world s) dead n c r;
  nl_consistent : consistent P D s;
  nl_data : D !! c = Some d ∧ d ≠ [];
  nl_nodes : ∀ x m, x ≠ dead → nodeRegistry (fsm s) !! x = Some m → ∃ nd, sy_nodes s !! ne_Address m = Some nd ∧
    nd_NodeID nd = x ∧ conn (nd_cache nd) = Some leader ∧ nd_repairs nd = NewReplicationManager ∧
    validateChunkId (splitLevel (nd_disk nd)) c = Ok tt ∧
    (used_bytes (contents (nd_disk nd)) + blen d - size_of (contents (nd_disk nd)) c ≤ totalSpace (nd_disk nd))%Z;
}.

Section healing.
Context {Env0 : Env} {Commit0 : Committing Env0} {Range0 : MapRange} {Sort0 : GoSort}.
Context (src tgt : PlacementStrategy) `{!PlacementLaws src, !PlacementLaws tgt} (rf : Z) (timeout : Duration) (leader : string).
Context (net : Net) (p : Policy) (P : gmap string string) (D : gmap string bytes).
Context (Hp : (1 ≤ MaxAttempts p)%Z) (Hnet : repairs_work net) (HP : plan_ok P).

Lemma member_address s x m :
  consistent P D s → nodeRegistry (fsm s) !! x = Some m → x ≠ "" ∧ P !! x = Some (ne_Address m) ∧ ne_Address m ≠ "".
Proof.
  intros Hs Hm. destruct (cs_members _ _ _ Hs x m Hm) as [_ Hx]. split_and!; [|done|by eapply po_address].
  intros ->. by rewrite (po_empty _ HP) in Hx.
Qed.

(** After the sweep and the scheduler's worker, the source is ready to repair. *)
Lemma lost_ready s dead n c r d :
  node_lost timeout leader P D s dead n c r d →
  let s2 := set_world (Scheduler.worker_step (sweep src tgt timeout (sy_world s)).2).2 s in
  ∃ x y mx my jid j nd nd', x ∈ cr_Replicas r ∧ x ≠ dead ∧ y ∉ cr_Replicas r ∧ y ≠ dead ∧
    nodeRegistry (fsm s) !! x = Some mx ∧ nodeRegistry (fsm s) !! y = Some my ∧ nd_NodeID nd = x ∧
    rj_ChunkID j = c ∧ rj_TargetNodeID j = y ∧
    (∃ now, nodeRegistry (fsm s2) = <[dead := set_node_status n NodeStatusDead now]> (nodeRegistry (fsm s))) ∧
    repair_ready leader s2 (ne_Address mx) (ne_Address my) jid [] j (drop_replica dead r) nd nd' d.
Proof.
  intros [Hmeta Hs [HD Hd] Hnodes] s2.
  destruct (sweep_and_execute src tgt timeout _ dead n c r Hmeta)
    as (x & y & mx & my & jid & j & Hx & Hxd & Hy & Hmx & Hmy & Hjid & Hjc & Hjs & Hjt & Hdel & Hj & Hpend & Hck & now & Hreg).
  assert (Hyd : y ≠ dead) by (intros ->; apply Hy; by apply (lr_only _ _ _ _ _ _ Hmeta c r); [apply Hmeta|]).
  destruct (Hnodes x mx Hxd Hmx) as (nd & Hnd & Hid & Hconn & Hidle & _).
  destruct (Hnodes y my Hyd Hmy) as (nd' & Hnd' & Hid' & _ & _ & Hv & Hroom).
  destruct (member_address s x mx Hs Hmx) as (_ & HPx & _). destruct (member_address s y my Hs Hmy) as (Hy0 & _ & _).
  destruct (cs_replicas _ _ _ Hs c r x _ d (lr_chunk _ _ _ _ _ _ Hmeta) Hx HPx HD) as (nd1 & Hnd1 & Hc).
  rewrite Hnd in Hnd1. injection Hnd1 as <-.
  exists x, y, mx, my, jid, j, nd, nd'. split_and!; try done; [exists now; exact Hreg|]. split; try done.
  - intros Heq. rewrite Heq, Hnd' in Hnd. congruence.
  - split; by eapply (cs_disks _ _ _ Hs).
  - apply Hmeta.
  - change (is_Some (nodeRegistry (fsm s2) !! nd_NodeID nd)). unfold s2. simpl. rewrite Hreg, Hid, lookup_insert_ne by done. eauto.
  - by rewrite Hid.
  - unfold repairQueueCap. simpl. lia.
  - by rewrite Hjc.
  - unfold address_or_empty, GetNode. rewrite Hjt, decide_True by done. unfold s2. simpl. by rewrite Hreg, lookup_insert_ne, Hmy.
  - by rewrite Hjc.
  - by rewrite Hjc.
  - by rewrite Hjc.
Qed.

(** The four steps, as operations of the system. *)
Lemma healing_run s ni a registerer sent Error_text :
  P !! GetNodeID ni = Some a → GetGrpcAddr ni = a →
  let s1 := set_world (sweep src tgt timeout (sy_world s)).2 s in
  let s2 := set_world (Scheduler.worker_step (sy_world s1)).2 s1 in
  let s3 := heartbeat_tick src tgt rf leader net p a ni registerer (λ _, false) sent s2 in
  rtc (op_step src tgt rf timeout P D) s (repair_worker src tgt rf leader net p Error_text a s3).
Proof.
  intros Ha Hg s1 s2 s3. assert (Hdisks : working_disks net) by (intros addr k; apply Hnet).
  apply (rtc_l _ _ s1); [apply op_sweep|]. apply (rtc_l _ _ s2); [apply op_execute|].
  apply (rtc_l _ _ s3); [apply op_beat; [done|by rewrite Hg]|]. by apply rtc_once, op_worker.
Qed.

(** A node that was alive before is alive, at its address, after the beat and the round. *)
Lemma still_alive (s s2 s4 : Sys) dead n now z m :
  nodeRegistry (fsm s2) = <[dead := set_node_status n NodeStatusDead now]> (nodeRegistry (fsm s)) →
  node_ids <$> nodeRegistry (fsm s4) = node_ids <$> nodeRegistry (fsm s2) →
  z ≠ dead → nodeRegistry (fsm s) !! z = Some m → ∃ m', nodeRegistry (fsm s4) !! z = Some m' ∧ node_ids m' = node_ids m.
Proof.
  intros H2 H4 Hz Hm. assert (Heq : node_ids <$> nodeRegistry (fsm s4) !! z = Some (node_ids m)).
  { rewrite <-lookup_fmap, H4, lookup_fmap, H2, lookup_insert_ne, Hm by done. done. }
  apply fmap_Some in Heq as (m' & Hm' & Heq). eauto.
Qed.
End healing.

(** ** Properties *)

(** C7. A lost node is replaced.  In a consistent system one node goes silent; it is the
    only silent one, has one chunk, which has its full number of replicas on running nodes,
    and some node without the chunk has room.  Then a sweep, a step of a worker of the
    scheduler, the next heartbeat of the replica that was chosen as source and a round of
    its repair worker leave the chunk with as many live replicas as before: the survivors
    and one new node, each of which has the data. *)
Theorem lost_node_is_replaced {Env0 : Env} {Commit0 : Committing Env0} {Range0 : MapRange} {Sort0 : GoSort}
    (src tgt : PlacementStrategy) `{!PlacementLaws src, !PlacementLaws tgt} (rf : Z) (timeout : Duration) (leader : string)
    (net : Net) (p : Policy) (P : gmap string string) (D : gmap string bytes) (s : Sys) (dead : string) (n : NodeEntry)
    (c : string) (r : ChunkRecord) (d : bytes) :
  repairs_work net → (1 ≤ MaxAttempts p)%Z → plan_ok P → node_lost timeout leader P D s dead n c r d →
  ∃ x a y, x ∈ cr_Replicas r ∧ x ≠ dead ∧ P !! x = Some a ∧ y ∉ cr_Replicas r ∧
    ∀ ni registerer sent Error_text, GetNodeID ni = x → GetGrpcAddr ni = a → sent [] = [] →
    let s1 := set_world (sweep src tgt timeout (sy_world s)).2 s in
    let s2 := set_world (Scheduler.worker_step (sy_world s1)).2 s1 in
    let s3 := heartbeat_tick src tgt rf leader net p a ni registerer (λ _, false) sent s2 in
    let s4 := repair_worker src tgt rf leader net p Error_text a s3 in
    ∃ live, GetChunkLocations (fsm s4) c = Ok live ∧
      ne_NodeID <$> live = filter (λ z, z ≠ dead) (cr_Replicas r) ++ [y] ∧ length live = length (cr_Replicas r) ∧
      ∀ m, m ∈ live → holds s4 (ne_Address m) c d.
Proof.
  intros Hnet Hp HP Hlost. pose proof Hlost as [Hmeta Hs [HD Hd] Hnodes].
  destruct (lost_ready src tgt timeout leader P D HP s dead n c r d Hlost)
    as (x & y & mx & my & jid & j & nd & nd' & Hx & Hxd & Hy & Hyd & Hmx & Hmy & Hid & Hjc & Hjt & [now Hreg] & Hready).
  destruct (member_address P D HP s x mx Hs Hmx) as (_ & HPx & _).
  exists x, (ne_Address mx), y. split_and!; [done..|]. intros ni registerer sent Error_text Hni Hga Hsent s1 s2 s3 s4.
  destruct (beat_and_work src tgt rf leader net p Hp Hnet s2 (ne_Address mx) (ne_Address my) jid [] j _ nd nd' d ni registerer sent
    Error_text Hready ltac:(congruence) Hsent) as (_ & Hreps & _ & _ & Hids). fold s3 s4 in Hreps, Hids.
  rewrite Hjc, Hjt in Hreps. apply fmap_Some in Hreps as (r4 & Hr4 & Hreps).
  assert (Hnew : cr_Replicas r4 = filter (λ z, z ≠ dead) (cr_Replicas r) ++ [y]).
  { rewrite <-Hreps. unfold appendUnique. rewrite decide_False; [done|]. by intros [_ ?]%list_elem_of_filter. }
  assert (Halive : ∀ z, z ∈ cr_Replicas r4 → ∃ m m', nodeRegistry (fsm s) !! z = Some m ∧ ne_Status m = NodeStatusAlive ∧
    nodeRegistry (fsm s4) !! z = Some m' ∧ node_ids m' = node_ids m).
  { intros z Hz. assert (z ≠ dead ∧ is_Some (nodeRegistry (fsm s) !! z)) as [Hzd [m Hm]].
    { rewrite Hnew in Hz. apply elem_of_app in Hz as [[Hzd Hz]%list_elem_of_filter| ->%list_elem_of_singleton]; [|eauto].
      split; [done|]. by apply Hmeta. }
    destruct (still_alive s s2 s4 dead n now z m Hreg Hids Hzd Hm) as (m' & Hm' & Heq). exists m, m'. split_and!; try done.
    by apply (lr_others _ _ _ _ _ _ Hmeta z m). }
  assert (Hlive : ∀ z, z ∈ cr_Replicas r4 → ∃ m', live_replica (fsm s4) z = Some m' ∧ ne_NodeID m' = z).
  { intros z Hz. destruct (Halive z Hz) as (m & m' & Hm & Hst & Hm' & Heq). exists m'.
    assert (ne_NodeID m = z) by by apply (cs_members _ _ _ Hs). injection Heq as H1 H2 H3. unfold live_replica. rewrite Hm', H3, Hst. split; [done|congruence]. }
  exists (omap (live_replica (fsm s4)) (cr_Replicas r4)). pose proof (omap_ids _ _ Hlive) as Hlids. split_and!.
  - unfold GetChunkLocations, Fsm.GetChunk. by rewrite Hr4.
  - by rewrite Hlids.
  - rewrite <-(length_fmap ne_NodeID), Hlids, Hnew, length_app. simpl. rewrite Nat.add_1_r. apply length_without.
    + eapply inv_replicas; [by apply reachable_inv; apply Hmeta|apply Hmeta].
    + by apply (lr_only _ _ _ _ _ _ Hmeta c r); [apply Hmeta|].
  - intros m4 (z & Hz & Hm4)%list_elem_of_omap. destruct (Halive z Hz) as (m & m' & Hm & Hst & Hm' & Heq).
    injection Heq as H1 H2 H3. destruct (member_address P D HP s z m Hs Hm) as (_ & HPz & Hne).
    unfold live_replica in Hm4. rewrite Hm', H3, Hst in Hm4. injection Hm4 as <-. rewrite H2.
    destruct (ops_run src tgt rf timeout P D s s4 []
      (healing_run src tgt rf timeout leader net p P D Hnet s ni (ne_Address mx) registerer sent Error_text ltac:(by rewrite Hni) Hga))
      as (msgs & Hrun & _).
    apply (cloud_replicas P D (mkCloud s4 msgs) c d r4 z (ne_Address m)); [|done..|].
    + apply (run_ok src tgt rf timeout P D HP _ _ Hrun). split; [done|constructor].
    + unfold resolved_addr, GetNode. simpl. rewrite Hm'. rewrite H3, Hst, H2. by rewrite decide_False, decide_True by (done || by intros []).
Qed.

(** A chunk on [n1] and [n2]; [n1] was last heard of ninety seconds before the others. *)
Definition w_lost_log : list command :=
  [RegisterNodeC (mkCommandRegisterNode "n1" "h1:9000" 500%Z 0%Z 10%Z);
   RegisterNodeC (mkCommandRegisterNode "n2" "h2:9000" 400%Z 0%Z (90 * second)%Z);
   RegisterNodeC (mkCommandRegisterNode "n3" "h3:9000" 300%Z 0%Z (90 * second)%Z);
   CreateFileC (mkCommandCreateFile "f1" "a.txt" ["abcdef"] 5%Z 65536%Z [] 11%Z);
   CommitChunkC (mkCommandCommitChunk "abcdef" ["n1"; "n2"] (sha256 (to_bytes "hello")))].
Definition w_lost_fsm : MetadataFSM := apply_log NewEmptyMetadataFsm (log_of w_lost_log).
Definition w_holder (id : string) : Node :=
  mkNode id demo_store2 (mkLeaderCache "m1:1" ["m1:1"] 0 (Some "m1:1")) NewReplicationManager.
Definition w_lost_sys : Sys :=
  mkSys (mkWorld w_lost_fsm (NewRepairScheduler 2) ∅ ∅ [] 0 0 0)
    (<["h1:9000" := w_holder "n1"]> (<["h2:9000" := w_holder "n2"]> {["h3:9000" := w_node "n3" "/c"]})) 0.
Definition w_lost_plan : gmap string string :=
  <["n1" := "h1:9000"]> (<["n2" := "h2:9000"]> {["n3" := "h3:9000"]}).
Definition w_lost_node : NodeEntry := mkNodeEntry "n1" "h1:9000" NodeStatusAlive 500 0 10%Z 10%Z 10%Z.
Definition w_lost_chunk : ChunkRecord :=
  mkChunkRecord "abcdef" "f1" 0 0 (sha256 (to_bytes "hello")) ["n1"; "n2"] ChunkStatusComplete 0.

Lemma w_lost_plan_ok : plan_ok w_lost_plan.
Proof.
  split; [done|]. intros k a Hk. refine (proj1 (bool_decide_eq_true _)
    (map_check (λ k a, bool_decide (a ≠ "" ∧ w_lost_plan !! a = None)) w_lost_plan k a _ Hk)). vm_compute. reflexivity.
Qed.

Lemma w_lost_nodes addr nd :
  sy_nodes w_lost_sys !! addr = Some nd →
  addr = "h1:9000" ∧ nd = w_holder "n1" ∨ addr = "h2:9000" ∧ nd = w_holder "n2" ∨ addr = "h3:9000" ∧ nd = w_node "n3" "/c".
Proof.
  unfold w_lost_sys. simpl.
  intros [[<- <-]|[_ [[<- <-]|[_ [<- <-]%lookup_singleton_Some]]%lookup_insert_Some]]%lookup_insert_Some; auto.
Qed.

(** The registered nodes. *)
Lemma w_lost_registry x m :
  nodeRegistry w_lost_fsm !! x = Some m →
  ne_NodeID m = x ∧ w_lost_plan !! x = Some (ne_Address m) ∧
  (x ≠ "n1" → ne_Status m = NodeStatusAlive ∧ ¬ stale (30 * second)%Z (100 * second)%Z m ∧
     (x = "n2" ∧ ne_Address m = "h2:9000" ∨ x = "n3" ∧ ne_Address m = "h3:9000")).
Proof.
  intros Hx. refine (proj1 (bool_decide_eq_true _)
    (map_check (λ x m, bool_decide (ne_NodeID m = x ∧ w_lost_plan !! x = Some (ne_Address m) ∧
      (x ≠ "n1" → ne_Status m = NodeStatusAlive ∧ ¬ stale (30 * second)%Z (100 * second)%Z m ∧
        (x = "n2" ∧ ne_Address m = "h2:9000" ∨ x = "n3" ∧ ne_Address m = "h3:9000")))) (nodeRegistry w_lost_fsm) x m _ Hx)).
  vm_compute. reflexivity.
Qed.

(** The chunks. *)
Lemma w_lost_chunks k r : chunkRegistry w_lost_fsm !! k = Some r → k = "abcdef" ∧ r = w_lost_chunk.
Proof.
  intros Hk. enough (Hdom : k = "abcdef").
  { subst k. split; [done|]. vm_compute in Hk. injection Hk as <-. vm_compute. reflexivity. }
  refine (proj1 (bool_decide_eq_true _)
    (map_check (λ k r, bool_decide (k = "abcdef")) (chunkRegistry w_lost_fsm) k r _ Hk)). vm_compute. reflexivity.
Qed.

Lemma w_lost_consistent : consistent w_lost_plan w_data w_lost_sys.
Proof.
  split.
  - intros addr nd [[_ ->]|[[_ ->]|[_ ->]]]%w_lost_nodes; [unfold w_holder; cbn [nd_disk]; exact demo_store2_ok..|by apply empty_store_ok].
  - unfold w_data. intros addr nd c d d' Hnd [<- <-]%lookup_singleton_Some. revert Hnd.
    intros [[_ ->]|[[_ ->]|[_ ->]]]%w_lost_nodes; vm_compute; congruence.
  - intros addr nd [[-> ->]|[[-> ->]|[-> ->]]]%w_lost_nodes; vm_compute; reflexivity.
  - intros k m Hk. destruct (w_lost_registry k m Hk) as (H1 & H2 & _). exact (conj H1 H2).
  - intros id j Hj. vm_compute in Hj. discriminate Hj.
  - unfold w_data. intros c r x a d [-> ->]%w_lost_chunks Hx Ha [_ <-]%lookup_singleton_Some.
    assert (x = "n1" ∨ x = "n2") as [->| ->] by (cbn [w_lost_chunk cr_Replicas] in Hx; set_solver).
    + assert (a = "h1:9000") as -> by (vm_compute in Ha; by injection Ha).
      exists (w_holder "n1"). split; [apply lookup_insert_eq|vm_compute; reflexivity].
    + assert (a = "h2:9000") as -> by (vm_compute in Ha; by injection Ha).
      exists (w_holder "n2"). split; [|vm_compute; reflexivity]. unfold w_lost_sys. cbn [sy_nodes].
      rewrite lookup_insert_ne by done. apply lookup_insert_eq.
  - unfold w_data. intros c r d [-> ->]%w_lost_chunks [_ <-]%lookup_singleton_Some. right. reflexivity.
  - intros addr nd job [[_ ->]|[[_ ->]|[_ ->]]]%w_lost_nodes; intros []%not_elem_of_nil.
Qed.

Lemma w_lost_reachable : reachable w_lost_fsm.
Proof. apply reachable_log, log_of_ok. repeat constructor; done. Qed.

Lemma w_lost_replica : @lost_replica demo_Env _ (30 * second)%Z (sy_world w_lost_sys) "n1" w_lost_node "abcdef" w_lost_chunk.
Proof.
  split.
  - exact w_lost_reachable.
  - reflexivity.
  - split; [exact demo_uuid_inj|]. intros k _.
    replace (repairJobRegistry (wd_fsm (sy_world w_lost_sys))) with (∅ : gmap string FsmTypes.RepairJob) by (vm_compute; reflexivity).
    apply lookup_empty.
  - vm_compute. reflexivity.
  - compute_decide.
  - intros x m Hx Hm. destruct (w_lost_registry x m Hm) as (_ & _ & H). destruct (H Hx) as (H1 & H2 & _). exact (conj H1 H2).
  - vm_compute. reflexivity.
  - intros k r [-> ->]%w_lost_chunks. split; [reflexivity|]. intros _. compute_decide.
  - intros x Hx. assert (x = "n1" ∨ x = "n2") as [->| ->] by (cbn [w_lost_chunk cr_Replicas] in Hx; set_solver); vm_compute; eauto.
  - split; [reflexivity|]. simpl. lia.
  - exists "n3". destruct (nodeRegistry (wd_fsm (sy_world w_lost_sys)) !! "n3") as [m|] eqn:Hm.
    + exists m. assert (Hfree : ne_FreeSpace <$> nodeRegistry (wd_fsm (sy_world w_lost_sys)) !! "n3" = Some 300%Z) by (vm_compute; reflexivity).
      rewrite Hm in Hfree. injection Hfree as ->. split_and!; [discriminate|compute_decide|reflexivity|vm_compute; discriminate].
    + exfalso. vm_compute in Hm. discriminate Hm.
  - split_and!; reflexivity.
Qed.

Lemma w_lost : @node_lost demo_Env _ (30 * second)%Z "m1:1" w_lost_plan w_data w_lost_sys "n1" w_lost_node "abcdef" w_lost_chunk
  (to_bytes "hello").
Proof.
  split; [exact w_lost_replica|exact w_lost_consistent|split; [vm_compute; reflexivity|discriminate]|].
  intros x m Hx Hm. destruct (w_lost_registry x m Hm) as (_ & _ & H). destruct (H Hx) as (_ & _ & [[-> Ha]|[-> Ha]]); rewrite Ha.
  - exists (w_holder "n2"). split_and!; [|reflexivity..|vm_compute; reflexivity|vm_compute; discriminate].
    unfold w_lost_sys. cbn [sy_nodes]. rewrite lookup_insert_ne by discriminate. apply lookup_insert_eq.
  - exists (w_node "n3" "/c"). split_and!; [|reflexivity..|vm_compute; reflexivity|vm_compute; discriminate].
    unfold w_lost_sys. cbn [sy_nodes]. rewrite !lookup_insert_ne by discriminate. apply lookup_singleton_eq.
Qed.

Definition w_survivor_info : service_NodeInfo := mkServiceNodeInfo (λ _, 0%Z) "n2" (λ _, 1%Z) (λ _, Ok ["abcdef"]) "h2:9000".

Lemma lost_node_is_replaced_witness :
  let s2 := set_world (@Scheduler.worker_step demo_Env _
    (@sweep demo_Env _ MostFreeSpaceStrategy MostFreeSpaceStrategy (30 * second)%Z (sy_world w_lost_sys)).2).2 w_lost_sys in
  let s3 := @heartbeat_tick demo_Env _ _ MostFreeSpaceStrategy MostFreeSpaceStrategy 2 "m1:1" w_quiet DefaultPolicy
    "h2:9000" w_survivor_info true (λ _, false) id s2 in
  let s4 := @repair_worker demo_Env _ _ MostFreeSpaceStrategy MostFreeSpaceStrategy 2 "m1:1" w_quiet DefaultPolicy
    (λ _, "") "h2:9000" s3 in
  ∃ live, GetChunkLocations (fsm s4) "abcdef" = Ok live ∧ length live = 2 ∧
    ∀ m, m ∈ live → holds s4 (ne_Address m) "abcdef" (to_bytes "hello").
Proof.
  destruct (@lost_node_is_replaced demo_Env _ _ _ MostFreeSpaceStrategy MostFreeSpaceStrategy _ _ 2 (30 * second)%Z "m1:1" w_quiet
    DefaultPolicy w_lost_plan w_data w_lost_sys "n1" w_lost_node "abcdef" w_lost_chunk (to_bytes "hello")
    (Build_repairs_work w_quiet (λ _ _, eq_refl) (λ _, eq_refl) (λ _, eq_refl) (λ _, eq_refl) (λ _, eq_refl))
    ltac:(vm_compute; discriminate) w_lost_plan_ok w_lost) as (x & a & y & Hx & Hxd & Ha & Hy & Hrun).
  assert (x = "n2") as -> by (clear -Hx Hxd; cbn [w_lost_chunk cr_Replicas] in Hx; set_solver).
  assert (a = "h2:9000") as -> by (clear -Ha; vm_compute in Ha; injection Ha as <-; reflexivity).
  destruct (Hrun w_survivor_info true id (λ _, "") eq_refl eq_refl eq_refl) as (live & H1 & _ & H2 & H3).
  exists live. split_and!; [exact H1|exact H2|exact H3].
Defined.
