(* ===== verification/NodeTheorems.v ===== *)
(** * The life of a storage node

    Starting a node makes it known to the metadata service under the address it really
    listens on; a node the service does not know registers again with its next heartbeat;
    and a heartbeat sender runs at most one loop, which a stop ends for good. *)

From S2P Require Import Prelude GoLib Json FsmTypes Fsm FsmCommands FsmInv FsmEquiv FsmSnapshot Placement World Scheduler Watcher Reconcile.
From S2P Require Import MetaServer MetaTheorems Sha256 DiskStore DiskStoreSpec DiskStoreTheorems Chunk StorageServer StorageTheorems Retry.
From S2P Require Import Replication StorageConfig MetaClient System StorageNode SystemTheorems Network NetworkTheorems RepairTheorems.

(** ** Registration *)

(** The metadata service knows the node of [ni] at its address, alive, and will reconcile
    the chunks it reported. *)
Definition registered (ni : service_NodeInfo) (chunks : list string) (s : Sys) : Prop :=
  (∃ n, nodeRegistry (fsm s) !! GetNodeID ni = Some n ∧ ne_NodeID n = GetNodeID ni ∧ ne_Address n = GetGrpcAddr ni ∧
     ne_Status n = NodeStatusAlive) ∧
  wd_timers (sy_world s) !! GetNodeID ni = Some chunks.

(** What the registration of a storage node does not touch. *)
Definition files_and_leaders (s : MetadataFSM) : gmap string FileRecord * gmap string MetadataNodeEntry := (fileIndex s, mdNodeRegistry s).

Section registration.
Context {Env0 : Env} {Commit0 : Committing Env0} {Range0 : MapRange} {Sort0 : GoSort}.
Context (src tgt : PlacementStrategy) (rf : Z) (leader : string) (net : Net) (p : Policy).
Context (Hp : (1 ≤ MaxAttempts p)%Z) (Hnet : repairs_work net) (Hlead : is_leader = true).

Lemma RegisterNode_run id addr fs cs w :
  (∀ n, nodeRegistry (wd_fsm w) !! id = Some n → ne_NodeID n = id) →
  ∃ w' n, RegisterNode id addr fs cs w = (Ok (RegisterNodeResp id), w') ∧
    nodeRegistry (wd_fsm w') = <[id := n]> (nodeRegistry (wd_fsm w)) ∧ files_and_leaders (wd_fsm w') = files_and_leaders (wd_fsm w) ∧
    ne_NodeID n = id ∧ ne_Address n = addr ∧ ne_Status n = NodeStatusAlive ∧ wd_timers w' !! id = Some cs.
Proof.
  intros Hid. unfold RegisterNode, mbind, M_bind, Now. rewrite Propose_committed by (split; apply to_uint64_range).
  cbn [exec wd_fsm next_tick]. unfold handleCmdRegisterNode, GetNode. simpl.
  destruct (nodeRegistry (wd_fsm w) !! id) as [n|] eqn:Hn; simpl.
  - specialize (Hid n eq_refl). unfold Schedule, modify; simpl. rewrite Hid.
    eexists _, _. split_and!; [reflexivity|simpl; apply insert_insert_eq|done..|apply lookup_insert_eq].
  - unfold Schedule, modify; simpl. eexists _, _. split_and!; [reflexivity|simpl; reflexivity|done..|apply lookup_insert_eq].
Qed.

Lemma register_run addr ni s nd chunks :
  sy_nodes s !! addr = Some nd → conn (nd_cache nd) = Some leader → GetChunkList ni s = Ok chunks →
  (∀ n, nodeRegistry (fsm s) !! GetNodeID ni = Some n → ne_NodeID n = GetNodeID ni) →
  ∃ s' n, RegisterWithMetadata src tgt rf leader net p addr ni s = (None, s') ∧ registered ni chunks s' ∧ sy_nodes s' = sy_nodes s ∧
    nodeRegistry (fsm s') = <[GetNodeID ni := n]> (nodeRegistry (fsm s)) ∧ files_and_leaders (fsm s') = files_and_leaders (fsm s) ∧
    ne_NodeID n = GetNodeID ni ∧ ne_Address n = GetGrpcAddr ni ∧ ne_Status n = NodeStatusAlive.
Proof.
  intros Hnd Hc Hl Hid. unfold RegisterWithMetadata, sm_RegisterNode. rewrite Hl.
  destruct (RegisterNode_run (GetNodeID ni) (GetGrpcAddr ni) (to_int64 (GetFreeSpace ni s)) chunks (sy_world s) Hid)
    as (w' & n & Hrun & Hn & Hfi & H1 & H2 & H3 & H4).
  set (req := RegisterNodeReq _ _ _ _).
  rewrite (node_invoke_direct src tgt rf leader net p Hp Hnet addr req s nd (RegisterNodeResp (GetNodeID ni)) w' Hnd Hc Hlead Hrun).
  eexists _, n. split; [reflexivity|]. split_and!; [|done..]. split; [|done]. exists n. simpl. rewrite Hn, lookup_insert_eq. done.
Qed.
End registration.

(** A well-formed, open store lists exactly the chunks it has. *)
Lemma List_contents `{!GoSort} s :
  store_ok s → ∃ l, (List s).1 = Ok l ∧ list_to_set (C := gset string) l = dom (contents s).
Proof.
  intros Hok. pose proof (st_open _ Hok) as Ho. unfold List, index_GetAll, get_st, mbind, SE_bind; simpl. rewrite Ho. simpl. eexists. split; [done|].
  rewrite (contents_dom s Hok). apply leibniz_equiv. intros x. rewrite elem_of_list_to_set, elem_of_go_sort, elem_of_dom.
  rewrite list_elem_of_fmap. split.
  - intros ([k v] & -> & Hk). apply elem_of_map_to_list in Hk. simpl. eauto.
  - intros [v Hv]. exists (x, v). split; [done|]. by apply elem_of_map_to_list.
Qed.

(** A node that starts, with the metadata service reachable. *)
Lemma node_start_run {Env0 : Env} {Commit0 : Committing Env0} {Range0 : MapRange} {Sort0 : GoSort}
    (src tgt : PlacementStrategy) (rf : Z) (leader : string) (net : Net) (listen : string → res string) (sn : StorageNode) (s : Sys) lis :
  let cfg := sn_config sn in
  repairs_work net → is_leader = true → store_ok (nd_disk (sn_node sn)) → conn (nd_cache (sn_node sn)) = Some leader →
  (∀ n, nodeRegistry (fsm s) !! sc_NodeID cfg = Some n → ne_NodeID n = sc_NodeID cfg) →
  StorageConfig.Validate cfg = None → listen (sc_GRPCAddr cfg) = Ok lis →
  let addr := if decide (sc_AdvertiseAddr cfg ≠ "") then sc_AdvertiseAddr cfg else lis in
  ∃ sn' s' n chunks, node_Start src tgt rf leader net listen sn s = (None, sn', s') ∧
    sn_server sn' = Serving ∧ BoundAddr sn' = lis ∧ node_GetGrpcAddr sn' = addr ∧ sn_config sn' = cfg ∧
    hs_ticker <$> sn_heartbeat sn' = Some Launched ∧ sy_nodes s' = <[addr := sn_node sn]> (sy_nodes s) ∧
    nodeRegistry (fsm s') = <[sc_NodeID cfg := n]> (nodeRegistry (fsm s)) ∧ files_and_leaders (fsm s') = files_and_leaders (fsm s) ∧
    ne_NodeID n = sc_NodeID cfg ∧ ne_Address n = addr ∧ ne_Status n = NodeStatusAlive ∧
    wd_timers (sy_world s') !! sc_NodeID cfg = Some chunks ∧
    list_to_set (C := gset string) chunks = dom (contents (nd_disk (sn_node sn))).
Proof.
  intros cfg Hnet Hl Hok Hc Hid Hv Hlis addr. unfold node_Start. fold cfg. rewrite Hv, Hlis. cbv zeta.
  set (sn1 := mkStorageNode _ _ (Some lis) _ _ _ _ _ _).
  change (node_GetGrpcAddr sn1) with addr. set (s1 := set_node addr (sn_node sn) s).
  assert (Hnd : sy_nodes s1 !! addr = Some (sn_node sn)) by apply lookup_insert_eq.
  destruct (List_contents (nd_disk (sn_node sn)) Hok) as (chunks & Hlist & Hdom).
  assert (Hp : (1 ≤ MaxAttempts (RetryPolicy cfg))%Z) by (simpl; by apply ok_attempts, Validate_spec).
  destruct (register_run src tgt rf leader net (RetryPolicy cfg) Hp Hnet Hl addr (node_info_of sn1) s1 (sn_node sn) chunks Hnd Hc)
    as (s' & n & Hreg & [_ Ht] & Hns & Hreg' & Hfi & H1 & H2 & H3); [|exact Hid|].
  { simpl. unfold running_node, node_GetChunkList. change (node_GetGrpcAddr sn1) with addr. by rewrite Hnd. }
  rewrite Hreg. eexists _, s', n, chunks. split_and!; try reflexivity; done.
Qed.

(** ** The heartbeat sender *)

(** What holds of a sender however it has been used. *)
Record sender_ok (hs : HeartbeatSender) : Prop := {
  sk_launches : hs_launches hs = if hs_cancel hs then 1 else 0;
  sk_idle : hs_cancel hs = false → hs_ticker hs = NotLaunched ∧ hs_beats hs = 0;
  sk_once : hs_cancel hs = true → hs_once hs = true;
  sk_returned : hs_ticker hs = Returned → hs_done hs = true;
  sk_panic : hs_ticker hs = TickerPanic → (hs_gap hs ≤ 0)%Z;
  sk_beats : hs_beats hs ≠ 0 → (0 < hs_gap hs)%Z;
  sk_gap : hs_ticker hs = Ticking ∨ hs_ticker hs = Beating → (0 < hs_gap hs)%Z;
}.

Lemma sender_step_ok hs hs' : sender_step hs hs' → sender_ok hs → sender_ok hs'.
Proof.
  intros Hst [H1 H2 H3 H4 H5 H6 H7]. destruct hs as [gap once cancel fin t n b]. simpl in *.
  assert (Hc : ∀ t', t = t' → t' ≠ NotLaunched → cancel = true).
  { intros t' -> Hne. destruct cancel; [done|]. by destruct (H2 eq_refl). }
  inversion Hst; subst; simpl in *;
    try (match goal with Ht : t = ?t' |- _ => pose proof (Hc t' Ht ltac:(done)) end; subst);
    unfold sender_Start, StopAndWait, set_ticker; simpl; try (destruct once; simpl);
    split; simpl; try done; try (by auto); try (destruct cancel; naive_solver); try naive_solver.
Qed.

Lemma sender_run_ok gap hs : rtc sender_step (NewHeartbeatSender gap) hs → sender_ok hs ∧ hs_gap hs = gap.
Proof.
  intros Hr. assert (Hi : sender_ok (NewHeartbeatSender gap) ∧ hs_gap (NewHeartbeatSender gap) = gap).
  { split; [|done]. by split; simpl; intros; try done; naive_solver. }
  revert Hi. generalize (NewHeartbeatSender gap) as hs0, Hr. clear Hr. intros hs0 Hr.
  induction Hr as [|hs0 hs1 hs2 Hs _ IH]; [done|]. intros [Hok Hg]. apply IH. split; [by eapply sender_step_ok|].
  rewrite <-Hg. destruct Hs; try done. unfold sender_Start. by destruct (hs_once hs).
Qed.

(** Once used, a sender launches nothing more; once returned, it stays so. *)
Lemma sender_frozen hs hs' :
  rtc sender_step hs hs' →
  (hs_once hs = true → hs_launches hs' = hs_launches hs) ∧
  (hs_once hs = true → hs_ticker hs = Returned → hs_ticker hs' = Returned ∧ hs_beats hs' = hs_beats hs).
Proof.
  induction 1 as [|hs hs1 hs2 Hs _ IH]; [done|].
  assert (Ho : hs_once hs = true → hs_once hs1 = true ∧ hs_launches hs1 = hs_launches hs ∧
    (hs_ticker hs = Returned → hs_ticker hs1 = Returned ∧ hs_beats hs1 = hs_beats hs)).
  { intros Ho. destruct Hs as [hs| | | | | |]; simpl; try (split_and!; [done|done|intros; split; congruence]).
    unfold sender_Start. by rewrite Ho. }
  naive_solver congruence.
Qed.

(** ** Properties *)

(** Starting a node with an invalid configuration, or where the listener does not bind,
    returns the error and changes nothing; otherwise, with the metadata service reachable,
    the node serves at its address, the service knows it alive under the advertised
    address or, when none is configured, under the one the listener really bound, will
    reconcile exactly the chunks on its disk, and the heartbeat loop has been launched. *)
Theorem node_start_registers {Env0 : Env} {Commit0 : Committing Env0} {Range0 : MapRange} {Sort0 : GoSort}
    (src tgt : PlacementStrategy) (rf : Z) (leader : string) (net : Net) (listen : string → res string) (sn : StorageNode) (s : Sys) :
  let cfg := sn_config sn in
  repairs_work net → is_leader = true → store_ok (nd_disk (sn_node sn)) → conn (nd_cache (sn_node sn)) = Some leader →
  (∀ n, nodeRegistry (fsm s) !! sc_NodeID cfg = Some n → ne_NodeID n = sc_NodeID cfg) →
  let '(err, sn', s') := node_Start src tgt rf leader net listen sn s in
  match Validate cfg, listen (sc_GRPCAddr cfg) with
  | Some e, _ | None, Err e => err = Some e ∧ sn' = sn ∧ s' = s
  | None, Ok lis =>
      let addr := if decide (sc_AdvertiseAddr cfg ≠ "") then sc_AdvertiseAddr cfg else lis in
      err = None ∧ sn_server sn' = Serving ∧ BoundAddr sn' = lis ∧ node_GetGrpcAddr sn' = addr ∧
      sy_nodes s' = <[addr := sn_node sn]> (sy_nodes s) ∧
      hs_ticker <$> sn_heartbeat sn' = Some Launched ∧
      ∃ n chunks, nodeRegistry (fsm s') !! sc_NodeID cfg = Some n ∧ ne_Address n = addr ∧ ne_Status n = NodeStatusAlive ∧
        wd_timers (sy_world s') !! sc_NodeID cfg = Some chunks ∧
        list_to_set (C := gset string) chunks = dom (contents (nd_disk (sn_node sn)))
  end.
Proof.
  intros cfg Hnet Hl Hok Hc Hid. pose proof (node_start_run src tgt rf leader net listen sn s) as Hrun.
  cbv zeta in Hrun. subst cfg. destruct (Validate (sn_config sn)) as [e|] eqn:Hv; [unfold node_Start; by rewrite Hv|].
  destruct (listen (sc_GRPCAddr (sn_config sn))) as [lis|e] eqn:Hlis; [|unfold node_Start; by rewrite Hv, Hlis].
  destruct (Hrun lis Hnet Hl Hok Hc Hid eq_refl eq_refl) as (sn' & s' & n & chunks & -> & ? & ? & ? & _ & ? & ? & Hn & _ & ? & ? & ? & ? & ?).
  split_and!; [done..|]. exists n, chunks. rewrite Hn, lookup_insert_eq. done.
Qed.

Definition w_node_config : StorageNodeConfig :=
  mkStorageNodeConfig "n1" ":0" "" ["m1:1"] 1%Z 1%Z "/data" 3 1%Z 5 1%Z 2%Z.
Definition w_storage_node : StorageNode :=
  mkStorageNode w_node_config w_source None NoServer false false None NewPeerDialer false.
Definition w_empty_sys : Sys := mkSys (initial_world 2) ∅ 0.
Definition w_listen (_ : string) : res string := Ok "h1:4000".
Definition w_started : option error * StorageNode * Sys :=
  @node_Start demo_Env _ _ MostFreeSpaceStrategy MostFreeSpaceStrategy 2 "m1:1" w_quiet w_listen w_storage_node w_empty_sys.

Lemma w_quiet_works : repairs_work w_quiet.
Proof. by split. Qed.

Lemma w_source_ok : store_ok (nd_disk w_source).
Proof. exact (cs_disks _ _ _ w_repair_consistent "h1:9000" w_source (lookup_insert_eq _ _ _)). Qed.

Lemma node_start_registers_witness :
  w_started.1.1 = None ∧ BoundAddr w_started.1.2 = "h1:4000" ∧
  ne_Address <$> nodeRegistry (fsm w_started.2) !! "n1" = Some "h1:4000".
Proof.
  pose proof (@node_start_registers demo_Env _ _ _ MostFreeSpaceStrategy MostFreeSpaceStrategy 2 "m1:1" w_quiet w_listen
    w_storage_node w_empty_sys w_quiet_works eq_refl w_source_ok eq_refl) as H.
  change (node_Start _ _ _ _ _ _ _ _) with w_started in H. destruct w_started as [[err sn'] s'].
  specialize (H ltac:(intros n Hn; vm_compute in Hn; discriminate Hn)).
  destruct H as (H1 & _ & H2 & _ & _ & _ & n & chunks & Hn & Ha & _). split; [exact H1|]. split; [exact H2|].
  change (sc_NodeID (sn_config w_storage_node)) with "n1" in Hn. simpl. rewrite Hn. simpl. rewrite Ha. reflexivity.
Defined.

(** A node the metadata service does not know is registered by its next heartbeat: the
    beat is answered NotFound, and the node is then known alive, at its own address and
    with the chunks on its disk to reconcile. *)
Theorem heartbeat_reregisters {Env0 : Env} {Commit0 : Committing Env0} {Range0 : MapRange} {Sort0 : GoSort}
    (src tgt : PlacementStrategy) (rf : Z) (leader : string) (net : Net) (p : Policy) (sn : StorageNode) (s : Sys) (nd : Node)
    (ctx : nat → bool) (sent : list RepairInstruction → list RepairInstruction) :
  let addr := node_GetGrpcAddr sn in
  let ni := node_info_of sn in
  repairs_work net → is_leader = true → (1 ≤ MaxAttempts p)%Z → sy_nodes s !! addr = Some nd → store_ok (nd_disk nd) →
  conn (nd_cache nd) = Some leader → nodeRegistry (fsm s) !! GetNodeID ni = None →
  let s' := heartbeat_tick src tgt rf leader net p addr ni true ctx sent s in
  ∃ chunks, registered ni chunks s' ∧ list_to_set (C := gset string) chunks = dom (contents (nd_disk nd)).
Proof.
  intros addr ni Hnet Hl Hp Hnd Hok Hc Hno. unfold heartbeat_tick, sendBeat, sm_Heartbeat.
  set (req := HeartbeatReq _ _ _).
  assert (Hbeat : node_invoke src tgt rf leader net p addr req s = (Err (status NotFound "node not registered"), tick s)).
  { unfold node_invoke. rewrite Hnd. unfold meta_invoke, Invoke.
    destruct (Z.to_nat (MaxAttempts p)) as [|k] eqn:Hk; [lia|]. cbn [invoke_loop]. rewrite (wk_amb _ Hnet), Hc.
    unfold meta_rpc. rewrite (wk_meta _ Hnet), decide_True by done. unfold handle. rewrite Hl. cbn [negb].
    unfold req. simpl run_handler. unfold Heartbeat, gets, mbind, M_bind, GetNode. simpl in Hno |- *. rewrite Hno. simpl.
    f_equal. destruct s as [w ns k']. unfold set_cache. simpl in *. rewrite Hnd.
    unfold set_node, set_world, tick. simpl. by destruct nd; rewrite insert_id. }
  rewrite Hbeat. rewrite decide_True by done. destruct (List_contents (nd_disk nd) Hok) as (chunks & Hlist & Hdom).
  destruct (register_run src tgt rf leader net p Hp Hnet Hl addr ni (tick s) nd chunks Hnd Hc) as (s' & n & Hreg & Hr & _).
  - simpl. unfold running_node, node_GetChunkList. fold addr. change (sy_nodes (tick s)) with (sy_nodes s). by rewrite Hnd.
  - intros n Hn. simpl in Hn, Hno. congruence.
  - rewrite Hreg. exists chunks. by split.
Qed.

Definition w_serving_node : StorageNode :=
  mkStorageNode w_node_config w_source (Some "h1:4000") Serving true true None NewPeerDialer false.
Definition w_unknown_sys : Sys := mkSys (initial_world 2) {["h1:4000" := w_source]} 0.

Lemma heartbeat_reregisters_witness : ∃ chunks,
  registered (node_info_of w_serving_node) chunks (@heartbeat_tick demo_Env _ _ MostFreeSpaceStrategy MostFreeSpaceStrategy
    2 "m1:1" w_quiet DefaultPolicy "h1:4000" (node_info_of w_serving_node) true (λ _, false) id w_unknown_sys).
Proof.
  destruct (@heartbeat_reregisters demo_Env _ _ _ MostFreeSpaceStrategy MostFreeSpaceStrategy 2 "m1:1" w_quiet DefaultPolicy
    w_serving_node w_unknown_sys w_source (λ _, false) id w_quiet_works eq_refl ltac:(vm_compute; discriminate)
    (lookup_singleton_eq _ _) w_source_ok eq_refl ltac:(vm_compute; reflexivity)) as (chunks & Hr & _).
  exists chunks. exact Hr.
Defined.

(** However [Start], [StopAndWait] and the loop interleave: at most one loop is ever
    launched, and none after a stop that came first; a loop that has returned had been
    stopped and never beats again; and no beat is sent, but the loop panics, exactly when
    the interval is not positive. *)
Theorem sender_runs_once (gap : Duration) (hs : HeartbeatSender) :
  rtc sender_step (NewHeartbeatSender gap) hs →
  hs_launches hs ≤ 1 ∧
  (hs_ticker hs = TickerPanic → (gap ≤ 0)%Z) ∧ ((gap ≤ 0)%Z → hs_beats hs = 0) ∧
  (hs_ticker hs = Returned → hs_done hs = true) ∧
  (∀ hs', rtc sender_step hs hs' →
     (hs_once hs = true → hs_launches hs' = hs_launches hs) ∧
     (hs_ticker hs = Returned → hs_ticker hs' = Returned ∧ hs_beats hs' = hs_beats hs)).
Proof.
  intros Hr. destruct (sender_run_ok gap hs Hr) as [[H1 H2 H3 H4 H5 H6 _] <-]. split_and!; [|done| |done|].
  - rewrite H1. destruct (hs_cancel hs); lia.
  - intros Hg. destruct (decide (hs_beats hs = 0)) as [|Hb]; [done|]. specialize (H6 Hb). lia.
  - intros hs' Hr'. destruct (sender_frozen _ _ Hr') as [Hf1 Hf2]. split; [done|]. intros Ht. apply Hf2; [|done]. apply H3.
    destruct (hs_cancel hs); [done|]. destruct (H2 eq_refl). congruence.
Qed.

Lemma sender_runs_once_witness :
  hs_launches (StopAndWait (sender_Start (sender_Start (NewHeartbeatSender (3 * second)%Z)))) ≤ 1.
Proof.
  refine (proj1 (sender_runs_once (3 * second)%Z _ _)).
  apply (rtc_l _ _ (sender_Start (NewHeartbeatSender (3 * second)%Z))); [apply ss_start|].
  apply (rtc_l _ _ (sender_Start (sender_Start (NewHeartbeatSender (3 * second)%Z)))); [apply ss_start|].
  apply rtc_once. apply ss_stop.
Defined.
