(* ===== verification/Boot.v ===== *)
(** * Starting the processes: storage/cmd, metadata/cmd and the cluster constructors

    How a storage node is put together from its parts (configuration, identity, checksum
    index, disk store, metadata client, node), how a metadata node is, and how
    integration/testutil puts clusters together out of both.  A cluster that has started
    has the properties from which the theorems of the system start, and a node that is
    stopped and started again on its directory has its chunks. *)

From S2P Require Import Prelude GoLib Util GoText Json FsmTypes Fsm FsmCommands FsmInv FsmEquiv FsmSnapshot Placement World Scheduler Watcher Reconcile.
From S2P Require Import MetaServer MetaTheorems Sha256 DiskStore DiskStoreSpec DiskStoreTheorems ChecksumIndex Chunk StorageServer StorageTheorems Retry.
From S2P Require Import Replication StorageConfig MetaConfig MetaApp ClientConfig Manifest Client ClientTheorems UploadTheorems MetaClient System StorageNode.
From S2P Require Import SystemTheorems Network NetworkRuns NetworkTheorems RepairTheorems NodeTheorems.

(** A start succeeds, ends in [FatalError], or waits for ever for the lock of the database. *)
Inductive boot (A : Type) := Booted (a : A) | Fatal (e : error) | Waits.
Arguments Booted {_} _.
Arguments Fatal {_} _.
Arguments Waits {_}.

(** What the process of a storage node finds. *)
Record NodeOS := mkNodeOS {
  no_getwd : res string;
  no_mkdir : string → option error;
  no_idfile : res string;          (* the file [node_id] *)
  no_uuid : string;
  no_idwrite : option error;
  no_disk : gmap string bytes;     (* the files of the data directory *)
  no_io : nat → io_outcome;
  no_listen : string → res string;
  no_dial : string → option error;
}.

Definition with_nodeID (id : string) (c : StorageNodeConfig) : StorageNodeConfig :=
  mkStorageNodeConfig id (sc_GRPCAddr c) (sc_AdvertiseAddr c) (sc_MetadataAddrs c) (sc_Timeout c) (sc_HeartbeatInterval c)
    (sc_DataDir c) (sc_ReplicationFactor c) (sc_RPCTimeout c) (sc_RetryMaxAttempts c) (sc_RetryBaseBackoff c) (sc_RetryMaxBackoff c).

(** The bucket of an index, and whether it is open. *)
Definition index_of {F} `{!Bolt F} (c : BoltChecksumIndex bytes) (s : F) : gmap string bytes * bool :=
  match ci_db c with
  | Some f => (default ∅ (bolt_data f s !! ci_bucket c), true)
  | None => (∅, false)
  end.

(** The checksum index of a directory, opened, and the disk store over it. *)
Definition build_store {F} `{!Bolt F} (os : NodeOS) (dir : string) (opts : list DiskStoreOptions) (fs : F)
    : boot (BoltChecksumIndex bytes * DiskStore) * F :=
  match NewChecksumIndexBoltDB (Some ByteCodec) [WithDbPath dir] with
  | Err e => (Fatal e, fs)
  | Ok cs =>
      match ci_Open (no_getwd os) (no_mkdir os) cs fs with
      | (Returns None, cs1, fs1) =>
          match NewDiskStore (no_io os) opts (Some (index_of cs1 fs1)) (no_disk os) with
          | Err e => (Fatal e, fs1)
          | Ok ds => (Booted (cs1, ds), fs1)
          end
      | (Returns (Some e), _, fs1) => (Fatal e, fs1)
      | (Panics, _, fs1) => (Fatal (ErrNew "panic"), fs1)
      | (Blocks, _, fs1) => (Waits, fs1)
      end
  end.

(** storage/metaclient/client.go *)
Definition NewMetadataClient (dial : string → option error) (seedAddrs : list string) : res LeaderCache :=
  match New_client dial seedAddrs with
  | None => Err (ErrWrap "new metadata client" (ErrNew "leaderclient: failed to connect to any seed address"))
  | Some c => Ok c
  end.

Section storage_process.
Context `{!Env, !MapRange, !GoSort} (src tgt : PlacementStrategy) (rf : Z) (leader : string) (net : Net).
Context {F : Type} `{!Bolt F}.

(** From the store to the running node. *)
Definition start_node (os : NodeOS) (cfg : StorageNodeConfig) (ds : DiskStore) (s : Sys) : boot StorageNode * Sys :=
  match NewMetadataClient (no_dial os) (sc_MetadataAddrs cfg) with
  | Err e => (Fatal e, s)
  | Ok mc =>
      match NewStorageNode cfg (Some tt) (Some ds) (Some mc) with
      | Err e => (Fatal e, s)
      | Ok node =>
          match node_Start src tgt rf leader net (no_listen os) node s with
          | (Some e, _, s1) => (Fatal e, s1)
          | (None, node1, s1) => (Booted node1, s1)
          end
      end
  end.

(** [main] of storage/cmd up to the signal; [cfg] is what [LoadConfigDefaultFlow] returns. *)
Definition storage_main (os : NodeOS) (cfg : res StorageNodeConfig) (fs : F) (s : Sys)
    : boot (StorageNode * BoltChecksumIndex bytes) * F * Sys :=
  match cfg with
  | Err e => (Fatal e, fs, s)
  | Ok cfg =>
      let id :=
        if decide (sc_NodeID cfg = "") then
          fst <$> LoadOrGenerateNodeID (no_idfile os) (no_uuid os) (no_mkdir os (sc_DataDir cfg)) (no_idwrite os)
        else Some (sc_NodeID cfg) in
      match id with
      | None => (Fatal (ErrNew "node ID"), fs, s)
      | Some id =>
          let cfg := with_nodeID id cfg in
          let dir := sc_DataDir cfg in
          match build_store os dir [WithRootDir (filepath_Clean dir); WithTempDir (filepath_Join [dir; "tmp"])] fs with
          | (Booted (cs, ds), fs1) =>
              match start_node os cfg ds s with
              | (Booted node, s1) => (Booted (node, cs), fs1, s1)
              | (Fatal e, s1) => (Fatal e, fs1, s1)
              | (Waits, s1) => (Waits, fs1, s1)
              end
          | (Fatal e, fs1) => (Fatal e, fs1, s)
          | (Waits, fs1) => (Waits, fs1, s)
          end
      end
  end.

(** After the signal. *)
Definition storage_shutdown (node : StorageNode) (cs : BoltChecksumIndex bytes) (fs : F) (s : Sys)
    : StorageNode * BoltChecksumIndex bytes * F * Sys :=
  let '(node1, s1) := node_Stop src tgt rf leader net node s in
  let '(cs1, fs1) := ci_CleanUp cs fs in
  (node1, cs1, fs1, s1).

(** ** integration/testutil *)

Definition storage_test_config (i : nat) (dir : string) (metaAddrs : list string) (replicationFactor : Z) : StorageNodeConfig :=
  mkStorageNodeConfig ("storage-" +:+ pretty i) "127.0.0.1:0" "" metaAddrs (30 * second)%Z (1 * second)%Z dir replicationFactor
    (10 * second)%Z 3 (100 * millisecond)%Z (5 * second)%Z.

Definition startStorageNode (i : nat) (dir : string) (metaAddrs : list string) (replicationFactor : Z) (os : NodeOS) (fs : F) (s : Sys)
    : boot (StorageNode * string * BoltChecksumIndex bytes) * F * Sys :=
  match build_store os dir
          [WithRootDir (filepath_Clean dir); WithTempDir (filepath_Clean dir); WithSplitLevel 2; WithTotalSpace (256 * 1024 * 1024)%Z] fs with
  | (Booted (cs, ds), fs1) =>
      match start_node os (storage_test_config i dir metaAddrs replicationFactor) ds s with
      | (Booted node, s1) => (Booted (node, BoundAddr node, cs), fs1, s1)
      | (Fatal e, s1) => (Fatal e, fs1, s1)
      | (Waits, s1) => (Waits, fs1, s1)
      end
  | (Fatal e, fs1) => (Fatal e, fs1, s)
  | (Waits, fs1) => (Waits, fs1, s)
  end.

(** The storage nodes [i], [i + 1], ... of a cluster; a node that does not start ends the test. *)
Fixpoint start_nodes (dir : nat → string) (os : nat → NodeOS) (metaAddrs : list string) (replicationFactor : Z) (i n : nat) (fs : F) (s : Sys)
    : boot (list (StorageNode * string * BoltChecksumIndex bytes)) * F * Sys :=
  match n with
  | 0 => (Booted [], fs, s)
  | S n =>
      match startStorageNode i (dir i) metaAddrs replicationFactor (os i) fs s with
      | (Booted x, fs1, s1) =>
          match start_nodes dir os metaAddrs replicationFactor (S i) n fs1 s1 with
          | (Booted xs, fs2, s2) => (Booted (x :: xs), fs2, s2)
          | r => r
          end
      | (Fatal e, fs1, s1) => (Fatal e, fs1, s1)
      | (Waits, fs1, s1) => (Waits, fs1, s1)
      end
  end.
End storage_process.

(** [BuildMetaConfig] *)
Definition BuildMetaConfig (nodeID raftAddr raftDir : string) (bootstrap : bool) (replicationFactor : Z)
    (suspectTimeout deadTimeout watcherInterval reconcileDelay : Duration) : NodeConfig :=
  mkNodeConfig nodeID "127.0.0.1:0" raftAddr "" raftDir ∅ bootstrap replicationFactor suspectTimeout deadTimeout watcherInterval
    reconcileDelay (500 * millisecond)%Z (500 * millisecond)%Z (120 * second)%Z 8192 1.

(** What the process of a metadata node finds. *)
Record MetaOS := mkMetaOS {
  mo_mkdir : string → option error;
  mo_stat : res bool;
  mo_bolt : option error;
  mo_raft : RaftOS;
  mo_wait : option error;          (* [WaitForLeader] *)
  mo_listen : string → res string;
}.

Section metadata_process.
Context `{!Env, !MapRange, !GoSort}.

(** [main] of metadata/cmd up to the signal, and the constructors of the tests. *)
Definition metadata_main (os : MetaOS) (cfg : res NodeConfig) (w : World) : boot MetadataApp * World :=
  match cfg with
  | Err e => (Fatal e, w)
  | Ok cfg =>
      match NewMetadataApp (mo_mkdir os) (mo_stat os) (mo_bolt os) (mo_raft os) cfg [] with
      | None => (Fatal (ErrNew "reconciler"), w)
      | Some (Err e) => (Fatal e, w)
      | Some (Ok app) =>
          let '((err, app1), w1) := Run (mo_wait os) (mo_listen os) app w in
          match err with
          | Some e => (Fatal e, w1)
          | None => (Booted app1, w1)
          end
      end
  end.

Definition test_meta_config (raftAddr raftDir : string) (numStorage : Z) : NodeConfig :=
  mkNodeConfig "meta-test-1" "127.0.0.1:0" raftAddr "" raftDir ∅ true numStorage (3 * second)%Z (6 * second)%Z (1 * second)%Z (2 * second)%Z
    (500 * millisecond)%Z (500 * millisecond)%Z (30 * second)%Z 8192 1.

Record TestCluster := mkTestCluster {
  tc_MetaApp : MetadataApp;
  tc_MetaAddr : string;
  tc_StorageNodes : list StorageNode;
  tc_StorageAddrs : list string;
  tc_cleanups : list (BoltChecksumIndex bytes);
}.

(** One metadata node and [numStorage] storage nodes. *)
Definition StartTestCluster {F} `{!Bolt F} (mos : MetaOS) (raftAddr raftDir : string) (dir : nat → string) (os : nat → NodeOS) (net : Net)
    (numStorage : nat) (fs : F) : boot TestCluster * F * Sys :=
  let cfg := test_meta_config raftAddr raftDir (Z.of_nat numStorage) in
  match metadata_main mos (Ok cfg) (initial_world (ReplicationCount cfg)) with
  | (Fatal e, w) => (Fatal e, fs, mkSys w ∅ 0)
  | (Waits, w) => (Waits, fs, mkSys w ∅ 0)
  | (Booted app, w) =>
      let addr := BoundGRPCAddr app in
      match start_nodes (ma_sourcePlacement app) (ma_targetPlacement app) (ReplicationCount cfg) addr net dir os [addr]
              (Z.of_nat numStorage) 0 numStorage fs (mkSys w ∅ 0) with
      | (Booted nodes, fs1, s) =>
          (Booted (mkTestCluster app addr ((λ x, x.1.1) <$> nodes) ((λ x, x.1.2) <$> nodes) ((λ x, x.2) <$> nodes)), fs1, s)
      | (Fatal e, fs1, s) => (Fatal e, fs1, s)
      | (Waits, fs1, s) => (Waits, fs1, s)
      end
  end.

(** [main] after the signal: [Shutdown] returns no error, so the process ends with status 0. *)
Definition metadata_shutdown (raftErr storeErr : option error) (app : MetadataApp) : list log_record * MetadataApp :=
  Shutdown raftErr storeErr app.

(** The storage nodes of a cluster stop in order. *)
Definition stop_nodes (src tgt : PlacementStrategy) (rf : Z) (leader : string) (net : Net) (nodes : list StorageNode) (s : Sys) : Sys :=
  foldl (λ s n, (node_Stop src tgt rf leader net n s).2) s nodes.

(** The cleanups close the databases, the last first. *)
Definition run_cleanups {F} `{!Bolt F} (cleanups : list (BoltChecksumIndex bytes)) (fs : F) : F :=
  foldl (λ fs cs, (ci_CleanUp cs fs).2) fs (reverse cleanups).

(** [TestCluster.Shutdown]: the nodes, the metadata node, then the cleanups. *)
Definition cluster_Shutdown {F} `{!Bolt F} (net : Net) (c : TestCluster) (fs : F) (s : Sys) : MetadataApp * F * Sys :=
  let app := tc_MetaApp c in
  let rf := ReplicationCount (ma_Config app) in
  let s1 := stop_nodes (ma_sourcePlacement app) (ma_targetPlacement app) rf (tc_MetaAddr c) net (tc_StorageNodes c) s in
  ((Shutdown None None app).2, run_cleanups (tc_cleanups c) fs, s1).
End metadata_process.

(** ** A cluster that starts *)

(** The identity and the address of the [i]-th storage node of a test cluster. *)
Definition storage_id (i : nat) : string := "storage-" +:+ pretty i.
Definition local_addr (port : nat) : string := "127.0.0.1:" +:+ pretty port.

#[global] Instance storage_id_inj : Inj (=) (=) storage_id.
Proof. intros i j Heq. unfold storage_id in Heq. by simplify_eq. Qed.
#[global] Instance local_addr_inj : Inj (=) (=) local_addr.
Proof. intros i j Heq. unfold local_addr in Heq. by simplify_eq. Qed.

(** The machine works: the directories of the nodes are fresh and their databases can be
    opened, listeners bind to ports of their own, and the metadata node comes up. *)
Record healthy {F} `{!Bolt F} (mos : MetaOS) (dir : nat → string) (os : nat → NodeOS) (file : nat → string) (port : nat → nat) (n : nat) (fs : F) : Prop := {
  he_bolt : ∀ s f, f ∉ bolt_held s → (bolt_Open f s).1 = Returns None;
  he_reliable : ∀ s : F, reliable s;
  he_file : ∀ i, i < n → filepath_Abs (no_getwd (os i)) (filepath_Join [dir i; "checksum.db"]) = Ok (file i);
  he_files : ∀ i j, i < n → j < n → file i = file j → i = j;
  he_fresh : ∀ i, i < n → file i ∉ bolt_held fs ∧ bolt_data (file i) fs = ∅;
  he_dir : ∀ i, dir i ≠ "";
  he_mkdir : ∀ i d, no_mkdir (os i) d = None;
  he_io : ∀ i, no_faults (no_io (os i));
  he_disk : ∀ i, no_disk (os i) = ∅;
  he_listen : ∀ i, no_listen (os i) "127.0.0.1:0" = Ok (local_addr (port i));
  he_ports : Inj (=) (=) port;
  he_dial : ∀ i a, no_dial (os i) a = None;
  he_meta : (∀ d, mo_mkdir mos d = None) ∧ mo_stat mos = Ok true ∧ mo_bolt mos = None ∧ mo_wait mos = None;
  he_raft : (∀ a, resolve_tcp (mo_raft mos) a = Ok a) ∧ (∀ a b, new_transport (mo_raft mos) a b = None) ∧
    (∀ d n, new_snapshots (mo_raft mos) d n = None) ∧ new_raft (mo_raft mos) = None ∧ (∀ l, bootstrap (mo_raft mos) l = None);
}.

Lemma NewDiskStore_run io opts b o disk :
  no_faults io →
  NewDiskStore io opts (Some (b, o)) disk = Ok (set_opened o (set_index b (next_io (next_io
    (foldl (λ s opt, opt s) (mkDiskStore "." "." DIR_SHARD_LEVEL DEFAULT_STORE_SIZE 0 ∅ false disk 0) opts))))).
Proof. intros Hio. unfold NewDiskStore, os_plain, os_call, mbind, SE_bind. rewrite Hio. simpl. by rewrite Hio. Qed.

Definition options_of (dir : string) : list DiskStoreOptions :=
  [WithRootDir (filepath_Clean dir); WithTempDir (filepath_Clean dir); WithSplitLevel 2; WithTotalSpace (256 * 1024 * 1024)%Z].

Section fresh.
Context {F : Type} {Bolt0 : Bolt F} {Laws0 : BoltLaws F}.

(** An index that opens: the bucket is there, empty when the file was. *)
Lemma open_index (cs : BoltChecksumIndex bytes) getwd mkdir file (fs : F) :
  ci_db cs = None → ci_bucket cs = "checksums" →
  (∀ s f, f ∉ bolt_held s → (bolt_Open f s).1 = Returns None) → (∀ s : F, reliable s) →
  filepath_Abs getwd (filepath_Join [ci_path cs; "checksum.db"]) = Ok file → (∀ d, mkdir d = None) → file ∉ bolt_held fs →
  ∃ fs', ci_Open getwd mkdir cs fs = (Returns None, set_db (Some file) cs, fs') ∧
    bolt_held fs' = {[file]} ∪ bolt_held fs ∧ (∀ g, g ≠ file → bolt_data g fs' = bolt_data g fs) ∧
    bolt_data file fs' = <["checksums" := default ∅ (bolt_data file fs !! "checksums")]> (bolt_data file fs).
Proof.
  intros Hdb Hbk Hopen Hrel Habs Hmk Hnot. unfold ci_Open. rewrite Hdb, decide_False by naive_solver. rewrite Habs, Hmk, Hbk.
  pose proof (open_held file fs) as Hheld. pose proof (open_data file fs) as Hdata. pose proof (Hopen fs file Hnot) as Ho.
  destruct (bolt_Open file fs) as [r fs1]. simpl in *. subst r. destruct Hheld as [_ Hheld].
  assert (Hin : file ∈ bolt_held fs1) by set_solver.
  assert (Hb : tx_CreateBucketIfNotExists "checksums" (bolt_data file fs1) =
    Ok (<["checksums" := default ∅ (bolt_data file fs1 !! "checksums")]> (bolt_data file fs1))).
  { apply create_bucket; [done|]. apply Nat.leb_le. vm_compute. reflexivity. }
  destruct (update_atomic file (tx_CreateBucketIfNotExists "checksums") fs1 Hin) as (Hh & Hother & Hup).
  pose proof (rl_update fs1 (Hrel fs1) file (tx_CreateBucketIfNotExists "checksums") _ Hin Hb) as Hok.
  rewrite Hb in Hup. destruct (bolt_Update file _ fs1) as [e fs2]. simpl in *. subst e. destruct Hup as [[_ Hup]|[? _]]; [|done].
  exists fs2. split_and!; [done|congruence| |by rewrite Hup, !Hdata]. intros g Hg. by rewrite Hother, Hdata.
Qed.

(** A fresh directory gives an open, empty store. *)
Lemma build_fresh os dir file (fs : F) :
  (∀ s f, f ∉ bolt_held s → (bolt_Open f s).1 = Returns None) → (∀ s : F, reliable s) →
  filepath_Abs (no_getwd os) (filepath_Join [dir; "checksum.db"]) = Ok file → (∀ d, no_mkdir os d = None) →
  no_faults (no_io os) → no_disk os = ∅ → file ∉ bolt_held fs → bolt_data file fs = ∅ →
  ∃ cs ds fs', build_store os dir (options_of dir) fs = (Booted (cs, ds), fs') ∧ store_ok ds ∧
    bolt_held fs' = {[file]} ∪ bolt_held fs ∧ (∀ g, g ≠ file → bolt_data g fs' = bolt_data g fs).
Proof.
  intros Hopen Hrel Habs Hmk Hio Hdisk Hnot Hempty. unfold build_store. cbn [NewChecksumIndexBoltDB foldl].
  set (cs := WithDbPath dir _).
  destruct (open_index cs (no_getwd os) (no_mkdir os) file fs) as (fs' & -> & Hheld & Hother & Hdata); [done..|].
  unfold index_of. simpl. rewrite Hdata, lookup_insert_eq, Hempty, lookup_empty. simpl.
  rewrite NewDiskStore_run by done. eexists _, _, fs'. split_and!; [reflexivity| |done..]. by apply empty_store_ok.
Qed.

End fresh.

Section boot.
Context {Env0 : Env} {Commit0 : Committing Env0} {Range0 : MapRange} {Sort0 : GoSort}.
Context {F : Type} {Bolt0 : Bolt F} {Laws0 : BoltLaws F}.

(** The system while storage nodes start: the first [i] are registered and run. *)
Record starting (leaders : gmap string MetadataNodeEntry) (port : nat → nat) (i : nat) (s : Sys) : Prop := {
  sg_known : ∀ k n, nodeRegistry (fsm s) !! k = Some n →
    ∃ j, j < i ∧ k = storage_id j ∧ ne_NodeID n = k ∧ ne_Address n = local_addr (port j) ∧ ne_Status n = NodeStatusAlive;
  sg_registered : ∀ j, j < i → is_Some (nodeRegistry (fsm s) !! storage_id j);
  sg_running : ∀ a nd, sy_nodes s !! a = Some nd →
    ∃ j, j < i ∧ a = local_addr (port j) ∧ nd_NodeID nd = storage_id j ∧ store_ok (nd_disk nd);
  sg_runs : ∀ j, j < i → is_Some (sy_nodes s !! local_addr (port j));
  sg_rest : files_and_leaders (fsm s) = (∅, leaders);
}.

Lemma starting_cluster leaders port i s :
  Inj (=) (=) port → starting leaders port i s → cluster_ok (nodeRegistry (fsm s)) (nd_NodeID <$> sy_nodes s) ∧ all_disks_ok s.
Proof.
  intros Hinj [Hk Hreg Hrun _ _]. split; [split|].
  - intros k n Hn. by destruct (Hk _ _ Hn) as (j & _ & _ & ? & _).
  - destruct (nodeRegistry (fsm s) !! "") as [n|] eqn:Hn; [|done]. by destruct (Hk _ _ Hn) as (j & _ & [=] & _).
  - intros k n Hn. destruct (Hk _ _ Hn) as (j & _ & _ & _ & -> & _).
    destruct (nodeRegistry (fsm s) !! local_addr (port j)) as [n'|] eqn:Hn'; [|done]. by destruct (Hk _ _ Hn') as (j' & _ & [=] & _).
  - intros k1 k2 n1 n2 H1 H2 Heq. destruct (Hk _ _ H1) as (j1 & _ & -> & _ & Ha1 & _), (Hk _ _ H2) as (j2 & _ & -> & _ & Ha2 & _).
    rewrite Ha1, Ha2 in Heq. apply (inj local_addr), (inj port) in Heq. congruence.
  - intros a id. rewrite lookup_fmap. destruct (sy_nodes s !! a) as [nd|] eqn:Hnd; [|done]. intros [= <-].
    destruct (Hrun _ _ Hnd) as (j & Hj & -> & -> & _). split; [done|]. destruct (Hreg j Hj) as [n Hn]. exists n. split; [done|].
    destruct (Hk _ _ Hn) as (j' & _ & Hid%(inj storage_id) & _ & -> & _). congruence.
  - intros a nd Hnd. by destruct (Hrun _ _ Hnd) as (j & _ & _ & _ & ?).
Qed.

(** One node more. *)
Lemma start_one src tgt rf leader net mos dir os file leaders port m n i (fs0 fs : F) s :
  healthy mos dir os file port m fs0 → i < m → repairs_work net → is_leader = true → (1 ≤ n)%Z →
  starting leaders port i s → file i ∉ bolt_held fs → bolt_data (file i) fs = ∅ →
  ∃ node cs fs' s', startStorageNode src tgt rf leader net i (dir i) [leader] n (os i) fs s =
      (Booted (node, local_addr (port i), cs), fs', s') ∧
    starting leaders port (S i) s' ∧ bolt_held fs' = {[file i]} ∪ bolt_held fs ∧ (∀ g, g ≠ file i → bolt_data g fs' = bolt_data g fs).
Proof.
  intros He Hi Hnet Hl Hn Hs Hnot Hempty. unfold startStorageNode. fold (options_of (dir i)).
  destruct (build_fresh (os i) (dir i) (file i) fs) as (cs & ds & fs' & -> & Hok & Hheld & Hother); try apply He; try done.
  unfold start_node, NewMetadataClient, New_client. cbn [sc_MetadataAddrs storage_test_config connect].
  unfold Update. rewrite (he_dial _ _ _ _ _ _ _ He), decide_False by (by intros [_ []%is_Some_None]). cbn [NewStorageNode].
  match goal with |- context [node_Start _ _ _ _ _ _ ?sn s] => set (node := sn) end.
  destruct (node_start_run src tgt rf leader net (no_listen (os i)) node s (local_addr (port i)))
    as (node' & s' & e & chunks & Hst & _ & Hb & _ & _ & _ & Hnodes & Hreg & Hfi & H1 & H2 & H3 & _); try done.
  { intros e Hk. by destruct (sg_known _ _ _ _ Hs _ _ Hk) as (j & _ & _ & ? & _). }
  { unfold StorageConfig.Validate. simpl. rewrite decide_False by apply He. by rewrite decide_False by lia. }
  { simpl. apply He. }
  rewrite Hst, Hb. exists node', cs, fs', s'. split_and!; [done| |done..]. simpl in *. split.
  - rewrite Hreg. intros k n' [[<- <-]|[_ Hk]]%lookup_insert_Some; [exists i; split_and!; [lia|done..]|].
    destruct (sg_known _ _ _ _ Hs _ _ Hk) as (j & Hj & ?). exists j. split; [lia|done].
  - rewrite Hreg. intros j Hj. apply lookup_insert_is_Some. destruct (decide (j = i)) as [->|Hne]; [by left|right].
    split; [by intros ?%(inj storage_id)|]. apply Hs. lia.
  - rewrite Hnodes. intros a nd [[<- <-]|[_ Hk]]%lookup_insert_Some; [exists i; split_and!; [lia|done..]|].
    destruct (sg_running _ _ _ _ Hs _ _ Hk) as (j & Hj & ?). exists j. split; [lia|done].
  - rewrite Hnodes. intros j Hj. apply lookup_insert_is_Some. destruct (decide (j = i)) as [->|Hne]; [by left|right].
    split; [by intros ?%(inj local_addr)%(he_ports _ _ _ _ _ _ _ He)|]. apply Hs. lia.
  - rewrite Hfi. apply Hs.
Qed.

Lemma start_all src tgt rf leader net mos dir os file leaders port m n (fs0 : F) :
  healthy mos dir os file port m fs0 → repairs_work net → is_leader = true → (1 ≤ n)%Z →
  ∀ k i fs s, i + k ≤ m → starting leaders port i s → (∀ j, i ≤ j < m → file j ∉ bolt_held fs ∧ bolt_data (file j) fs = ∅) →
  ∃ nodes fs' s', start_nodes src tgt rf leader net dir os [leader] n i k fs s = (Booted nodes, fs', s') ∧
    starting leaders port (i + k) s' ∧ (λ x, x.1.2) <$> nodes = (λ j, local_addr (port j)) <$> seq i k.
Proof.
  intros He Hnet Hl Hn. induction k as [|k IH]; intros i fs s Hm Hs Hf; simpl.
  { eexists _, fs, s. split; [done|]. by rewrite Nat.add_0_r. }
  destruct (Hf i ltac:(lia)) as [Hnot Hempty].
  destruct (start_one src tgt rf leader net mos dir os file leaders port m n i fs0 fs s) as (node & cs & fs1 & s1 & -> & Hs1 & Hheld & Hdata); [done|lia|done..|].
  destruct (IH (S i) fs1 s1 ltac:(lia) Hs1) as (nodes & fs2 & s2 & -> & Hs2 & Haddr).
  { intros j Hj. destruct (Hf j ltac:(lia)) as [Hnj Hej].
    assert (Hne : file j ≠ file i) by (intros ?%(he_files _ _ _ _ _ _ _ He); lia). split; [|by rewrite Hdata]. set_solver. }
  eexists _, fs2, s2. split; [done|]. split; [by replace (i + S k) with (S i + k) by lia|].
  rewrite fmap_cons, Haddr. done.
Qed.

(** The metadata node. *)
Lemma metadata_run mos dir os file port n (fs : F) cfg w addr :
  healthy mos dir os file port n fs → is_leader = true → MetaConfig.Validate (mo_mkdir mos) cfg = None →
  mo_listen mos (mc_GRPCAddr cfg) = Ok addr →
  ∃ app w', metadata_main mos (Ok cfg) w = (Booted app, w') ∧ BoundGRPCAddr app = addr ∧ ma_Config app = cfg ∧
    nodeRegistry (wd_fsm w') = nodeRegistry (wd_fsm w) ∧ fileIndex (wd_fsm w') = fileIndex (wd_fsm w) ∧
    mdNodeRegistry (wd_fsm w') = <[mc_RaftAddr cfg := mkMetadataNodeEntry (mc_NodeID cfg) (mc_RaftAddr cfg) addr]> (mdNodeRegistry (wd_fsm w)).
Proof.
  intros He Hl Hv Hlis. destruct (he_meta _ _ _ _ _ _ _ He) as (_ & Hst & Hbo & Hw), (he_raft _ _ _ _ _ _ _ He) as (Hr & Ht & Hsn & Hnew & Hboot).
  unfold metadata_main, NewMetadataApp. rewrite Hv, Hst, Hbo. cbn [foldl initStore]. unfold initRaft, NewRaftNode. cbn [ma_Config initFSM].
  rewrite Hr, Ht, Hsn, Hnew, Hboot. pose proof (ReplicationCount_pos cfg) as Hpos. unfold initWorkers.
  destruct (mc_Bootstrap cfg); cbn [res_bind ma_Config]; unfold NewReconciler; rewrite decide_False by lia; simpl.
  all: unfold Run; rewrite Hw; simpl; rewrite Hlis; unfold registerInFSM, mbind, M_bind; rewrite Hl; simpl;
    rewrite Propose_committed by done; simpl; eexists _, _; split_and!; reflexivity.
Qed.
End boot.

(** ** Properties *)

(** C12. A test cluster comes up, and comes up right: on a machine that works and with a Raft
    that commits, [StartTestCluster] returns with the metadata node registered for redirects
    under the address it bound and the storage nodes, in order, alive in its registry under
    the addresses their listeners bound, running on empty, well-formed stores; and the
    cluster then is one that uploads and downloads can rely on. *)
Theorem test_cluster_boots {Env0 : Env} {Commit0 : Committing Env0} {Range0 : MapRange} {Sort0 : GoSort} {F : Type} {Bolt0 : Bolt F}
    {Laws0 : BoltLaws F} (mos : MetaOS) (raftAddr raftDir : string) (dir : nat → string) (os : nat → NodeOS) (file : nat → string)
    (port : nat → nat) (net : Net) (n : nat) (fs : F) (addr : string) :
  healthy mos dir os file port n fs → repairs_work net → is_leader = true → 1 ≤ n → raftAddr ≠ "" → raftDir ≠ "" →
  mo_listen mos "127.0.0.1:0" = Ok addr →
  ∃ c fs' s, StartTestCluster mos raftAddr raftDir dir os net n fs = (Booted c, fs', s) ∧
    tc_MetaAddr c = addr ∧ mn_GrpcAddr <$> mdNodeRegistry (fsm s) !! raftAddr = Some addr ∧
    tc_StorageAddrs c = (λ i, local_addr (port i)) <$> seq 0 n ∧
    (∀ i, i < n → ∃ e, nodeRegistry (fsm s) !! storage_id i = Some e ∧ ne_Address e = local_addr (port i) ∧ ne_Status e = NodeStatusAlive) ∧
    (∀ i, i < n → ∃ nd, sy_nodes s !! local_addr (port i) = Some nd ∧ nd_NodeID nd = storage_id i ∧ store_ok (nd_disk nd)) ∧
    cluster_ok (nodeRegistry (fsm s)) (nd_NodeID <$> sy_nodes s) ∧ all_disks_ok s ∧ fileIndex (fsm s) = ∅.
Proof.
  intros He Hnet Hl Hn Hra Hrd Hlis. unfold StartTestCluster. set (cfg := test_meta_config raftAddr raftDir (Z.of_nat n)).
  destruct (metadata_run mos dir os file port n fs cfg (initial_world (ReplicationCount cfg)) addr) as (app & w & -> & Haddr & _ & Hreg & Hfi & Hmd);
    [done|done| |done|].
  { unfold MetaConfig.Validate. simpl. rewrite !decide_False by done. by destruct (he_meta _ _ _ _ _ _ _ He) as [-> _]. }
  rewrite Haddr.
  destruct (start_all (ma_sourcePlacement app) (ma_targetPlacement app) (ReplicationCount cfg) addr net mos dir os file (mdNodeRegistry (wd_fsm w)) port n (Z.of_nat n) fs
    He Hnet Hl ltac:(lia) n 0 fs (mkSys w ∅ 0) ltac:(lia)) as (nodes & fs' & s & Hst & Hs & Haddrs).
  { split; simpl; unfold files_and_leaders; rewrite ?Hreg, ?Hfi; try done; by intros; lia. }
  { intros j [_ Hj]. by apply He. }
  rewrite Hst. destruct (starting_cluster _ port n s (he_ports _ _ _ _ _ _ _ He) Hs) as [Hcl Hdisks].
  destruct Hs as [Hk Hr Hrun Hruns Hrest]. injection Hrest as Hfiles Hleaders.
  eexists _, fs', s. split_and!; [done|done|..|done|done|done].
  - by rewrite Hleaders, Hmd, lookup_insert_eq.
  - done.
  - intros i Hi. destruct (Hr i Hi) as [e Hei]. exists e. split; [done|].
    by destruct (Hk _ _ Hei) as (j & _ & <-%(inj storage_id) & _ & ?).
  - intros i Hi. destruct (Hruns i Hi) as [nd Hnd]. exists nd. split; [done|].
    by destruct (Hrun _ _ Hnd) as (j & _ & <-%(inj local_addr)%(he_ports _ _ _ _ _ _ _ He) & ?).
Qed.

(** Two storage nodes. *)
Definition w_mos : MetaOS := mkMetaOS (λ _, None) (Ok true) None w_raft_os None (λ _, Ok "127.0.0.1:3000").
Definition w_dir (i : nat) : string := "/tmp/./node" +:+ pretty i.
Definition w_db (i : nat) : string := "/tmp/node" +:+ pretty i +:+ "/checksum.db".
Definition w_os (i : nat) : NodeOS :=
  mkNodeOS (Ok "/") (λ _, None) (Err ErrNotExist) "" None ∅ all_ok (λ _, Ok (local_addr (4000 + i))) (λ _, None).

Lemma w_healthy : healthy w_mos w_dir w_os w_db (λ i, 4000 + i) 2 (mkMemBolt ∅ ∅).
Proof.
  split; try done.
  - intros s f Hf. simpl. by rewrite decide_False.
  - intros s. apply MemBolt_reliable.
  - intros [|[|i]] Hi; [vm_compute; reflexivity..|lia].
  - intros [|[|i]] [|[|j]] Hi Hj Heq; try reflexivity; try lia; vm_compute in Heq; discriminate Heq.
  - intros i j Heq. lia.
Qed.

Lemma test_cluster_boots_witness : ∃ c fs' s,
  @StartTestCluster demo_Env _ _ MemBolt _ w_mos "127.0.0.1:20001" "/raft" w_dir w_os w_quiet 2 (mkMemBolt ∅ ∅) = (Booted c, fs', s) ∧
  tc_StorageAddrs c = ["127.0.0.1:4000"; "127.0.0.1:4001"].
Proof.
  destruct (@test_cluster_boots demo_Env _ _ _ MemBolt _ _ w_mos "127.0.0.1:20001" "/raft" w_dir w_os w_db (λ i, 4000 + i) w_quiet 2
    (mkMemBolt ∅ ∅) "127.0.0.1:3000" w_healthy w_quiet_works eq_refl ltac:(lia) ltac:(discriminate) ltac:(discriminate) eq_refl)
    as (c & fs' & s & Hst & _ & _ & Haddrs & _).
  exists c, fs', s. split; [exact Hst|]. rewrite Haddrs. vm_compute. reflexivity.
Defined.

(** C13. A storage node that is stopped and started again on its data directory has its
    chunks: [CleanUp] closes the database, and the store that [main] builds over the same
    directory has the same contents as the one before, over an index that is open and
    agrees with it. *)
Theorem restart_keeps_chunks {F : Type} {Bolt0 : Bolt F} {Laws0 : BoltLaws F} (os : NodeOS) (dir f : string)
    (cs : BoltChecksumIndex bytes) (fs : F) (d : DiskStore) :
  let opts := [WithRootDir (filepath_Clean dir); WithTempDir (filepath_Join [dir; "tmp"])] in
  (∀ s f, f ∉ bolt_held s → (bolt_Open f s).1 = Returns None) → (∀ s : F, reliable s) → (bolt_Close f fs).1 = None →
  same_index cs fs d → ci_db cs = Some f → ci_bucket cs = "checksums" →
  rootDir d = filepath_Clean dir → splitLevel d = DIR_SHARD_LEVEL →
  filepath_Abs (no_getwd os) (filepath_Join [dir; "checksum.db"]) = Ok f → (∀ x, no_mkdir os x = None) →
  no_faults (no_io os) → no_disk os = files d →
  ∃ cs' d' fs', build_store os dir opts (ci_CleanUp cs fs).2 = (Booted (cs', d'), fs') ∧
    same_index cs' fs' d' ∧ contents d' = contents d ∧ f ∈ bolt_held fs'.
Proof.
  intros opts Hopen Hrel Hclose [Hcodec Hsame] Hdb Hbk Hroot Hlevel Habs Hmk Hio Hdisk. rewrite Hdb in Hsame.
  destruct Hsame as (_ & _ & Hdata). rewrite Hbk in Hdata. unfold ci_CleanUp. rewrite Hdb. cbn [snd].
  unfold build_store. cbn [NewChecksumIndexBoltDB foldl]. set (cs0 := WithDbPath dir _).
  destruct (open_index cs0 (no_getwd os) (no_mkdir os) f (bolt_Close f fs).2) as (fs' & -> & Hheld & _ & Hnew); try done.
  { rewrite close_held by done. set_solver. }
  rewrite close_data, Hdata in Hnew. simpl in Hnew. unfold index_of. simpl. rewrite Hnew, lookup_insert_eq. simpl.
  rewrite NewDiskStore_run by done. eexists _, _, fs'. split_and!; [reflexivity|..].
  - split; [done|]. simpl. rewrite Hheld, Hnew, lookup_insert_eq. split_and!; [done|set_solver|done].
  - unfold contents. simpl. rewrite Hdisk. apply map_eq. intros id. rewrite !map_lookup_imap.
    unfold PathForChunk. simpl. by rewrite Hroot, Hlevel.
  - rewrite Hheld. set_solver.
Qed.

(** A store with one chunk. *)
Definition w_old_store : DiskStore :=
  (Write all_ok "abcdef" (to_bytes "hello") (mkDiskStore "/tmp/node0" "/tmp/node0/tmp" 2 1000 0 ∅ true ∅ 0)).2.
Definition w_old_index : BoltChecksumIndex bytes := mkIndex (Some (w_db 0)) "/tmp/node0" "checksums" ByteCodec.
Definition w_old_bolt : MemBolt := mkMemBolt {[w_db 0 := {["checksums" := index w_old_store]}]} {[w_db 0]}.
Definition w_new_os : NodeOS := mkNodeOS (Ok "/") (λ _, None) (Err ErrNotExist) "" None (files w_old_store) all_ok (λ _, Ok "") (λ _, None).

Lemma restart_keeps_chunks_witness : ∃ cs' d' fs',
  build_store w_new_os "/tmp/./node0" [WithRootDir (filepath_Clean "/tmp/./node0"); WithTempDir (filepath_Join ["/tmp/./node0"; "tmp"])]
    (ci_CleanUp w_old_index w_old_bolt).2 = (Booted (cs', d'), fs') ∧ contents d' !! "abcdef" = Some (to_bytes "hello").
Proof.
  destruct (restart_keeps_chunks w_new_os "/tmp/./node0" (w_db 0) w_old_index w_old_bolt w_old_store)
    as (cs' & d' & fs' & Hb & _ & Hc & _).
  - intros s f Hf. simpl. rewrite decide_False by exact Hf. reflexivity.
  - exact MemBolt_reliable.
  - reflexivity.
  - split; [reflexivity|]. cbn [ci_db w_old_index]. split_and!; vm_compute; reflexivity.
  - reflexivity.
  - reflexivity.
  - vm_compute. reflexivity.
  - vm_compute. reflexivity.
  - vm_compute. reflexivity.
  - intros x. reflexivity.
  - intros n. reflexivity.
  - reflexivity.
  - exists cs', d', fs'. split; [exact Hb|]. rewrite Hc. vm_compute. reflexivity.
Defined.
