(* ===== verification/Clusters.v ===== *)
(** * Clusters of several metadata nodes, and the chunk helpers: integration/testutil

    The configurations that [StartMultiMetadataCluster] gives to its nodes, who of them
    leads, the full cluster with storage nodes, and the helpers that put a chunk to a node
    and read it back.  Each metadata process has its own environment and state; Raft keeps
    the states equal, which is the subject of [FsmTheorems.replicas_agree]. *)

From S2P Require Import Prelude GoLib GoText Json FsmTypes Fsm FsmCommands FsmInv FsmEquiv FsmSnapshot Placement World Scheduler Watcher Reconcile.
From S2P Require Import MetaServer MetaTheorems Sha256 DiskStore DiskStoreSpec DiskStoreTheorems ChecksumIndex Chunk StorageServer StorageTheorems Retry.
From S2P Require Import Replication StorageConfig MetaConfig MetaApp ClientConfig Manifest Client ClientTheorems UploadTheorems MetaClient System StorageNode.
From S2P Require Import SystemTheorems Network NetworkRuns NetworkTheorems RepairTheorems NodeTheorems Boot.

(** ** Ports *)

(** The first port of a test process, and the next address. *)
Definition raft_base (pid : nat) : nat := 20000 + pid `mod` 100 * 300.
Definition nextRaftAddr (raftPort : nat) : string * nat := (local_addr (S raftPort), S raftPort).
Definition NextRaftAddr : nat → string * nat := nextRaftAddr.

(** The addresses a process hands out one after the other. *)
Fixpoint raft_addresses (raftPort : nat) (n : nat) : list string :=
  match n with
  | 0 => []
  | S n => let '(a, p) := nextRaftAddr raftPort in a :: raft_addresses p n
  end.

(** ** Several metadata nodes *)

Definition meta_id (i : nat) : string := "meta-test-" +:+ pretty (S i).

#[global] Instance meta_id_inj : Inj (=) (=) meta_id.
Proof. intros i j Heq. unfold meta_id in Heq. by simplify_eq. Qed.

Definition raft_addrs (addrs : list string) : gmap string string := list_to_map (imap (λ i a, (meta_id i, a)) addrs).

Definition multi_meta_config (addrs : list string) (raftDir : string) (i : nat) : NodeConfig :=
  let nodeID := meta_id i in
  let all := raft_addrs addrs in
  mkNodeConfig nodeID "127.0.0.1:0" (default "" (all !! nodeID)) "" raftDir (filter (λ kv, kv.1 ≠ nodeID) all) (bool_decide (i = 0)) 3
    (10 * second)%Z (30 * second)%Z (5 * second)%Z (10 * second)%Z (1 * second)%Z (3 * second)%Z (120 * second)%Z 8192 1.

(** The applications are built one by one; the first that fails ends the test. *)
Fixpoint new_metas `{!MapRange, !GoSort} (env : nat → Env) (mos : nat → MetaOS) (dir : nat → string) (addrs : list string) (i n : nat)
    : boot (list MetadataApp) :=
  match n with
  | 0 => Booted []
  | S n =>
      match @NewMetadataApp (env i) _ _ (mo_mkdir (mos i)) (mo_stat (mos i)) (mo_bolt (mos i)) (mo_raft (mos i))
              (multi_meta_config addrs (dir i) i) [] with
      | None => Fatal (ErrNew "reconciler")
      | Some (Err e) => Fatal e
      | Some (Ok app) =>
          match new_metas env mos dir addrs (S i) n with
          | Booted apps => Booted (app :: apps)
          | r => r
          end
      end
  end.

(** Then each runs in a goroutine of its own, in a process with a state of its own. *)
Definition run_meta `{!MapRange} (env : nat → Env) (mos : nat → MetaOS) (i : nat) (app : MetadataApp) : (option error * MetadataApp) * World :=
  @Run (env i) _ (mo_wait (mos i)) (mo_listen (mos i)) app (initial_world (ReplicationCount (ma_Config app))).

(** The loop over [select]: what comes on the two channels, [results], in the order of
    arrival, until [k] came; an error ends the test, and a result takes its place. *)
Fixpoint collect_metas (k : nat) (results : list (nat * ((option error * MetadataApp) * World))) (runningApps : list (option (MetadataApp * World)))
    : boot (list (option (MetadataApp * World))) :=
  match k, results with
  | 0, _ => Booted runningApps
  | S _, [] => Waits
  | S _, (_, ((Some e, _), _)) :: _ => Fatal (ErrWrap "MetadataApp.Run" e)
  | S k, (idx, ((None, app), w)) :: results => collect_metas k results (<[idx := Some (app, w)]> runningApps)
  end.

(** [mm_Apps] has each application with the state of its process. *)
Record MultiMetaCluster := mkMultiMetaCluster { mm_Apps : list (MetadataApp * World); mm_Addrs : list string }.

(** [arrival] is the order in which the goroutines finish. *)
Definition StartMultiMetadataCluster `{!MapRange, !GoSort} (env : nat → Env) (mos : nat → MetaOS) (dir : nat → string) (raftPort numNodes : nat)
    (arrival : list nat) : boot MultiMetaCluster :=
  if decide (numNodes < 2) then Fatal (ErrNew "StartMultiMetadataCluster requires at least 2 nodes")
  else
    match new_metas env mos dir (raft_addresses raftPort numNodes) 0 numNodes with
    | Fatal e => Fatal e
    | Waits => Waits
    | Booted apps =>
        let results := omap (λ i, (λ app, (i, run_meta env mos i app)) <$> apps !! i) arrival in
        match collect_metas numNodes results (replicate numNodes None) with
        | Fatal e => Fatal e
        | Waits => Waits
        | Booted running =>
            match mapM id running with
            | None => Fatal (ErrNew "nil pointer dereference")
            | Some apps => Booted (mkMultiMetaCluster apps ((λ a, BoundGRPCAddr a.1) <$> apps))
            end
        end
    end.

Definition multi_Shutdown (m : MultiMetaCluster) : list MetadataApp := (λ a, (Shutdown None None a.1).2) <$> mm_Apps m.

(** [env i] is what the [i]-th node knows when it is asked. *)
Fixpoint leader_from (env : nat → Env) (i : nat) (apps : list MetadataApp) : Z :=
  match apps with
  | [] => (-1)%Z
  | a :: apps =>
      let leaderAddr := @LeaderRaftAddr (env i) a in
      if decide (leaderAddr ≠ "" ∧ leaderAddr = mc_RaftAddr (ma_Config a)) then Z.of_nat i else leader_from env (S i) apps
  end.

Definition LeaderIndex (env : nat → Env) (m : MultiMetaCluster) : Z := leader_from env 0 (mm_Apps m).*1.

Definition FollowerIndices (env : nat → Env) (m : MultiMetaCluster) : list nat :=
  filter (λ i, Z.of_nat i ≠ LeaderIndex env m) (seq 0 (length (mm_Apps m))).

(** ** The full cluster *)

Record FullCluster := mkFullCluster {
  fc_MetaCluster : MultiMetaCluster;
  fc_StorageNodes : list StorageNode;
  fc_StorageAddrs : list string;
  fc_cleanups : list (BoltChecksumIndex bytes);
}.

(** The metadata nodes, and storage nodes that know all their addresses; the calls go to
    the leader, [lead], whose state is that of the service. *)
Definition StartFullCluster `{!MapRange, !GoSort} {F} `{!Bolt F} (env : nat → Env) (mos : nat → MetaOS) (mdir : nat → string) (raftPort : nat)
    (dir : nat → string) (os : nat → NodeOS) (net : Net) (nMeta nStorage : nat) (arrival : list nat) (lead : nat) (fs : F)
    : boot FullCluster * F * option Sys :=
  match StartMultiMetadataCluster env mos mdir raftPort nMeta arrival with
  | Fatal e => (Fatal e, fs, None)
  | Waits => (Waits, fs, None)
  | Booted m =>
      match mm_Apps m !! lead with
      | None => (Fatal (ErrNew "no leader"), fs, None)
      | Some (app, w) =>
          match @start_nodes (env lead) _ _ (ma_sourcePlacement app) (ma_targetPlacement app) (ReplicationCount (ma_Config app)) (BoundGRPCAddr app)
                  net F _ dir os (mm_Addrs m) (Z.of_nat nStorage) 0 nStorage fs (mkSys w ∅ 0) with
          | (Booted nodes, fs1, s) =>
              (Booted (mkFullCluster m ((λ x, x.1.1) <$> nodes) ((λ x, x.1.2) <$> nodes) ((λ x, x.2) <$> nodes)), fs1, Some s)
          | (Fatal e, fs1, s) => (Fatal e, fs1, Some s)
          | (Waits, fs1, s) => (Waits, fs1, Some s)
          end
      end
  end.

Definition MetaAddrs (fc : FullCluster) : list string := mm_Addrs (fc_MetaCluster fc).

(** The storage nodes, the metadata nodes, then the databases. *)
Definition full_Shutdown `{!Env, !MapRange, !GoSort} {F} `{!Bolt F} (src tgt : PlacementStrategy) (rf : Z) (leader : string) (net : Net)
    (fc : FullCluster) (fs : F) (s : Sys) : list MetadataApp * F * Sys :=
  let s1 := stop_nodes src tgt rf leader net (fc_StorageNodes fc) s in
  (multi_Shutdown (fc_MetaCluster fc), run_cleanups (fc_cleanups fc) fs, s1).

(** ** Chunks *)

(** The single frame of [PutChunkData]. *)
Definition helper_frame (chunkID : string) (data : bytes) (replicaAddrs : list string) : PutChunkRequest :=
  mkPutChunkRequest chunkID data (sha256 data) true (Some <$> replicaAddrs).

Definition PutChunkData `{!Env, !MapRange, !GoSort} (src tgt : PlacementStrategy) (rf : Z) (leader : string) (net : Net) (p : Policy)
    (addr chunkID : string) (data : bytes) (replicaAddrs : list string) (s : Sys) : boot bytes * Sys :=
  let '(out, s') := node_PutChunk src tgt rf leader net p addr [RecvMsg (helper_frame chunkID data replicaAddrs)] s in
  match po_result out with
  | Err e => (Fatal (ErrWrap "PutChunk close" e), s')
  | Ok _ => (Booted (sha256 data), s')
  end.

(** The loop of [GetChunkData]: it stops at the frame marked last. *)
Fixpoint GetChunkData (stream : list (recv Frame)) (buf : bytes) : boot bytes :=
  match stream with
  | [] => Booted buf
  | RecvErr e :: _ => Fatal (ErrWrap "GetChunk recv" e)
  | RecvMsg f :: rest => if fr_IsLast f then Booted (buf ++ fr_Data f) else GetChunkData rest (buf ++ fr_Data f)
  end.

(** ** Lemmas *)

Lemma raft_addresses_lookup port n i a : raft_addresses port n !! i = Some a ↔ i < n ∧ a = local_addr (S (port + i)).
Proof.
  revert port i. induction n as [|n IH]; intros port i; simpl; [rewrite lookup_nil; naive_solver lia|].
  destruct i as [|i]; simpl.
  - rewrite Nat.add_0_r. naive_solver lia.
  - rewrite IH. replace (S port + i) with (port + S i) by lia. naive_solver lia.
Qed.

Lemma raft_addresses_length port n : length (raft_addresses port n) = n.
Proof. revert port. induction n as [|n IH]; intros port; simpl; [done|]. by rewrite IH. Qed.

Lemma raft_addrs_lookup addrs k a : raft_addrs addrs !! k = Some a ↔ ∃ i, k = meta_id i ∧ addrs !! i = Some a.
Proof.
  unfold raft_addrs. rewrite <-elem_of_list_to_map.
  - rewrite list_elem_of_lookup. setoid_rewrite list_lookup_imap. split.
    + intros (i & (x & Hx & [= -> ->])%fmap_Some). eauto.
    + intros (i & -> & Hi). exists i. by rewrite Hi.
  - apply NoDup_alt. intros i j k'. rewrite !list_lookup_fmap, !list_lookup_imap.
    destruct (addrs !! i), (addrs !! j); simpl; try done.
    intros Hi Hj. apply (inj Some) in Hi, Hj. rewrite <-Hi in Hj. by apply (inj meta_id) in Hj.
Qed.

(** Each node and its peers are the whole cluster. *)
Lemma multi_config_covers addrs dir i a :
  addrs !! i = Some a →
  let c := multi_meta_config addrs dir i in
  mc_RaftAddr c = a ∧ mc_PeerAddrs c !! mc_NodeID c = None ∧ <[mc_NodeID c := mc_RaftAddr c]> (mc_PeerAddrs c) = raft_addrs addrs.
Proof.
  intros Ha c. assert (Hl : raft_addrs addrs !! meta_id i = Some a) by (apply raft_addrs_lookup; eauto).
  assert (Hr : mc_RaftAddr c = a) by (simpl; by rewrite Hl). split_and!; [done| |].
  - simpl. apply map_lookup_filter_None. right. intros x _. simpl. tauto.
  - rewrite Hr. simpl. apply map_eq. intros k. destruct (decide (k = meta_id i)) as [->|Hne]; [by rewrite lookup_insert_eq|].
    rewrite lookup_insert_ne by done. rewrite map_lookup_filter. destruct (raft_addrs addrs !! k); simpl; [|done].
    by rewrite option_guard_True.
Qed.

Lemma leader_from_Some env apps i l :
  (∀ k app, apps !! k = Some app →
     (@leader_addr (env (i + k)) ≠ "" ∧ @leader_addr (env (i + k)) = mc_RaftAddr (ma_Config app)) ↔ k = l) →
  l < length apps → leader_from env i apps = Z.of_nat (i + l).
Proof.
  revert i l. induction apps as [|a apps IH]; intros i l Hl Hlt; simpl in *; [lia|].
  pose proof (Hl 0 a eq_refl) as H0. rewrite Nat.add_0_r in H0. unfold LeaderRaftAddr. case_decide as Hd.
  - destruct (proj1 H0 Hd). by rewrite Nat.add_0_r.
  - destruct l as [|l]; [by destruct Hd; apply H0|]. rewrite (IH (S i) l); [f_equal; lia| |lia].
    intros k app Hk. specialize (Hl (S k) app Hk). rewrite <-Nat.add_succ_comm in Hl. rewrite Hl. naive_solver lia.
Qed.

Lemma new_metas_configs `{!MapRange, !GoSort} env mos dir addrs i n apps :
  new_metas env mos dir addrs i n = Booted apps →
  length apps = n ∧ ∀ k app, apps !! k = Some app → ma_Config app = multi_meta_config addrs (dir (i + k)) (i + k).
Proof.
  revert i apps. induction n as [|n IH]; intros i apps; cbn [new_metas]; [by intros [= <-]|].
  destruct (NewMetadataApp _ _ _ _ _ _) as [[app|]|] eqn:Hm; try done. apply new_app_config in Hm; [|constructor].
  destruct (new_metas env mos dir addrs (S i) n) as [apps'| |] eqn:Hs; try done. intros [= <-].
  destruct (IH _ _ Hs) as [Hlen Hk]. split; [simpl; by rewrite Hlen|]. intros [|k] app'; simpl.
  - intros [= <-]. by rewrite Nat.add_0_r.
  - intros Hk'. rewrite (Hk _ _ Hk'). by replace (S i + k) with (i + S k) by lia.
Qed.

(** A place holds what it held, or a result that came for it. *)
Lemma collect_metas_places k results running running' :
  collect_metas k results running = Booted running' →
  length running' = length running ∧
  ∀ j app w, running' !! j = Some (Some (app, w)) → running !! j = Some (Some (app, w)) ∨ (j, ((None, app), w)) ∈ results.
Proof.
  revert results running. induction k as [|k IH]; intros results running; simpl; [intros [= <-]; eauto|].
  destruct results as [|[idx [[[e|] app0] w0]] results]; [done..|]. intros Hc. destruct (IH _ _ Hc) as [Hlen Hj].
  rewrite length_insert in Hlen. split; [done|]. intros j app w Hr. destruct (Hj j app w Hr) as [Hins|Hin]; [|right; by constructor].
  destruct (decide (j = idx)) as [->|Hne]; [|left; by rewrite list_lookup_insert_ne in Hins].
  right. apply list_lookup_insert_Some in Hins as [(_ & [= -> ->] & _)|(? & _)]; [constructor|done].
Qed.

Lemma multi_configs `{!MapRange, !GoSort} env mos dir port n arrival m :
  StartMultiMetadataCluster env mos dir port n arrival = Booted m →
  2 ≤ n ∧ length (mm_Apps m) = n ∧ mm_Addrs m = (λ a, BoundGRPCAddr a.1) <$> mm_Apps m ∧
  ∀ i app w, mm_Apps m !! i = Some (app, w) → ma_Config app = multi_meta_config (raft_addresses port n) (dir i) i.
Proof.
  unfold StartMultiMetadataCluster. case_decide as Hn; [done|].
  destruct (new_metas _ _ _ _ _ _) as [apps0| |] eqn:Hnew; try done. destruct (new_metas_configs _ _ _ _ _ _ _ Hnew) as [Hlen0 Hcfg].
  cbv zeta. destruct (collect_metas _ _ _) as [running| |] eqn:Hc; try done. destruct (collect_metas_places _ _ _ _ Hc) as [Hlr Hplace].
  destruct (mapM id running) as [apps|] eqn:Hid; [|done]. intros [= <-]. cbn [mm_Apps mm_Addrs]. apply mapM_Some_1 in Hid.
  rewrite length_replicate in Hlr. split_and!; [lia|by rewrite <-(Forall2_length _ _ _ Hid)|done|].
  intros i app w Hi. destruct (Forall2_lookup_r _ _ _ _ _ Hid Hi) as (x & Hx & Hxi). unfold id in Hxi. subst x.
  destruct (Hplace i app w Hx) as [Hrep|Hres]; [by apply lookup_replicate in Hrep as [? _]|].
  apply list_elem_of_omap in Hres as (j & _ & (app0 & Happ0 & [= -> Hrun])%fmap_Some).
  symmetry in Hrun. apply Run_config in Hrun. by rewrite Hrun, (Hcfg j app0 Happ0).
Qed.

(** ** Properties *)

(** The nodes that [StartMultiMetadataCluster] starts form one cluster, in whatever order
    they come up: at least two, each with its own identity and Raft address, each knowing
    all the others and not itself as peers, so that every node's view is the same list of
    servers, which exactly the first one bootstraps; and once they agree on a leader,
    [LeaderIndex] finds it and [FollowerIndices] are all the others, in order. *)
Theorem multi_meta_cluster `{!MapRange, !GoSort} (env : nat → Env) (mos : nat → MetaOS) (dir : nat → string) (port n : nat)
    (arrival : list nat) (m : MultiMetaCluster) :
  StartMultiMetadataCluster env mos dir port n arrival = Booted m →
  let all := raft_addrs (raft_addresses port n) in
  2 ≤ n ∧ length (mm_Apps m) = n ∧
  (∀ i app w, mm_Apps m !! i = Some (app, w) → let c := ma_Config app in
     mm_Addrs m !! i = Some (BoundGRPCAddr app) ∧
     mc_NodeID c = meta_id i ∧ mc_RaftAddr c = local_addr (S (port + i)) ∧ mc_PeerAddrs c !! mc_NodeID c = None ∧
     <[mc_NodeID c := mc_RaftAddr c]> (mc_PeerAddrs c) = all ∧ (mc_Bootstrap c = true ↔ i = 0) ∧
     bootstrap_servers c ≡ₚ map_to_list all) ∧
  ∀ (env' : nat → Env) l, l < n → (∀ i, i < n → @leader_addr (env' i) = local_addr (S (port + l))) →
    LeaderIndex env' m = Z.of_nat l ∧ FollowerIndices env' m = filter (λ i, i ≠ l) (seq 0 n).
Proof.
  intros Hs. set (all := raft_addrs (raft_addresses port n)).
  destruct (multi_configs env mos dir port n arrival m Hs) as (Hn & Hlen & Haddrs & Hcfg).
  assert (Haddr : ∀ i app w, mm_Apps m !! i = Some (app, w) → raft_addresses port n !! i = Some (local_addr (S (port + i)))).
  { intros i app w Hi. apply raft_addresses_lookup. split; [|done]. rewrite <-Hlen. by eapply lookup_lt_Some. }
  split_and!; [done|done|..].
  - intros i app w Hi. pose proof (Haddr i app w Hi) as Ha.
    destruct (multi_config_covers (raft_addresses port n) (dir i) i _ Ha) as (H1 & H2 & H3).
    rewrite Haddrs, list_lookup_fmap, Hi, (Hcfg i app w Hi). cbv zeta. split_and!; [done..|by apply bool_decide_eq_true|].
    unfold bootstrap_servers. change (advertiseAddr _) with (mc_RaftAddr (multi_meta_config (raft_addresses port n) (dir i) i)).
    fold all in H3. rewrite <-H3, map_range_perm. by rewrite map_to_list_insert.
  - intros env' l Hl Hseen.
    assert (Hli : LeaderIndex env' m = Z.of_nat l).
    { unfold LeaderIndex. apply (leader_from_Some env' (mm_Apps m).*1 0 l); [|by rewrite length_fmap, Hlen].
      intros k app Hk. rewrite list_lookup_fmap in Hk. destruct (mm_Apps m !! k) as [[app' w]|] eqn:Hkw; [|done]. injection Hk as ->.
      assert (Hkn : k < n) by (rewrite <-Hlen; by eapply lookup_lt_Some).
      destruct (multi_config_covers (raft_addresses port n) (dir k) k _ (Haddr k app w Hkw)) as (H1 & _).
      cbn [plus]. rewrite (Hcfg k app w Hkw), H1, (Hseen k Hkn). split; [|intros ->; by split].
      intros [_ Heq%(inj local_addr)]. lia. }
    split; [done|]. unfold FollowerIndices. rewrite Hli, Hlen. apply list_filter_iff. intros i. lia.
Qed.

(** Three nodes; the last is up first, and the second becomes the leader. *)
Definition w_meta_os (i : nat) : MetaOS := mkMetaOS (λ _, None) (Ok true) None w_raft_os None (λ _, Ok (local_addr (3000 + i))).
Definition w_three : boot MultiMetaCluster :=
  StartMultiMetadataCluster (λ _, demo_Env) w_meta_os (λ _, "/raft") (raft_base 0) 3 [2; 0; 1].
Definition w_led_Env : Env := {|
  raft_apply _ := RaftRejected (ErrNew "node is not the leader"); clock n := Z.of_nat n; new_uuid n := "uuid-" +:+ pretty n;
  is_leader := false; leader_addr := local_addr 20002; World.ctx_done _ := false; delete_rpc _ _ := None |}.

Lemma multi_meta_cluster_witness :
  ∃ m, w_three = Booted m ∧ LeaderIndex (λ _, w_led_Env) m = 1%Z ∧ FollowerIndices (λ _, w_led_Env) m = [0; 2].
Proof.
  assert (Hb : match w_three with Booted _ => true | _ => false end = true) by (vm_compute; reflexivity).
  destruct w_three as [m| |] eqn:Hw; [|discriminate Hb..]. exists m. split; [reflexivity|].
  destruct (multi_meta_cluster (λ _, demo_Env) w_meta_os (λ _, "/raft") (raft_base 0) 3 [2; 0; 1] m Hw) as (_ & _ & _ & Hl).
  destruct (Hl (λ _, w_led_Env) 1) as [H1 H2]; [lia|intros i _; vm_compute; reflexivity|].
  split; [exact H1|]. rewrite H2. reflexivity.
Defined.

(** ** The chunk helpers *)

Lemma helper_is_frame id data replicas :
  client_frames (Z.of_nat (length data)) id replicas (Compute_checksum data) data = [helper_frame id data replicas].
Proof.
  unfold client_frames, helper_frame. case_decide as Hd; [by subst|]. destruct data as [|x data]; [done|].
  unfold frame_size. rewrite decide_False by (simpl; lia). rewrite Nat2Z.id. cbn [length put_frames].
  rewrite decide_False by done. rewrite bool_decide_true by done.
  assert (Htake : take (S (length data)) (x :: data) = x :: data) by (apply take_ge; done).
  assert (Hdrop : drop (S (length data)) (x :: data) = []) by (apply drop_ge; done).
  rewrite Htake, Hdrop. by destruct data.
Qed.

(** A call to the metadata service leaves the disks alone. *)
Lemma node_invoke_disks `{!Env, !MapRange, !GoSort} src tgt rf leader net p addr req s :
  nd_disk <$> sy_nodes (node_invoke src tgt rf leader net p addr req s).2 = nd_disk <$> sy_nodes s.
Proof.
  unfold node_invoke. destruct (sy_nodes s !! addr) as [nd|] eqn:Hnd; [|done].
  pose proof (invoke_keeps src tgt rf leader net (λ s', nd_disk <$> sy_nodes s' = nd_disk <$> sy_nodes s) (λ _ _, True) p
    (node_amb net (sy_ops s)) req (nd_cache nd) s) as Hinv.
  destruct (meta_invoke _ _ _ _ _ _ _ _ _ s) as [[r cache] s']. destruct Hinv as [Hd _]; [done| |done|].
  - intros s1 Hs1. by destruct (run_handler _ _ _ _ _).
  - rewrite <-Hd. unfold set_cache. simpl. destruct (sy_nodes s' !! addr) as [x|] eqn:Hx; [|done]. simpl.
    rewrite fmap_insert. apply insert_id. by rewrite lookup_fmap, Hx.
Qed.

Lemma disks_back s s' a nd :
  nd_disk <$> sy_nodes s' = nd_disk <$> sy_nodes s → sy_nodes s !! a = Some nd →
  ∃ nd', sy_nodes s' !! a = Some nd' ∧ nd_disk nd' = nd_disk nd.
Proof.
  intros Hd Ha. pose proof (f_equal (.!! a) Hd) as Hl. rewrite !lookup_fmap, Ha in Hl.
  destruct (sy_nodes s' !! a) as [nd'|]; [|done]. injection Hl as Hl. eauto.
Qed.

Lemma GetChunkData_frames frames fin rest acc :
  Forall (λ fr, fr_IsLast fr = false) frames → fr_IsLast fin = true →
  GetChunkData ((RecvMsg <$> frames ++ [fin]) ++ rest) acc = Booted (acc ++ mjoin (fr_Data <$> frames ++ [fin])).
Proof.
  intros Hl Hfin. revert acc. induction Hl as [|f frames Hf _ IH]; intros acc; simpl.
  - rewrite Hfin. simpl. by rewrite app_nil_r.
  - rewrite Hf, IH. simpl. by rewrite app_assoc.
Qed.

(** [PutChunkData] and [GetChunkData] agree with the service: when the first returns, its
    result is the checksum of the data, and the second reads exactly the data back from
    the node, stopping at the last frame whatever follows it. *)
Theorem chunk_helpers_roundtrip `{!Env, !MapRange, !GoSort} (src tgt : PlacementStrategy) (rf : Z) (leader : string) (net : Net) (p : Policy)
    (addr id : string) (data sum : bytes) (replicas : list string) (s s' : Sys) :
  working_disks net → all_disks_ok s → data ≠ [] →
  PutChunkData src tgt rf leader net p addr id data replicas s = (Booted sum, s') →
  sum = sha256 data ∧ ∃ nd, sy_nodes s' !! addr = Some nd ∧ contents (nd_disk nd) !! id = Some data ∧
    ∃ frames d', StorageServer.GetChunk (disk_io net addr) sends_ok id (nd_disk nd) = Some (Ok tt, frames, d') ∧
      ∀ rest, GetChunkData ((RecvMsg <$> frames) ++ rest) [] = Booted data.
Proof.
  intros Hio Hok Hne. unfold PutChunkData, node_PutChunk. destruct (sy_nodes s !! addr) as [nd|] eqn:Hnd; [|done].
  pose proof (put_stream_received (disk_io net addr) (Z.of_nat (length data)) id replicas data None (nd_disk nd) (Hio addr) (Hok _ _ Hnd)) as Hrcv.
  rewrite helper_is_frame in Hrcv. cbn [put_stream fmap list_fmap] in Hrcv.
  destruct (put_loop _ _ _ _ _ _ (nd_disk nd)) as [rcv disk]. destruct Hrcv as [Hok' [[_ (out & -> & [[e He] _])]|(_ & Hc & last & -> & Hid & _)]].
  { by rewrite He. }
  destruct (set_disk_stores id data s addr nd disk Hnd) as (Hst & Hat & _); [by split; [done|done|right]|].
  set (s1 := set_disk addr disk s) in *.
  assert (Hh1 : holds s1 addr id data) by (eexists; split; [exact Hat|]; simpl; by rewrite Hc, lookup_insert_eq).
  set (targets := filter (.≠ "") replicas). rewrite Hid.
  assert (Hfan : let s2 := (if decide (targets = []) then ([], None, s1) else fan_out net addr id targets s1).2 in
    holds s2 addr id data ∧ all_disks_ok s2).
  { pose proof (only_stores_ok _ _ _ _ Hst Hok) as Hok1. case_decide; [done|].
    pose proof (fan_out_stores net Hio id data addr targets s1 Hok1 Hh1) as Hfo.
    destruct (fan_out _ _ _ _ _) as [confirmed s2]. destruct Hfo as [Hos _]. simpl.
    split; [by eapply only_stores_holds|by eapply only_stores_ok]. }
  destruct (if decide (targets = []) then _ else _) as [confirmed s2]. destruct Hfan as [(nd2 & Hnd2 & Hc2) Hok2]. simpl in Hnd2, Hok2.
  unfold sm_CommitChunk. match goal with |- context [node_invoke _ _ _ _ _ _ _ ?req s2] =>
    destruct (disks_back s2 _ addr nd2 (node_invoke_disks src tgt rf leader net p addr req s2) Hnd2) as (nd' & Hnd' & Hdisk) end.
  destruct (node_invoke _ _ _ _ _ _ _ _ s2) as [r s3]. simpl in Hnd'. destruct (po_result _); [|done]. intros [= <- <-].
  split; [done|]. exists nd'. rewrite Hdisk. split_and!; [done|done|].
  destruct (GetChunk_run (disk_io net addr) (Hio addr) id data (nd_disk nd2) (Hok2 _ _ Hnd2) Hc2) as [k Hget].
  eexists _, _. split; [exact Hget|]. intros rest.
  assert (Hcarry : frames_carry DefaultFrameSize data (split_frames (S (length data)) (Z.to_nat DefaultFrameSize) data)).
  { apply split_frames_carry; [done|unfold DefaultFrameSize; lia|lia]. }
  destruct (fc_last _ _ _ Hcarry Hne) as (init & fin & Heq & Hfin & Hinit). rewrite Heq, GetChunkData_frames; [|by eapply Forall_impl; [done|]; intros ? []|done].
  pose proof (fc_data _ _ _ Hcarry) as Hd. rewrite Heq in Hd. by rewrite Hd.
Qed.

(** A file with one chunk, on the two nodes of [w_sys]. *)
Definition w_put_sys : Sys :=
  mkSys (mkWorld (apply_log NewEmptyMetadataFsm (log_of
    [RegisterNodeC (mkCommandRegisterNode "n1" "h1:9000" 500%Z 0%Z 10%Z);
     CreateFileC (mkCommandCreateFile "f1" "a.txt" ["abcdef"] 5%Z 65536%Z [] 11%Z)]))
    (NewRepairScheduler 2) ∅ ∅ [] 0 0 0) (sy_nodes w_sys) 0.
Definition w_put_chunk : boot bytes * Sys :=
  @PutChunkData demo_Env _ _ MostFreeSpaceStrategy MostFreeSpaceStrategy 2 "m1:1" w_quiet DefaultPolicy "h1:9000" "abcdef" (to_bytes "hello")
    ["h2:9000"] w_put_sys.

Lemma chunk_helpers_roundtrip_witness : ∃ nd, sy_nodes w_put_chunk.2 !! "h1:9000" = Some nd ∧
  ∃ frames d', StorageServer.GetChunk (disk_io w_quiet "h1:9000") sends_ok "abcdef" (nd_disk nd) = Some (Ok tt, frames, d') ∧
    ∀ rest, GetChunkData ((RecvMsg <$> frames) ++ rest) [] = Booted (to_bytes "hello").
Proof.
  assert (Hb : match w_put_chunk.1 with Booted _ => true | _ => false end = true) by (vm_compute; reflexivity).
  assert (Hok : all_disks_ok w_put_sys) by exact w_nodes_ok.
  destruct w_put_chunk as [[sum| |] s'] eqn:Hput; [|discriminate Hb..]. cbn [snd]. unfold w_put_chunk in Hput.
  destruct (@chunk_helpers_roundtrip demo_Env _ _ MostFreeSpaceStrategy MostFreeSpaceStrategy 2 "m1:1" w_quiet DefaultPolicy "h1:9000" "abcdef"
    (to_bytes "hello") sum ["h2:9000"] w_put_sys s' ltac:(intros a n; reflexivity) Hok ltac:(discriminate) Hput) as (_ & nd & Hnd & _ & Hget).
  exists nd. split; [exact Hnd|exact Hget].
Defined.
