(* ===== verification/Cli.v ===== *)
(** * The command line of the client: client/cmd/dfs-cli/main.go

    The four commands, each as its [Run] function: the checks of the flags, the client that
    [New] builds from the environment, the call of the SDK, what is printed and the status
    the process exits with.  The arguments are parsed by cobra, which is the parameter
    [execute] of [main].  The printed lines are the calls of [fmt] and [log] with their
    arguments; the table of [list] is its rows of cells, which tabwriter aligns.

    The theorems follow a file through two processes: what [dfs upload] reports as stored
    with status 0, [dfs list] shows and [dfs download] writes back. *)

From stdpp Require Import pretty.
From S2P Require Import Prelude GoLib GoText GoFloat Json FsmTypes Fsm Placement World Scheduler MetaServer MetaTheorems.
From S2P Require Import Sha256 DiskStore DiskStoreSpec Chunk StorageServer Retry Replication ClientConfig Manifest Client.
From S2P Require Import ClientTheorems UploadTheorems MetaClient System SystemTheorems.

(** ** Numbers on the screen *)

Definition KB : Z := 1024.
Definition MB : Z := KB * 1024.
Definition GB : Z := MB * 1024.

Definition formatBytes (n : Z) : string :=
  if decide (GB ≤ n)%Z then fmt_2f (fl_div (fl_of_int n) (fl_of_int GB)) +:+ " GB"
  else if decide (MB ≤ n)%Z then fmt_2f (fl_div (fl_of_int n) (fl_of_int MB)) +:+ " MB"
  else if decide (KB ≤ n)%Z then fmt_2f (fl_div (fl_of_int n) (fl_of_int KB)) +:+ " KB"
  else pretty n +:+ " B".

(** dfsclient/types.go; the byte counts of the progress function are not negative. *)
Definition Percent (p : ProgressInfo) : float64 :=
  if decide (pi_BytesTotal p = 0)%Z then fl_zero
  else fl_mul (fl_div (fl_of_int (pi_BytesDone p)) (fl_of_int (pi_BytesTotal p))) (fl_of_int 100).

(** [d.Round(time.Millisecond)]: to the nearest multiple, halves away from zero; a result
    outside of int64 is replaced by the end of the range. *)
Definition Millisecond : Z := 1000000.
Definition round_ms (d : Duration) : Duration :=
  let r := (Z.rem d Millisecond)%Z in
  if decide (d < 0)%Z then
    let r := (- r)%Z in
    if decide (2 * r < Millisecond)%Z then (d + r)%Z
    else let d1 := (d - Millisecond + r)%Z in if decide (- two63 ≤ d1)%Z then d1 else (- two63)%Z
  else if decide (2 * r < Millisecond)%Z then (d - r)%Z
  else let d1 := (d + Millisecond - r)%Z in if decide (d1 < two63)%Z then d1 else (two63 - 1)%Z.

(** ** What a command prints and how it ends *)

Inductive line :=
| LogFatal (msg : string) (e : option error)
| Uploading (filePath fileName : string)
| ChunkFailed (chunk total : Z) (e : error)
| ChunkUploaded (chunk total : Z) (percent : string)
| UploadFailed (e : error)
| ChunkCounts (done total failed : Z)
| UploadComplete (elapsed : Duration)
| FileIDLine (fileID : string)
| SizeLine (size : string)
| ChunksLine (chunks : Z)
| Downloading (fileName outputPath : string)
| ChunkDownloaded (chunk total : Z)
| DownloadFailed (e : error)
| DownloadComplete (elapsed : Duration)
| FileLine (outputPath : string)
| NoFilesFound
| TableRow (cells : list string)
| FileDeleted (fileID : string).

(** The lines, and the exit status; a panic or a deadlock has none of its own. *)
Record outcome := mkOutcome { oc_exit : maybe_panic Z; oc_lines : list line }.

Definition fatal (msg : string) (e : option error) : outcome := mkOutcome (Returns 1%Z) [LogFatal msg e].

(** The computer the command runs on: the files it reads and writes, what a dial of an
    address answers, the time the call takes, the new UUID and the schedule of goroutines. *)
Record Host := mkHost {
  ho_file : string → LocalFile;
  ho_disk : string → OutputFile;
  ho_before : string → option bytes;
  ho_manifest_fault : nat → option (error * bool);
  ho_dial : string → option error;
  ho_elapsed : Duration;
  ho_uuid : string;
  ho_uploads : list ChunkDescriptor → list ChunkDescriptor;
  ho_downloads : list ClientChunkInfo → list ClientChunkInfo;
  ho_schedule : list nat;   (* which progress callback takes its next step *)
}.

(** metadataclient/grpc.go *)
Definition NewGRPCClient (dial : string → option error) (seedAddrs : list string) : res LeaderCache :=
  match New_client dial seedAddrs with
  | None => Err (ErrWrap "metadataclient" (ErrNew "leaderclient: failed to connect to any seed address"))
  | Some c => Ok c
  end.

(** [dfsclient.New(dfsclient.WithConfig(cfg))]: the configuration and the connections. *)
Definition new_client (h : Host) (cfg : Config) (s : Sys) : res (Config * Cli) :=
  let dialled c := NewGRPCClient (ho_dial h) (cfg_MetadataAddrs c) in
  let? c := New [WithConfig cfg] (λ c, match dialled c with Err e => Some e | Ok _ => None end) in
  let? cache := dialled c in
  Ok (c, mkCli s cache ∅).

Definition upload_line (p : ProgressInfo) : line :=
  match pi_Err p with
  | Some e => ChunkFailed (pi_ChunkIndex p + 1) (pi_ChunksTotal p) e
  | None => ChunkUploaded (pi_ChunkIndex p + 1) (pi_ChunksTotal p) (fmt_1f (Percent p))
  end.

Definition download_line (p : ProgressInfo) : line :=
  match pi_Err p with
  | Some e => ChunkFailed (pi_ChunkIndex p + 1) (pi_ChunksTotal p) e
  | None => ChunkDownloaded (pi_ChunkIndex p + 1) (pi_ChunksTotal p)
  end.

Definition file_row (f : SdkFileInfo) : line :=
  TableRow [sf_FileID f; sf_FileName f; formatBytes (sf_FileSize f); pretty (sf_ChunkCount f)].

(** ** The commands *)

Section commands.
Context `{!Env, !MapRange, !GoSort} (src tgt : PlacementStrategy) (rf : Z) (leader : string) (net : Net).
Context (p : Policy) (amb : Ambient) (h : Host) (cfg : Config).

Notation metadata c := (system_metadata src tgt rf leader net c amb).
Notation storage c := (system_storage src tgt rf leader net p c).

(** After the call of [Upload] of the SDK. *)
Definition upload_report (r : maybe_panic (option UploadResult * option error)) : outcome :=
  match r with
  | Panics => mkOutcome Panics []
  | Blocks => mkOutcome Blocks []
  | Returns (result, Some e) =>
      mkOutcome (Returns 1%Z) (UploadFailed e ::
        match result with
        | Some r => [ChunkCounts (ur_ChunksDone r) (ur_ChunksTotal r) (ur_ChunksFailed r)]
        | None => []
        end)
  | Returns (Some r, None) =>
      mkOutcome (Returns 0%Z) [UploadComplete (round_ms (ho_elapsed h)); FileIDLine (ur_FileID r);
        SizeLine (formatBytes (ur_TotalSize r)); ChunksLine (ur_ChunksTotal r)]
  | Returns (None, None) => mkOutcome Panics []
  end.

Definition uploadCmd (filePath fileName : string) (s : Sys) (ms : Manifests) : outcome * Sys * Manifests :=
  if decide (filePath = "") then (fatal "--file is required" None, s, ms)
  else
    let fileName := if decide (fileName = "") then filePath else fileName in
    match new_client h cfg s with
    | Err e => (fatal "Failed to create client" (Some e), s, ms)
    | Ok (c, cl) =>
        let '(r, progress, cl', ms') :=
          sdk_Upload (metadata c) (storage c) amb c (ho_manifest_fault h) (ho_file h filePath) fileName (ho_uuid h)
            (ho_uploads h) (ho_schedule h) cl ms in
        let report := upload_report r in
        (mkOutcome (oc_exit report) (Uploading filePath fileName :: (upload_line <$> progress) ++ oc_lines report),
         cl_sys cl', ms')
    end.

(** After the call of [Download] of the SDK. *)
Definition download_report (outputPath : string) (r : maybe_panic download_return) : outcome :=
  match r with
  | Panics => mkOutcome Panics []
  | Blocks => mkOutcome Blocks []
  | Returns r =>
      match dl_err r, dl_result r with
      | Some e, _ => mkOutcome (Returns 1%Z) [DownloadFailed e]
      | None, Some d =>
          mkOutcome (Returns 0%Z) [DownloadComplete (round_ms (ho_elapsed h)); FileLine outputPath;
            SizeLine (formatBytes (dr_TotalSize d))]
      | None, None => mkOutcome Panics []
      end
  end.

(** With what the output path holds in the end, where the command writes it. *)
Definition downloadCmd (fileName outputPath : string) (s : Sys) : outcome * option (string * option bytes) * Sys :=
  if decide (fileName = "") then (fatal "--name is required" None, None, s)
  else
    let outputPath := if decide (outputPath = "") then fileName else outputPath in
    match new_client h cfg s with
    | Err e => (fatal "Failed to create client" (Some e), None, s)
    | Ok (c, cl) =>
        let '(r, progress, cl') :=
          sdk_Download (metadata c) (storage c) amb c (ho_disk h outputPath) fileName (ho_before h outputPath)
            (ho_downloads h) (ho_schedule h) cl in
        let report := download_report outputPath r in
        (mkOutcome (oc_exit report) (Downloading fileName outputPath :: (download_line <$> progress) ++ oc_lines report),
         match r with Returns r => Some (outputPath, dl_output r) | _ => None end, cl_sys cl')
    end.

Definition listCmd (pre : string) (s : Sys) : outcome * Sys :=
  match new_client h cfg s with
  | Err e => (fatal "Failed to create client" (Some e), s)
  | Ok (c, cl) =>
      match sdk_List (metadata c) pre cl with
      | (Err e, cl') => (fatal "List failed" (Some e), cl_sys cl')
      | (Ok [], cl') => (mkOutcome (Returns 0%Z) [NoFilesFound], cl_sys cl')
      | (Ok files, cl') =>
          (mkOutcome (Returns 0%Z) (TableRow ["FILE ID"; "NAME"; "SIZE"; "CHUNKS"] ::
             TableRow ["-------"; "----"; "----"; "------"] :: (file_row <$> files)), cl_sys cl')
      end
  end.

Definition deleteCmd (fileID : string) (s : Sys) : outcome * Sys :=
  if decide (fileID = "") then (fatal "--id is required" None, s)
  else
    match new_client h cfg s with
    | Err e => (fatal "Failed to create client" (Some e), s)
    | Ok (c, cl) =>
        match sdk_Delete (metadata c) fileID cl with
        | (Some e, cl') => (fatal "Delete failed" (Some e), cl_sys cl')
        | (None, cl') => (mkOutcome (Returns 0%Z) [FileDeleted fileID], cl_sys cl')
        end
    end.
End commands.

(** ** The process *)

(** A command with the values of its flags; a flag that is not given is empty. *)
Inductive command :=
| UploadC (file name : string)
| DownloadC (name out : string)
| ListC (pre : string)
| DeleteC (id : string).

(** What cobra makes of the arguments: an error, its own help text, or a command. *)
Inductive invocation := Refused | ShowsHelp | Runs (c : command).

Section process.
Context `{!Env, !MapRange, !GoSort} (src tgt : PlacementStrategy) (rf : Z) (leader : string) (net : Net).
Context (p : Policy) (amb : Ambient) (execute : list string → invocation).

Definition main (env : string → string) (h : Host) (args : list string) (s : Sys) (ms : Manifests)
    : outcome * option (string * option bytes) * Sys * Manifests :=
  let cfg := LoadFromEnv env in
  match execute args with
  | Refused => (mkOutcome (Returns 1%Z) [], None, s, ms)
  | ShowsHelp => (mkOutcome (Returns 0%Z) [], None, s, ms)
  | Runs (UploadC file name) =>
      let '(o, s', ms') := uploadCmd src tgt rf leader net p amb h cfg file name s ms in (o, None, s', ms')
  | Runs (DownloadC name out) =>
      let '(o, w, s') := downloadCmd src tgt rf leader net p amb h cfg name out s in (o, w, s', ms)
  | Runs (ListC pre) => let '(o, s') := listCmd src tgt rf leader net amb h cfg pre s in (o, None, s', ms)
  | Runs (DeleteC id) => let '(o, s') := deleteCmd src tgt rf leader net amb h cfg id s in (o, None, s', ms)
  end.
End process.

(** ** Sizes and percentages *)

Lemma unit_close n k :
  (0 < k ≤ 52 → 2 ^ k ≤ n < 2 ^ 53 →
   let h := hundredths (fl_div (fl_of_int n) (fl_of_int (2 ^ k))) in 2 * Z.abs (h * 2 ^ k - 100 * n) ≤ 2 ^ k)%Z.
Proof.
  intros Hk Hn h. pose proof (fl_div_pow2 n k Hk Hn) as Hx. cbv zeta in Hx. subst h.
  set (x := fl_div (fl_of_int n) (fl_of_int (2 ^ k))) in *.
  pose proof (hundredths_close x) as Hc. pose proof (fl_den_pos x). pose proof (Z.pow_pos_nonneg 2 k).
  set (h := hundredths x) in *. set (u := (2 ^ k)%Z) in *.
  assert (Hscaled : (2 * Z.abs (h * u - 100 * n) * fl_den x ≤ u * fl_den x)%Z); [|nia].
  replace (2 * Z.abs (h * u - 100 * n) * fl_den x)%Z with (2 * Z.abs (h * fl_den x - fl_num x * 100) * u)%Z; [nia|].
  rewrite <-(Z.abs_eq u) at 1 by lia. rewrite <-(Z.abs_eq (fl_den x)) at 2 by lia.
  rewrite <-!Z.mul_assoc, <-!Z.abs_mul. f_equal. f_equal. nia.
Qed.

Definition units : list (Z * string) := [(KB, " KB"); (MB, " MB"); (GB, " GB")].

(** A size is shown in the largest unit it fills, to the nearest hundredth: below a
    kilobyte in bytes, otherwise as [h] hundredths of the unit where [h] is at most half a
    hundredth off, at least 1.00 and, unless the unit is the gigabyte, at most 1024.00. *)
Theorem format_bytes_close (n : Z) :
  (0 ≤ n < 2 ^ 53)%Z →
  ((n < KB)%Z ∧ formatBytes n = pretty n +:+ " B") ∨
  ∃ u name h, (u, name) ∈ units ∧ (u ≤ n)%Z ∧ formatBytes n = decimal2 h +:+ name ∧
    (2 * Z.abs (h * u - 100 * n) ≤ u)%Z ∧ (100 ≤ h)%Z ∧ (u = GB ∨ n < 1024 * u ∧ h ≤ 102400)%Z.
Proof.
  intros Hn. unfold formatBytes.
  assert (Hunit : ∀ u name k, (u, name) ∈ units → u = (2 ^ k)%Z → (0 < k ≤ 52)%Z → (u ≤ n)%Z → (u = GB ∨ n < 1024 * u)%Z →
    ∃ u' name' h, (u', name') ∈ units ∧ (u' ≤ n)%Z ∧
      fmt_2f (fl_div (fl_of_int n) (fl_of_int u)) +:+ name = decimal2 h +:+ name' ∧
      (2 * Z.abs (h * u' - 100 * n) ≤ u')%Z ∧ (100 ≤ h)%Z ∧ (u' = GB ∨ n < 1024 * u' ∧ h ≤ 102400)%Z).
  { intros u name k Hin Hu Hk Hle Hmax. exists u, name, (hundredths (fl_div (fl_of_int n) (fl_of_int u))).
    pose proof (unit_close n k Hk ltac:(lia)) as Hc. rewrite <-Hu in Hc. cbv zeta in Hc.
    pose proof (Z.pow_pos_nonneg 2 k). split_and!; [done|done|done|done|nia|].
    destruct Hmax; [by left|right; nia]. }
  destruct (decide (GB ≤ n)%Z); [right; apply (Hunit GB " GB" 30%Z); [set_solver|done|lia|done|unfold GB, MB, KB in *; lia]|].
  destruct (decide (MB ≤ n)%Z); [right; apply (Hunit MB " MB" 20%Z); [set_solver|done|lia|done|unfold GB, MB, KB in *; lia]|].
  destruct (decide (KB ≤ n)%Z); [right; apply (Hunit KB " KB" 10%Z); [set_solver|done|lia|done|unfold GB, MB, KB in *; lia]|].
  left. split; [lia|done].
Qed.

Lemma format_bytes_close_witness :
  formatBytes 0 = "0 B" ∧ formatBytes 1023 = "1023 B" ∧ formatBytes 1536 = "1.50 KB" ∧ formatBytes 1048575 = "1024.00 KB" ∧
  formatBytes 5000000 = "4.77 MB" ∧
  ∃ u name h, (u, name) ∈ units ∧ (u ≤ 5000000)%Z ∧ formatBytes 5000000 = decimal2 h +:+ name ∧
    (2 * Z.abs (h * u - 100 * 5000000) ≤ u)%Z ∧ (100 ≤ h)%Z ∧ (u = GB ∨ 5000000 < 1024 * u ∧ h ≤ 102400)%Z.
Proof.
  do 5 (split; [vm_compute; reflexivity|]).
  destruct (format_bytes_close 5000000 ltac:(lia)) as [[Hlt _]|Hu]; [unfold KB in Hlt; lia|exact Hu].
Defined.

(** The quotient of two counts, the first at most the second, as a percentage. *)
Lemma percent_bounds done0 total :
  (0 ≤ done0 ≤ total → 0 < total < 2 ^ 53 →
   let x := fl_mul (fl_div (fl_of_int done0) (fl_of_int total)) (fl_of_int 100) in
   0 ≤ fl_num x ≤ 100 * fl_den x ∧ (done0 = total → fl_num x = 100 * fl_den x))%Z.
Proof.
  intros Hd Ht. unfold fl_mul, fl_div.
  rewrite (fl_of_int_exact done0), (fl_of_int_exact total), (fl_of_int_exact 100) by lia.
  pose proof (fl_den_pos (fl_of_int done0)) as D1. pose proof (fl_den_pos (fl_of_int total)) as D2.
  pose proof (fl_den_pos (fl_of_int 100)) as D3.
  set (d1 := fl_den (fl_of_int done0)) in *. set (d2 := fl_den (fl_of_int total)) in *. set (d3 := fl_den (fl_of_int 100)) in *.
  set (n := (done0 * d1 * d2)%Z). set (d := (d1 * (total * d2))%Z).
  assert (Hdp : (0 < d)%Z) by (unfold d; nia). assert (Hnd : (0 ≤ n ≤ d)%Z) by (unfold n, d; nia).
  pose proof (scale_of_ge n d 1 Hdp ltac:(lia) ltac:(lia) ltac:(lia)) as Hs.
  pose proof (fl_round_le n d 1 Hdp ltac:(lia) ltac:(lia)) as Hle.
  pose proof (fl_round_ge n d 0 Hdp ltac:(lia) ltac:(lia)) as Hge.
  assert (Hone : (done0 = total → d ≤ n)%Z) by (intros ->; unfold n, d; nia).
  pose proof (λ H : (d ≤ n)%Z, fl_round_ge n d 1 Hdp ltac:(lia) ltac:(lia)) as Hone'.
  pose proof (fl_den_pos (fl_round n d)) as D4. set (q := fl_round n d) in *.
  set (n' := (fl_num q * (100 * d3))%Z). set (d' := (fl_den q * d3)%Z).
  assert (Hdp' : (0 < d')%Z) by (unfold d'; nia).
  assert (Hnd' : (0 ≤ n' ≤ 100 * d')%Z) by (unfold n', d'; nia).
  pose proof (scale_of_ge n' d' 7 Hdp' ltac:(lia) ltac:(lia) ltac:(lia)) as Hs'.
  pose proof (fl_round_le n' d' 100 Hdp' ltac:(lia) ltac:(lia)).
  pose proof (fl_round_ge n' d' 0 Hdp' ltac:(lia) ltac:(lia)).
  cbv zeta. split; [lia|]. intros Heq. apply Z.le_antisymm; [done|].
  apply fl_round_ge; [done| |lia]. specialize (Hone' (Hone Heq)). unfold n', d'. nia.
Qed.

(** C23. What the user sees of an upload's progress.  However the callbacks of the chunks
    interleave, every chunk is reported exactly once, with its outcome; the bytes done are
    never negative and exceed the size of the file by at most one chunk for each other
    upload that runs in parallel.  With one upload at a time, or in any report that does not
    exceed the size, the percentage printed lies between 0.0 and 100.0, with every rounding
    of [float64], and it is 100.0 when the bytes done are all bytes. *)
Theorem upload_percent_bounded (chunkSize totalBytes : Z) (slots : nat) (schedule : list nat) (events : list progress_event) :
  (0 < chunkSize)%Z → (0 ≤ totalBytes < 2 ^ 53)%Z → (totalBytes + chunkSize * Z.of_nat (length events) < two63)%Z → 0 < slots →
  let reports := upload_progress chunkSize totalBytes slots schedule events in
  (λ info, (pi_ChunkIndex info, pi_Err info)) <$> reports ≡ₚ events ∧
  ∀ info, info ∈ reports →
    (0 ≤ pi_BytesDone info ≤ totalBytes + chunkSize * Z.of_nat (slots - 1))%Z ∧
    (slots = 1 ∨ (pi_BytesDone info ≤ totalBytes)%Z → (0 ≤ tenths (Percent info) ≤ 1000)%Z) ∧
    (pi_BytesDone info = totalBytes → (0 < totalBytes)%Z → fmt_1f (Percent info) = "100.0").
Proof.
  intros Hc Ht Hw Hs reports. split; [by apply run_reports|]. intros info Hin.
  destruct (upload_progress_bounded chunkSize totalBytes slots events Hc (proj1 Ht) Hw schedule info Hin) as [Htot Hdone].
  unfold most in Hdone. split; [done|]. unfold Percent. rewrite Htot.
  destruct (decide (totalBytes = 0)%Z) as [->|Hz]; [by split; [|lia]|].
  assert (Hpct : (pi_BytesDone info ≤ totalBytes)%Z → _) by
    exact (λ H, percent_bounds (pi_BytesDone info) totalBytes (conj (proj1 Hdone) H) ltac:(lia)).
  cbv zeta in Hpct. split.
  - intros Hle. destruct Hpct as [[H0 H1] _]; [destruct Hle as [->|]; [simpl in Hdone; lia|done]|].
    split; [apply (tenths_ge _ 0); lia|by apply (tenths_le _ 100)].
  - intros Hall Hpos. destruct Hpct as [[H0 H1] H2]; [lia|]. specialize (H2 Hall). unfold fmt_1f.
    replace (tenths _) with 1000%Z; [reflexivity|]. apply Z.le_antisymm; [|by apply (tenths_le _ 100)].
    apply (tenths_ge _ 100). by rewrite H2.
Qed.

(** Two uploads in parallel; the second one fails, and its report shows what the first has
    done so far. *)
Definition w_events : list progress_event := [(0%Z, None); (2%Z, Some EOF); (1%Z, None); (3%Z, None)].
Definition w_reports : list ProgressInfo := upload_progress 65536 200000 2 [0; 1; 1; 0; 1; 2; 2; 2; 0; 0; 2; 3] w_events.

Lemma upload_percent_bounded_witness :
  (fmt_1f ∘ Percent) <$> w_reports = ["32.8"; "65.5"; "65.5"; "98.3"] ∧
  (λ info, (pi_ChunkIndex info, pi_Err info)) <$> w_reports ≡ₚ w_events ∧
  (0 ≤ tenths (Percent (mkProgressInfo 3 4 196608 200000 None)) ≤ 1000)%Z.
Proof.
  destruct (upload_percent_bounded 65536 200000 2 [0; 1; 1; 0; 1; 2; 2; 2; 0; 0; 2; 3] w_events) as [Hp Hall];
    [lia|lia|vm_compute; reflexivity|lia|].
  split_and!; [vm_compute; reflexivity|exact Hp|apply (Hall (mkProgressInfo 3 4 196608 200000 None))..].
  - apply (list_elem_of_lookup_2 _ 3). vm_compute. reflexivity.
  - right. cbn. lia.
  - apply (list_elem_of_lookup_2 _ 3). vm_compute. reflexivity.
  - right. cbn. lia.
Defined.

(** ** A file through two processes *)

(** What a new client knows: the checks of the configuration held, and it is connected to
    the first address when that can be dialled. *)
Lemma new_client_ok h cfg s c cl :
  new_client h cfg s = Ok (c, cl) → c = cfg ∧ cl_sys cl = s ∧ Validate cfg = None.
Proof.
  unfold new_client, New. cbn [foldl]. change (apply_option DefaultConfig (WithConfig cfg)) with cfg. case_decide; [done|]. destruct (Validate cfg) eqn:Hv; [done|].
  destruct (NewGRPCClient (ho_dial h) (cfg_MetadataAddrs cfg)) as [cache|e] eqn:Hc; cbn [res_bind];
    [|discriminate]. rewrite Hc. cbn [res_bind]. by intros [= <- <-].
Qed.

Lemma new_client_dials h cfg s a rest :
  Validate cfg = None → cfg_MetadataAddrs cfg = a :: rest → ho_dial h a = None →
  ∃ cl, new_client h cfg s = Ok (cfg, cl) ∧ cl_sys cl = s ∧ conn (cl_cache cl) = Some a.
Proof.
  intros Hv Ha Hd. assert (Hc : NewGRPCClient (ho_dial h) (cfg_MetadataAddrs cfg) = Ok (mkLeaderCache a (a :: rest) 0 (Some a))).
  { unfold NewGRPCClient, New_client. rewrite Ha. cbn [connect]. unfold Update. rewrite Hd.
    rewrite decide_False; [done|]. intros [_ []]. done. }
  unfold new_client, New. cbn [foldl]. change (apply_option DefaultConfig (WithConfig cfg)) with cfg. rewrite decide_False by (by rewrite Ha). rewrite Hv, Hc. cbn [res_bind].
  rewrite Hc. cbn [res_bind]. by eexists.
Qed.

(** A download without error has a result to print. *)
Lemma Download_result `{!GoSort} {St} (MC : MetadataClient St) SC amb cfg disk name before order s r s' :
  Download MC SC amb cfg disk name before order s = (Returns r, s') → dl_err r = None → is_Some (dl_result r).
Proof.
  unfold Download. intros Hd He.
  repeat (case_match || case_decide); simplify_eq; (discriminate He || by eexists).
Qed.

(** The bounds that [Validate] sets make every file below 64 TiB cut into countable chunks. *)
Lemma validated_chunkable cfg total :
  Validate cfg = None → (0 ≤ total < 2 ^ 46)%Z →
  ∃ cs : nat, cfg_ChunkSize cfg = Z.of_nat cs ∧ chunkable total (Z.of_nat cs) ∧ (num_chunks total (Z.of_nat cs) < 2 ^ 31)%Z ∧
    (1 ≤ cfg_RetryAttempts cfg)%Z.
Proof.
  intros Hv Ht. unfold Validate in Hv. do 6 (case_decide; [done|]). unfold MinChunkSize, MaxChunkSize in *.
  exists (Z.to_nat (cfg_ChunkSize cfg)). rewrite Z2Nat.id by lia. unfold chunkable. split_and!; [done|lia..| |lia].
  rewrite num_chunks_exact by (unfold chunkable; lia). apply Z.div_lt_upper_bound; lia.
Qed.

Section stored_file.
Context {Env0 : Env} {Range0 : MapRange} {Sort0 : GoSort} (src tgt : PlacementStrategy) {Laws0 : PlacementLaws tgt}.
Context (rf : Z) (leader : string) (p : Policy).

(** What [dfs upload] leaves behind when it exits with status 0. *)
Lemma uploadCmd_stores net amb h cfg path name s ms o s' ms' :
  let file := lf_data (ho_file h path) in
  let stored_name := if decide (name = "") then path else name in
  let R := nodeRegistry (wd_fsm (sy_world s)) in let N := nd_NodeID <$> sy_nodes s in
  (∀ addr, no_faults (disk_io net addr)) → cluster_ok R N → all_disks_ok s →
  (Z.of_nat (length file) < 2 ^ 46)%Z → ho_uuid h ≠ "" → (∀ l, ho_uploads h l ≡ₚ l) →
  NoDup (cd_ChunkID <$> descriptors (ho_uuid h) (length file) (cfg_ChunkSize cfg)) →
  uploadCmd src tgt rf leader net p amb h cfg path name s ms = (o, s', ms') → oc_exit o = Returns 0%Z →
  ∃ cs t, cfg_ChunkSize cfg = Z.of_nat cs ∧ chunkable (Z.of_nat (length file)) (Z.of_nat cs) ∧
    let ids := cd_ChunkID <$> descriptors (ho_uuid h) (length file) (Z.of_nat cs) in
    countable_chunks ids ∧ ids ≠ [] ∧ is_leader = true ∧
    uploading R N (<[ho_uuid h := committed_file (ho_uuid h) stored_name (Z.of_nat (length file)) (Z.of_nat cs) ids t]>
      (fileIndex (wd_fsm (sy_world s)))) (ho_uuid h) ids (chunk_piece cs file) (list_to_set ids) s'.
Proof.
  intros file stored_name R N Hio Hcl Hdisks Hlen Hid Hord Hnd Hrun Hexit. unfold uploadCmd in Hrun.
  case_decide; [injection Hrun as <- _ _; discriminate|]. fold stored_name in Hrun.
  destruct (new_client h cfg s) as [[c cl]|e] eqn:Hnew; [|injection Hrun as <- _ _; discriminate].
  destruct (new_client_ok _ _ _ _ _ Hnew) as (-> & Hsys & Hv).
  destruct (validated_chunkable cfg (Z.of_nat (length file)) Hv ltac:(lia)) as (cs & Hcs & Hsz & Hn & Hretry).
  assert (Hcnt : countable_chunks (descriptors (ho_uuid h) (length file) (Z.of_nat cs))).
  { unfold countable_chunks, descriptors. rewrite length_fmap, length_seq. lia. }
  unfold sdk_Upload in Hrun. destruct (ho_file h path) as [[e|] open data] eqn:Hf; cbn [lf_stat lf_data] in Hrun, file.
  { injection Hrun as <- _ _. discriminate. }
  destruct (Upload _ _ _ _ _ _ _ _ _ cl ms) as [[[r| |] cl1] ms1] eqn:Hup; injection Hrun as <- <- <-;
    [|discriminate Hexit..].
  destruct r as [result [e|] events]; cbn [up_result up_err] in Hexit; [destruct result; discriminate Hexit|].
  rewrite Hcs in Hnd. subst s.
  destruct (upload_stores src tgt rf leader net Hio p cfg amb (ho_manifest_fault h) file cs Hcs Hsz (ho_uuid h) stored_name Hid
    (ho_uploads h) open cl ms _ cl1 ms1 Hnd Hcnt Hord Hcl Hdisks Hup eq_refl) as (t & Hst & _ & Hl & Hne).
  exists cs, t. split_and!; [done|done|by unfold countable_chunks in *; rewrite length_fmap|done..].
Qed.

(** ** Reading it back *)

Context (net : Net) (Hreads : reads_work net) (amb : Ambient) (Hctx : ∀ i, ctx_err amb i = None) (h : Host) (cfg : Config).
Context (Hvalid : Validate cfg = None) (Hconn : head (cfg_MetadataAddrs cfg) = Some leader) (Hdial : ho_dial h leader = None).
Context (Hleader : is_leader = true) (R : gmap string NodeEntry) (N : gmap string string) (F0 : gmap string FileRecord).
Context (fileID name : string) (file : bytes) (cs : nat) (Hsz : chunkable (Z.of_nat (length file)) (Z.of_nat cs)) (t : Time).

Notation ids := (cd_ChunkID <$> descriptors fileID (length file) (Z.of_nat cs)).
Notation record := (committed_file fileID name (Z.of_nat (length file)) (Z.of_nat cs) ids t).
Notation stored s := (uploading R N (<[fileID := record]> F0) fileID ids (chunk_piece cs file) (list_to_set ids) s).

Lemma connected s : ∃ cl, new_client h cfg s = Ok (cfg, cl) ∧ cl_sys cl = s ∧ conn (cl_cache cl) = Some leader.
Proof.
  destruct (cfg_MetadataAddrs cfg) as [|a rest] eqn:Ha; [done|]. injection Hconn as ->.
  by apply (new_client_dials h cfg s leader rest).
Qed.

Lemma downloadCmd_writes out s :
  (∀ k f, F0 !! k = Some f → fr_Filename f = name → fr_Status f ≠ FileStatusComplete) →
  countable_chunks ids → ids ≠ [] → name ≠ "" → (0 < cfg_MaxParallelDownloads cfg)%Z → (∀ l, ho_downloads h l ≡ₚ l) →
  let path := if decide (out = "") then name else out in
  output_works (ho_disk h path) → stored s →
  ∃ o s', downloadCmd src tgt rf leader net p amb h cfg name out s = (o, Some (path, Some file), s') ∧ oc_exit o = Returns 0%Z.
Proof.
  intros Huniq Hcnt Hne Hname Hsem Hord path Hdisk Hst. unfold downloadCmd. rewrite decide_False by done. fold path.
  destruct (connected s) as (cl & -> & Hs & Hc). unfold sdk_Download. rewrite <-Hs in Hst.
  destruct (validated_chunkable cfg 0 Hvalid ltac:(lia)) as (_ & _ & _ & _ & Hretry).
  assert (Hcnt' : countable_chunks (descriptors fileID (length file) (Z.of_nat cs)))
    by (unfold countable_chunks in *; by rewrite length_fmap in Hcnt).
  destruct (download_stored src tgt rf leader net Hreads p cfg amb Hctx Hretry file cs Hsz fileID name R N F0 Huniq (ho_disk h path)
    (ho_before h path) (ho_downloads h) t cl Hdisk Hord Hcnt' Hne Hsem Hst Hc Hleader) as (r & cl' & Hrun & Herr & Hout).
  destruct (Download_result _ _ _ _ _ _ _ _ _ _ _ Hrun Herr) as [d Hd]. rewrite Hrun.
  eexists _, _. rewrite Hout. split; [reflexivity|]. cbn [oc_exit]. unfold download_report. by rewrite Herr, Hd.
Qed.

(** The row of the file in the table of [dfs list]. *)
Lemma listCmd_shows pre s :
  (pre = "" ∨ String.prefix pre name = true) → stored s →
  ∃ o s', listCmd src tgt rf leader net amb h cfg pre s = (o, s') ∧ oc_exit o = Returns 0%Z ∧
    TableRow [fileID; name; formatBytes (Z.of_nat (length file)); pretty (Z.of_nat (length ids))] ∈ oc_lines o.
Proof.
  intros Hpre Hst. unfold listCmd. destruct (connected s) as (cl & -> & Hs & Hc).
  destruct (validated_chunkable cfg 0 Hvalid ltac:(lia)) as (_ & _ & _ & _ & Hretry).
  unfold sdk_List, service_ListFiles. cbn [mc_ListFiles system_metadata GRPCClient]. unfold grpc_ListFiles, client_invoke.
  erewrite invoke_direct; [|done|apply (rw_meta _ Hreads)|apply Hctx|done|done|reflexivity]. rewrite Hs.
  set (files := sdk_file <$> _).
  assert (Hin : sdk_file (protoToFileInfo (file_info record)) ∈ files).
  { unfold files. do 2 apply list_elem_of_fmap_2. apply list_elem_of_filter. split; [done|].
    apply list_elem_of_fmap_2, list_elem_of_filter. split; [done|]. unfold ListFiles. rewrite (go_sort_perm filename_less).
    apply list_elem_of_filter. split; [by destruct name|]. apply elem_of_range_values. exists fileID.
    by rewrite (ul_files _ _ _ _ _ _ _ _ Hst), lookup_insert_eq. }
  assert (Hrow : file_row (sdk_file (protoToFileInfo (file_info record))) =
    TableRow [fileID; name; formatBytes (Z.of_nat (length file)); pretty (Z.of_nat (length ids))]).
  { destruct Hsz as (? & ? & ?). unfold file_row. cbn. do 4 f_equal. rewrite to_uint64_id by (unfold is_uint64, two64; lia).
    by rewrite to_int64_id by (unfold is_int64, two63; lia). }
  rewrite <-Hrow. destruct files as [|f files']; [by apply not_elem_of_nil in Hin|].
  eexists _, _. split; [reflexivity|]. split; [done|]. cbn [oc_lines]. do 2 right. by apply list_elem_of_fmap_2.
Qed.
End stored_file.


(** A file of five bytes, uploaded through a network that loses a call and breaks a stream. *)
Definition w_environ (key : string) : string :=
  if decide (key = "METADATA_ADDRS") then "m1:1" else if decide (key = "CHUNK_SIZE") then "65536" else "".
Definition w_host : Host :=
  mkHost (λ _, mkLocalFile None None w_file) (λ _, good_output) (λ _, None) (λ _, None) (λ _, None) 1500000%Z "f" reverse reverse [].
Definition w_execute (args : list string) : invocation :=
  match args with
  | ["upload"; "--file"; f] => Runs (UploadC f "")
  | ["download"; "--name"; f; "--out"; o] => Runs (DownloadC f o)
  | ["list"] => Runs (ListC "")
  | [] => ShowsHelp
  | _ => Refused
  end.
Definition w_main (net : Net) (args : list string) (s : Sys) : outcome * option (string * option bytes) * Sys * Manifests :=
  @main demo_Env _ _ MostFreeSpaceStrategy MostFreeSpaceStrategy 2 "m1:1" net DefaultPolicy calm w_execute w_environ w_host args s
    (mkManifests ∅ 0).

